(* ===== verification/_CoqProject ===== *)
-Q . S2P
Prelude.v
Text.v
Float64.v
FloatText.v
FloatTrip.v
Json.v
Events.v
Auth.v
Limits.v
FloatError.v
RateWindow.v
Plugin.v
Config.v
Provider.v
OpenAi.v
Azure.v
Sse.v
Anthropic.v
StreamEnd.v
StreamObserver.v
SigV4.v
Bedrock.v
Registry.v
Cache.v
Tls.v
Wasm.v
PiiGuest.v
Runtime.v
Connectors.v
Schema.v
Proxy.v
Billing.v
Replay.v
ControlMap.v
LinkStatus.v
ControlNode.v
ControlSync.v
Admin.v
System.v
SystemInvariants.v
Metering.v
Inflight.v
Concurrency.v
Ledger.v
Admissions.v
Background.v
Provenance.v
Refusals.v
Isolation.v
Overshoot.v
Failover.v
Lifecycle.v
Telemetry.v
Ctl.v
CtlAdmin.v
