(* ===== verification/Prelude.v ===== *)
(** * VaultPlane Gateway: verification development

    A model of the VaultPlane Gateway (Rust, [src/crates]): an OpenAI-compatible
    proxy with virtual keys, rate limits, budgets, request plugins, a response
    cache, provider failover and streaming, an admin API, a Control Node client and
    an operator CLI. Definitions keep the names of the source; a struct is a
    [Record] in a [Module] of its name, a method a definition beside it.

    ** How the program is modelled

    - Integers of the source are [Z] with their wrap-around or saturation written
      out ([wrap_u32], [sat_mul_u64], ...); [f64] is executable IEEE binary64
      ([Float64]); strings are byte strings; JSON is [Json.Value].
    - Fallible code returns [result]; [anyhow] chains are lists of messages.
    - A handler is a computation [M S A] over the state it may touch: [W] over the
      [World] (network, clock, trace of audit events, metrics and span fields), [G]
      over the [Gateway] (world, caches, keys, limiter, spend, runtime, TLS), [N]
      over a Control Node client's [Node], [App] over the admin API's [AppState],
      and the CLI's over its [Terminal]. A panic is [None].
    - Code outside [src] is a class of operations: [SerdeJson] and the derived
      deserialisers ([AnthropicSerde], [BedrockSerde], [MetaSerde],
      [ControlCrates], [AdminCrates], [CtlCrates]), [Reqwest], [Crypto], [Entropy],
      [TimeCrate], [RegexCrate], [Moka], [Rustls], [Wasmtime], [Config.Figment],
      [Env], [HashOrder] (the iteration order of hash maps), [Addresses], [Sockets]. What the
      code relies on is a class of laws ([Base64Laws], [MokaLaws]); every property
      that needs one has a witness with a concrete instance.
    - A streamed body is the list of what polling it yields, pauses and errors
      included; stream adapters are poll functions.

    ** The files

    Foundations: [Prelude] (results, state-passing computations, integers, maps,
    tactics), [Text] (string methods), [Float64], [FloatError], [FloatText] and
    [FloatTrip] ([f64] arithmetic, its rounding errors, parsing and printing, and that
    what is printed reads back), [Json], [Events] ([audit.rs], metric names).

    [vaultplane-core]: [Auth] and [Limits] ([auth.rs]: keys, store, token buckets,
    spend), [RateWindow] (what a bucket admits over time), [Plugin] and [Wasm] ([plugin.rs], [plugin/wasm.rs]), [Config]
    ([config.rs]), [Provider] ([provider.rs], [cost.rs], the [World]), the
    connectors [OpenAi], [Azure], [Anthropic], [Bedrock] with [SigV4] and [Sse],
    [StreamObserver], [Registry] (failover), [Cache].

    [vaultplane]: [Tls], [Runtime] ([runtime.rs] and the [Gateway] state), [Proxy]
    ([proxy.rs]), [ControlMap], [LinkStatus], [ControlNode] ([control_plane/]),
    [Admin] ([admin.rs]), [System] ([main.rs]: start-up, background tasks, and the
    step relation of the process).

    [vaultplane-ctl]: [Ctl]. [plugins/pii-redaction] and the SDK: [PiiGuest].

    Concurrency: [Inflight] cuts the proxy's handlers at their awaits into a state
    machine ([Stage], [resume]), and [Concurrency] is the process of [System] with
    any number of such requests, and of streamed bodies on their way out ([Process],
    [happens]): a step starts a request, runs one segment of one, polls a body, drops
    a connection, or is any other action of the process.
    [Lifecycle] puts the listeners, the server tasks, the shutdown task and the join
    of [main.rs] around it ([Life], [pass]). [Telemetry] is [telemetry.rs] and the
    whole of [main] around that.

    Theorems across components: [Connectors] (the contract of a connector as
    classes, with an instance for each), [Schema] (the answers of the translated
    providers against types of the OpenAI schema), [StreamEnd], [Billing] (what one request is
    charged, from the handler to the end of its stream), [Replay] (cache and proxy),
    [ControlSync] (the poll loop over time), [SystemInvariants] and [Metering]
    (what one action of the process does), [Ledger] and [Admissions] (the spend
    tracker and the rate limiter of the running process, as books), [Background]
    (what any event may do to the gateway, move by move, as an interface for relations
    on it), [Provenance] (a request in flight against the history of the process),
    [Refusals] (the middleware and the guards as a decision),
    [Isolation] (what the caches hold against that history), [Overshoot] (what a used-up
    budget may still be charged), [Failover] (an upstream call in terms of the
    configuration and the audit trail), [CtlAdmin] (the CLI
    against the admin API).

    ** What the theorems show

    - Admission: nothing reaches a provider, and no key is charged, unless the
      middleware, the model scope, the budget and the plugins let the request through
      ([Proxy.upstream_only_if_admitted] for a request alone, [Provenance] under every
      interleaving); and every request is let through or refused, for one reason,
      with its answer, its metric and its audit event ([Refusals]).
    - The process, under every interleaving of requests in flight: an invariant of
      every reachable state, an append-only audit trail, and request metrics that
      count every answered request once ([Concurrency]); the spend is that of the
      entries made, each request at most one ([Ledger]); the requests of a key that
      pass in a stretch of time are bounded by its rate ([Admissions]); a budget is
      overdrawn only by the requests under way when it runs out, each once
      ([Overshoot]); who may change keys, runtime and TLS, which is anyone who reaches
      the admin API when no admin token is configured ([Concurrency]); the admin
      token's gate and the life of a key ([Admin]), also as the CLI sees it ([CtlAdmin]).
    - The end of the process: a shutdown drains, or is forced at its deadline
      ([Lifecycle]), and then the exporters are not closed ([Telemetry]).
    - A request under way: the cut at the awaits is the handler, a request ends
      within six segments, and reloads, revocations and certificate rotations do
      not reach it ([Inflight]).
    - Configuration: reloads are atomic ([Runtime]), the Control Node cannot take
      the data plane down ([ControlNode]), what its bundles overlay ([ControlMap]),
      the link's state machine ([LinkStatus]), recovery of the poll loop after an outage,
      as long as nothing else changes the gateway ([ControlSync]).
    - Answers: failover, which routes are asked, why each next one, and what is answered
      ([Registry] for the registry alone, [Failover] in the running gateway); what a
      client of a translated provider reads ([Schema]); replay from the
      cache ([Replay], [Cache]), to the requests of the same virtual key only, under
      every interleaving ([Isolation]); translation of Anthropic streams, chunk by chunk
      and to its end ([Anthropic], [StreamEnd], [Sse]), observation of streamed usage
      ([StreamObserver]), a request charged once, buffered or streamed, under any
      configuration ([Billing]), signatures ([Bedrock], [SigV4]).
    - Limits: token buckets ([Limits], [RateWindow], in the arithmetic of the code:
      [FloatError]) and spend against a ledger ([Limits]).
    - The CLI: a spend limit it prints is a specifier it accepts for the same limit
      ([Ctl], by [FloatTrip]: every printed double is read as itself).
    - Plugins: what redaction may change ([Plugin]), the circuit breaker ([Wasm]),
      guest and built-in agree ([PiiGuest]).
    - What the code does that it should not, as theorems: a budget checked before
      anything is reserved ([Inflight]), a proxy listener whose failure goes
      unnoticed ([Lifecycle]), a cache entry shared by two endpoints
      ([Replay]), an empty key store that opens the proxy ([Admin]),
      a reload that masks a bundle ([ControlSync]), a streamed answer that is free when
      the client hangs up before its usage ([Ledger]), a dropped expiry ([Ctl]), a
      week split at New Year ([Limits]), a wedged parser ([Sse]), a panic and an
      overflow ([Anthropic]).

    ** Fuel and bounds

    The SSE parser's loops are bounded by the length of the buffer, which every
    event shortens; the observer's scan likewise. [StreamEnd] shows the translated
    stream ends within an explicit number of polls. [FloatText] searches 17
    significant digits, which distinguish every double ([FloatTrip.display_digits]). The other recursions are
    structural, the Control Node loop by the number of rounds.

    ** Not modelled

    Requests interleave at their awaits; the code between two awaits is one step,
    and so is an upstream call with its failovers, which touches nothing but the
    network, the clock and the trace. Threads that run such segments in parallel
    meet only at single locked operations and are not modelled further. [Proxy.handle]
    as one action of [System] is the case without interleaving. Accepting
    connections and draining them is the server library's: what it documents of a
    graceful server is a hypothesis ([Lifecycle.obeys]).
    What the OpenTelemetry libraries do with spans, the installation of the metrics
    recorder and ordinary log lines have no state the rest depends on. Argument parsing, routing tables' matching
    and the printing of JSON bodies belong to the libraries. *)

From stdpp Require Export base tactics option list strings gmap pretty.
From Stdlib Require Export ZArith Lia.
From Stdlib Require Export Strings.Byte Strings.Ascii.

Declare Scope vp_scope.
Delimit Scope vp_scope with vp.
#[global] Open Scope vp_scope.

(** ** Results

    [Result<A, E>]: the error type comes first, so that [result E] is the
    monad the [?] operator works in. *)
Inductive result (E A : Type) : Type :=
| Ok (a : A)
| Err (e : E).
Arguments Ok {E A} a.
Arguments Err {E A} e.

#[export] Instance result_ret E : MRet (result E) := λ A a, Ok a.
#[export] Instance result_bind E : MBind (result E) := λ A B f r,
  match r with Ok a => f a | Err e => Err e end.
#[export] Instance result_fmap E : FMap (result E) := λ A B f r,
  match r with Ok a => Ok (f a) | Err e => Err e end.
Lemma result_fmap_ok {E A B} (f : A → B) (r : result E A) b :
  f <$> r = Ok b → ∃ a, r = Ok a ∧ f a = b.
Proof. destruct r as [a|e]; [|done]. intros [= <-]. by exists a. Qed.

Definition map_err {E E' A} (f : E → E') (r : result E A) : result E' A :=
  match r with Ok a => Ok a | Err e => Err (f e) end.
Definition ok_or {E A} (e : E) (o : option A) : result E A :=
  match o with Some a => Ok a | None => Err e end.
Definition result_ok {E A} (r : result E A) : option A :=
  match r with Ok a => Some a | Err _ => None end.
Definition is_ok {E A} (r : result E A) : bool :=
  match r with Ok _ => true | Err _ => false end.

(** ** State-passing computations

    A handler is a function from the state it may touch to its result and the
    state it leaves; [x ← c; k] sequences two of them. *)
Definition M (S A : Type) : Type := S → A * S.
#[export] Instance M_ret S : MRet (M S) := λ A a s, (a, s).
#[export] Instance M_bind S : MBind (M S) := λ A B f c s,
  let '(a, s') := c s in f a s'.
#[export] Instance M_fmap S : FMap (M S) := λ A B f c s,
  let '(a, s') := c s in (f a, s').

Definition get_state {S} : M S S := λ s, (s, s).
Definition put_state {S} (s' : S) : M S () := λ _, ((), s').
Definition modify {S} (f : S → S) : M S () := λ s, ((), f s).
Definition gets {S A} (f : S → A) : M S A := λ s, (f s, s).
Definition when {S} (b : bool) (c : M S ()) : M S () := if b then c else mret ().

(** Run a computation on a component of the state. *)
Definition zoom {S T A} (get : S → T) (set : T → S → S) (c : M T A) : M S A :=
  λ s, let '(a, t) := c (get s) in (a, set t s).

(** An early return through [?]: the rest runs only on success. *)
Definition try_ {S E A B} (r : result E A) (k : A → M S (result E B)) : M S (result E B) :=
  match r with Ok a => k a | Err e => mret (Err e) end.
Definition try_m {S E A B} (c : M S (result E A)) (k : A → M S (result E B)) : M S (result E B) :=
  r ← c; try_ r k.

Definition exec {S A} (c : M S A) (s : S) : S := (c s).2.
Definition eval {S A} (c : M S A) (s : S) : A := (c s).1.

Lemma M_bind_eq {S A B} (c : M S A) (f : A → M S B) s :
  (c ≫= f) s = f (eval c s) (exec c s).
Proof. unfold mbind, M_bind, eval, exec. by destruct (c s). Qed.

Lemma run_pair {S A} (c : M S A) s a : (c s).1 = a → c s = (a, (c s).2).
Proof. intros <-. apply surjective_pairing. Qed.

(** ** Machine integers: a [w]-bit unsigned integer is the [Z] it denotes. *)
Definition u16_max : Z := 65535.
Definition u32_max : Z := 4294967295.
Definition u64_max : Z := 18446744073709551615.
Definition wrap_u32 (z : Z) : Z := z mod 4294967296.
Definition wrap_u64 (z : Z) : Z := z mod 18446744073709551616.
Definition in_u16 (z : Z) : Prop := (0 ≤ z ≤ u16_max)%Z.
Definition in_u32 (z : Z) : Prop := (0 ≤ z ≤ u32_max)%Z.
Definition in_u64 (z : Z) : Prop := (0 ≤ z ≤ u64_max)%Z.
(** [u32::saturating_add(1)]. *)
Definition sat_succ_u32 (z : Z) : Z := Z.min (z + 1) u32_max.
(** [u64::saturating_mul]. *)
Definition sat_mul_u64 (a b : Z) : Z := Z.min (a * b) u64_max.

Lemma wrap_u32_in z : in_u32 (wrap_u32 z).
Proof. unfold in_u32, wrap_u32, u32_max. pose proof (Z.mod_pos_bound z 4294967296). lia. Qed.
Lemma wrap_u32_id z : in_u32 z → wrap_u32 z = z.
Proof. unfold in_u32, wrap_u32, u32_max. intros. rewrite Z.mod_small; lia. Qed.
Lemma sat_succ_u32_in z : in_u32 z → in_u32 (sat_succ_u32 z).
Proof. unfold in_u32, sat_succ_u32, u32_max. lia. Qed.

(** ** Bytes and strings: a [str] is its UTF-8 bytes. *)
Abbreviation bytes := (list Byte.byte).
#[export] Instance byte_eq_dec : EqDecision Byte.byte := Byte.byte_eq_dec.
Definition as_bytes (s : string) : bytes := String.list_byte_of_string s.
Definition of_bytes (b : bytes) : string := String.string_of_list_byte b.

Lemma of_as_bytes s : of_bytes (as_bytes s) = s.
Proof. apply String.string_of_list_byte_of_string. Qed.
Lemma as_of_bytes b : as_bytes (of_bytes b) = b.
Proof. apply String.list_byte_of_string_of_list_byte. Qed.
#[export] Instance as_bytes_inj : Inj (=) (=) as_bytes.
Proof. intros s t H. by rewrite <-(of_as_bytes s), <-(of_as_bytes t), H. Qed.
Lemma as_bytes_cons a s : as_bytes (String a s) = Ascii.byte_of_ascii a :: as_bytes s.
Proof. done. Qed.
Lemma as_bytes_app s t : as_bytes (s +:+ t) = as_bytes s ++ as_bytes t.
Proof.
  induction s as [|a s IH]; [done|].
  change (String a s +:+ t) with (String a (s +:+ t)).
  by rewrite !as_bytes_cons, IH.
Qed.
Lemma string_app_assoc (s t u : string) : (s +:+ t) +:+ u = s +:+ (t +:+ u).
Proof. apply as_bytes_inj. by rewrite !as_bytes_app, app_assoc. Qed.
Lemma as_bytes_length s : length (as_bytes s) = String.length s.
Proof. induction s as [|a s IH]; [done|]. rewrite as_bytes_cons. cbn. by rewrite IH. Qed.
Lemma as_bytes_nil s : as_bytes s = [] → s = "".
Proof. destruct s; [done|discriminate]. Qed.

(** ** The iteration order of [HashMap]

    [std::collections::HashMap] iterates in an unspecified order that may
    differ between two maps with the same entries; code that searches a map is
    modelled over any order that is a permutation of the entries. *)
Class HashOrder := {
  hm_iter {A} : gmap string A → list (string * A);
  hm_iter_perm {A} (m : gmap string A) : hm_iter m ≡ₚ map_to_list m
}.
#[export] Instance: Params (@hm_iter) 2 := {}.

(** One such order, for evaluating concrete inputs. *)
Definition some_hash_order : HashOrder :=
  {| hm_iter A m := map_to_list m; hm_iter_perm A m := Permutation_refl _ |}.

Lemma elem_of_hm_iter `{HashOrder} {A} (m : gmap string A) k x :
  (k, x) ∈ hm_iter m ↔ m !! k = Some x.
Proof. by rewrite hm_iter_perm, elem_of_map_to_list. Qed.

(** [Iterator::find]. *)
Fixpoint find_first {A} (p : A → bool) (l : list A) : option A :=
  match l with
  | [] => None
  | x :: l => if p x then Some x else find_first p l
  end.

Lemma find_first_Some {A} (p : A → bool) l x :
  find_first p l = Some x → x ∈ l ∧ p x = true.
Proof.
  induction l as [|y l IH]; cbn; [done|]. destruct (p y) eqn:E.
  - intros [= ->]. split; [left|done].
  - intros [??]%IH. split; [by right|done].
Qed.
Lemma find_first_None {A} (p : A → bool) l :
  find_first p l = None ↔ ∀ x, x ∈ l → p x = false.
Proof.
  induction l as [|y l IH]; cbn.
  - split; [|done]. intros _ x []%not_elem_of_nil.
  - destruct (p y) eqn:E.
    + split; [done|]. intros H. specialize (H y). rewrite H in E; [done|left].
    + rewrite IH. split; intros H x; [rewrite elem_of_cons; intros [->|?]; auto|].
      intros ?. apply H. by right.
Qed.

Lemma find_first_app {A} (p : A → bool) l l' :
  find_first p (l ++ l') = match find_first p l with Some x => Some x | None => find_first p l' end.
Proof. induction l as [|x l IH]; cbn; [done|]. by destruct (p x). Qed.

Lemma elem_of_rev {A} (x : A) l : x ∈ rev l ↔ x ∈ l.
Proof. by rewrite !list_elem_of_In, <-in_rev. Qed.

(** Searching a list from its end. *)
Lemma find_first_last {A} (p : A → bool) l x :
  find_first p (rev l) = Some x ↔
  ∃ l1 l2, l = l1 ++ x :: l2 ∧ p x = true ∧ Forall (λ y, p y = false) l2.
Proof.
  induction l as [|y l IH] using rev_ind; cbn.
  - split; [done|]. intros (l1 & l2 & E & _). by destruct l1.
  - rewrite rev_app_distr. cbn. destruct (p y) eqn:E.
    + split; [intros [= ->]; by exists l, []|]. intros (l1 & l2 & El & Hp & Hf).
      destruct l2 as [|z l2 _] using rev_ind.
      * by apply app_inj_tail in El as [_ ->].
      * rewrite app_comm_cons, app_assoc in El. apply app_inj_tail in El as [_ ->].
        apply Forall_app in Hf as [_ [Hz _]%Forall_cons]. congruence.
    + rewrite IH. split; intros (l1 & l2 & El & Hp & Hf).
      * exists l1, (l2 ++ [y]). rewrite El, <-app_assoc. split; [done|]. split; [done|].
        apply Forall_app. auto.
      * destruct l2 as [|z l2 _] using rev_ind.
        { apply app_inj_tail in El as [_ ->]. congruence. }
        rewrite app_comm_cons, app_assoc in El. apply app_inj_tail in El as [-> ->].
        exists l1, l2. apply Forall_app in Hf as [? _]. auto.
Qed.

(** ** Association lists collected into a map: the last binding of a key wins
    ([Iterator::collect] into a [HashMap]). *)
Definition collect_map {A} (l : list (string * A)) : gmap string A :=
  foldl (λ m kx, <[kx.1 := kx.2]> m) ∅ l.

Lemma collect_map_snoc {A} (l : list (string * A)) k x :
  collect_map (l ++ [(k, x)]) = <[k := x]> (collect_map l).
Proof. unfold collect_map. by rewrite foldl_app. Qed.

(** The value the last binding of [k] in [l] gives. *)
Fixpoint last_binding {A} (k : string) (l : list (string * A)) : option A :=
  match l with
  | [] => None
  | (k', x) :: l =>
      match last_binding k l with
      | Some y => Some y
      | None => if decide (k' = k) then Some x else None
      end
  end.

Lemma foldl_insert_lookup {A} (l : list (string * A)) (m : gmap string A) k :
  foldl (λ (m : gmap string A) kx, <[kx.1 := kx.2]> m) m l !! k
  = match last_binding k l with Some y => Some y | None => m !! k end.
Proof.
  revert m. induction l as [|[k' x] l IH]; intros m; cbn; [done|].
  rewrite IH. destruct (last_binding k l); [done|].
  rewrite lookup_insert. case_decide; by simplify_eq.
Qed.

Lemma collect_map_lookup {A} (l : list (string * A)) k :
  collect_map l !! k = last_binding k l.
Proof.
  unfold collect_map. rewrite foldl_insert_lookup, lookup_empty.
  by destruct (last_binding k l).
Qed.

(** With distinct keys every binding is the last of its key. *)
Lemma last_binding_nodup {A} (l : list (string * A)) k x :
  NoDup (l.*1) → last_binding k l = Some x ↔ (k, x) ∈ l.
Proof.
  induction l as [|[k' y] l IH]; intros Hnd; [split; [done|by intros ?%not_elem_of_nil]|].
  apply NoDup_cons in Hnd as [Hni Hnd]. specialize (IH Hnd). cbn. rewrite elem_of_cons.
  destruct (last_binding k l) as [z|] eqn:El.
  - rewrite IH. split; [by right|]. intros [[= -> ->]|?]; [|done]. exfalso. apply Hni.
    assert (∃ z, (k', z) ∈ l) as [w Hw]; [|apply list_elem_of_fmap; by exists (k', w)].
    clear -El. induction l as [|[k x] l IH]; [done|]. cbn in El.
    destruct (last_binding k' l) as [w|]; [|case_decide; subst; [exists x; left|done]].
    destruct IH as [w' ?]; [done|]. exists w'. by right.
  - rewrite <-IH. case_decide as Hk; split; [intros [= ->]; subst; by left| |done|].
    + by intros [[= _ ->]|?].
    + by intros [[= -> _]|?].
Qed.

(** ** Invariants of step relations *)
Lemma rtc_invariant {A} (R : relation A) (P : A → Prop) x y :
  (∀ x y, R x y → P x → P y) → P x → rtc R x y → P y.
Proof. intros Hstep Hx Hr. induction Hr; eauto. Qed.

(** ** Automation

    [vp] holds the facts about maps, integers and results that close routine
    goals; [steps] runs the computation a goal evaluates, step by step, and
    [case_all] splits every test a goal is stuck on. *)
Create HintDb vp.
Create Rewrite HintDb vp.
#[export] Hint Resolve wrap_u32_in sat_succ_u32_in : vp.
#[export] Hint Rewrite @lookup_insert_eq @lookup_delete_eq @lookup_empty
  @wrap_u32_id @of_as_bytes @as_of_bytes : vp.

Ltac steps := repeat (rewrite M_bind_eq; unfold eval, exec; cbn [fst snd]).

(** A computation leaves a part of the state alone. *)
Definition Fixes {S X A} (part : S → X) (c : M S A) : Prop := ∀ s, part (c s).2 = part s.
Section fixes.
Context {S X : Type} (part : S → X).
Lemma Fixes_ret {A} (a : A) : Fixes part (mret a).
Proof. done. Qed.
Lemma Fixes_gets {A} (f : S → A) : Fixes part (gets f).
Proof. done. Qed.
Lemma Fixes_bind {A B} (c : M S A) (k : A → M S B) :
  Fixes part c → (∀ a, Fixes part (k a)) → Fixes part (c ≫= k).
Proof. intros Hc Hk s. rewrite M_bind_eq. unfold eval, exec. by rewrite Hk, Hc. Qed.
Lemma Fixes_fmap {A B} (f : A → B) (c : M S A) : Fixes part c → Fixes part (f <$> c).
Proof. intros Hc s. specialize (Hc s). unfold fmap, M_fmap. by destruct (c s). Qed.
Lemma Fixes_modify (f : S → S) : (∀ s, part (f s) = part s) → Fixes part (modify f).
Proof. intros Hf s. apply Hf. Qed.
Lemma Fixes_try_m {E A B} (c : M S (result E A)) (k : A → M S (result E B)) :
  Fixes part c → (∀ a, Fixes part (k a)) → Fixes part (try_m c k).
Proof. intros Hc Hk. apply Fixes_bind; [done|]. intros [a|e]; [apply Hk|done]. Qed.
End fixes.
Create HintDb fixes discriminated.
#[export] Hint Resolve Fixes_ret Fixes_gets : fixes.

Ltac case_all :=
  repeat (case_match; simplify_eq/=; try done).

(** ** [anyhow::Error]: the chain of contexts, outermost first. *)
Abbreviation anyhow := (list string).
Definition anyhow_msg (s : string) : anyhow := [s].
Definition with_context {A} (s : string) (r : result anyhow A) : result anyhow A :=
  map_err (cons s) r.
(** [Display] shows the outermost context, the alternate form the whole chain. *)
Definition anyhow_display (e : anyhow) : string :=
  match e with s :: _ => s | [] => "" end.
Fixpoint anyhow_chain (e : anyhow) : string :=
  match e with
  | [] => ""
  | [s] => s
  | s :: e => s +:+ ": " +:+ anyhow_chain e
  end.
(** A foreign error as the root of a chain. *)
Definition foreign {A} (r : result string A) : result anyhow A := map_err anyhow_msg r.
