(* ===== verification/Text.v ===== *)
(** * Text: the string operations the gateway uses

    [str] methods ([starts_with], [strip_prefix], [trim], [lines],
    [trim_end_matches], [from_utf8]) on strings seen as their UTF-8 bytes, and
    their lemmas. *)

From S2P Require Import Prelude.

(** ** UTF-8 validation, as [std::str::from_utf8] does it: shortest encodings
    only, no surrogates, nothing above U+10FFFF. *)
Definition byte_in (lo hi : N) (b : Byte.byte) : bool :=
  (lo <=? Byte.to_N b)%N && (Byte.to_N b <=? hi)%N.
Definition is_cont : Byte.byte → bool := byte_in 128 191.

Fixpoint utf8_valid (l : bytes) : bool :=
  match l with
  | [] => true
  | b0 :: l0 =>
      if byte_in 0 127 b0 then utf8_valid l0
      else if byte_in 194 223 b0 then
        match l0 with
        | b1 :: l1 => is_cont b1 && utf8_valid l1
        | _ => false
        end
      else if byte_in 224 239 b0 then
        match l0 with
        | b1 :: b2 :: l2 =>
            (if byte_in 224 224 b0 then byte_in 160 191 b1
             else if byte_in 237 237 b0 then byte_in 128 159 b1
             else is_cont b1)
            && is_cont b2 && utf8_valid l2
        | _ => false
        end
      else if byte_in 240 244 b0 then
        match l0 with
        | b1 :: b2 :: b3 :: l3 =>
            (if byte_in 240 240 b0 then byte_in 144 191 b1
             else if byte_in 244 244 b0 then byte_in 128 143 b1
             else is_cont b1)
            && is_cont b2 && is_cont b3 && utf8_valid l3
        | _ => false
        end
      else false
  end.

(** Concatenating after valid text leaves the verdict to the rest. *)
Lemma utf8_valid_app a b : utf8_valid a = true → utf8_valid (a ++ b) = utf8_valid b.
Proof.
  remember (length a) as n eqn:Hn. revert a Hn. induction (lt_wf n) as [n _ IH].
  intros a -> Ha. assert (∀ a', length a' < length a → utf8_valid a' = true →
    utf8_valid (a' ++ b) = utf8_valid b) as IH' by (intros; by eapply IH). clear IH.
  destruct a as [|b0 a]; [done|]. cbn [utf8_valid app length] in *.
  destruct (byte_in 0 127 b0); [apply IH'; [lia|done]|].
  destruct (byte_in 194 223 b0).
  { destruct a as [|b1 a]; [done|]. apply andb_true_iff in Ha as [H1 Ha].
    cbn [app]. rewrite H1. cbn [andb]. apply IH'; [cbn; lia|done]. }
  destruct (byte_in 224 239 b0).
  { destruct a as [|b1 [|b2 a]]; [done..|]. apply andb_true_iff in Ha as [H1 Ha].
    cbn [app]. rewrite H1. cbn [andb]. apply IH'; [cbn; lia|done]. }
  destruct (byte_in 240 244 b0); [|done].
  destruct a as [|b1 [|b2 [|b3 a]]]; [done..|]. apply andb_true_iff in Ha as [H1 Ha].
  cbn [app]. rewrite H1. cbn [andb]. apply IH'; [cbn; lia|done].
Qed.

(** [std::str::from_utf8(b).ok()]. *)
Definition from_utf8 (b : bytes) : option string :=
  if utf8_valid b then Some (of_bytes b) else None.

(** [str::is_char_boundary]: the start, the end, or a byte that does not
    continue a character. *)
Definition is_char_boundary (b : bytes) (i : nat) : bool :=
  if decide (i = 0)%nat then true
  else match b !! i with
       | Some c => negb (is_cont c)
       | None => bool_decide (i = length b)
       end.

(** The slice [&s[..n]]; [None] is the panic on an index past the end or inside
    a character. *)
Definition slice_to (s : string) (n : nat) : option string :=
  let b := as_bytes s in
  if bool_decide (n ≤ length b) && is_char_boundary b n
  then Some (of_bytes (take n b)) else None.

(** On ASCII text every index up to the length is a boundary. *)
Definition ascii_string (s : string) : Prop :=
  Forall (λ b, (Byte.to_N b < 128)%N) (as_bytes s).

Lemma slice_to_ascii s n :
  n ≤ length (as_bytes s) → ascii_string s →
  ∃ p r, slice_to s n = Some p ∧ s = p +:+ r ∧ String.length p = n.
Proof.
  intros Hn Ha. exists (of_bytes (take n (as_bytes s))), (of_bytes (drop n (as_bytes s))).
  split; [|split].
  - unfold slice_to. rewrite bool_decide_true by done. cbn.
    assert (is_char_boundary (as_bytes s) n = true) as ->; [|done].
    unfold is_char_boundary. case_decide; [done|].
    destruct (as_bytes s !! n) as [c|] eqn:Hc.
    + eapply Forall_lookup_1 in Hc; [|exact Ha]. unfold is_cont, byte_in.
      apply negb_true_iff, andb_false_iff. left. apply N.leb_gt. cbn in Hc. lia.
    + apply lookup_ge_None in Hc. apply bool_decide_eq_true. lia.
  - apply as_bytes_inj. by rewrite as_bytes_app, !as_of_bytes, take_drop.
  - rewrite <-as_bytes_length, as_of_bytes, length_take. by apply Nat.min_l.
Qed.

(** ** Prefixes *)
Fixpoint strip_prefix (p s : string) : option string :=
  match p, s with
  | EmptyString, _ => Some s
  | String a p, String b s => if decide (a = b) then strip_prefix p s else None
  | String _ _, EmptyString => None
  end.
Definition starts_with (p s : string) : bool :=
  match strip_prefix p s with Some _ => true | None => false end.

Lemma strip_prefix_Some p s r : strip_prefix p s = Some r ↔ s = p +:+ r.
Proof.
  revert s. induction p as [|a p IH]; intros s.
  - change ("" +:+ r) with r. cbn. naive_solver.
  - change (String a p +:+ r) with (String a (p +:+ r)).
    destruct s as [|b s]; cbn; [done|]. case_decide; [|naive_solver].
    subst. rewrite IH. naive_solver.
Qed.
Lemma strip_prefix_app p r : strip_prefix p (p +:+ r) = Some r.
Proof. by apply strip_prefix_Some. Qed.
Lemma starts_with_spec p s : starts_with p s = true ↔ ∃ r, s = p +:+ r.
Proof.
  unfold starts_with. destruct (strip_prefix p s) as [r|] eqn:E.
  - apply strip_prefix_Some in E. naive_solver.
  - split; [done|]. intros [r ->]. by rewrite strip_prefix_app in E.
Qed.

(** [str::split_once(c)] for a one-byte [c]. *)
Fixpoint split_once (c : Ascii.ascii) (s : string) : option (string * string) :=
  match s with
  | EmptyString => None
  | String a s =>
      if decide (a = c) then Some ("", s)
      else match split_once c s with
           | Some (l, r) => Some (String a l, r)
           | None => None
           end
  end.

Lemma split_once_Some c s l r :
  split_once c s = Some (l, r) ↔ s = l +:+ String c r ∧ split_once c l = None.
Proof.
  revert l. induction s as [|a s IH]; intros l; cbn [split_once].
  - split; [done|]. intros [E _]. by destruct l.
  - case_decide as Ha.
    + subst. split; [intros [= <- <-]; done|]. intros [E Hl]. destruct l as [|b l].
      * change ("" +:+ String c r) with (String c r) in E. by simplify_eq.
      * change (String b l +:+ String c r) with (String b (l +:+ String c r)) in E. simplify_eq.
        cbn in Hl. by rewrite decide_True in Hl.
    + destruct l as [|b l].
      * change ("" +:+ String c r) with (String c r). split; [|intros [[= -> _] _]; done].
        destruct (split_once c s) as [[? ?]|]; [|done]. by intros [= ? _].
      * change (String b l +:+ String c r) with (String b (l +:+ String c r)). cbn [split_once].
        specialize (IH l). destruct (split_once c s) as [[l' r']|]; split.
        -- intros [= <- <- <-]. destruct IH as [IH _]. destruct (IH eq_refl) as [-> Hl].
           by rewrite decide_False, Hl.
        -- intros [[= <- E] Hl]. rewrite decide_False in Hl by done.
           destruct IH as [_ IH]. destruct (split_once c l) as [[]|]; [done|].
           by specialize (IH (conj E eq_refl)); simplify_eq.
        -- done.
        -- intros [[= <- E] Hl]. rewrite decide_False in Hl by done.
           destruct IH as [_ IH]. destruct (split_once c l) as [[]|]; [done|].
           by specialize (IH (conj E eq_refl)).
Qed.

(** [str::trim_end_matches(c)] for a one-byte [c]. *)
Fixpoint drop_while {A} (p : A → bool) (l : list A) : list A :=
  match l with
  | [] => []
  | x :: l' => if p x then drop_while p l' else l
  end.
Definition trim_end_matches (c : Byte.byte) (s : string) : string :=
  of_bytes (rev (drop_while (Byte.eqb c) (rev (as_bytes s)))).

(** ** [str::trim]: Unicode [White_Space], as encoded sequences. *)
Definition whitespace : list bytes :=
  map (λ b, [b]) [Byte.x09; Byte.x0a; Byte.x0b; Byte.x0c; Byte.x0d; Byte.x20] ++
  [ [Byte.xc2; Byte.x85]; [Byte.xc2; Byte.xa0]; [Byte.xe1; Byte.x9a; Byte.x80] ] ++
  map (λ b, [Byte.xe2; Byte.x80; b])
    [Byte.x80; Byte.x81; Byte.x82; Byte.x83; Byte.x84; Byte.x85; Byte.x86; Byte.x87; Byte.x88; Byte.x89; Byte.x8a;
     Byte.xa8; Byte.xa9; Byte.xaf] ++
  [ [Byte.xe2; Byte.x81; Byte.x9f]; [Byte.xe3; Byte.x80; Byte.x80] ].

Fixpoint strip_list (p l : bytes) : option bytes :=
  match p, l with
  | [], _ => Some l
  | a :: p, b :: l => if Byte.eqb a b then strip_list p l else None
  | _ :: _, [] => None
  end.
Fixpoint strip_any (ps : list bytes) (l : bytes) : option bytes :=
  match ps with
  | [] => None
  | p :: ps => match strip_list p l with Some r => Some r | None => strip_any ps l end
  end.
Fixpoint strip_all (fuel : nat) (ps : list bytes) (l : bytes) : bytes :=
  match fuel with
  | O => l
  | S n => match strip_any ps l with Some r => strip_all n ps r | None => l end
  end.
Definition trim_bytes (l : bytes) : bytes :=
  let l := strip_all (length l) whitespace l in
  rev (strip_all (length l) (map (@rev _) whitespace) (rev l)).
Definition trim (s : string) : string := of_bytes (trim_bytes (as_bytes s)).

Example trim_ex : trim "  ping " = "ping". Proof. reflexivity. Qed.

(** ** [str::lines] *)
Definition nl : Ascii.ascii := "010"%char.
Definition cr : Ascii.ascii := "013"%char.

(** The pieces [split_inclusive('\n')] yields, each with whether it ended with
    the separator. *)
Fixpoint split_lines (s : string) : list (string * bool) :=
  match s with
  | EmptyString => []
  | String a s =>
      if decide (a = nl) then ("", true) :: split_lines s
      else match split_lines s with
           | [] => [(String a "", false)]
           | (l, t) :: ls => (String a l, t) :: ls
           end
  end.
Fixpoint strip_cr (s : string) : string :=
  match s with
  | EmptyString => ""
  | String a EmptyString => if decide (a = cr) then "" else s
  | String a s' => String a (strip_cr s')
  end.
Definition lines (s : string) : list string :=
  map (λ lt, if lt.2 : bool then strip_cr lt.1 else lt.1) (split_lines s).

Example lines_ex :
  lines ("a" +:+ String cr (String nl ("" +:+ String nl "b"))) = ["a"; ""; "b"].
Proof. reflexivity. Qed.

(** No newline inside. *)
Definition no_nl (s : string) : bool :=
  forallb (λ a, negb (bool_decide (a = nl))) (String.list_ascii_of_string s).

Lemma no_nl_cons a s : no_nl (String a s) = negb (bool_decide (a = nl)) && no_nl s.
Proof. done. Qed.

Lemma split_lines_one s :
  no_nl s = true → s ≠ "" → split_lines s = [(s, false)].
Proof.
  induction s as [|a s IH]; [done|]. rewrite no_nl_cons, andb_true_iff.
  intros [Ha Hs] _. cbn. rewrite decide_False by (by case_bool_decide).
  destruct s as [|b s]; [done|]. by rewrite IH.
Qed.
Lemma split_lines_app s r :
  no_nl s = true → split_lines (s +:+ String nl r) = (s, true) :: split_lines r.
Proof.
  induction s as [|a s IH]; [done|]. rewrite no_nl_cons, andb_true_iff.
  intros [Ha Hs]. change (String a s +:+ String nl r) with (String a (s +:+ String nl r)).
  cbn. rewrite decide_False by (by case_bool_decide). by rewrite IH.
Qed.
