(* ===== verification/Float64.v ===== *)
(** * Float64: the [f64] arithmetic of the limits, the cost and the metrics

    [f64] is IEEE 754 binary64, as [SpecFloat] defines it (53-bit significand,
    exponents up to 1024, round to nearest even); every operation is executable.
    The second half relates the non-negative doubles to the integers they
    denote in units of 2^-1074, the smallest positive double: on those,
    addition and subtraction are the exact integer operation followed by the
    monotone rounding [rnd], and the order is the order of the integers. *)

From S2P Require Import Prelude.
From Stdlib Require Import Floats.SpecFloat.

Abbreviation f64 := spec_float.

Module F64.
Local Open Scope Z_scope.

Definition add : f64 → f64 → f64 := SFadd 53 1024.
Definition sub : f64 → f64 → f64 := SFsub 53 1024.
Definition mul : f64 → f64 → f64 := SFmul 53 1024.
Definition div : f64 → f64 → f64 := SFdiv 53 1024.
(** [n as f64] and [f64::from(n)] for an integer. *)
Definition of_int (z : Z) : f64 := binary_normalize 53 1024 z 0 false.
Definition zero : f64 := S754_zero false.
Definition one : f64 := of_int 1.
Definition lt (x y : f64) : bool := SFltb x y.
Definition le (x y : f64) : bool := SFleb x y.
Definition is_nan (x : f64) : bool := match x with S754_nan => true | _ => false end.
Definition is_finite (x : f64) : bool :=
  match x with S754_zero _ | S754_finite _ _ _ => true | _ => false end.
(** [f64::min] and [f64::max] ignore a NaN operand. *)
Definition min (x y : f64) : f64 :=
  if is_nan x then y else if is_nan y then x else if lt y x then y else x.
Definition max (x y : f64) : f64 :=
  if is_nan x then y else if is_nan y then x else if lt x y then y else x.
(** [f64::round]: half away from zero. *)
Definition round (x : f64) : f64 :=
  match x with
  | S754_finite s m (Zneg k) =>
      let d := 2 ^ Zpos k in
      let q := Zpos m / d in
      let q := if d <=? 2 * (Zpos m mod d) then q + 1 else q in
      binary_normalize 53 1024 (cond_Zopp s q) 0 s
  | _ => x
  end.
(** [x as u64]: truncating and saturating, NaN to 0. *)
Definition to_u64 (x : f64) : Z :=
  match x with
  | S754_infinity false => u64_max
  | S754_finite false m e => Z.min (Z.shiftl (Zpos m) e) u64_max
  | _ => 0
  end.
(** The literal [m * 10^-k]. *)
Definition lit (m k : Z) : f64 := div (of_int m) (of_int (10 ^ k)).
(** [Duration::as_secs_f64] of a duration in nanoseconds. *)
Definition as_secs_f64 (nanos : Z) : f64 :=
  add (of_int (nanos / 1000000000))
      (div (of_int (nanos mod 1000000000)) (of_int 1000000000)).

Example add_ex : add (of_int 3) (of_int 4) = of_int 7.
Proof. reflexivity. Qed.
Example round_ex : to_u64 (round (mul (lit 125 2) (of_int 100))) = 125.
Proof. reflexivity. Qed.
Example third_ex : lt (mul (div one (of_int 3)) (of_int 3)) one = false.
Proof. reflexivity. Qed.

(** ** Rounding to nearest, ties to even, on integers *)

(** [M / d] rounded to nearest even, for [d = 2 ^ n]. *)
Definition rne (a d : Z) : Z :=
  let q := a / d in
  let r := a mod d in
  if 2 * r <? d then q
  else if d <? 2 * r then q + 1
  else if Z.even q then q else q + 1.

Lemma rne_bounds a d : 0 < d → a / d ≤ rne a d ≤ a / d + 1.
Proof. unfold rne. intros. repeat case_match; lia. Qed.
Lemma rne_exact q d : 0 < d → rne (q * d) d = q.
Proof.
  intros. unfold rne. rewrite Z.div_mul, Z.mod_mul by lia.
  by rewrite (proj2 (Z.ltb_lt (2 * 0) d)) by lia.
Qed.
Lemma rne_mono a b d : 0 < d → a ≤ b → rne a d ≤ rne b d.
Proof.
  intros Hd Hab. pose proof (rne_bounds a d Hd). pose proof (rne_bounds b d Hd).
  assert (a / d ≤ b / d) by (apply Z.div_le_mono; lia).
  destruct (Z.eq_dec (a / d) (b / d)) as [E|]; [|lia].
  assert (a mod d ≤ b mod d).
  { pose proof (Z.div_mod a d). pose proof (Z.div_mod b d). rewrite E in *. lia. }
  unfold rne. rewrite E.
  destruct (Z.even (b / d)); repeat case_match; lia.
Qed.
Lemma rne_scale a d c : 0 < d → 0 < c → rne (a * c) (d * c) = rne a d.
Proof.
  intros. unfold rne. rewrite Z.div_mul_cancel_r, Z.mul_mod_distr_r by lia.
  replace (2 * (a mod d * c) <? d * c) with (2 * (a mod d) <? d)
    by (apply eq_bool_prop_intro; rewrite !Is_true_true, !Z.ltb_lt; nia).
  replace (d * c <? 2 * (a mod d * c)) with (d <? 2 * (a mod d))
    by (apply eq_bool_prop_intro; rewrite !Is_true_true, !Z.ltb_lt; nia).
  done.
Qed.

(** The double nearest to the non-negative number [z * 2^-1074], in the same
    unit: [z] rounded to 53 significant bits. *)
Definition rnd_shift (z : Z) : Z := Z.max 0 (Z.log2 z + 1 - 53).
Definition rnd (z : Z) : Z := rne z (2 ^ rnd_shift z) * 2 ^ rnd_shift z.

Lemma pow2_pos n : 0 < 2 ^ n ∨ n < 0.
Proof. destruct (decide (n < 0)); [by right|left; apply Z.pow_pos_nonneg; lia]. Qed.
Lemma rnd_shift_pos z : 0 < 2 ^ rnd_shift z.
Proof. unfold rnd_shift. destruct (pow2_pos (Z.max 0 (Z.log2 z + 1 - 53))); lia. Qed.

Lemma rnd_exact q j : 0 ≤ q < 2 ^ 53 → 0 ≤ j → rnd (q * 2 ^ j) = q * 2 ^ j.
Proof.
  intros Hq Hj. unfold rnd.
  destruct (decide (q = 0)) as [->|Hq0].
  { rewrite Z.mul_0_l. reflexivity. }
  assert (rnd_shift (q * 2 ^ j) ≤ j) as Hk.
  { unfold rnd_shift. rewrite Z.log2_mul_pow2 by lia.
    assert (Z.log2 q < 53) by (apply Z.log2_lt_pow2; lia). lia. }
  assert (0 ≤ rnd_shift (q * 2 ^ j)) by (unfold rnd_shift; lia).
  set (k := rnd_shift _) in *.
  replace (q * 2 ^ j) with ((q * 2 ^ (j - k)) * 2 ^ k)
    by (rewrite <-Z.mul_assoc, <-Z.pow_add_r by lia; do 2 f_equal; lia).
  rewrite rne_exact; [done|]. destruct (pow2_pos k); lia.
Qed.

(** [rnd z] stays between the powers of two around [z]. *)
Lemma rnd_log2 z : 0 < z → 2 ^ Z.log2 z ≤ rnd z ≤ 2 ^ (Z.log2 z + 1).
Proof.
  intros Hz. pose proof (Z.log2_spec z Hz) as [Hl Hu].
  pose proof (rnd_shift_pos z) as Hp. unfold rnd.
  assert (0 ≤ rnd_shift z ≤ Z.log2 z) as [Hk0 Hk].
  { pose proof (Z.log2_nonneg z). unfold rnd_shift. lia. }
  set (k := rnd_shift z) in *.
  assert (2 ^ Z.log2 z = 2 ^ (Z.log2 z - k) * 2 ^ k) as El
    by (rewrite <-Z.pow_add_r by lia; f_equal; lia).
  assert (2 ^ (Z.log2 z + 1) = 2 ^ (Z.log2 z + 1 - k) * 2 ^ k) as Eu
    by (rewrite <-Z.pow_add_r by lia; f_equal; lia).
  rewrite <-Z.add_1_r in Hu. split.
  - rewrite El at 1. apply Z.mul_le_mono_nonneg_r; [lia|].
    rewrite <-(rne_exact (2 ^ (Z.log2 z - k)) (2 ^ k)) by lia.
    apply rne_mono; lia.
  - rewrite Eu. apply Z.mul_le_mono_nonneg_r; [lia|].
    rewrite <-(rne_exact (2 ^ (Z.log2 z + 1 - k)) (2 ^ k)) by lia.
    apply rne_mono; lia.
Qed.

Lemma rnd_mono a b : 0 ≤ a ≤ b → rnd a ≤ rnd b.
Proof.
  intros [Ha Hab]. destruct (decide (a = 0)) as [->|Ha0].
  { destruct (decide (b = 0)) as [->|]; [done|].
    pose proof (rnd_log2 b). pose proof (Z.pow_pos_nonneg 2 (Z.log2 b)).
    pose proof (Z.log2_nonneg b). change (rnd 0) with 0. lia. }
  assert (Z.log2 a ≤ Z.log2 b) by (apply Z.log2_le_mono; lia).
  destruct (Z.eq_dec (Z.log2 a) (Z.log2 b)) as [E|].
  - assert (rnd_shift a = rnd_shift b) as Ek by (unfold rnd_shift; lia).
    unfold rnd. rewrite Ek. pose proof (rnd_shift_pos b).
    apply Z.mul_le_mono_nonneg_r; [lia|]. by apply rne_mono.
  - etrans; [apply rnd_log2; lia|]. etrans; [|apply rnd_log2; lia].
    apply Z.pow_le_mono_r; lia.
Qed.

(** ** The canonical representation *)

Lemma digits2_log2 m : Zpos (digits2_pos m) = Z.log2 (Zpos m) + 1.
Proof.
  induction m as [m IH|m IH|]; cbn [digits2_pos].
  - rewrite Pos2Z.inj_succ, IH, Pos2Z.inj_xI, Z.log2_succ_double; lia.
  - rewrite Pos2Z.inj_succ, IH, Pos2Z.inj_xO, Z.log2_double; lia.
  - done.
Qed.

Lemma fexp_eq e : fexp 53 1024 e = Z.max (e - 53) (-1074).
Proof. reflexivity. Qed.

(** [mrs] is the state of a right shift by [k] bits of [a]. *)
Definition shr_state (a k : Z) (mrs : shr_record) : Prop :=
  shr_m mrs = a / 2 ^ k ∧
  shr_r mrs = (2 ^ k <=? 2 * (a mod 2 ^ k)) ∧
  shr_s mrs = negb ((a mod 2 ^ k =? 0) || (2 * (a mod 2 ^ k) =? 2 ^ k)).

Lemma shr_1_state a k mrs :
  0 ≤ a → 0 ≤ k → shr_state a k mrs → shr_state a (k + 1) (shr_1 mrs).
Proof.
  intros Ha Hk (Hm & Hr & Hs).
  assert (0 < 2 ^ k) as Hp by (apply Z.pow_pos_nonneg; lia).
  assert (2 ^ (k + 1) = 2 ^ k * 2) as Hp1 by (rewrite Z.pow_add_r; lia).
  assert (a / 2 ^ (k + 1) = a / 2 ^ k / 2) as Hd
    by (rewrite Hp1, Z.div_div by lia; done).
  pose proof (Z.mod_pos_bound a (2 ^ k)) as Hb.
  assert (a mod 2 ^ (k + 1) = (a / 2 ^ k) mod 2 * 2 ^ k + a mod 2 ^ k) as Hmod.
  { rewrite Hp1, Z.rem_mul_r by lia. lia. }
  assert (0 ≤ a / 2 ^ k) by (apply Z.div_pos; lia).
  assert (shr_m (shr_1 mrs) = shr_m mrs / 2 ∧
          shr_r (shr_1 mrs) = (1 =? shr_m mrs mod 2) ∧
          shr_s (shr_1 mrs) = shr_r mrs || shr_s mrs) as (Em & Er & Es).
  { destruct mrs as [[|[q|q|]|q] r s]; cbn [shr_m shr_r shr_s] in *; [done| | |done|].
    - cbn [shr_1 shr_m shr_r shr_s].
      rewrite (Pos2Z.inj_xI q). repeat split; Z.to_euclidean_division_equations; lia.
    - cbn [shr_1 shr_m shr_r shr_s].
      rewrite (Pos2Z.inj_xO q). repeat split; Z.to_euclidean_division_equations; lia.
    - lia. }
  unfold shr_state. rewrite Em, Er, Es, Hd, Hm, Hr, Hs, Hmod, Hp1.
  assert ((a / 2 ^ k) mod 2 = 0 ∨ (a / 2 ^ k) mod 2 = 1) as Hbit
    by (pose proof (Z.mod_pos_bound (a / 2 ^ k) 2); lia).
  assert (k = 0 ∨ 1 ≤ k) as [->|Hk1] by lia.
  - rewrite Z.pow_0_r, Z.mod_1_r in *. rewrite Z.div_1_r in *.
    destruct Hbit as [-> | ->]; done.
  - assert (2 ^ k = 2 * 2 ^ (k - 1)) as Hk2
      by (rewrite <-(Z.pow_add_r 2 1) by lia; f_equal; lia).
    destruct Hbit as [-> | ->]; (split; [done|split]); lia.
Qed.

Lemma iter_pos_iter {A} (f : A → A) n x :
  iter_pos f n x = Nat.iter (Pos.to_nat n) f x.
Proof.
  revert x. induction n as [n IH|n IH|]; intros x; cbn [iter_pos].
  - rewrite !IH, <-Nat.iter_add, Pos2Nat.inj_xI, Nat.iter_succ_r. f_equal. lia.
  - rewrite !IH, <-Nat.iter_add, Pos2Nat.inj_xO. f_equal. lia.
  - done.
Qed.

Lemma shr_iter_state a n :
  0 ≤ a → shr_state a (Z.of_nat n) (Nat.iter n shr_1 (Build_shr_record a false false)).
Proof.
  intros Ha. induction n as [|n IH].
  - unfold shr_state. cbn. rewrite Z.mod_1_r, Z.div_1_r. done.
  - rewrite Nat2Z.inj_succ, <-Z.add_1_r. apply shr_1_state; [done|lia|done].
Qed.

Lemma shr_spec a e n :
  0 ≤ a → 0 ≤ n →
  ∃ mrs, shr (Build_shr_record a false false) e n = (mrs, e + n) ∧ shr_state a n mrs.
Proof.
  intros Ha Hn. destruct n as [|p|p]; [|clear Hn|done].
  - eexists. split; [cbn; f_equal; lia|]. by apply (shr_iter_state a 0).
  - eexists. split; [done|]. rewrite iter_pos_iter, <-positive_nat_Z.
    by apply shr_iter_state.
Qed.

Lemma shr_state_round a k mrs :
  0 ≤ k → shr_state a k mrs →
  round_nearest_even (shr_m mrs) (loc_of_shr_record mrs) = rne a (2 ^ k).
Proof.
  intros Hk (Hm & Hr & Hs). destruct mrs as [m r s]. cbn in Hm, Hr, Hs. subst.
  assert (0 < 2 ^ k) as Hp by (apply Z.pow_pos_nonneg; lia).
  pose proof (Z.mod_pos_bound a (2 ^ k) Hp). unfold rne. cbn.
  destruct (Z.leb_spec (2 ^ k) (2 * (a mod 2 ^ k)));
    destruct (Z.eqb_spec (a mod 2 ^ k) 0);
    destruct (Z.eqb_spec (2 * (a mod 2 ^ k)) (2 ^ k));
    destruct (Z.ltb_spec (2 * (a mod 2 ^ k)) (2 ^ k));
    destruct (Z.ltb_spec (2 ^ k) (2 * (a mod 2 ^ k))); try lia; done.
Qed.

Lemma Zdigits2_log2 a : 0 < a → Zdigits2 a = Z.log2 a + 1.
Proof. destruct a as [|a|a]; [lia| |lia]. intros _. apply digits2_log2. Qed.

Lemma shr_nonpos mrs e n : n ≤ 0 → shr mrs e n = (mrs, e).
Proof. by destruct n. Qed.

Lemma renormalize q f :
  0 ≤ q ≤ 2 ^ 53 → -1074 ≤ f →
  shr_fexp 53 1024 q f loc_Exact =
    if decide (q = 2 ^ 53) then (Build_shr_record (2 ^ 52) false false, f + 1)
    else (Build_shr_record q false false, f).
Proof.
  intros Hq Hf. unfold shr_fexp. rewrite fexp_eq.
  case_decide as E.
  - subst. rewrite Zdigits2_log2 by lia.
    replace (Z.max _ _ - f) with 1 by (change (Z.log2 (2 ^ 53)) with 53; lia). done.
  - rewrite shr_nonpos; [done|].
    destruct (decide (q = 0)) as [->|]; [cbn; lia|].
    rewrite Zdigits2_log2 by lia.
    assert (Z.log2 q < 53) by (apply Z.log2_lt_pow2; lia). lia.
Qed.

(** Where a result with [a] significant units of [2 ^ e] is rounded. *)
Definition target (a e : Z) : Z := Z.max (Z.log2 a + 1 + e - 53) (-1074).

Lemma rne_target a e :
  0 < a → e ≤ target a e → 0 ≤ rne a (2 ^ (target a e - e)) ≤ 2 ^ 53.
Proof.
  intros Ha He. assert (0 < 2 ^ (target a e - e)) by (apply Z.pow_pos_nonneg; lia).
  split.
  - rewrite <-(rne_exact 0 (2 ^ (target a e - e))) by lia. apply rne_mono; lia.
  - rewrite <-(rne_exact (2 ^ 53) (2 ^ (target a e - e))) by lia.
    apply rne_mono; [lia|]. rewrite <-Z.pow_add_r by lia.
    pose proof (Z.log2_spec a Ha) as [_ Hu].
    assert (2 ^ Z.succ (Z.log2 a) ≤ 2 ^ (53 + (target a e - e)));
      [|lia]. apply Z.pow_le_mono_r; unfold target in *; lia.
Qed.

Lemma round_aux_pos a e :
  0 < a → e ≤ target a e →
  binary_round_aux 53 1024 false a e loc_Exact =
    let q := rne a (2 ^ (target a e - e)) in
    let '(q, f) := if decide (q = 2 ^ 53) then (2 ^ 52, target a e + 1)
                   else (q, target a e) in
    match q with
    | Zpos m => if f <=? 971 then S754_finite false m f else S754_infinity false
    | _ => S754_zero false
    end.
Proof.
  intros Ha He. pose proof (rne_target a e Ha He) as Hq.
  unfold binary_round_aux, shr_fexp at 1. rewrite fexp_eq, Zdigits2_log2 by done.
  fold (target a e).
  destruct (shr_spec a e (target a e - e)) as (mrs & Hshr & Hst); [lia..|].
  cbn [shr_record_of_loc]. rewrite Hshr.
  rewrite (shr_state_round a (target a e - e)) by (done || lia).
  replace (e + (target a e - e)) with (target a e) by lia.
  rewrite renormalize by (done || unfold target; lia).
  cbn zeta. destruct (decide _) as [E|E]; cbn [shr_m]; [done|].
  by destruct (rne a _); [| |lia].
Qed.

(** ** The non-negative doubles, in units of 2^-1074 *)
Inductive nonneg : f64 → Z → Prop :=
| nonneg_zero : nonneg (S754_zero false) 0
| nonneg_finite m e :
    bounded 53 1024 m e = true → nonneg (S754_finite false m e) (Zpos m * 2 ^ (e + 1074)).

Lemma bounded_spec m e :
  bounded 53 1024 m e = true ↔ target (Zpos m) e = e ∧ e ≤ 971.
Proof.
  unfold bounded, canonical_mantissa. rewrite fexp_eq, digits2_log2.
  fold (target (Zpos m) e). change (1024 - 53) with 971.
  rewrite andb_true_iff, Z.eqb_eq, Z.leb_le. done.
Qed.

Lemma nonneg_ge x v : nonneg x v → 0 ≤ v.
Proof. destruct 1; [done|]. apply Z.mul_nonneg_nonneg; [lia|apply Z.pow_nonneg; lia]. Qed.

(** The largest value that does not overflow is below [2 ^ 1024]. *)
Definition overflow : Z := 2 ^ 2098.

Lemma rnd_target a e :
  0 < a → -1074 ≤ e → e ≤ target a e →
  rnd (a * 2 ^ (e + 1074)) = rne a (2 ^ (target a e - e)) * 2 ^ (target a e + 1074).
Proof.
  intros Ha He Ht. unfold rnd.
  assert (rnd_shift (a * 2 ^ (e + 1074)) = target a e + 1074) as ->.
  { unfold rnd_shift, target. rewrite Z.log2_mul_pow2 by lia. lia. }
  f_equal. replace (target a e + 1074) with ((target a e - e) + (e + 1074)) by lia.
  rewrite (Z.pow_add_r 2 (target a e - e)) by lia. apply rne_scale; apply Z.pow_pos_nonneg; lia.
Qed.

Lemma round_aux_nonneg a e :
  0 < a → -1074 ≤ e → e ≤ target a e →
  rnd (a * 2 ^ (e + 1074)) < overflow →
  nonneg (binary_round_aux 53 1024 false a e loc_Exact) (rnd (a * 2 ^ (e + 1074))).
Proof.
  intros Ha He Ht. rewrite rnd_target, round_aux_pos by done. cbn zeta.
  pose proof (rne_target a e Ha Ht) as Hq.
  assert (Hlow : -1074 < target a e → 2 ^ 52 ≤ rne a (2 ^ (target a e - e))).
  { intros Hf. rewrite <-(rne_exact (2 ^ 52) (2 ^ (target a e - e)))
      by (apply Z.pow_pos_nonneg; lia).
    apply rne_mono; [apply Z.pow_pos_nonneg; lia|].
    rewrite <-Z.pow_add_r by lia. pose proof (Z.log2_spec a Ha) as [Hl _].
    etrans; [|exact Hl]. apply Z.pow_le_mono_r; unfold target in *; lia. }
  assert (-1074 ≤ target a e) as Hf by (unfold target; lia).
  set (f := target a e) in *. set (q := rne a _) in *. clearbody q f.
  intros Hov. assert (Hexp : ∀ k, 0 ≤ k → 2 ^ k ≤ q * 2 ^ (f + 1074) → k < 2098).
  { intros k Hk Hle. apply (Z.pow_lt_mono_r_iff 2); unfold overflow in Hov; lia. }
  assert (0 < 2 ^ (f + 1074)) by (apply Z.pow_pos_nonneg; lia).
  case_decide as E.
  - subst q. assert (f + 1 ≤ 971) as Hf1.
    { specialize (Hexp (53 + (f + 1074))). rewrite Z.pow_add_r in Hexp; lia. }
    change (2 ^ 52) with (Zpos (2 ^ 52)). rewrite (proj2 (Z.leb_le _ _)) by done.
    replace (2 ^ 53 * 2 ^ (f + 1074)) with (Zpos (2 ^ 52) * 2 ^ (f + 1 + 1074)).
    { constructor. apply bounded_spec. unfold target.
      change (Z.log2 (Z.pos (2 ^ 52))) with 52. lia. }
    replace (f + 1 + 1074) with (1 + (f + 1074)) by lia.
    rewrite Z.pow_add_r by lia. lia.
  - destruct q as [|m|m]; [constructor| |lia].
    assert (Z.log2 (Zpos m) < 53) by (apply Z.log2_lt_pow2; lia).
    assert (f ≤ 971) as Hf1.
    { destruct (decide (f = -1074)); [lia|].
      specialize (Hexp (52 + (f + 1074))). rewrite Z.pow_add_r in Hexp by lia. nia. }
    rewrite (proj2 (Z.leb_le _ _)) by done. constructor. apply bounded_spec.
    split; [|done]. unfold target. destruct (decide (f = -1074)) as [->|]; [lia|].
    assert (52 ≤ Z.log2 (Zpos m)) by (apply Z.log2_le_pow2; lia). lia.
Qed.

Lemma shl_align_fst m e e' :
  e' ≤ e → Zpos (fst (shl_align m e e')) = Zpos m * 2 ^ (e - e').
Proof.
  intros He. unfold shl_align. destruct (e' - e) as [|d|d] eqn:E; cbn [fst].
  - replace (e - e') with 0 by lia. lia.
  - lia.
  - change (Pos.iter xO m d) with (shift_pos d m).
    rewrite shift_pos_correct, Z.mul_comm. f_equal.
    by replace (e - e') with (Zpos d) by lia.
Qed.

Lemma round_nonneg m e :
  -1074 ≤ e → rnd (Zpos m * 2 ^ (e + 1074)) < overflow →
  nonneg (binary_round 53 1024 false m e) (rnd (Zpos m * 2 ^ (e + 1074))).
Proof.
  intros He. unfold binary_round. rewrite fexp_eq, digits2_log2.
  fold (target (Zpos m) e). set (t := target _ _).
  assert (Ht : -1074 ≤ t) by (unfold t, target; lia).
  destruct (decide (t < e)) as [Hlt|Hge].
  - pose proof (shl_align_fst m e t ltac:(lia)) as Hm.
    assert (snd (shl_align m e t) = t) as Hs.
    { unfold shl_align. destruct (t - e) eqn:E; [lia..|done]. }
    destruct (shl_align m e t) as [mz ez]. cbn in Hm, Hs. subst ez.
    replace (Zpos m * 2 ^ (e + 1074)) with (Zpos mz * 2 ^ (t + 1074)).
    { apply round_aux_nonneg; [lia|done|]. unfold target.
      rewrite Hm, Z.log2_mul_pow2 by lia. unfold t, target in *. lia. }
    rewrite Hm, <-Z.mul_assoc, <-Z.pow_add_r by lia. do 2 f_equal. lia.
  - assert (shl_align m e t = (m, e)) as ->.
    { unfold shl_align. destruct (t - e) eqn:E; [done..|lia]. }
    apply round_aux_nonneg; [lia|done|]. fold t. lia.
Qed.

Lemma normalize_nonneg a e :
  0 ≤ a → -1074 ≤ e → rnd (a * 2 ^ (e + 1074)) < overflow →
  nonneg (binary_normalize 53 1024 a e false) (rnd (a * 2 ^ (e + 1074))).
Proof.
  intros Ha He Hov. destruct a as [|m|m]; [constructor|by apply round_nonneg|lia].
Qed.

Lemma bounded_exp m e : bounded 53 1024 m e = true → -1074 ≤ e.
Proof. rewrite bounded_spec. unfold target. lia. Qed.
Lemma bounded_mantissa m e : bounded 53 1024 m e = true → Zpos m < 2 ^ 53.
Proof. rewrite bounded_spec. unfold target. intros. apply Z.log2_lt_pow2; lia. Qed.

(** A double is its own rounding. *)
Lemma nonneg_rnd x v : nonneg x v → rnd v = v.
Proof.
  destruct 1 as [|m e H]; [done|]. pose proof (bounded_exp m e H).
  pose proof (bounded_mantissa m e H). apply rnd_exact; lia.
Qed.

Lemma add_nonneg x y v w :
  nonneg x v → nonneg y w → rnd (v + w) < overflow → nonneg (add x y) (rnd (v + w)).
Proof.
  intros Hx Hy Hov. pose proof (nonneg_rnd _ _ Hx) as Ev. pose proof (nonneg_rnd _ _ Hy) as Ew.
  destruct Hx as [|m e Hm], Hy as [|m' e' Hm']; unfold add; cbn [SFadd].
  - constructor.
  - rewrite Z.add_0_l, Ew. by constructor.
  - rewrite Z.add_0_r, Ev. by constructor.
  - apply bounded_exp in Hm, Hm'. cbn [cond_Zopp].
    rewrite !shl_align_fst by lia. set (ez := Z.min e e') in *.
    assert (Zpos m * 2 ^ (e + 1074) + Zpos m' * 2 ^ (e' + 1074)
            = (Zpos m * 2 ^ (e - ez) + Zpos m' * 2 ^ (e' - ez)) * 2 ^ (ez + 1074)) as E.
    { rewrite Z.mul_add_distr_r, <-!Z.mul_assoc, <-!Z.pow_add_r by lia.
      do 3 f_equal; lia. }
    rewrite E in *. apply normalize_nonneg; [|lia|done].
    apply Z.add_nonneg_nonneg; apply Z.mul_nonneg_nonneg; try lia; apply Z.pow_nonneg; lia.
Qed.

Lemma nonneg_lt_overflow x v : nonneg x v → v < overflow.
Proof.
  destruct 1 as [|m e H]; [done|]. pose proof (bounded_exp m e H).
  pose proof (bounded_mantissa m e H). apply bounded_spec in H as [_ H].
  unfold overflow. replace 2098 with (53 + (971 + 1074)) by lia.
  rewrite (Z.pow_add_r 2 53) by lia.
  assert (2 ^ (e + 1074) ≤ 2 ^ (971 + 1074)) by (apply Z.pow_le_mono_r; lia).
  assert (0 < 2 ^ (e + 1074)) by (apply Z.pow_pos_nonneg; lia). nia.
Qed.

Lemma sub_nonneg x y v w :
  nonneg x v → nonneg y w → w ≤ v → nonneg (sub x y) (rnd (v - w)).
Proof.
  intros Hx Hy Hle. pose proof (nonneg_rnd _ _ Hx) as Ev.
  pose proof (nonneg_ge _ _ Hy) as Hw0.
  assert (rnd (v - w) < overflow) as Hov.
  { eapply Z.le_lt_trans; [apply (rnd_mono _ v); lia|]. rewrite Ev.
    by eapply nonneg_lt_overflow. }
  destruct Hx as [|m e Hm], Hy as [|m' e' Hm']; unfold sub; cbn [SFsub].
  - constructor.
  - apply bounded_exp in Hm'. exfalso.
    assert (0 < 2 ^ (e' + 1074)) by (apply Z.pow_pos_nonneg; lia). nia.
  - rewrite Z.sub_0_r, Ev. by constructor.
  - apply bounded_exp in Hm, Hm'. cbn [cond_Zopp].
    rewrite !shl_align_fst by lia. set (ez := Z.min e e') in *.
    assert (Zpos m * 2 ^ (e + 1074) - Zpos m' * 2 ^ (e' + 1074)
            = (Zpos m * 2 ^ (e - ez) - Zpos m' * 2 ^ (e' - ez)) * 2 ^ (ez + 1074)) as E.
    { rewrite Z.mul_sub_distr_r, <-!Z.mul_assoc, <-!Z.pow_add_r by lia.
      do 3 f_equal; lia. }
    assert (0 < 2 ^ (ez + 1074)) by (apply Z.pow_pos_nonneg; lia).
    rewrite E in *. apply normalize_nonneg; [nia|lia|done].
Qed.

(** ** Order *)
Lemma finite_exp_lt m e m' e' :
  bounded 53 1024 m e = true → bounded 53 1024 m' e' = true → e < e' →
  Zpos m * 2 ^ (e + 1074) < Zpos m' * 2 ^ (e' + 1074).
Proof.
  intros H H' Hlt. pose proof (bounded_exp _ _ H). pose proof (bounded_mantissa _ _ H).
  apply bounded_spec in H' as [Ht _]. unfold target in Ht.
  assert (2 ^ 52 ≤ Zpos m') by (apply Z.log2_le_pow2; lia).
  replace (e' + 1074) with ((e' - e - 1) + 1 + (e + 1074)) by lia.
  rewrite (Z.pow_add_r 2 (e' - e - 1 + 1)), (Z.pow_add_r 2 (e' - e - 1)) by lia.
  assert (0 < 2 ^ (e + 1074)) by (apply Z.pow_pos_nonneg; lia).
  assert (0 < 2 ^ (e' - e - 1)) by (apply Z.pow_pos_nonneg; lia).
  set (p := 2 ^ (e + 1074)) in *. set (q := 2 ^ (e' - e - 1)) in *. clearbody p q.
  change (2 ^ 1) with 2. change (2 ^ 53) with (2 * 2 ^ 52) in *.
  assert (Zpos m < Zpos m' * 2) by lia.
  apply (Z.lt_le_trans _ (Zpos m' * 2 * p)); nia.
Qed.

Lemma compare_nonneg x y v w :
  nonneg x v → nonneg y w → SFcompare x y = Some (Z.compare v w).
Proof.
  destruct 1 as [|m e Hm], 1 as [|m' e' Hm']; cbn [SFcompare]; f_equal; symmetry.
  - apply bounded_exp in Hm'. apply Z.compare_lt_iff.
    apply Z.mul_pos_pos; [lia|apply Z.pow_pos_nonneg; lia].
  - apply bounded_exp in Hm. apply Z.compare_gt_iff.
    apply Z.mul_pos_pos; [lia|apply Z.pow_pos_nonneg; lia].
  - destruct (Z.compare_spec e e') as [<-|Hlt|Hgt].
    + pose proof (bounded_exp _ _ Hm).
      change (Pos.compare_cont Eq m m') with (Zpos m ?= Zpos m').
      symmetry. apply Zmult_compare_compat_r. apply Z.lt_gt, Z.pow_pos_nonneg; lia.
    + apply Z.compare_lt_iff. by apply finite_exp_lt.
    + apply Z.compare_gt_iff. by apply finite_exp_lt.
Qed.

Lemma lt_nonneg x y v w : nonneg x v → nonneg y w → lt x y = (v <? w).
Proof.
  intros. unfold lt, SFltb, Z.ltb. by rewrite (compare_nonneg x y v w).
Qed.
Lemma le_nonneg x y v w : nonneg x v → nonneg y w → le x y = (v <=? w).
Proof.
  intros. unfold le, SFleb, Z.leb. rewrite (compare_nonneg x y v w) by done.
  by destruct (v ?= w).
Qed.

(** The value determines the double. *)
Lemma nonneg_inj x y v : nonneg x v → nonneg y v → x = y.
Proof.
  intros Hx Hy. pose proof (compare_nonneg _ _ _ _ Hx Hy) as E.
  rewrite Z.compare_refl in E. destruct Hx as [|m e Hm], Hy as [|m' e' Hm'];
    cbn in E; try done; [].
  destruct (Z.compare_spec e e') as [<-| |]; [|done..].
  change (Pos.compare_cont Eq m m') with (Pos.compare m m') in E.
  injection E as E. apply Pos.compare_eq in E. by subst.
Qed.

Lemma nonneg_fin x v : nonneg x v → is_nan x = false ∧ is_finite x = true.
Proof. by destruct 1. Qed.

Lemma min_nonneg x y v w : nonneg x v → nonneg y w → nonneg (min x y) (Z.min v w).
Proof.
  intros Hx Hy. unfold min. rewrite (proj1 (nonneg_fin _ _ Hx)), (proj1 (nonneg_fin _ _ Hy)).
  rewrite (lt_nonneg _ _ _ _ Hy Hx). destruct (Z.ltb_spec w v).
  - by rewrite Z.min_r by lia.
  - by rewrite Z.min_l by lia.
Qed.
Lemma max_nonneg x y v w : nonneg x v → nonneg y w → nonneg (max x y) (Z.max v w).
Proof.
  intros Hx Hy. unfold max. rewrite (proj1 (nonneg_fin _ _ Hx)), (proj1 (nonneg_fin _ _ Hy)).
  rewrite (lt_nonneg _ _ _ _ Hx Hy). destruct (Z.ltb_spec v w).
  - by rewrite Z.max_r by lia.
  - by rewrite Z.max_l by lia.
Qed.

(** Integers up to [2 ^ 53] are exact. *)
Definition unit : Z := 2 ^ 1074.
Lemma unit_pos : 0 < unit. Proof. done. Qed.

Lemma of_int_nonneg n : 0 ≤ n < 2 ^ 53 → nonneg (of_int n) (n * unit).
Proof.
  intros Hn. unfold of_int, unit. rewrite <-(rnd_exact n 1074) by lia.
  apply (normalize_nonneg n 0); [lia..|]. rewrite rnd_exact by lia.
  unfold overflow. replace 2098 with (1024 + 1074) by lia. rewrite Z.pow_add_r by lia.
  assert (2 ^ 53 < 2 ^ 1024) by (apply Z.pow_lt_mono_r; lia).
  assert (0 < 2 ^ 1074) by (apply Z.pow_pos_nonneg; lia). nia.
Qed.

Lemma of_int_sub a b : 0 ≤ b ≤ a → a < 2 ^ 53 → sub (of_int a) (of_int b) = of_int (a - b).
Proof.
  intros. apply (nonneg_inj _ _ ((a - b) * unit)); [|apply of_int_nonneg; lia].
  replace ((a - b) * unit) with (rnd (a * unit - b * unit)).
  - apply sub_nonneg; [apply of_int_nonneg; lia..|].
    apply Z.mul_le_mono_nonneg_r; [apply Z.lt_le_incl, unit_pos|lia].
  - rewrite <-Z.mul_sub_distr_r. apply (rnd_exact (a - b) 1074); lia.
Qed.
Lemma of_int_le a b : 0 ≤ a < 2 ^ 53 → 0 ≤ b < 2 ^ 53 → le (of_int a) (of_int b) = (a <=? b).
Proof.
  intros. rewrite (le_nonneg _ _ (a * unit) (b * unit)) by (apply of_int_nonneg; lia).
  apply eq_bool_prop_intro. rewrite !Is_true_true, !Z.leb_le.
  symmetry. apply Z.mul_le_mono_pos_r, unit_pos.
Qed.

(** ** Closure: results that overflow to infinity included *)
Definition posf (x : f64) : Prop := x = S754_infinity false ∨ ∃ v, nonneg x v.

Lemma nonneg_posf x v : nonneg x v → posf x.
Proof. right. eauto. Qed.

Lemma rne_low a e :
  0 < a → e ≤ target a e → -1074 < target a e → 2 ^ 52 ≤ rne a (2 ^ (target a e - e)).
Proof.
  intros Ha Ht Hf. rewrite <-(rne_exact (2 ^ 52) (2 ^ (target a e - e)))
    by (apply Z.pow_pos_nonneg; lia).
  apply rne_mono; [apply Z.pow_pos_nonneg; lia|].
  rewrite <-Z.pow_add_r by lia. pose proof (Z.log2_spec a Ha) as [Hl _].
  etrans; [|exact Hl]. apply Z.pow_le_mono_r; unfold target in *; lia.
Qed.

Lemma round_aux_posf a e :
  0 < a → e ≤ target a e → posf (binary_round_aux 53 1024 false a e loc_Exact).
Proof.
  intros Ha He. rewrite round_aux_pos by done. cbn zeta.
  pose proof (rne_target a e Ha He) as Hq. pose proof (rne_low a e Ha He) as Hlow.
  assert (-1074 ≤ target a e) as Hf by (unfold target; lia).
  set (f := target a e) in *. set (q := rne a _) in *. clearbody q f.
  case_decide as E.
  - change (2 ^ 52) with (Zpos (2 ^ 52)).
    destruct (Z.leb_spec (f + 1) 971); [|by left]. eapply nonneg_posf. constructor.
    apply bounded_spec. unfold target. change (Z.log2 (Z.pos (2 ^ 52))) with 52. lia.
  - destruct q as [|m|m]; [eapply nonneg_posf; constructor| |lia].
    destruct (Z.leb_spec f 971); [|by left]. eapply nonneg_posf. constructor.
    assert (Z.log2 (Zpos m) < 53) by (apply Z.log2_lt_pow2; lia).
    apply bounded_spec. split; [|done]. unfold target.
    destruct (decide (f = -1074)) as [->|]; [lia|].
    assert (52 ≤ Z.log2 (Zpos m)) by (apply Z.log2_le_pow2; lia). lia.
Qed.

Lemma round_posf m e : -1074 ≤ e → posf (binary_round 53 1024 false m e).
Proof.
  intros He. unfold binary_round. rewrite fexp_eq, digits2_log2.
  fold (target (Zpos m) e). set (t := target _ _).
  assert (Ht : -1074 ≤ t) by (unfold t, target; lia).
  destruct (decide (t < e)) as [Hlt|Hge].
  - pose proof (shl_align_fst m e t ltac:(lia)) as Hm.
    assert (snd (shl_align m e t) = t) as Hs.
    { unfold shl_align. destruct (t - e) eqn:E; [lia..|done]. }
    destruct (shl_align m e t) as [mz ez]. cbn in Hm, Hs. subst ez.
    apply round_aux_posf; [lia|]. unfold target.
    rewrite Hm, Z.log2_mul_pow2 by lia. unfold t, target in *. lia.
  - assert (shl_align m e t = (m, e)) as ->.
    { unfold shl_align. destruct (t - e) eqn:E; [done..|lia]. }
    apply round_aux_posf; [lia|]. fold t. lia.
Qed.

Lemma normalize_posf a e : 0 ≤ a → -1074 ≤ e → posf (binary_normalize 53 1024 a e false).
Proof.
  intros Ha He. destruct a as [|m|m]; [eapply nonneg_posf; constructor|by apply round_posf|lia].
Qed.

Lemma of_int_posf n : 0 ≤ n → posf (of_int n).
Proof. intros. by apply normalize_posf. Qed.

Lemma add_posf x y : posf x → posf y → posf (add x y).
Proof.
  intros [->|[v Hx]] [->|[w Hy]]; [by left|destruct Hy; by left|destruct Hx; by left|].
  destruct Hx as [|m e Hm], Hy as [|m' e' Hm']; unfold add; cbn [SFadd];
    [by eapply nonneg_posf; constructor..|].
  apply bounded_exp in Hm, Hm'. cbn [cond_Zopp].
  apply normalize_posf; lia.
Qed.

(** Multiplying by infinity a product may be NaN. *)
Lemma mul_posf x y : posf x → posf y → is_nan (mul x y) = true ∨ posf (mul x y).
Proof.
  intros [->|[v Hx]] [->|[w Hy]].
  - right. by left.
  - destruct Hy; [by left|right; by left].
  - destruct Hx; [by left|right; by left].
  - right. destruct Hx as [|m e Hm], Hy as [|m' e' Hm']; unfold mul; cbn [SFmul];
      [by eapply nonneg_posf; constructor..|]. cbn [xorb].
    apply round_aux_posf; [lia|]. apply bounded_spec in Hm as [Hm _], Hm' as [Hm' _].
    assert (Z.log2 (Zpos m) + Z.log2 (Zpos m') ≤ Z.log2 (Zpos (m * m'))) as Hl
      by (rewrite Pos2Z.inj_mul; apply Z.log2_mul_below; lia).
    pose proof (Z.log2_nonneg (Zpos m)). pose proof (Z.log2_nonneg (Zpos m')).
    unfold target in *. lia.
Qed.

(** Rounding a quotient: the location of the remainder is two further bits. *)
Definition loc_bits (l : location) : Z :=
  match l with
  | loc_Exact => 0
  | loc_Inexact Lt => 1
  | loc_Inexact Eq => 2
  | loc_Inexact Gt => 3
  end.
Lemma shr_loc_bits m l :
  0 < m → shr_record_of_loc m l = shr_1 (shr_1 (Build_shr_record (4 * m + loc_bits l) false false)).
Proof. destruct m as [|m|m]; [done| |done]. by destruct l as [|[]]. Qed.

Lemma round_aux_loc m e l :
  0 < m → e ≤ target m e →
  binary_round_aux 53 1024 false m e l
  = binary_round_aux 53 1024 false (4 * m + loc_bits l) (e - 2) loc_Exact.
Proof.
  intros Hm He. assert (0 ≤ loc_bits l < 4) as Hl by (destruct l as [|[]]; cbn; lia).
  assert (Z.log2 (4 * m + loc_bits l) = Z.log2 m + 2) as Hlog.
  { apply Z.log2_unique; [pose proof (Z.log2_nonneg m); lia|].
    pose proof (Z.log2_spec m Hm) as [H1 H2]. pose proof (Z.log2_nonneg m).
    rewrite <-Z.add_succ_l, !Z.pow_add_r by lia. lia. }
  assert (shr_fexp 53 1024 m e l = shr_fexp 53 1024 (4 * m + loc_bits l) (e - 2) loc_Exact) as E;
    [|unfold binary_round_aux; by rewrite E].
  unfold shr_fexp. rewrite !fexp_eq, !Zdigits2_log2, Hlog by lia.
  replace (Z.log2 m + 2 + 1 + (e - 2)) with (Z.log2 m + 1 + e) by lia.
  fold (target m e). cbn [shr_record_of_loc]. rewrite shr_loc_bits by done.
  set (r := Build_shr_record _ _ _). unfold shr.
  destruct (target m e - e) as [|p|p] eqn:Ep; [| |lia].
  - replace (target m e - (e - 2)) with 2 by lia. cbn. f_equal. lia.
  - replace (target m e - (e - 2)) with (Zpos (p + 2)) by lia.
    rewrite !iter_pos_iter, Pos2Nat.inj_add, Nat.iter_add. cbn [Nat.iter Pos.to_nat Pos.iter_op Nat.add].
    f_equal. lia.
Qed.

(** The significand and exponent of an integer below [2 ^ 53]. *)
Lemma of_int_normal n :
  1 ≤ n < 2 ^ 53 → ∃ m e, of_int n = S754_finite false m e ∧
    2 ^ 52 ≤ Zpos m < 2 ^ 53 ∧ -53 < e ≤ 0.
Proof.
  intros Hn. pose proof (of_int_nonneg n ltac:(lia)) as H. pose proof unit_pos.
  inversion H as [E1 E2|m e Hb E1 E2]; [nia|]. exists m, e. split; [done|].
  pose proof (bounded_exp _ _ Hb) as He. pose proof (bounded_mantissa _ _ Hb) as Hm.
  apply bounded_spec in Hb as [Ht _]. unfold target in Ht.
  assert (-53 < e) as Hlow.
  { apply Z.nle_gt. intros Hle.
    assert (2 ^ (e + 1074) ≤ 2 ^ 1021) as H1 by (apply Z.pow_le_mono_r; lia).
    assert (unit = 2 ^ 53 * 2 ^ 1021) as Hu by (unfold unit; rewrite <-Z.pow_add_r; done).
    set (p := 2 ^ 1021) in *. set (q := 2 ^ (e + 1074)) in *.
    assert (0 < q) by (apply Z.pow_pos_nonneg; lia). clearbody p q. nia. }
  assert (2 ^ 52 ≤ Zpos m) by (apply Z.log2_le_pow2; lia).
  split; [lia|]. split; [done|]. apply Z.nlt_ge. intros Hgt.
  assert (2 ^ 1075 ≤ 2 ^ (e + 1074)) as Hle by (apply Z.pow_le_mono_r; lia).
  assert (2 ^ 1075 = 2 * unit) as Hu by done. rewrite Hu in Hle.
  set (p := unit) in *. set (q := 2 ^ (e + 1074)) in *. clearbody p q.
  change (2 ^ 53) with (2 * 2 ^ 52) in *. nia.
Qed.

Lemma div_ints_posf a b : 0 ≤ a < 2 ^ 53 → 1 ≤ b < 2 ^ 53 → posf (div (of_int a) (of_int b)).
Proof.
  intros Ha Hb. destruct (of_int_normal b Hb) as (m2 & e2 & -> & Hm2 & He2).
  destruct (decide (a = 0)) as [->|Hne]; [eapply nonneg_posf; constructor|].
  destruct (of_int_normal a ltac:(lia)) as (m1 & e1 & -> & Hm1 & He1).
  unfold div. cbn [SFdiv]. unfold SFdiv_core_binary.
  assert (∀ m, 2 ^ 52 ≤ Zpos m < 2 ^ 53 → Zdigits2 (Zpos m) = 53) as Hd.
  { intros m ?. rewrite Zdigits2_log2 by lia.
    rewrite (Z.log2_unique (Zpos m) 52); [done..|lia]. }
  rewrite !Hd, fexp_eq by done.
  replace (Z.min _ (e1 - e2)) with (e1 - e2 - 53) by lia.
  replace (e1 - e2 - (e1 - e2 - 53)) with 53 by lia. cbn match.
  rewrite Z.shiftl_mul_pow2 by lia.
  pose proof (Z_div_mod (Zpos m1 * 2 ^ 53) (Zpos m2) ltac:(lia)) as Hdm.
  destruct (Z.div_eucl _ _) as [q r]. destruct Hdm as [Hq Hr]. cbn [xorb].
  assert (2 ^ 52 ≤ q) by nia.
  assert (52 ≤ Z.log2 q) by (apply Z.log2_le_pow2; lia).
  assert (e1 - e2 - 53 ≤ target q (e1 - e2 - 53)) by (unfold target; lia).
  rewrite round_aux_loc by lia.
  assert (0 ≤ loc_bits (new_location (Zpos m2) r)) by (destruct (new_location _ _) as [|[]]; cbn; lia).
  apply round_aux_posf; [lia|].
  assert (Z.log2 q ≤ Z.log2 (4 * q + loc_bits (new_location (Zpos m2) r))) by (apply Z.log2_le_mono; lia).
  unfold target in *. lia.
Qed.

Lemma as_secs_posf n : 0 ≤ n → posf (as_secs_f64 n).
Proof.
  intros. unfold as_secs_f64. apply add_posf.
  - apply of_int_posf. apply Z.div_pos; lia.
  - apply div_ints_posf; [|lia]. pose proof (Z.mod_pos_bound n 1000000000). lia.
Qed.

(** Capping a possibly overflowed or undefined amount. *)
Lemma min_cap x c w :
  is_nan x = true ∨ posf x → nonneg c w → ∃ v, nonneg (min x c) v ∧ v ≤ w.
Proof.
  intros [Hn|[->|[v Hx]]] Hc.
  - exists w. unfold min. rewrite Hn. split; [done|lia].
  - exists w. split; [|lia]. unfold min. cbn. rewrite (proj1 (nonneg_fin _ _ Hc)).
    assert (lt c (S754_infinity false) = true) as ->; [|done]. by destruct Hc.
  - exists (Z.min v w). split; [by apply min_nonneg|lia].
Qed.

End F64.
