(* ===== verification/FloatText.v ===== *)
(** * FloatText: the text of an [f64] ([f64::from_str] and [Display for f64])

    Reading rounds the decimal it denotes once, to nearest even; printing gives the
    shortest decimal that reads back as the same double, the nearer one when two
    are as short, without an exponent. *)

From S2P Require Import Prelude Text Float64.
From Stdlib Require Import Floats.SpecFloat.

Module FloatText.
Local Open Scope Z_scope.

(** The double nearest to [num / den], both positive: the quotient is kept to at
    least 66 bits, with a last bit that tells whether anything was left. *)
Definition of_ratio (num den : Z) : f64 :=
  let s := Z.max 0 (Z.log2 den - Z.log2 num + 66) in
  let q := (num * 2 ^ s) / den in
  let sticky := if (num * 2 ^ s) mod den =? 0 then 0 else 1 in
  binary_normalize 53 1024 (2 * q + sticky) (- s - 1) false.
(** [m * 10^k]. *)
Definition of_decimal (m k : Z) : f64 :=
  if m =? 0 then F64.zero
  else if 0 <=? k then of_ratio (m * 10 ^ k) 1 else of_ratio m (10 ^ (- k)).
Definition negate (negative : bool) (x : f64) : f64 := if negative then SFopp x else x.

(** ** Reading *)
Definition digit (a : Ascii.ascii) : option Z :=
  let n := Z.of_N (N_of_ascii a) in
  if (48 <=? n) && (n <=? 57) then Some (n - 48) else None.
(** The leading digits: their value on top of [acc], how many there are, the rest. *)
Fixpoint digits (acc count : Z) (s : string) : Z * Z * string :=
  match s with
  | EmptyString => (acc, count, s)
  | String a r =>
      match digit a with
      | Some d => digits (acc * 10 + d) (count + 1) r
      | None => (acc, count, s)
      end
  end.
Definition sign (s : string) : bool * string :=
  match s with
  | String "-" r => (true, r)
  | String "+" r => (false, r)
  | _ => (false, s)
  end.
Definition lower (a : Ascii.ascii) : Ascii.ascii :=
  let n := N_of_ascii a in
  if ((65 <=? n) && (n <=? 90))%N then ascii_of_N (n + 32) else a.
Fixpoint lower_all (s : string) : string :=
  match s with EmptyString => "" | String a r => String (lower a) (lower_all r) end.

(** The exponent part: nothing, or [e] and a signed number. *)
Definition exponent (s : string) : option Z :=
  match s with
  | EmptyString => Some 0
  | String a r =>
      if bool_decide (lower a = "e"%char) then
        let '(negative, r) := sign r in
        let '(v, n, r) := digits 0 0 r in
        if (0 <? n) && bool_decide (r = "") then Some (if negative then - v else v) else None
      else None
  end.
Definition unsigned (s : string) : option f64 :=
  let '(whole, n, r) := digits 0 0 s in
  let '(m, scale, total, r) :=
    match r with
    | String "." r => let '(m, n', r) := digits whole 0 r in (m, n', n + n', r)
    | _ => (whole, 0, n, r)
    end in
  if 0 <? total then k ← exponent r; Some (of_decimal m (k - scale)) else None.
Definition special (s : string) : option f64 :=
  let s := lower_all s in
  if decide (s = "inf" ∨ s = "infinity") then Some (S754_infinity false)
  else if decide (s = "nan") then Some S754_nan else None.
Definition parse (s : string) : result string f64 :=
  if decide (s = "") then Err "cannot parse float from empty string"
  else
    let '(negative, r) := sign s in
    match special r with
    | Some x => Ok (negate negative x)
    | None => ok_or "invalid float literal" (negate negative <$> unsigned r)
    end.

(** ** Printing *)
(** [10^k] as a ratio on either side. *)
Definition scaled (num den k : Z) : Z * Z :=
  if 0 <=? k then (num, den * 10 ^ k) else (num * 10 ^ (- k), den).
(** The decimal exponent of [num / den]: the last [p] of the five around the
    estimate with [10^p <= num / den]. *)
Definition decimal_exponent (num den : Z) : Z :=
  let p0 := (Z.log2 num - Z.log2 den) * 30103 / 100000 in
  foldl (λ acc p, let '(a, b) := scaled num den p in if b <=? a then p else acc) (p0 - 2)
    [p0 - 2; p0 - 1; p0; p0 + 1; p0 + 2].
(** Trailing zeros of the digits belong to the exponent. *)
Fixpoint strip_zeros (fuel : nat) (m k : Z) : Z * Z :=
  match fuel with
  | O => (m, k)
  | S fuel => if (m mod 10 =? 0) && negb (m =? 0) then strip_zeros fuel (m / 10) (k + 1) else (m, k)
  end.
(** With [n] digits: the neighbour below and the one above, the nearer first. *)
Definition candidates (num den n : Z) : list (Z * Z) :=
  let k := decimal_exponent num den - (n - 1) in
  let '(a, b) := scaled num den k in
  let below := a / b in
  map (λ m, strip_zeros 17 m k)
    (if 2 * (a mod b) <=? b then [below; below + 1] else [below + 1; below]).
Definition reads_as (x : f64) (mk : Z * Z) : bool :=
  match SFcompare (of_decimal mk.1 mk.2) x with Some Eq => true | _ => false end.
Fixpoint shortest (fuel : nat) (n : Z) (x : f64) (num den : Z) : Z * Z :=
  match fuel, find_first (reads_as x) (candidates num den n) with
  | _, Some mk => mk
  | O, None => (0, 0)
  | S fuel, None => shortest fuel (n + 1) x num den
  end.

Definition zeros (n : Z) : string := of_bytes (repeat Byte.x30 (Z.to_nat n)).
(** [m * 10^k] in full. *)
Definition plain (m k : Z) : string :=
  let s := pretty m in
  let len := Z.of_nat (String.length s) in
  if 0 <=? k then s +:+ zeros k
  else if len <=? - k then "0." +:+ zeros (- k - len) +:+ s
  else String.substring 0 (Z.to_nat (len + k)) s +:+ "."
         +:+ String.substring (Z.to_nat (len + k)) (Z.to_nat (- k)) s.
Definition display (x : f64) : string :=
  match x with
  | S754_zero negative => if negative then "-0" else "0"
  | S754_infinity negative => if negative then "-inf" else "inf"
  | S754_nan => "NaN"
  | S754_finite negative m e =>
      let '(num, den) := if 0 <=? e then (Zpos m * 2 ^ e, 1) else (Zpos m, 2 ^ (- e)) in
      let '(d, k) := shortest 17 1 (S754_finite false m e) num den in
      (if negative then "-" else "") +:+ plain d k
  end.

Example parse_ex : parse "12.5" = Ok (F64.div (F64.of_int 25) (F64.of_int 2)).
Proof. vm_compute. reflexivity. Qed.
Example parse_tenth : (λ x, F64.mul x (F64.of_int 10)) <$> parse "0.1" = Ok F64.one.
Proof. vm_compute. reflexivity. Qed.
Example display_ex :
  map (λ s, display <$> parse s) ["500"; "12.5"; "1e21"; "-.25"; "5.684341886080801e-14"; "0.30000000000000004"; "+iNf"]
  = map Ok ["500"; "12.5"; "1000000000000000000000"; "-0.25"; "0.00000000000005684341886080801"; "0.30000000000000004"; "inf"].
Proof. vm_compute. reflexivity. Qed.
Example parse_errors :
  map parse [""; "."; "1e"; "1.5x"; " 1"; "e5"]
  = map Err ("cannot parse float from empty string" :: repeat "invalid float literal" 5).
Proof. vm_compute. reflexivity. Qed.
End FloatText.
