(* ===== verification/FloatTrip.v ===== *)
(** * FloatTrip: a double printed and read again

    The shortest search of [FloatText] always succeeds: seventeen digits are nearer to a
    double than half the gap to its neighbours. So what [Display] prints, [from_str]
    reads as the same double. *)

From S2P Require Import Prelude Text Float64 FloatText.
From Stdlib Require Import Floats.SpecFloat.

Module FloatTrip.
Import F64 FloatText.
Local Open Scope Z_scope.

(** ** Rounding a quotient *)

(** A quotient with a last bit for what was left compares to the even numbers as the
    exact quotient does. *)
Definition sticky (a d : Z) : Z := 2 * (a / d) + (if a mod d =? 0 then 0 else 1).
Lemma sticky_lt a d b : 0 < d → a < b * d → sticky a d < 2 * b.
Proof.
  intros Hd Ha. pose proof (Z.div_mod a d ltac:(lia)). pose proof (Z.mod_pos_bound a d Hd).
  unfold sticky. destruct (Z.eqb_spec (a mod d) 0); nia.
Qed.
Lemma sticky_gt a d b : 0 < d → b * d < a → 2 * b < sticky a d.
Proof.
  intros Hd Ha. pose proof (Z.div_mod a d ltac:(lia)). pose proof (Z.mod_pos_bound a d Hd).
  unfold sticky. destruct (Z.eqb_spec (a mod d) 0); nia.
Qed.
(** Within half a unit, the nearest integer is the one. *)
Lemma rne_near a j q : 1 ≤ j → q * 2 ^ j - 2 ^ (j - 1) < a < q * 2 ^ j + 2 ^ (j - 1) → rne a (2 ^ j) = q.
Proof.
  intros Hj Ha. assert (2 ^ j = 2 * 2 ^ (j - 1)) as E by (rewrite <-(Z.pow_add_r 2 1) by lia; f_equal; lia).
  assert (0 < 2 ^ (j - 1)) as Hp by (apply Z.pow_pos_nonneg; lia).
  rewrite E in *. set (h := 2 ^ (j - 1)) in *. clearbody h.
  assert (∀ r k, a = 2 * h * k + r → 0 ≤ r < 2 * h → k = q ∧ r < h ∨ k = q - 1 ∧ h < r) as Hr.
  { intros r k -> Hr. assert (h * (q - k) < h * 2) as H1 by lia. assert (h * (-1) < h * (q - k)) as H2 by lia.
    apply Z.mul_lt_mono_pos_l in H1; [|done]. apply Z.mul_lt_mono_pos_l in H2; [|done].
    assert (k = q ∨ k = q - 1) as [-> | ->] by lia; [left|right]; lia. }
  unfold rne. destruct (Hr (a mod (2 * h)) (a / (2 * h))) as [[-> Hm]|[-> Hm]].
  - apply Z.div_mod. lia.
  - apply Z.mod_pos_bound. lia.
  - by rewrite (proj2 (Z.ltb_lt _ _)) by lia.
  - rewrite (proj2 (Z.ltb_ge _ _)) by lia. rewrite (proj2 (Z.ltb_lt _ _)) by lia. lia.
Qed.
(** A quotient [n / d] within [2 ^ -54] of [p], in relative terms, is rounded to it. *)
Definition near (n d p : Z) : Prop := 2 ^ 54 * Z.abs (n - p * d) < p * d.
Lemma near_scale n d p k : 0 < k → near (n * k) d (p * k) ↔ near n d p.
Proof.
  intros Hk. unfold near. replace (n * k - p * k * d) with ((n - p * d) * k) by ring.
  rewrite Z.abs_mul, (Z.abs_eq k) by lia. replace (p * k * d) with (p * d * k) by ring.
  rewrite Z.mul_assoc. symmetry. by apply Z.mul_lt_mono_pos_r.
Qed.
Lemma sticky_rne n d q j :
  0 < d → 2 ≤ j → 0 < q ≤ 2 ^ 53 → near (2 * n) d (q * 2 ^ j) → rne (sticky n d) (2 ^ j) = q.
Proof.
  intros Hd Hj Hq Hn. apply rne_near; [lia|]. unfold near in Hn.
  assert (2 ^ j = 4 * 2 ^ (j - 2)) as E by (rewrite <-(Z.pow_add_r 2 2) by lia; f_equal; lia).
  assert (2 ^ (j - 1) = 2 * 2 ^ (j - 2)) as E1 by (rewrite <-(Z.pow_add_r 2 1) by lia; f_equal; lia).
  assert (0 < 2 ^ (j - 2)) as Hp by (apply Z.pow_pos_nonneg; lia).
  rewrite E, E1 in *. set (h := 2 ^ (j - 2)) in *. clearbody h.
  assert (2 ^ 54 * Z.abs (2 * n - q * (4 * h) * d) < 2 ^ 53 * (4 * h * d)) as Hb by nia.
  change (2 ^ 54) with (2 * 2 ^ 53) in Hb.
  assert (Z.abs (2 * n - q * (4 * h) * d) < 2 * h * d) as Habs by nia.
  split.
  - replace (q * (4 * h) - 2 * h) with (2 * (q * (2 * h) - h)) by lia. apply sticky_gt; nia.
  - replace (q * (4 * h) + 2 * h) with (2 * (q * (2 * h) + h)) by lia. apply sticky_lt; nia.
Qed.

(** The quotient [of_ratio] keeps has at least 66 bits. *)
Definition kept (num den : Z) : Z := Z.max 0 (Z.log2 den - Z.log2 num + 66).
Lemma kept_large num den : 0 < num → 0 < den → 2 ^ 65 * den ≤ num * 2 ^ kept num den.
Proof.
  intros Hn Hd. pose proof (Z.log2_spec num Hn) as [Hn1 _]. pose proof (Z.log2_spec den Hd) as [_ Hd1].
  pose proof (Z.log2_nonneg num). pose proof (Z.log2_nonneg den).
  assert (0 ≤ kept num den) by (unfold kept; lia).
  etrans; [apply Z.mul_le_mono_nonneg_l; [lia|apply Z.lt_le_incl, Hd1]|].
  etrans; [|apply Z.mul_le_mono_nonneg_r; [apply Z.pow_nonneg; lia|exact Hn1]].
  rewrite <-!Z.pow_add_r by lia. apply Z.pow_le_mono_r; unfold kept in *; lia.
Qed.
Lemma sticky_large num den :
  0 < num → 0 < den → 66 ≤ Z.log2 (sticky (num * 2 ^ kept num den) den).
Proof.
  intros Hn Hd. pose proof (kept_large num den Hn Hd) as Hk.
  destruct (decide (2 ^ 65 * den = num * 2 ^ kept num den)) as [E|E].
  - unfold sticky. by rewrite <-E, Z.div_mul, Z.mod_mul by lia.
  - assert (2 ^ 66 < sticky (num * 2 ^ kept num den) den); [|apply Z.log2_le_pow2; lia].
    change (2 ^ 66) with (2 * 2 ^ 65). apply sticky_gt; lia.
Qed.
Lemma of_ratio_aux num den :
  0 < num → 0 < den →
  of_ratio num den = binary_round_aux 53 1024 false (sticky (num * 2 ^ kept num den) den) (- kept num den - 1) loc_Exact.
Proof.
  intros Hn Hd. unfold of_ratio. fold (kept num den). cbv zeta. fold (sticky (num * 2 ^ kept num den) den).
  pose proof (sticky_large num den Hn Hd) as Hl.
  set (s := kept num den) in *. set (a := sticky _ _) in *. clearbody a.
  destruct a as [|p|p]; [done| |done]. cbn [binary_normalize]. unfold binary_round.
  rewrite fexp_eq, digits2_log2. fold (target (Zpos p) (- s - 1)).
  assert (- s - 1 ≤ target (Zpos p) (- s - 1)) as Ht by (unfold target; lia).
  assert (shl_align p (- s - 1) (target (Zpos p) (- s - 1)) = (p, - s - 1)) as ->; [|done].
  unfold shl_align. destruct (target (Zpos p) (- s - 1) - (- s - 1)) eqn:E; [done..|lia].
Qed.

(** A quotient near a double rounds to it. *)
Lemma of_ratio_near num den m e :
  0 < num → 0 < den → bounded 53 1024 m e = true →
  near (num * 2 ^ 1074) den (Zpos m * 2 ^ (e + 1074)) → of_ratio num den = S754_finite false m e.
Proof.
  intros Hn Hd Hb Hnear. rewrite of_ratio_aux by done. pose proof (kept_large num den Hn Hd) as Hk.
  assert (0 ≤ kept num den) as Hs0 by (unfold kept; lia).
  set (s := kept num den) in *. clearbody s. set (N := num * 2 ^ s) in *.
  pose proof (bounded_exp _ _ Hb) as He. pose proof (bounded_mantissa _ _ Hb) as Hm.
  apply bounded_spec in Hb as [Ht He'].
  assert (2 ^ (e + 1074) * 2 ^ s = 2 ^ (e + s + 1074)) as Ees by (rewrite <-Z.pow_add_r by lia; f_equal; lia).
  assert (0 < 2 ^ s) as Hps by (apply Z.pow_pos_nonneg; lia).
  assert (12 < e + s + 1) as Hc.
  { apply Z.nle_gt. intros Hle.
    assert (2 ^ (e + s + 1074) ≤ 2 ^ 1085) as Hp by (apply Z.pow_le_mono_r; lia).
    assert (2 ^ 54 * (num * 2 ^ 1074) < (2 ^ 54 + 1) * (Zpos m * 2 ^ (e + 1074)) * den) as Hv
      by (unfold near in Hnear; lia).
    apply (Z.mul_lt_mono_pos_r (2 ^ s)) in Hv; [|done].
    assert ((2 ^ 54 + 1) * (Zpos m * 2 ^ (e + 1074)) * den * 2 ^ s
      = (2 ^ 54 + 1) * Zpos m * den * 2 ^ (e + s + 1074)) as E by (rewrite <-Ees; ring).
    rewrite E in Hv. assert (2 ^ 54 * (num * 2 ^ 1074) * 2 ^ s = 2 ^ 1128 * N) as E2.
    { unfold N. change (2 ^ 1128) with (2 ^ 54 * 2 ^ 1074). ring. }
    rewrite E2 in Hv. clear E E2.
    assert ((2 ^ 54 + 1) * Zpos m * den * 2 ^ (e + s + 1074) ≤ 2 ^ 55 * 2 ^ 53 * den * 2 ^ 1085).
    { apply Z.mul_le_mono_nonneg; [nia| |apply Z.pow_nonneg; lia|done].
      apply Z.mul_le_mono_nonneg_r; [lia|]. apply Z.mul_le_mono_nonneg; lia. }
    change (2 ^ 55 * 2 ^ 53 * den * 2 ^ 1085) with (2 ^ 55 * 2 ^ 53 * den * 2 ^ 1085) in *.
    replace (2 ^ 55 * 2 ^ 53 * den * 2 ^ 1085) with (2 ^ 1128 * (2 ^ 65 * den)) in * by (change (2 ^ 1128) with (2 ^ 43 * 2 ^ 1085); ring).
    assert (0 < 2 ^ 1128) by done. nia. }
  set (c := e + s + 1) in *.
  assert (near (2 * N) den (Zpos m * 2 ^ c)) as HN.
  { apply (near_scale _ _ _ (2 ^ 1074)); [done|]. apply (near_scale _ _ _ (2 * 2 ^ s)) in Hnear; [|lia].
    replace (2 * N * 2 ^ 1074) with (num * 2 ^ 1074 * (2 * 2 ^ s)) by (unfold N; ring).
    replace (Zpos m * 2 ^ c * 2 ^ 1074) with (Zpos m * 2 ^ (e + 1074) * (2 * 2 ^ s)); [done|].
    rewrite <-Z.mul_assoc. replace (2 ^ (e + 1074) * (2 * 2 ^ s)) with (2 * (2 ^ (e + 1074) * 2 ^ s)) by ring.
    rewrite Ees, <-(Z.pow_add_r 2 1) by lia. rewrite <-Z.mul_assoc, <-Z.pow_add_r by lia. do 2 f_equal. lia. }
  clear Hnear Ees Hk. clearbody N.
  replace (- s - 1) with (e - c) by lia. clearbody c. clear s Hs0 Hps.
  (* between the powers of two around the double *)
  pose proof (Z.log2_spec (Zpos m) ltac:(lia)) as [Hm1 Hm2]. pose proof (Z.log2_nonneg (Zpos m)) as Hm0.
  assert (Z.log2 (Zpos m) < 53) as Hm53 by (apply Z.log2_lt_pow2; lia).
  set (k := Z.log2 (Zpos m)) in *.
  assert (2 ^ (k + c) = 2 ^ k * 2 ^ c) as Ekc by (apply Z.pow_add_r; lia).
  assert (2 ^ c = 4 * 2 ^ (c - 2)) as Ec by (rewrite <-(Z.pow_add_r 2 2) by lia; f_equal; lia).
  assert (0 < 2 ^ (c - 2)) as Hpc by (apply Z.pow_pos_nonneg; lia).
  assert (Z.abs (2 * N - Zpos m * 2 ^ c * den) < 2 * 2 ^ (c - 2) * den) as Habs.
  { unfold near in HN. rewrite Ec in HN. assert (Zpos m * (4 * 2 ^ (c - 2)) * den ≤ 2 ^ 53 * (4 * 2 ^ (c - 2)) * den).
    { apply Z.mul_le_mono_nonneg_r; [lia|]. apply Z.mul_le_mono_nonneg_r; lia. }
    rewrite Ec. lia. }
  rewrite Ec in Ekc. set (h := 2 ^ (c - 2)) in *. rewrite Ec in Habs.
  assert (1 ≤ 2 ^ k) as H1k by (pose proof (Z.pow_pos_nonneg 2 k); lia).
  assert (sticky N den < 2 ^ (k + c + 1)) as Hup.
  { replace (2 ^ (k + c + 1)) with (2 * (2 ^ k * (4 * h))) by (rewrite Z.pow_add_r, Ekc by lia; lia).
    apply sticky_lt; [done|]. rewrite Z.pow_succ_r in Hm2 by done.
    assert (Zpos m * (4 * h) * den ≤ (2 * 2 ^ k - 1) * (4 * h) * den)
      by (apply Z.mul_le_mono_nonneg_r; [lia|]; apply Z.mul_le_mono_nonneg_r; lia). nia. }
  assert (2 ^ (k + c - 1) < sticky N den) as Hlow.
  { replace (2 ^ (k + c - 1)) with (2 * (2 ^ k * h)).
    - apply sticky_gt; [done|].
      assert (2 ^ k * (4 * h) * den ≤ Zpos m * (4 * h) * den)
        by (apply Z.mul_le_mono_nonneg_r; [lia|]; apply Z.mul_le_mono_nonneg_r; lia).
      assert (1 * (h * den) ≤ 2 ^ k * (h * den)) by (apply Z.mul_le_mono_nonneg_r; nia). lia.
    - unfold h. rewrite <-Z.pow_add_r, <-(Z.pow_add_r 2 1) by lia. f_equal. lia. }
  assert (2 ^ (k + c) ≤ sticky N den ∨ Zpos m = 2 ^ k) as Hmid.
  { destruct (decide (Zpos m = 2 ^ k)) as [|Hne]; [by right|left].
    apply Z.lt_le_incl. rewrite Ekc. replace (2 ^ k * (4 * h)) with (2 * (2 ^ k * (2 * h))) by lia. apply sticky_gt; [done|].
    assert ((2 ^ k + 1) * (4 * h) * den ≤ Zpos m * (4 * h) * den)
      by (apply Z.mul_le_mono_nonneg_r; [lia|]; apply Z.mul_le_mono_nonneg_r; lia). nia. }
  assert (target (Zpos m) e = Z.max (k + 1 + e - 53) (-1074)) as Etm by done.
  assert (0 < sticky N den) as Hpos.
  { assert (0 < 2 ^ (k + c - 1)) by (apply Z.pow_pos_nonneg; lia). lia. }
  destruct (decide (2 ^ (k + c) ≤ sticky N den)) as [Hge|Hlt].
  - assert (Z.log2 (sticky N den) = k + c) as Hl by (apply Z.log2_unique; lia).
    assert (target (sticky N den) (e - c) = e) as Hta by (unfold target at 1; lia).
    rewrite round_aux_pos by lia. rewrite Hta. replace (e - (e - c)) with c by lia.
    rewrite (sticky_rne N den (Zpos m) c) by (done || lia). cbv zeta.
    rewrite decide_False by lia. by rewrite (proj2 (Z.leb_le _ _)) by lia.
  - destruct Hmid as [?|Hmk]; [lia|].
    assert (Z.log2 (sticky N den) = k + c - 1) as Hl.
    { apply Z.log2_unique; [lia|]. replace (Z.succ (k + c - 1)) with (k + c) by lia. lia. }
    destruct (decide (e = -1074)) as [Hs|Hs].
    + assert (target (sticky N den) (e - c) = e) as Hta by (unfold target at 1; lia).
      rewrite round_aux_pos by lia. rewrite Hta. replace (e - (e - c)) with c by lia.
      rewrite (sticky_rne N den (Zpos m) c) by (done || lia). cbv zeta.
      rewrite decide_False by lia. by rewrite (proj2 (Z.leb_le _ _)) by lia.
    + assert (k = 52) as Hk52 by lia. assert (target (sticky N den) (e - c) = e - 1) as Hta by (unfold target at 1; lia).
      rewrite round_aux_pos by lia. rewrite Hta. replace (e - 1 - (e - c)) with (c - 1) by lia.
      rewrite Hmk, Hk52 in HN. rewrite (sticky_rne N den (2 ^ 53) (c - 1)); [|done|lia|lia|].
      * cbv zeta. rewrite decide_True by done. replace (e - 1 + 1) with e by lia.
        rewrite Hk52 in Hmk. rewrite <-Hmk. by rewrite (proj2 (Z.leb_le _ _)) by lia.
      * replace (2 ^ 53 * 2 ^ (c - 1)) with (2 ^ 52 * 2 ^ c); [done|].
        rewrite <-!Z.pow_add_r by lia. f_equal. lia.
Qed.

(** ** Seventeen digits *)

(** [m * 10^k] as a ratio, and an [f64] as one. *)
Definition ratio_of (m k : Z) : Z * Z := if 0 <=? k then (m * 10 ^ k, 1) else (m, 10 ^ (- k)).
Definition ratio_of_double (m : positive) (e : Z) : Z * Z :=
  if 0 <=? e then (Zpos m * 2 ^ e, 1) else (Zpos m, 2 ^ (- e)).
Lemma of_decimal_ratio m k : 0 < m → of_decimal m k = of_ratio (ratio_of m k).1 (ratio_of m k).2.
Proof.
  intros Hm. unfold of_decimal, ratio_of. rewrite (proj2 (Z.eqb_neq m 0)) by lia. by destruct (0 <=? k).
Qed.
Lemma pow10_pos n : 0 ≤ n → 0 < 10 ^ n.
Proof. intros. by apply Z.pow_pos_nonneg. Qed.
Lemma ratio_of_pos m k : 0 < m → 0 < (ratio_of m k).1 ∧ 0 < (ratio_of m k).2.
Proof.
  intros Hm. unfold ratio_of. destruct (Z.leb_spec 0 k); cbn [fst snd]; (split; [|done || apply pow10_pos; lia]).
  - pose proof (pow10_pos k). lia.
  - done.
Qed.
Lemma ratio_of_double_unit m e :
  -1074 ≤ e → let '(num, den) := ratio_of_double m e in
  0 < num ∧ 0 < den ∧ Zpos m * 2 ^ (e + 1074) * den = num * 2 ^ 1074.
Proof.
  intros He. unfold ratio_of_double. destruct (Z.leb_spec 0 e).
  - pose proof (Z.pow_pos_nonneg 2 e). split_and!; [lia..|]. rewrite Z.pow_add_r by lia. ring.
  - split_and!; [lia|apply Z.pow_pos_nonneg; lia|]. rewrite <-Z.mul_assoc, <-Z.pow_add_r by lia. do 2 f_equal. lia.
Qed.

(** Nearness of two ratios. *)
Definition near_ratio (cn cd num den : Z) : Prop := 2 ^ 54 * Z.abs (cn * den - num * cd) < num * cd.
Lemma near_ratio_double cn cd m e :
  -1074 ≤ e → 0 < cd →
  near_ratio cn cd (ratio_of_double m e).1 (ratio_of_double m e).2 →
  near (cn * 2 ^ 1074) cd (Zpos m * 2 ^ (e + 1074)).
Proof.
  intros He Hcd. pose proof (ratio_of_double_unit m e He) as Hr.
  destruct (ratio_of_double m e) as [num den]. destruct Hr as (Hnum & Hden & Hu). cbn [fst snd].
  unfold near_ratio, near. set (v := Zpos m * 2 ^ (e + 1074)) in *. intros Hn.
  assert (0 < 2 ^ 1074) as Hp by done. set (u := 2 ^ 1074) in *. clearbody u v.
  apply (Z.mul_lt_mono_pos_r u) in Hn; [|done]. apply (Z.mul_lt_mono_pos_r den); [done|].
  replace (v * cd * den) with (num * cd * u) by (rewrite <-(Z.mul_assoc v), (Z.mul_comm cd), Z.mul_assoc, Hu; ring).
  replace (2 ^ 54 * Z.abs (cn * u - v * cd) * den) with (2 ^ 54 * Z.abs (cn * den - num * cd) * u); [done|].
  rewrite <-!Z.mul_assoc. f_equal. rewrite <-(Z.abs_eq u) at 1 by lia. rewrite <-(Z.abs_eq den) at 2 by lia.
  rewrite <-!Z.abs_mul. f_equal. rewrite !Z.mul_sub_distr_r.
  replace (v * cd * den) with (num * cd * u) by (rewrite <-(Z.mul_assoc v), (Z.mul_comm cd), Z.mul_assoc, Hu; ring). ring.
Qed.

(** Scaling by a power of ten, and the decimal it leaves. *)
Lemma scaled_ratio num den k m :
  0 < num → 0 < den → let '(a, b) := scaled num den k in
  0 < a ∧ 0 < b ∧ (ratio_of m k).1 * den - num * (ratio_of m k).2 = m * b - a ∧ num * (ratio_of m k).2 = a.
Proof.
  intros Hn Hd. unfold scaled, ratio_of. destruct (Z.leb_spec 0 k); cbn [fst snd].
  - pose proof (pow10_pos k). split_and!; [lia|lia|ring|lia].
  - pose proof (pow10_pos (- k)). split_and!; [lia|lia|ring|lia].
Qed.
(** Stripping zeros does not change it. *)
Lemma strip_zeros_ratio fuel m k :
  0 < m → let '(m', k') := strip_zeros fuel m k in
  0 < m' ∧ (ratio_of m' k').1 * (ratio_of m k).2 = (ratio_of m k).1 * (ratio_of m' k').2.
Proof.
  revert m k. induction fuel as [|fuel IH]; intros m k Hm; [done|]. cbn [strip_zeros].
  rewrite (proj2 (Z.eqb_neq m 0)) by lia. rewrite andb_true_r. destruct (Z.eqb_spec (m mod 10) 0) as [E|]; [|done].
  assert (m = 10 * (m / 10)) as Em by (pose proof (Z.div_mod m 10 ltac:(lia)); lia).
  specialize (IH (m / 10) (k + 1) ltac:(lia)). destruct (strip_zeros fuel (m / 10) (k + 1)) as [m' k'].
  destruct IH as [Hm' IH]. split; [done|]. set (q := m / 10) in *. clearbody q. subst m.
  assert ((ratio_of q (k + 1)).1 * (ratio_of (10 * q) k).2 = (ratio_of (10 * q) k).1 * (ratio_of q (k + 1)).2) as E1.
  { unfold ratio_of. destruct (Z.leb_spec 0 (k + 1)), (Z.leb_spec 0 k); cbn [fst snd]; try lia.
    - rewrite Z.pow_add_r by lia. ring.
    - assert (k = -1) as -> by lia. cbn. lia.
    - replace (- k) with (1 + - (k + 1)) by lia. rewrite Z.pow_add_r by lia. ring. }
  destruct (ratio_of_pos q (k + 1)) as [_ Hp]; [lia|].
  apply (Z.mul_reg_r _ _ ((ratio_of q (k + 1)).2)); [lia|].
  transitivity ((ratio_of m' k').1 * (ratio_of q (k + 1)).2 * (ratio_of (10 * q) k).2); [ring|]. rewrite IH.
  transitivity ((ratio_of q (k + 1)).1 * (ratio_of (10 * q) k).2 * (ratio_of m' k').2); [ring|]. rewrite E1. ring.
Qed.

(** The decimal exponent is not above the number's. *)
Definition below (num den p : Z) : bool := let '(a, b) := scaled num den p in b <=? a.
Lemma pow_root a b n : 0 < n → 0 ≤ a → 0 ≤ b → a ^ n ≤ b ^ n → a ≤ b.
Proof. intros. by apply (Z.pow_le_mono_l_iff a b n). Qed.
Lemma pow10_le_pow2 n d : 0 ≤ n → 196 * n ≤ 59 * d → 10 ^ n ≤ 2 ^ d.
Proof.
  intros Hn Hd. apply (pow_root _ _ 59); [done|apply Z.pow_nonneg; lia..|].
  rewrite <-!Z.pow_mul_r by lia. rewrite (Z.mul_comm n), Z.pow_mul_r by lia.
  etrans; [apply (Z.pow_le_mono_l _ (2 ^ 196)); vm_compute; split; discriminate|].
  rewrite <-Z.pow_mul_r by lia. apply Z.pow_le_mono_r; lia.
Qed.
Lemma pow2_le_pow10 n d : 0 ≤ d → 28 * d ≤ 93 * n → 2 ^ d ≤ 10 ^ n.
Proof.
  intros Hd Hn. apply (pow_root _ _ 93); [done|apply Z.pow_nonneg; lia..|].
  rewrite <-!Z.pow_mul_r by lia. rewrite (Z.mul_comm d), Z.pow_mul_r by lia.
  etrans; [apply (Z.pow_le_mono_l _ (10 ^ 28)); vm_compute; split; discriminate|].
  rewrite <-Z.pow_mul_r by lia. apply Z.pow_le_mono_r; lia.
Qed.
Lemma below_estimate num den :
  0 < num → 0 < den → -2000 ≤ Z.log2 num - Z.log2 den ≤ 2000 → 2 ^ Z.log2 den = den →
  below num den ((Z.log2 num - Z.log2 den) * 30103 / 100000 - 2) = true.
Proof.
  intros Hn Hd Hr Hden. pose proof (Z.log2_spec num Hn) as [Hl _].
  pose proof (Z.log2_nonneg num). pose proof (Z.log2_nonneg den).
  set (d := Z.log2 num - Z.log2 den) in *.
  assert (100000 * (d * 30103 / 100000) ≤ d * 30103) as Hp by (apply Z.mul_div_le; lia).
  set (p := d * 30103 / 100000 - 2) in *. replace (d * 30103 / 100000) with (p + 2) in Hp by lia.
  clearbody p. unfold below, scaled. destruct (Z.leb_spec 0 p); apply Z.leb_le.
  - etrans; [apply Z.mul_le_mono_nonneg_l; [lia|apply (pow10_le_pow2 p d); lia]|].
    rewrite <-Hden, <-Z.pow_add_r by lia. etrans; [|exact Hl]. apply Z.pow_le_mono_r; lia.
  - destruct (decide (0 ≤ d)).
    + etrans; [|apply (Z.mul_le_mono_nonneg_l 1 (10 ^ (- p)) num); [lia|pose proof (pow10_pos (- p)); lia]].
      rewrite Z.mul_1_r, <-Hden. etrans; [|exact Hl]. apply Z.pow_le_mono_r; lia.
    + rewrite <-Hden. replace (Z.log2 den) with (Z.log2 num + - d) by lia. rewrite Z.pow_add_r by lia.
      apply Z.mul_le_mono_nonneg; [apply Z.pow_nonneg; lia|done|apply Z.pow_nonneg; lia|].
      apply pow2_le_pow10; lia.
Qed.
Lemma decimal_exponent_below num den :
  below num den ((Z.log2 num - Z.log2 den) * 30103 / 100000 - 2) = true →
  below num den (decimal_exponent num den) = true.
Proof.
  unfold decimal_exponent. set (p0 := _ * _ / _). clearbody p0. intros Hb.
  assert (∀ ps acc, below num den acc = true → below num den
    (foldl (λ acc p, let '(a, b) := scaled num den p in if b <=? a then p else acc) acc ps) = true) as Hf; [|by apply Hf].
  induction ps as [|p ps IH]; intros acc Ha; [done|]. cbn [foldl]. apply IH.
  destruct (scaled num den p) as [a b] eqn:E. destruct (b <=? a) eqn:El; [|done]. unfold below. by rewrite E.
Qed.
Lemma log2_ratio m e :
  let '(num, den) := ratio_of_double m e in
  Z.log2 num - Z.log2 den = Z.log2 (Zpos m) + e ∧ 2 ^ Z.log2 den = den.
Proof.
  unfold ratio_of_double. destruct (Z.leb_spec 0 e).
  - rewrite Z.log2_mul_pow2 by lia. change (Z.log2 1) with 0. split; [lia|done].
  - rewrite Z.log2_pow2 by lia. split; [lia|done].
Qed.

(** The seventeen-digit candidate nearer to a double reads as it. *)
Lemma candidate_near num den c :
  0 < num → 0 < den → below num den (decimal_exponent num den) = true →
  let k := decimal_exponent num den - 16 in
  let '(a, b) := scaled num den k in
  2 * Z.abs (c * b - a) ≤ b → 0 < c ∧ near_ratio (ratio_of c k).1 (ratio_of c k).2 num den.
Proof.
  intros Hn Hd. set (p := decimal_exponent num den). clearbody p. intros Hb. cbv zeta.
  pose proof (scaled_ratio num den (p - 16) c Hn Hd) as Hs. unfold below in Hb.
  assert (∀ a b, scaled num den (p - 16) = (a, b) → 10 ^ 16 * b ≤ a) as Hab.
  { unfold scaled in *. intros a b. destruct (Z.leb_spec 0 p); apply Z.leb_le in Hb.
    - destruct (Z.leb_spec 0 (p - 16)); intros [= <- <-].
      + replace (10 ^ 16 * (den * 10 ^ (p - 16))) with (den * (10 ^ 16 * 10 ^ (p - 16))) by ring.
        rewrite <-Z.pow_add_r by lia. by replace (16 + (p - 16)) with p by lia.
      + replace (10 ^ 16) with (10 ^ p * 10 ^ (- (p - 16))) by (rewrite <-Z.pow_add_r by lia; f_equal; lia).
        pose proof (pow10_pos (- (p - 16)) ltac:(lia)). nia.
    - rewrite (proj2 (Z.leb_gt 0 (p - 16))) by lia. intros [= <- <-].
      replace (- (p - 16)) with (16 + - p) by lia. rewrite Z.pow_add_r by lia. lia. }
  destruct (scaled num den (p - 16)) as [a b]. destruct Hs as (Ha & Hb0 & E1 & E2). specialize (Hab a b eq_refl).
  intros Hc. split; [nia|]. unfold near_ratio. rewrite E1, E2. lia.
Qed.

(** ** The search succeeds *)
Lemma reads_as_spec m e d k : reads_as (S754_finite false m e) (d, k) = true ↔ of_decimal d k = S754_finite false m e.
Proof.
  unfold reads_as. cbn [fst snd]. split.
  - destruct (of_decimal d k) as [[]|[]| |[] m' e']; cbn [SFcompare]; try done.
    destruct (Z.compare_spec e' e) as [->| |]; try done.
    destruct (Pos.compare_cont Eq m' m) eqn:E; try done. intros _.
    apply Pos.compare_eq in E. by subst.
  - intros ->. cbn [SFcompare]. rewrite Z.compare_refl. change (Pos.compare_cont Eq m m) with (Pos.compare m m).
    by rewrite Pos.compare_refl.
Qed.
Lemma candidate_reads m e c :
  bounded 53 1024 m e = true →
  let num := (ratio_of_double m e).1 in
  let den := (ratio_of_double m e).2 in
  let k := decimal_exponent num den - 16 in
  let '(a, b) := scaled num den k in
  2 * Z.abs (c * b - a) ≤ b → reads_as (S754_finite false m e) (strip_zeros 17 c k) = true.
Proof.
  intros Hb. pose proof (bounded_exp _ _ Hb) as He. cbv zeta.
  pose proof (ratio_of_double_unit m e He) as Hr. pose proof (log2_ratio m e) as Hl.
  pose proof (near_ratio_double (ratio_of (strip_zeros 17 c (decimal_exponent (ratio_of_double m e).1 (ratio_of_double m e).2 - 16)).1
    (strip_zeros 17 c (decimal_exponent (ratio_of_double m e).1 (ratio_of_double m e).2 - 16)).2).1
    (ratio_of (strip_zeros 17 c (decimal_exponent (ratio_of_double m e).1 (ratio_of_double m e).2 - 16)).1
    (strip_zeros 17 c (decimal_exponent (ratio_of_double m e).1 (ratio_of_double m e).2 - 16)).2).2 m e He) as Hnr.
  destruct (ratio_of_double m e) as [num den]. cbn [fst snd] in *. destruct Hr as (Hnum & Hden & _), Hl as [Hl Hp].
  assert (0 ≤ Z.log2 (Zpos m) < 53) as Hm.
  { pose proof (bounded_mantissa _ _ Hb). split; [apply Z.log2_nonneg|apply Z.log2_lt_pow2; lia]. }
  assert (e ≤ 971) as He' by (by apply bounded_spec in Hb as [_ ?]).
  pose proof (candidate_near num den c Hnum Hden
    (decimal_exponent_below _ _ (below_estimate num den Hnum Hden ltac:(lia) Hp))) as Hc. cbv zeta in Hc.
  set (k := decimal_exponent num den - 16) in *. clearbody k.
  destruct (scaled num den k) as [a b]. intros Hd. destruct (Hc Hd) as [Hc0 Hcn].
  pose proof (strip_zeros_ratio 17 c k Hc0) as Hs. destruct (strip_zeros 17 c k) as [d k']. cbn [fst snd] in Hnr.
  destruct Hs as [Hd0 Es]. destruct (ratio_of_pos c k Hc0) as [_ Hc2], (ratio_of_pos d k' Hd0) as [Hd1 Hd2].
  apply reads_as_spec. rewrite of_decimal_ratio by done. apply of_ratio_near; [done..|]. apply Hnr; [done|].
  unfold near_ratio in *. set (cn := (ratio_of c k).1) in *. set (cd := (ratio_of c k).2) in *.
  set (dn := (ratio_of d k').1) in *. set (dd := (ratio_of d k').2) in *. clearbody cn cd dn dd.
  apply (Z.mul_lt_mono_pos_r cd); [done|]. apply (Z.mul_lt_mono_pos_r dd) in Hcn; [|done].
  replace (2 ^ 54 * Z.abs (dn * den - num * dd) * cd) with (2 ^ 54 * Z.abs (cn * den - num * cd) * dd); [lia|].
  rewrite <-!Z.mul_assoc. f_equal. rewrite <-(Z.abs_eq dd) at 1 by lia. rewrite <-(Z.abs_eq cd) at 2 by lia.
  rewrite <-!Z.abs_mul. f_equal. rewrite !Z.mul_sub_distr_r.
  replace (cn * den * dd) with (cn * dd * den) by ring. rewrite <-Es. ring.
Qed.
Lemma shortest_reads m e num den n0 fuel n mk :
  n ≤ n0 ≤ n + Z.of_nat fuel → mk ∈ candidates num den n0 → reads_as (S754_finite false m e) mk = true →
  let r := shortest fuel n (S754_finite false m e) num den in
  reads_as (S754_finite false m e) r = true ∧ ∃ n', r ∈ candidates num den n'.
Proof.
  intros Hn0 Hin Hr. cbv zeta. revert n Hn0. induction fuel as [|fuel IH]; intros n Hn; cbn [shortest].
  - assert (n = n0) as -> by lia. destruct (find_first _ (candidates num den n0)) as [mk'|] eqn:Ef.
    + apply find_first_Some in Ef as [? ?]. eauto.
    + rewrite find_first_None in Ef. rewrite (Ef mk Hin) in Hr. done.
  - destruct (find_first _ (candidates num den n)) as [mk'|] eqn:Ef;
      [apply find_first_Some in Ef as [? ?]; eauto|].
    destruct (decide (n = n0)) as [->|]; [|apply IH; lia].
    rewrite find_first_None in Ef. rewrite (Ef mk Hin) in Hr. done.
Qed.
Lemma strip_zeros_nonneg fuel m k : 0 ≤ m → 0 ≤ (strip_zeros fuel m k).1.
Proof.
  revert m k. induction fuel as [|fuel IH]; intros m k Hm; cbn [strip_zeros]; [done|].
  destruct (_ && _); [apply IH; apply Z.div_pos; lia|done].
Qed.
Lemma candidates_nonneg num den n mk : 0 < num → 0 < den → mk ∈ candidates num den n → 0 ≤ mk.1.
Proof.
  intros Hn Hd. unfold candidates.
  pose proof (scaled_ratio num den (decimal_exponent num den - (n - 1)) 1 Hn Hd) as Hs.
  destruct (scaled num den _) as [a b]. destruct Hs as (Ha & Hb & _).
  assert (0 ≤ a / b) by (apply Z.div_pos; lia).
  intros (m & -> & Hm)%list_elem_of_fmap. apply strip_zeros_nonneg.
  destruct (_ <=? _); rewrite !elem_of_cons in Hm; destruct Hm as [->|[->|Hm%elem_of_nil]]; lia || done.
Qed.
Lemma display_digits m e :
  bounded 53 1024 m e = true →
  ∃ d k, shortest 17 1 (S754_finite false m e) (ratio_of_double m e).1 (ratio_of_double m e).2 = (d, k) ∧
    0 < d ∧ of_decimal d k = S754_finite false m e.
Proof.
  intros Hb. pose proof (bounded_exp _ _ Hb) as He.
  set (num := (ratio_of_double m e).1). set (den := (ratio_of_double m e).2).
  assert (0 < num ∧ 0 < den) as [Hnum Hden].
  { pose proof (ratio_of_double_unit m e He) as Hr. subst num den. destruct (ratio_of_double m e). naive_solver. }
  assert (∃ mk, mk ∈ candidates num den 17 ∧ reads_as (S754_finite false m e) mk = true) as (mk & Hin & Hr).
  { unfold candidates. replace (17 - 1) with 16 by done.
    pose proof (λ c, candidate_reads m e c Hb) as Hc. cbv zeta in Hc. fold num den in Hc.
    pose proof (scaled_ratio num den (decimal_exponent num den - 16) 1 Hnum Hden) as Hs.
    destruct (scaled num den (decimal_exponent num den - 16)) as [a b]. destruct Hs as (Ha & Hb0 & _).
    pose proof (Z.div_mod a b ltac:(lia)) as Hd. pose proof (Z.mod_pos_bound a b Hb0) as Hm.
    destruct (Z.leb_spec (2 * (a mod b)) b); cbn [map]; eexists; (split; [left|apply Hc]); nia. }
  destruct (shortest_reads m e num den 17 17 1 mk ltac:(lia) Hin Hr) as [Hs (n' & Hin')].
  destruct (shortest 17 1 _ num den) as [d k]. exists d, k. split; [done|].
  apply reads_as_spec in Hs. split; [|done]. apply candidates_nonneg in Hin'; [|done..]. cbn [fst] in Hin'.
  destruct (decide (d = 0)) as [->|]; [done|lia].
Qed.

(** ** Digit strings *)
Fixpoint all_digits (s : string) : Prop :=
  match s with EmptyString => True | String a r => is_Some (digit a) ∧ all_digits r end.
Definition len (s : string) : Z := Z.of_nat (String.length s).
Fixpoint value (acc : Z) (s : string) : Z :=
  match s with
  | EmptyString => acc
  | String a r => value (acc * 10 + match digit a with Some d => d | None => 0 end) r
  end.
Lemma string_app_nil r : "" +:+ r = r.
Proof. reflexivity. Qed.
Lemma string_app_cons a s r : String a s +:+ r = String a (s +:+ r).
Proof. reflexivity. Qed.
(** What follows the digits is no digit. *)
Definition stops (r : string) : Prop := match r with EmptyString => True | String a _ => digit a = None end.
Lemma digits_run acc count s r :
  all_digits s → stops r → digits acc count (s +:+ r) = (value acc s, count + len s, r).
Proof.
  revert acc count. induction s as [|a s IH]; intros acc count Hs Hr.
  - rewrite string_app_nil. cbn [value]. replace (count + len "") with count by (unfold len; cbn; lia).
    destruct r as [|b r]; [done|]. cbn [digits]. unfold stops in Hr. by rewrite Hr.
  - destruct Hs as [[d Hd] Hs]. rewrite string_app_cons. cbn [digits value]. rewrite Hd, IH by done.
    do 2 f_equal. unfold len. cbn [String.length]. lia.
Qed.
Lemma all_digits_app s t : all_digits (s +:+ t) ↔ all_digits s ∧ all_digits t.
Proof.
  induction s as [|a s IH]; [rewrite string_app_nil; cbn; tauto|].
  rewrite string_app_cons. cbn [all_digits]. tauto.
Qed.
Lemma value_app acc s t : value acc (s +:+ t) = value (value acc s) t.
Proof. revert acc. induction s as [|a s IH]; intros acc; [done|]. rewrite string_app_cons. apply IH. Qed.
Lemma zeros_digits n : all_digits (zeros n) ∧ len (zeros n) = Z.max 0 n ∧ ∀ acc, value acc (zeros n) = acc * 10 ^ Z.max 0 n.
Proof.
  unfold zeros. replace (Z.max 0 n) with (Z.of_nat (Z.to_nat n)) by lia. generalize (Z.to_nat n). clear n.
  induction n as [|n (IH1 & IH2 & IH3)]; [split_and!; [done|done|intros acc; change (Z.of_nat 0) with 0; rewrite Z.pow_0_r, Z.mul_1_r; done]|].
  cbn [repeat]. split_and!.
  - split; [by eexists|done].
  - transitivity (len (of_bytes (repeat Byte.x30 n)) + 1); [|lia].
    unfold len. rewrite Z.add_1_r, <-Nat2Z.inj_succ. done.
  - intros acc. transitivity (value (acc * 10 + 0) (of_bytes (repeat Byte.x30 n))); [done|].
    rewrite IH3, Nat2Z.inj_succ, Z.pow_succ_r by lia. ring.
Qed.
Lemma pretty_char_digit n : (n < 10)%N → digit (pretty_N_char n) = Some (Z.of_N n).
Proof.
  intros Hn.
  assert (n = 0 ∨ n = 1 ∨ n = 2 ∨ n = 3 ∨ n = 4 ∨ n = 5 ∨ n = 6 ∨ n = 7 ∨ n = 8 ∨ n = 9)%N as H by lia.
  by repeat destruct H as [->|H]; [..|subst].
Qed.
Lemma pretty_go_digits n : ∀ s, all_digits s → all_digits (pretty_N_go n s) ∧ value 0 (pretty_N_go n s) = value (Z.of_N n) s.
Proof.
  induction (N.lt_wf_0 n) as [n _ IH]. intros s Hs. destruct (decide (n = 0)%N) as [->|Hn]; [done|].
  rewrite pretty_N_go_step by lia. pose proof (N.mod_lt n 10 ltac:(lia)) as Hm.
  pose proof (pretty_char_digit _ Hm) as Hd.
  destruct (IH (n / 10)%N (N.div_lt n 10 ltac:(lia) ltac:(lia)) (String (pretty_N_char (n mod 10)) s)) as [IH1 IH2].
  { split; [by eexists|done]. }
  split; [done|]. rewrite IH2. cbn [value]. rewrite Hd. f_equal.
  pose proof (N.div_mod n 10 ltac:(lia)). lia.
Qed.
Lemma pretty_digits d : 0 < d → all_digits (pretty d) ∧ value 0 (pretty d) = d.
Proof.
  intros Hd. destruct d as [|p|p]; [lia| |lia]. change (pretty (Zpos p)) with (pretty (Npos p)).
  unfold pretty, pretty_N. rewrite decide_False by done. by apply pretty_go_digits.
Qed.

(** ** What [plain] prints is read as the decimal it denotes *)
Lemma substring_whole s : String.substring 0 (String.length s) s = s.
Proof. induction s as [|a s IH]; [done|]. cbn [String.length String.substring]. by f_equal. Qed.
Lemma substring_split n m s :
  (n + m)%nat = String.length s →
  String.substring 0 n s +:+ String.substring n m s = s ∧
  len (String.substring 0 n s) = Z.of_nat n ∧ len (String.substring n m s) = Z.of_nat m.
Proof.
  revert n. induction s as [|a s IH]; intros [|n] Hl; cbn [String.length] in Hl.
  - by replace m with 0%nat by lia.
  - lia.
  - replace m with (String.length (String a s)) by (cbn [String.length]; lia). by rewrite substring_whole.
  - destruct (IH n ltac:(lia)) as (H1 & H2 & H3). cbn [String.substring]. split_and!; [|unfold len in *|done].
    + rewrite string_app_cons. by f_equal.
    + cbn [String.length]. lia.
Qed.
Lemma digit_head a r :
  is_Some (digit a) → sign (String a r) = (false, String a r) ∧ special (String a r) = None.
Proof.
  intros [d Hd]. assert (lower a = a ∧ a ≠ "i"%char ∧ a ≠ "n"%char ∧ a ≠ "-"%char ∧ a ≠ "+"%char) as (Hl & Hi & Hn & Hm & Hp).
  { destruct a as [[] [] [] [] [] [] [] []]; done. }
  split.
  - cbn [sign]. destruct a as [[] [] [] [] [] [] [] []]; done.
  - unfold special. cbn [lower_all]. rewrite Hl, !decide_False; naive_solver.
Qed.
Lemma len_app s t : len (s +:+ t) = len s + len t.
Proof.
  induction s as [|a s IH]; [by rewrite string_app_nil|]. rewrite string_app_cons.
  unfold len in *. cbn [String.length]. lia.
Qed.
Lemma len_nonneg s : 0 <= len s.
Proof. unfold len. lia. Qed.
Lemma digits_all acc count s : all_digits s → digits acc count s = (value acc s, count + len s, "").
Proof.
  intros Hs. pose proof (digits_run acc count s "" Hs I) as H.
  replace (s +:+ "") with s in H; [done|]. clear. induction s as [|a s IH]; [done|].
  rewrite string_app_cons. by f_equal.
Qed.

(** A run of digits, and a run with a point after its first digits. *)
Lemma unsigned_whole s : all_digits s → 0 < len s → unsigned s = Some (of_decimal (value 0 s) 0).
Proof.
  intros Hs Hl. unfold unsigned. rewrite digits_all by done. cbv iota beta.
  destruct (Z.ltb_spec 0 (0 + len s)); [done|lia].
Qed.
Lemma unsigned_point s t :
  all_digits s → all_digits t → 0 < len s →
  unsigned (s +:+ "." +:+ t) = Some (of_decimal (value 0 (s +:+ t)) (- len t)).
Proof.
  intros Hs Ht Hl. pose proof (len_nonneg t). unfold unsigned. rewrite digits_run by done.
  change ("." +:+ t) with (String "." t). cbv iota beta. rewrite digits_all by done.
  destruct (Z.ltb_spec 0 (0 + len s + (0 + len t))); [|lia]. by rewrite value_app, Z.add_0_l.
Qed.
Lemma of_decimal_shift d k : 0 <= k → of_decimal (d * 10 ^ k) 0 = of_decimal d k.
Proof.
  intros Hk. unfold of_decimal. rewrite (proj2 (Z.leb_le 0 k) Hk). change (10 ^ 0) with 1. rewrite Z.mul_1_r.
  pose proof (Z.pow_pos_nonneg 10 k ltac:(lia) Hk).
  destruct (Z.eqb_spec d 0), (Z.eqb_spec (d * 10 ^ k) 0); try done; nia.
Qed.
(** The shape of what is printed: digits, with a point and more digits or without. *)
Lemma plain_shape d k :
  0 < d → ∃ s t, all_digits s ∧ all_digits t ∧ 0 < len s ∧
    (plain d k = s ∧ t = "" ∨ plain d k = s +:+ "." +:+ t) ∧ of_decimal (value 0 (s +:+ t)) (- len t) = of_decimal d k.
Proof.
  intros Hd. destruct (pretty_digits d Hd) as [Ha Hv].
  assert (0 < len (pretty d)) as Hl.
  { pose proof (len_nonneg (pretty d)). destruct (decide (len (pretty d) = 0)) as [H0|]; [|lia].
    destruct (pretty d); [cbn in Hv; lia|]. done. }
  unfold plain. fold (len (pretty d)). destruct (Z.leb_spec 0 k) as [Hk|Hk].
  - destruct (zeros_digits k) as (Hz & Hzl & Hzv). exists (pretty d +:+ zeros k), "".
    rewrite all_digits_app, len_app, !value_app, Hv, Hzv, Z.max_r by done.
    split_and!; [done..|lia|by left|by apply of_decimal_shift].
  - destruct (Z.leb_spec (len (pretty d)) (- k)).
    + destruct (zeros_digits (- k - len (pretty d))) as (Hz & Hzl & Hzv).
      exists "0", (zeros (- k - len (pretty d)) +:+ pretty d).
      rewrite all_digits_app, len_app, !value_app, Hzv, Hzl. change (value 0 "0") with 0. rewrite Z.mul_0_l, Hv.
      split_and!; [by split|done..|by right|by replace (- _) with k by lia].
    + destruct (substring_split (Z.to_nat (len (pretty d) + k)) (Z.to_nat (- k)) (pretty d)) as (Hs & H1 & H2).
      { unfold len in *. lia. }
      eexists _, _. rewrite Hs, H2, H1, Hv. rewrite <-Hs in Ha. apply all_digits_app in Ha as [Hsd Htd].
      split_and!; [done|done|lia|by right|by replace (- _) with k by lia].
Qed.
Lemma unsigned_plain d k :
  0 < d → unsigned (plain d k) = Some (of_decimal d k) ∧ ∃ a t, plain d k = String a t ∧ is_Some (digit a).
Proof.
  intros Hd. destruct (plain_shape d k Hd) as (s & t & Hs & Ht & Hl & Hp & <-). split.
  - destruct Hp as [[-> ->] | ->]; [|by apply unsigned_point].
    rewrite unsigned_whole by done. rewrite value_app. done.
  - destruct s as [|a s]; [change (len "") with 0 in Hl; lia|].
    destruct Hp as [[-> _] | ->]; eexists _, _; (split; [done|apply Hs]).
Qed.

(** ** What [display] prints, [parse] reads back *)
Lemma parse_display x : valid_binary 53 1024 x = true → parse (display x) = Ok x.
Proof.
  destruct x as [[]|[]| |neg m e]; intros Hv; [vm_compute; reflexivity..|].
  destruct (display_digits m e Hv) as (d & k & Hs & Hd & Hx). destruct (unsigned_plain d k Hd) as (Hu & a & t & Ht & Ha).
  unfold display. fold (ratio_of_double m e).
  destruct (ratio_of_double m e) as [num den]. cbn [fst snd] in Hs. rewrite Hs.
  destruct (digit_head a t Ha) as [Hsg Hsp]. unfold parse. destruct neg.
  - rewrite decide_False by done. change ("-" +:+ ?s) with (String "-" s). cbn [sign].
    rewrite Ht, Hsp, <-Ht, Hu, Hx. done.
  - rewrite string_app_nil, Ht, decide_False, Hsg, Hsp, <-Ht, Hu, Hx by done. done.
Qed.

(** Nor does it print a slash. *)
Lemma split_once_app c s t :
  split_once c s = None → split_once c t = None → split_once c (s +:+ t) = None.
Proof.
  induction s as [|a s IH]; [done|]. rewrite string_app_cons. cbn [split_once].
  case_decide; [done|]. destruct (split_once c s) as [[]|]; [done|]. intros _ Ht. by rewrite IH.
Qed.
Lemma digits_no_slash s : all_digits s → split_once "/"%char s = None.
Proof.
  induction s as [|a s IH]; [done|]. intros [[d Hd] Hs]. cbn [split_once].
  case_decide as Ha; [by subst|]. by rewrite IH.
Qed.
Lemma display_no_slash x : valid_binary 53 1024 x = true → split_once "/"%char (display x) = None.
Proof.
  destruct x as [[]|[]| |neg m e]; intros Hv; [vm_compute; reflexivity..|].
  destruct (display_digits m e Hv) as (d & k & Hs & Hd & Hx).
  unfold display. fold (ratio_of_double m e).
  destruct (ratio_of_double m e) as [num den]. cbn [fst snd] in Hs. rewrite Hs.
  apply split_once_app; [by destruct neg|].
  destruct (plain_shape d k Hd) as (s & t & Hsd & Htd & _ & [[-> _] | ->] & _); [by apply digits_no_slash|].
  repeat apply split_once_app; try done; by apply digits_no_slash.
Qed.
(** ** What [parse] reads is a double *)
Lemma posf_valid x : posf x → valid_binary 53 1024 x = true.
Proof. intros [->|[v Hx]]; [done|]. by destruct Hx. Qed.
Lemma digits_nonneg acc count s : 0 <= acc → 0 <= (digits acc count s).1.1.
Proof.
  revert acc count. induction s as [|a s IH]; intros acc count Ha; [done|]. cbn [digits].
  destruct (digit a) as [d|] eqn:Ed; [|done]. apply IH. unfold digit in Ed.
  destruct (_ && _) eqn:Eb; [|done]. apply andb_true_iff in Eb as [Eb _]. apply Z.leb_le in Eb.
  injection Ed as <-. lia.
Qed.
Lemma of_ratio_valid num den : 0 < num → 0 < den → valid_binary 53 1024 (of_ratio num den) = true.
Proof.
  intros Hn Hd. rewrite of_ratio_aux by done. pose proof (sticky_large num den Hn Hd).
  apply posf_valid, round_aux_posf; [|unfold target; lia].
  apply Z.nle_gt. intros Ha. rewrite Z.log2_nonpos in H by done. lia.
Qed.
Lemma of_decimal_valid m k : 0 <= m → valid_binary 53 1024 (of_decimal m k) = true.
Proof.
  intros Hm. unfold of_decimal. destruct (Z.eqb_spec m 0); [done|].
  destruct (Z.leb_spec 0 k).
  - pose proof (Z.pow_pos_nonneg 10 k). apply of_ratio_valid; nia.
  - pose proof (Z.pow_pos_nonneg 10 (- k)). apply of_ratio_valid; lia.
Qed.
Lemma negate_valid negative x : valid_binary 53 1024 (negate negative x) = valid_binary 53 1024 x.
Proof. by destruct negative, x. Qed.
Lemma unsigned_valid s x : unsigned s = Some x → valid_binary 53 1024 x = true.
Proof.
  unfold unsigned. pose proof (digits_nonneg 0 0 s ltac:(done)) as Hw.
  destruct (digits 0 0 s) as [[whole n] r]. cbn [fst] in Hw.
  assert (∃ m scale total r', 0 <= m ∧
    match r with
    | String "." r => let '(m, n', r) := digits whole 0 r in (m, n', n + n', r)
    | _ => (whole, 0, n, r)
    end = (m, scale, total, r')) as (m & scale & total & r' & Hm & ->).
  { assert (∃ m scale total r', 0 <= m ∧ (whole, 0, n, r) = (m, scale, total, r')) as Hplain by by eexists _, _, _, _.
    destruct r as [|[[] [] [] [] [] [] [] []] r]; try exact Hplain.
    pose proof (digits_nonneg whole 0 r Hw). destruct (digits whole 0 r) as [[m n'] r'']. by eexists _, _, _, _. }
  destruct (0 <? total); [|done]. destruct (exponent r') as [k|]; [|done]. cbn.
  intros [= <-]. by apply of_decimal_valid.
Qed.
Lemma parse_valid s x : parse s = Ok x → valid_binary 53 1024 x = true.
Proof.
  unfold parse. case_decide; [done|]. destruct (sign s) as [negative r].
  destruct (special r) as [y|] eqn:Es.
  - intros [= <-]. rewrite negate_valid. unfold special in Es. repeat case_decide; by simplify_eq.
  - destruct (unsigned r) as [y|] eqn:Eu; [|done]. intros [= <-]. rewrite negate_valid.
    by eapply unsigned_valid.
Qed.
End FloatTrip.
