(* ===== verification/Json.v ===== *)
(** * Json: [serde_json::Value] and the accessors the gateway uses

    Parsing and printing belong to the [serde_json] crate and are the operations
    of the class [SerdeJson]; the data type and its accessors are the crate's
    documented ones. Objects are [BTreeMap]s (the crate's default), hence maps. *)

From S2P Require Import Prelude Float64.

(** A number is an unsigned, a negative, or a floating-point number. *)
Inductive Number : Type :=
| PosInt (n : Z)
| NegInt (n : Z)
| Float (x : f64).

Inductive Value : Type :=
| Null
| Bool (b : bool)
| Num (n : Number)
| Str (s : string)
| Array (l : list Value)
| Object (m : gmap string Value).

Module Json.

(** [serde_json::from_slice::<Value>] and [serde_json::to_vec], the error being
    the message of [serde_json::Error], and [Display for Value], compact JSON. *)
Class SerdeJson := {
  from_slice : bytes → result string Value;
  to_vec : Value → result string bytes;
  display : Value → string
}.

(** [serde_json::from_str]. *)
Definition from_str `{SerdeJson} (s : string) : result string Value :=
  from_slice (as_bytes s).

(** [Value::get] with a string index. *)
Definition get (k : string) (v : Value) : option Value :=
  match v with Object m => m !! k | _ => None end.
Definition as_str (v : Value) : option string :=
  match v with Str s => Some s | _ => None end.
Definition as_u64 (v : Value) : option Z :=
  match v with Num (PosInt n) => Some n | _ => None end.
Definition as_array (v : Value) : option (list Value) :=
  match v with Array l => Some l | _ => None end.
Definition as_object (v : Value) : option (gmap string Value) :=
  match v with Object m => Some m | _ => None end.

(** [value.get(a).and_then(|v| v.get(b))], and so on along a path. *)
Fixpoint get_path (ks : list string) (v : Value) : option Value :=
  match ks with
  | [] => Some v
  | k :: ks => get k v ≫= get_path ks
  end.

(** The object literal of [json!]: a later duplicate key would win. *)
Definition obj (l : list (string * Value)) : Value := Object (collect_map l).
Definition uint (n : Z) : Value := Num (PosInt n).
(** An [Option<&str>] as a value. *)
Definition opt_str (o : option string) : Value :=
  match o with Some s => Str s | None => Null end.

(** Overwriting the value at [k] of an object ([*v.get_mut(k)? = x]). *)
Definition set (k : string) (x : Value) (v : Value) : Value :=
  match v with Object m => Object (<[k := x]> m) | _ => v end.

Lemma get_obj k l : get k (obj l) = last_binding k l.
Proof. apply collect_map_lookup. Qed.
Lemma get_set k k' x v m :
  as_object v = Some m → get k (set k' x v) = if decide (k' = k) then Some x else get k v.
Proof.
  destruct v; cbn; try done. intros [= ->]. rewrite lookup_insert. by case_decide.
Qed.

End Json.
#[export] Hint Rewrite @Json.get_obj : vp.
