(* ===== verification/Events.v ===== *)
(** * Events: the structured events the gateway emits

    [audit.rs] (the audit stream), the metric names of [prom.rs] and the span
    fields of the tracing spans, as a trace of [Effect] values. Ordinary log
    lines ([tracing::warn] and the like) are not part of the trace. *)

From S2P Require Import Prelude Float64.

Inductive Outcome := Success | Failure.
#[export] Instance Outcome_eq_dec : EqDecision Outcome.
Proof. solve_decision. Defined.

(** Record values of a span field. *)
Inductive FieldValue :=
| FStr (s : string)
| FInt (n : Z)
| FF64 (x : f64)
| FBool (b : bool).

(** One audit event: the canonical fields, then the action-specific ones. *)
Record AuditEvent := mkAudit {
  action : string;
  actor : string;
  subject : string;
  outcome : Outcome;
  metadata : list (string * FieldValue)
}.

Inductive Effect :=
| EAudit (e : AuditEvent)
| ECounter (name : string) (labels : list (string * string)) (by_ : Z)
| EHistogram (name : string) (labels : list (string * string)) (v : f64)
| ESpan (field : string) (v : FieldValue).

Module Outcome.
Definition as_str (o : Outcome) : string :=
  match o with Success => "success" | Failure => "failure" end.
End Outcome.

Module audit.
Definition key_created (actor key_id team app env : string) : AuditEvent :=
  mkAudit "key.create" actor key_id Success
    [("team", FStr team); ("app", FStr app); ("env", FStr env)].
Definition key_revoked (actor key_id : string) (found : bool) : AuditEvent :=
  mkAudit "key.revoke" actor key_id (if found then Success else Failure) [].
Definition config_reloaded (actor : string) (o : Outcome) (detail : string) : AuditEvent :=
  mkAudit "config.reload" actor "config" o [("detail", FStr detail)].
Definition plugin_loaded (name kind source : string) : AuditEvent :=
  mkAudit "plugin.load" "gateway" name Success
    [("kind", FStr kind); ("source", FStr source)].
Definition plugin_rejected (virtual_key_id plugin reason : string) (status : Z) : AuditEvent :=
  mkAudit "plugin.reject" "gateway" virtual_key_id Failure
    [("plugin", FStr plugin); ("reason", FStr reason); ("status", FInt status)].
Definition control_plane_sync (o : Outcome) (resource reason detail : string) : AuditEvent :=
  mkAudit "control_plane.sync" "control-plane" "link" o
    [("resource", FStr resource); ("reason", FStr reason); ("detail", FStr detail)].
Definition failover (virtual_model from_provider to_provider reason : string) : AuditEvent :=
  mkAudit "failover" "gateway" virtual_model Success
    [("from_provider", FStr from_provider); ("to_provider", FStr to_provider);
     ("reason", FStr reason)].
End audit.

(** [prom.rs]: metric names and label values. *)
Module names.
Definition REQUESTS_TOTAL : string := "vaultplane_requests_total".
Definition REQUEST_DURATION_SECONDS : string := "vaultplane_request_duration_seconds".
Definition COST_CENTS_TOTAL : string := "vaultplane_cost_cents_total".
Definition REJECTIONS_TOTAL : string := "vaultplane_rejections_total".
End names.

Module label_values.
Definition CACHE_HIT : string := "hit".
Definition CACHE_MISS : string := "miss".
Definition REASON_AUTH : string := "auth".
Definition REASON_EXPIRED : string := "expired".
Definition REASON_RATE_LIMIT : string := "rate_limit".
Definition REASON_SPEND_LIMIT : string := "spend_limit".
Definition REASON_FORBIDDEN_MODEL : string := "forbidden_model".
Definition REASON_PLUGIN : string := "plugin".
Definition REASON_UPSTREAM_ERROR : string := "upstream_error".
End label_values.

(** [error.rs]: the failures of the core crate. *)
Module Error.
Inductive Error :=
| Config (m : string)
| Provider (m : string)
| UpstreamTimeout (m : string).

(** [Display]. *)
Definition to_string (e : Error) : string :=
  match e with
  | Config m => "configuration error: " +:+ m
  | Provider m => "provider error: " +:+ m
  | UpstreamTimeout m => "upstream timed out: " +:+ m
  end.
End Error.

(** The audit events of a trace, oldest first. *)
Definition audits (t : list Effect) : list AuditEvent :=
  omap (λ e, match e with EAudit a => Some a | _ => None end) t.

Lemma audits_app t u : audits (t ++ u) = audits t ++ audits u.
Proof. apply omap_app. Qed.
#[export] Hint Rewrite audits_app : vp.
