(* ===== verification/Auth.v ===== *)
(** * Auth: virtual keys and the key store ([auth.rs], first half)

    Key generation, hashing, expiry, model scope, the key store and the
    constant-time comparison. SHA-256, hex, base64, the system entropy and
    RFC3339 parsing belong to other crates and are parameters. *)

From S2P Require Import Prelude Text Float64.

(** The hashing and encoding crates. [hmac_sha256] takes the key first. [base64url] is base64's
    [URL_SAFE_NO_PAD] engine. *)
Class Crypto := {
  sha256 : bytes → bytes;
  hmac_sha256 : bytes → bytes → bytes;
  hex_encode : bytes → string;
  base64url : bytes → string
}.

(** Documented behaviour of the unpadded URL-safe engine: four characters for
    three bytes, all of them ASCII. *)
Class Base64Laws `{Crypto} := {
  base64url_length b : length (as_bytes (base64url b)) = (4 * length b + 2) / 3;
  base64url_ascii b : ascii_string (base64url b)
}.

(** What the gateway reads from a UTC date: [OffsetDateTime]. *)
Record Utc := mkUtc {
  unix_timestamp : Z;
  year : Z;
  iso_week : Z;
  month : Z
}.
(** The [time] crate: parsing RFC3339 (in nanoseconds since the epoch) and the
    calendar reading of an instant. *)
Class TimeCrate := {
  parse_rfc3339 : string → option Z;
  utc_at : Z → Utc
}.

Definition TOKEN_PREFIX : string := "vp_".
Definition TOKEN_BYTES : nat := 32.
Definition ID_PREFIX_LEN : nat := 12.

Inductive Period := Day | Week | Month.
#[export] Instance Period_eq_dec : EqDecision Period.
Proof. solve_decision. Defined.

Record SpendLimit := mkSpendLimit { amount_usd : f64; period : Period }.

Module VirtualKey.
Record VirtualKey := mk {
  id : string;
  hash : string;
  team : string;
  app : string;
  env : string;
  models : list string;
  rate_limit_rps : option Z;
  spend_limit : option SpendLimit;
  expires_at : option string
}.

Definition anonymous : VirtualKey := mk "" "" "" "" "" [] None None None.

Definition allows_model (k : VirtualKey) (model : string) : bool :=
  match models k with
  | [] => true
  | _ => existsb (λ m, bool_decide (m = "*") || bool_decide (m = model)) (models k)
  end.

Definition identifier (k : VirtualKey) : string :=
  if decide (id k = "") then "anonymous" else id k.

Definition is_expired `{TimeCrate} (now : Z) (k : VirtualKey) : bool :=
  match expires_at k with
  | None => false
  | Some when =>
      match parse_rfc3339 when with
      | Some expiry => (expiry <? now)%Z
      | None => true
      end
  end.

Lemma allows_model_spec k m :
  allows_model k m = true ↔ models k = [] ∨ "*" ∈ models k ∨ m ∈ models k.
Proof.
  unfold allows_model. destruct (models k) as [|m' l]; [naive_solver|].
  rewrite existsb_exists. split.
  - intros (x & Hx%list_elem_of_In & Hb). apply orb_true_iff in Hb.
    rewrite !bool_decide_eq_true in Hb. right. destruct Hb as [-> | ->]; auto.
  - intros [?|[?|?]]; [done|exists "*"|exists m]; rewrite <-list_elem_of_In, orb_true_iff,
      !bool_decide_eq_true; auto.
Qed.
End VirtualKey.
Abbreviation VirtualKey := VirtualKey.VirtualKey.

Section keys.
Context `{Crypto}.

(** SHA-256 hex digest of an opaque bearer token. *)
Definition hash_token (token : string) : string := hex_encode (sha256 (as_bytes token)).

Record GeneratedKey := mkGenerated {
  gk_token : string;
  gk_id : string;
  gk_hash : string
}.

(** [buf] is what [getrandom] filled the buffer with; [None] is the panic of the
    slice [&body[..ID_PREFIX_LEN]]. *)
Definition generate_key (buf : bytes) : option GeneratedKey :=
  let body := base64url buf in
  let token := TOKEN_PREFIX +:+ body in
  prefix ← slice_to body ID_PREFIX_LEN;
  let id := TOKEN_PREFIX +:+ prefix in
  let hash := hash_token token in
  Some (mkGenerated token id hash).
End keys.

(** ** Constant-time comparison *)
Definition xor_byte (x y : Byte.byte) : N := N.lxor (Byte.to_N x) (Byte.to_N y).
Definition fold_diff (a b : bytes) : N :=
  foldl (λ diff xy, N.lor diff (xor_byte xy.1 xy.2)) 0%N (zip a b).
Definition constant_time_eq (a b : bytes) : bool :=
  if negb (length a =? length b)%nat then false
  else (fold_diff a b =? 0)%N.

(** ** The key store: keys by token hash *)
Abbreviation KeyStore := (gmap string VirtualKey).
Module KeyStore.
Section store.
Context `{Crypto} `{HashOrder}.

Definition by_hash (keys : list VirtualKey) : list (string * VirtualKey) :=
  map (λ k, (VirtualKey.hash k, k)) keys.
Definition new (keys : list VirtualKey) : KeyStore := collect_map (by_hash keys).
Definition authenticate (s : KeyStore) (token : string) : option VirtualKey :=
  s !! hash_token token.
Definition insert (key : VirtualKey) (s : KeyStore) : KeyStore :=
  <[VirtualKey.hash key := key]> s.
Definition replace_all (keys : list VirtualKey) (s : KeyStore) : KeyStore :=
  collect_map (by_hash keys).
Definition remove_by_id (id : string) (s : KeyStore) : bool * KeyStore :=
  match find_first (λ hk, bool_decide (VirtualKey.id hk.2 = id)) (hm_iter s) with
  | Some (h, _) => (true, delete h s)
  | None => (false, s)
  end.
Definition list (s : KeyStore) : list VirtualKey := map snd (hm_iter s).
Definition find_by_id (s : KeyStore) (id : string) : option VirtualKey :=
  find_first (λ k, bool_decide (VirtualKey.id k = id)) (list s).
Definition len (s : KeyStore) : nat := size s.
Definition is_empty (s : KeyStore) : bool := bool_decide (s = ∅).

(** What the gateway does to its store. *)
Inductive step : KeyStore → KeyStore → Prop :=
| step_insert key s : step s (insert key s)
| step_replace_all keys s : step s (replace_all keys s)
| step_remove id s : step s (remove_by_id id s).2.

(** Every key is filed under its own hash. *)
Definition wf (s : KeyStore) : Prop := map_Forall (λ h k, VirtualKey.hash k = h) s.

(** At most one key has each identifier. *)
Definition unique_ids (s : KeyStore) : Prop :=
  ∀ h h' k k', s !! h = Some k → s !! h' = Some k' →
    VirtualKey.id k = VirtualKey.id k' → h = h'.
End store.

Section laws.
Context `{Crypto} `{HashOrder}.

Lemma last_binding_by_hash keys h :
  last_binding h (by_hash keys) = find_first (λ k, bool_decide (VirtualKey.hash k = h)) (rev keys).
Proof.
  induction keys as [|k keys IH]; [done|]. cbn. fold (by_hash keys). rewrite IH. clear IH.
  induction (rev keys) as [|k' l IHl]; cbn.
  - case_decide; by case_bool_decide.
  - by case_bool_decide.
Qed.

Lemma new_wf keys : wf (new keys).
Proof.
  intros h k Hk. unfold new in Hk. rewrite collect_map_lookup, last_binding_by_hash in Hk.
  apply find_first_Some in Hk as [_ ?%bool_decide_eq_true]. done.
Qed.
Lemma step_wf s s' : step s s' → wf s → wf s'.
Proof.
  destruct 1 as [key s|keys s|id s]; intros Hwf.
  - apply map_Forall_insert_2; done.
  - apply new_wf.
  - unfold remove_by_id. destruct (find_first _ _) as [[h k]|]; [|done].
    by apply map_Forall_delete.
Qed.

Lemma remove_by_id_true id s s' :
  remove_by_id id s = (true, s') ↔
  ∃ h k, s !! h = Some k ∧ VirtualKey.id k = id ∧ s' = delete h s ∧
    find_first (λ hk, bool_decide (VirtualKey.id hk.2 = id)) (hm_iter s) = Some (h, k).
Proof.
  unfold remove_by_id. destruct (find_first _ _) as [[h k]|] eqn:E.
  - destruct (find_first_Some _ _ _ E) as [Hin Hid].
    apply bool_decide_eq_true in Hid. apply elem_of_hm_iter in Hin. naive_solver.
  - naive_solver.
Qed.
Lemma remove_by_id_false id s :
  (remove_by_id id s).1 = false ↔ ∀ h k, s !! h = Some k → VirtualKey.id k ≠ id.
Proof.
  unfold remove_by_id. destruct (find_first _ _) as [[h k]|] eqn:E; cbn.
  - destruct (find_first_Some _ _ _ E) as [Hin Hid].
    apply bool_decide_eq_true in Hid. apply elem_of_hm_iter in Hin. naive_solver.
  - rewrite find_first_None in E. split; [|done]. intros _ h k Hk Hid.
    specialize (E (h, k)). rewrite elem_of_hm_iter in E.
    by rewrite bool_decide_eq_false in E; apply E.
Qed.

Lemma find_by_id_Some s id k :
  find_by_id s id = Some k → VirtualKey.id k = id ∧ ∃ h, s !! h = Some k.
Proof.
  unfold find_by_id, list. intros [Hin Hid]%find_first_Some.
  apply bool_decide_eq_true in Hid. split; [done|].
  apply list_elem_of_fmap in Hin as [[h k'] [-> Hin]].
  exists h. by apply elem_of_hm_iter.
Qed.
Lemma find_by_id_None s id :
  find_by_id s id = None ↔ ∀ h k, s !! h = Some k → VirtualKey.id k ≠ id.
Proof.
  unfold find_by_id, list. rewrite find_first_None. split.
  - intros E h k Hk Hid. specialize (E k). rewrite bool_decide_eq_false in E.
    apply E; [|done]. apply list_elem_of_fmap. exists (h, k).
    split; [done|]. by apply elem_of_hm_iter.
  - intros E k Hin. apply list_elem_of_fmap in Hin as [[h k'] [-> Hin]].
    apply elem_of_hm_iter in Hin. apply bool_decide_eq_false. naive_solver.
Qed.

(** Removing the only record with an identifier, under a hash nobody else has. *)
Lemma remove_by_id_sole id k s :
  VirtualKey.id k = id → s !! VirtualKey.hash k = None →
  (∀ h' k', s !! h' = Some k' → VirtualKey.id k' ≠ id) →
  remove_by_id id (insert k s) = (true, s).
Proof.
  intros Hid Hn Hu. unfold remove_by_id, insert.
  destruct (find_first _ _) as [[h k']|] eqn:E.
  - apply find_first_Some in E as [Hin Hid'].
    apply bool_decide_eq_true in Hid'. cbn in Hid'. apply elem_of_hm_iter in Hin.
    apply lookup_insert_Some in Hin as [[<- _]|[_ Hin]].
    + f_equal. by apply delete_insert_id.
    + by apply Hu in Hin.
  - rewrite find_first_None in E. specialize (E (VirtualKey.hash k, k)).
    rewrite elem_of_hm_iter, lookup_insert_eq in E. specialize (E eq_refl).
    by apply bool_decide_eq_false in E.
Qed.
End laws.
End KeyStore.

(** ** The comparison computes equality *)
Lemma xor_byte_0 x y : xor_byte x y = 0%N ↔ x = y.
Proof.
  unfold xor_byte. rewrite N.lxor_eq_0_iff. split; [|by intros ->].
  intros E. apply (f_equal Byte.of_N) in E. rewrite !Byte.of_to_N in E. by simplify_eq.
Qed.
Lemma fold_diff_0 a b d :
  foldl (λ diff xy, N.lor diff (xor_byte xy.1 xy.2)) d (zip a b) = 0%N
  ↔ d = 0%N ∧ Forall (λ xy, xy.1 = xy.2) (zip a b).
Proof.
  revert b d. induction a as [|x a IH]; intros [|y b] d; cbn; [naive_solver..|].
  rewrite IH, N.lor_eq_0_iff, xor_byte_0, Forall_cons. naive_solver.
Qed.
Lemma zip_eq (a b : bytes) :
  length a = length b → Forall (λ xy, xy.1 = xy.2) (zip a b) → a = b.
Proof.
  revert b. induction a as [|x a IH]; intros [|y b]; cbn; try done.
  intros [= Hl] [E Hf]%Forall_cons. cbn in E. subst. f_equal. by apply IH.
Qed.
Lemma zip_diag (a : bytes) : Forall (λ xy, xy.1 = xy.2) (zip a a).
Proof. induction a; cbn; auto. Qed.

(** ** Properties *)
Section properties.
Context `{Crypto} `{HashOrder}.

(** A generated key, its identifier a prefix of the token, its hash the token's. *)
Lemma generate_key_spec `{!Base64Laws} (buf : bytes) :
  length buf = TOKEN_BYTES →
  ∃ g p, generate_key buf = Some g ∧ gk_id g = "vp_" +:+ p ∧ String.length p = 12 ∧
    (∃ r, gk_token g = gk_id g +:+ r) ∧ gk_hash g = hash_token (gk_token g).
Proof.
  intros Hlen. destruct (slice_to_ascii (base64url buf) ID_PREFIX_LEN) as (p & r & Hs & Hp & Hpl).
  { rewrite base64url_length, Hlen. unfold ID_PREFIX_LEN. cbn. lia. }
  { apply base64url_ascii. }
  unfold generate_key. rewrite Hs. eexists _, p. split; [done|]. cbn [gk_id gk_token gk_hash].
  split; [done|]. split; [done|]. split; [|done].
  exists r. rewrite Hp. unfold TOKEN_PREFIX. by rewrite string_app_assoc.
Qed.
Lemma generate_key_total `{!Base64Laws} (buf : bytes) :
  length buf = TOKEN_BYTES → ∃ g, generate_key buf = Some g ∧ hash_token (gk_token g) = gk_hash g.
Proof. intros (g & p & ? & _ & _ & _ & ?)%generate_key_spec. eauto. Qed.

(** A store built from a key list authenticates a token exactly to the last
    record of the list whose hash is the token's hash: of two records with one
    hash the later shadows the earlier, a token nobody has is rejected, and
    replacing the set later gives the same answers, whatever the store held. *)
Theorem authenticate_last_record (keys : list VirtualKey) (s : KeyStore) token k :
  (KeyStore.authenticate (KeyStore.new keys) token = Some k ↔
   ∃ l1 l2, keys = l1 ++ k :: l2 ∧ VirtualKey.hash k = hash_token token ∧
     Forall (λ k', VirtualKey.hash k' ≠ hash_token token) l2)
  ∧ KeyStore.authenticate (KeyStore.replace_all keys s) token
    = KeyStore.authenticate (KeyStore.new keys) token.
Proof.
  split; [|done]. unfold KeyStore.authenticate, KeyStore.new.
  rewrite collect_map_lookup, KeyStore.last_binding_by_hash, find_first_last.
  by setoid_rewrite bool_decide_eq_true; setoid_rewrite bool_decide_eq_false.
Qed.

(** Through any sequence of inserts, set replacements and removals, a
    well-formed store stays well-formed, and a token authenticates only to a
    record that carries that token's hash. *)
Theorem authenticate_sound (s s' : KeyStore) token k :
  KeyStore.wf s → rtc KeyStore.step s s' →
  KeyStore.authenticate s' token = Some k →
  VirtualKey.hash k = hash_token token ∧ KeyStore.wf s'.
Proof.
  intros Hwf Hr Hk. assert (KeyStore.wf s') as Hwf'.
  { by eapply rtc_invariant; [apply KeyStore.step_wf|..]. }
  split; [by apply Hwf' in Hk|done].
Qed.

(** [remove_by_id] answers whether some record has the identifier; when one
    does, exactly one entry goes, a record with that identifier, and every other
    entry is kept; when identifiers are unique nobody authenticates with that
    identifier any more and [find_by_id] no longer finds it. *)
Theorem remove_by_id_revokes (s s' : KeyStore) id b :
  KeyStore.remove_by_id id s = (b, s') →
  (b = true ↔ ∃ h k, s !! h = Some k ∧ VirtualKey.id k = id) ∧
  (b = false → s' = s) ∧
  (b = true → ∃ h k, s !! h = Some k ∧ VirtualKey.id k = id ∧ s' = delete h s ∧
      S (KeyStore.len s') = KeyStore.len s) ∧
  (KeyStore.unique_ids s → KeyStore.find_by_id s' id = None ∧
     ∀ token k, KeyStore.authenticate s' token = Some k → VirtualKey.id k ≠ id).
Proof.
  intros E. destruct b.
  - apply KeyStore.remove_by_id_true in E as (h & k & Hk & Hid & -> & _).
    assert (KeyStore.unique_ids s → ∀ h' k', delete h s !! h' = Some k' → VirtualKey.id k' ≠ id) as Hu.
    { intros Hu h' k' [Hne Hk']%lookup_delete_Some Hid'. apply Hne, (Hu _ _ k k'); congruence. }
    split; [naive_solver|]. split; [done|]. split.
    + intros _. exists h, k. split_and!; [done..|].
      unfold KeyStore.len. rewrite map_size_delete_Some by eauto.
      apply Nat.succ_pred. intros Hz%map_size_empty_inv. subst. by rewrite lookup_empty in Hk.
    + intros Hs. split; [apply KeyStore.find_by_id_None|intros token k']; by eauto.
  - pose proof (KeyStore.remove_by_id_false id s) as Hf. rewrite E in Hf.
    destruct Hf as [Hf _]. specialize (Hf eq_refl).
    assert (s' = s) as ->.
    { unfold KeyStore.remove_by_id in E. by destruct (find_first _ _) as [[]|]; simplify_eq. }
    split; [naive_solver|]. split; [done|]. split; [done|]. intros _.
    split; [by apply KeyStore.find_by_id_None|]. intros token k'. apply Hf.
Qed.

(** Key generation never panics: the body is long enough and the cut falls
    on a character boundary; the identifier is the prefix and twelve characters
    of the token, and the record stored for the new key is the one the new token
    authenticates to, whatever the store held before. *)
Theorem generate_key_authenticates `{!Base64Laws} (buf : bytes) (s : KeyStore) (f : GeneratedKey → VirtualKey) :
  length buf = TOKEN_BYTES →
  (∀ g, VirtualKey.hash (f g) = gk_hash g) →
  ∃ g p, generate_key buf = Some g ∧
    gk_id g = "vp_" +:+ p ∧ String.length p = 12 ∧
    (∃ r, gk_token g = gk_id g +:+ r) ∧
    KeyStore.authenticate (KeyStore.insert (f g) s) (gk_token g) = Some (f g).
Proof.
  intros Hlen Hf. destruct (generate_key_spec buf Hlen) as (g & p & ? & ? & ? & ? & Hh).
  exists g, p. split_and!; try done.
  unfold KeyStore.authenticate, KeyStore.insert. rewrite Hf, <-Hh. apply lookup_insert_eq.
Qed.

(** The comparison that avoids an early exit decides equality. *)
Lemma constant_time_eq_spec (a b : bytes) : constant_time_eq a b = true ↔ a = b.
Proof.
  unfold constant_time_eq, fold_diff. destruct (Nat.eqb_spec (length a) (length b)); cbn.
  - rewrite N.eqb_eq, fold_diff_0. split; [by intros [_ ?]; apply zip_eq|].
    intros ->. split; [done|]. apply zip_diag.
  - split; [done|]. intros ->. congruence.
Qed.
End properties.

(** ** Witnesses *)

(** Concrete crates for the witnesses: any functions with the documented shape do. *)
Definition sample_crypto : Crypto :=
  {| sha256 b := b; hmac_sha256 k b := k ++ b; hex_encode b := of_bytes b;
     base64url b := of_bytes (repeat Byte.x41 ((4 * length b + 2) / 3)) |}.
Lemma sample_base64_laws : @Base64Laws sample_crypto.
Proof.
  split; intros b;
    change (base64url b) with (of_bytes (repeat Byte.x41 ((4 * length b + 2) / 3))).
  - by rewrite as_of_bytes, repeat_length.
  - unfold ascii_string. rewrite as_of_bytes.
    apply Forall_forall. intros x ->%list_elem_of_In%repeat_spec. done.
Qed.
Definition sample_key (id hash : string) : VirtualKey :=
  VirtualKey.mk id hash "team" "app" "prod" ["gpt-4o"] (Some 10%Z) None None.

Lemma authenticate_sound_witness :
  VirtualKey.hash (sample_key "vp_1" "tok") = "tok" ∧
  KeyStore.wf (KeyStore.insert (sample_key "vp_1" "tok") ∅).
Proof.
  apply (@authenticate_sound sample_crypto some_hash_order ∅
           (KeyStore.insert (sample_key "vp_1" "tok") ∅) "tok").
  - apply map_Forall_empty.
  - eapply rtc_l; [apply KeyStore.step_insert|apply rtc_refl].
  - reflexivity.
Defined.

Lemma remove_by_id_revokes_witness :
  ∃ h k, ({["tok" := sample_key "vp_1" "tok"]} : KeyStore) !! h = Some k ∧
      VirtualKey.id k = "vp_1" ∧ ∅ = delete h ({["tok" := sample_key "vp_1" "tok"]} : KeyStore) ∧
      S (KeyStore.len ∅) = KeyStore.len {["tok" := sample_key "vp_1" "tok"]}.
Proof.
  refine (proj1 (proj2 (proj2 (@remove_by_id_revokes sample_crypto some_hash_order
    {["tok" := sample_key "vp_1" "tok"]} ∅ "vp_1" true _))) eq_refl). reflexivity.
Defined.

Lemma generate_key_authenticates_witness :
  ∃ g p, @generate_key sample_crypto (repeat Byte.x00 32) = Some g ∧
    gk_id g = "vp_" +:+ p ∧ String.length p = 12 ∧
    (∃ r, gk_token g = gk_id g +:+ r) ∧
    @KeyStore.authenticate sample_crypto
      (KeyStore.insert (sample_key (gk_id g) (gk_hash g)) ∅) (gk_token g)
    = Some (sample_key (gk_id g) (gk_hash g)).
Proof.
  apply (@generate_key_authenticates sample_crypto sample_base64_laws
    (repeat Byte.x00 32) ∅ (λ g, sample_key (gk_id g) (gk_hash g))); reflexivity.
Defined.
