(* ===== verification/Limits.v ===== *)
(** * Limits: rate limiting and spend tracking ([auth.rs], second half)

    The token buckets are [f64] arithmetic on clock readings; the readings of
    [Instant::now] are arguments, in nanoseconds. The spend tracker is related to
    the ledger of what was recorded. *)

From S2P Require Import Prelude Float64 Auth.
Local Open Scope Z_scope.

(** ** Token buckets *)
Record TokenBucket := mkBucket {
  capacity : f64;
  refill_per_second : f64;
  available : f64;
  last_refill : Z
}.

Module TokenBucket.
(** [f64::from(rps)]; [now] is the reading of [Instant::now]. *)
Definition new (rps now : Z) : TokenBucket :=
  let cap := F64.of_int rps in
  mkBucket cap cap cap now.

(** [Instant::duration_since] saturates to zero. *)
Definition refill (b : TokenBucket) (now : Z) : TokenBucket :=
  let elapsed := F64.as_secs_f64 (Z.max 0 (now - last_refill b)) in
  mkBucket (capacity b) (refill_per_second b)
    (F64.min (F64.add (available b) (F64.mul elapsed (refill_per_second b))) (capacity b))
    now.
Definition try_consume (b : TokenBucket) (now : Z) : bool * TokenBucket :=
  let b := refill b now in
  if F64.le F64.one (available b)
  then (true, mkBucket (capacity b) (refill_per_second b)
                (F64.sub (available b) F64.one) (last_refill b))
  else (false, b).
End TokenBucket.

Abbreviation RateLimiter := (gmap string TokenBucket).
Module RateLimiter.
(** [now0] is the reading a new bucket takes, [now] the one [try_consume]
    takes after it. *)
Definition check (key_id : string) (rps now0 now : Z) (buckets : RateLimiter) : bool * RateLimiter :=
  let bucket :=
    match buckets !! key_id with
    | Some b => b
    | None => TokenBucket.new rps now0
    end in
  let '(ok, bucket) := TokenBucket.try_consume bucket now in
  (ok, <[key_id := bucket]> buckets).
Definition forget (key_id : string) (buckets : RateLimiter) : RateLimiter := delete key_id buckets.

(** What happens to a limiter: checks under a [u32] limit, and revocations. *)
Inductive step : RateLimiter → RateLimiter → Prop :=
| step_check key_id rps now0 now bs : in_u32 rps → step bs (check key_id rps now0 now bs).2
| step_forget key_id bs : step bs (forget key_id bs).

(** [n] checks of one key at one clock reading. *)
Fixpoint burst (n : nat) (key_id : string) (rps now : Z) (buckets : RateLimiter) : list bool * RateLimiter :=
  match n with
  | O => ([], buckets)
  | S n =>
      let '(ok, buckets) := check key_id rps now now buckets in
      let '(oks, buckets) := burst n key_id rps now buckets in
      (ok :: oks, buckets)
  end.
End RateLimiter.

(** ** Spend *)
Record SpendState := mkSpend { period_token : Z; cumulative_usd : f64 }.

Section tracker.
Context `{TimeCrate}.

(** The current period as one [u64]; [as u64] of a negative number wraps, and
    [unix_timestamp / 86_400] truncates towards zero. *)
Definition current_period_token (p : Period) (now : Z) : Z :=
  let d := utc_at now in
  match p with
  | Day => wrap_u64 (Z.quot (unix_timestamp d) 86400)
  | Week => wrap_u64 (wrap_u64 (year d) * 100 + iso_week d)
  | Month => wrap_u64 (wrap_u64 (year d) * 100 + month d)
  end.
End tracker.

Abbreviation SpendTracker := (gmap string SpendState).

Module SpendTracker.
Section tracker.
Context `{TimeCrate}.

Definition pre_check (entries : SpendTracker) (key_id : string) (limit : SpendLimit) (now : Z) : bool :=
  let token := current_period_token (period limit) now in
  match entries !! key_id with
  | Some state =>
      if period_token state =? token then F64.lt (cumulative_usd state) (amount_usd limit)
      else true
  | None => true
  end.

Definition record (key_id : string) (p : Period) (cost : f64) (now : Z) (entries : SpendTracker) : SpendTracker :=
  let token := current_period_token p now in
  let state :=
    match entries !! key_id with
    | Some state => state
    | None => mkSpend token F64.zero
    end in
  let state :=
    if period_token state =? token then state else mkSpend token F64.zero in
  <[key_id := mkSpend (period_token state) (F64.add (cumulative_usd state) cost)]> entries.

Definition forget (key_id : string) (entries : SpendTracker) : SpendTracker := delete key_id entries.

Definition current_usd (entries : SpendTracker) (key_id : string) (p : Period) (now : Z) : f64 :=
  let token := current_period_token p now in
  match entries !! key_id with
  | Some state => if period_token state =? token then cumulative_usd state else F64.zero
  | None => F64.zero
  end.

(** What happens to a tracker. *)
Inductive op :=
| Record_ (key_id : string) (p : Period) (cost : f64) (now : Z)
| Forget (key_id : string).
Definition apply (entries : SpendTracker) (o : op) : SpendTracker :=
  match o with
  | Record_ k p c now => record k p c now entries
  | Forget k => forget k entries
  end.
Definition run (ops : list op) : SpendTracker := foldl apply ∅ ops.

(** The ledger of one key: the periods and amounts recorded since it was last
    forgotten, oldest first. *)
Definition book (k : string) (acc : list (Z * f64)) (o : op) : list (Z * f64) :=
  match o with
  | Record_ k' p c now =>
      if decide (k' = k) then acc ++ [(current_period_token p now, c)] else acc
  | Forget k' => if decide (k' = k) then [] else acc
  end.
Definition ledger (k : string) (ops : list op) : list (Z * f64) := foldl (book k) [] ops.

(** The amounts since the period [token] began: the longest suffix of the ledger
    within it, and their total in the order they were recorded. *)
Fixpoint take_while {A} (p : A → bool) (l : list A) : list A :=
  match l with
  | [] => []
  | x :: l => if p x then x :: take_while p l else []
  end.
Definition since (token : Z) (l : list (Z * f64)) : list f64 :=
  rev (map snd (take_while (λ e, e.1 =? token) (rev l))).
Definition total (l : list f64) : f64 := foldl F64.add F64.zero l.
End tracker.
End SpendTracker.

(** ** Lemmas: the bucket at a frozen clock *)
Lemma add_zero_r x v : F64.nonneg x v → F64.add x F64.zero = x.
Proof. by destruct 1. Qed.
Lemma mul_zero_int n : 0 ≤ n < 2 ^ 53 → F64.mul F64.zero (F64.of_int n) = F64.zero.
Proof. intros Hn. by destruct (F64.of_int_nonneg n Hn). Qed.
Lemma elapsed_zero : F64.as_secs_f64 0 = F64.zero.
Proof. reflexivity. Qed.

Lemma min_of_int a b :
  0 ≤ a ≤ b → b < 2 ^ 53 → F64.min (F64.of_int a) (F64.of_int b) = F64.of_int a.
Proof.
  intros. pose proof F64.unit_pos.
  apply (F64.nonneg_inj _ _ (Z.min (a * F64.unit) (b * F64.unit))).
  - apply F64.min_nonneg; apply F64.of_int_nonneg; lia.
  - rewrite Z.min_l by (apply Z.mul_le_mono_nonneg_r; lia). apply F64.of_int_nonneg; lia.
Qed.

(** A bucket of [rps] tokens with [k] of them left. *)
Definition bucket_at (rps k now : Z) : TokenBucket :=
  mkBucket (F64.of_int rps) (F64.of_int rps) (F64.of_int k) now.

Lemma try_consume_frozen rps k now :
  0 ≤ k ≤ rps → rps < 2 ^ 53 →
  TokenBucket.try_consume (bucket_at rps k now) now
  = (1 <=? k, bucket_at rps (if 1 <=? k then k - 1 else k) now).
Proof.
  intros. unfold TokenBucket.try_consume, TokenBucket.refill, bucket_at. cbn [capacity
    refill_per_second available last_refill].
  replace (Z.max 0 (now - now)) with 0 by lia.
  rewrite elapsed_zero, mul_zero_int, (add_zero_r _ (k * F64.unit)), min_of_int
    by (lia || apply F64.of_int_nonneg; lia).
  unfold F64.one. rewrite F64.of_int_le by lia.
  destruct (Z.leb_spec 1 k); [|done]. by rewrite F64.of_int_sub by lia.
Qed.

Lemma burst_frozen n key rps k now bs :
  0 ≤ k ≤ rps → rps < 2 ^ 53 → bs !! key = Some (bucket_at rps k now) →
  (RateLimiter.burst n key rps now bs).1 = map (λ i, Z.of_nat i <? k) (seq 0 n).
Proof.
  revert k bs. induction n as [|n IH]; intros k bs Hk Hr Hb; [done|]. cbn.
  unfold RateLimiter.check. rewrite Hb, try_consume_frozen by done.
  specialize (IH (if 1 <=? k then k - 1 else k)
    (<[key := bucket_at rps (if 1 <=? k then k - 1 else k) now]> bs)).
  destruct (RateLimiter.burst n _ _ _ _) as [oks bs'] eqn:E. cbn in IH |- *.
  rewrite IH; [|case_match; lia|done|apply lookup_insert_eq]. f_equal.
  - clear IH. destruct (Z.leb_spec 1 k), (Z.ltb_spec (Z.of_nat 0) k); done || (exfalso; lia).
  - rewrite <-seq_shift, map_map. apply map_ext. intros i.
    clear IH. destruct (Z.leb_spec 1 k); apply eq_bool_prop_intro; rewrite !Is_true_true, !Z.ltb_lt; lia.
Qed.

Lemma burst_other n key rps now bs key' :
  key' ≠ key → (RateLimiter.burst n key rps now bs).2 !! key' = bs !! key'.
Proof.
  intros Hne. revert bs. induction n as [|n IH]; intros bs; [done|]. cbn.
  unfold RateLimiter.check. destruct (TokenBucket.try_consume _ now) as [ok b].
  specialize (IH (<[key := b]> bs)). destruct (RateLimiter.burst n _ _ _ _) as [oks bs'].
  cbn in *. by rewrite IH, lookup_insert_ne.
Qed.

(** ** Lemmas: the bucket at any clock *)

(** A bucket holds between nothing and its capacity, a [u32] number of
    requests, and refills at that rate. *)
Definition bucket_ok (b : TokenBucket) : Prop :=
  ∃ rps v, in_u32 rps ∧ capacity b = F64.of_int rps ∧ refill_per_second b = F64.of_int rps ∧
    F64.nonneg (available b) v ∧ v ≤ rps * F64.unit.

Lemma of_u32_nonneg rps : in_u32 rps → F64.nonneg (F64.of_int rps) (rps * F64.unit).
Proof. intros Hr. apply F64.of_int_nonneg. unfold in_u32, u32_max in Hr. lia. Qed.

Lemma new_ok rps now : in_u32 rps → bucket_ok (TokenBucket.new rps now).
Proof.
  intros Hr. exists rps, (rps * F64.unit). split_and!; try done. by apply of_u32_nonneg.
Qed.
Lemma add_nan x y : F64.is_nan y = true → F64.is_nan (F64.add x y) = true.
Proof. by destruct x, y. Qed.

Lemma refill_ok b now : bucket_ok b → bucket_ok (TokenBucket.refill b now).
Proof.
  intros (rps & v & Hr & Hc & Hrf & Hv & _). pose proof (of_u32_nonneg rps Hr) as Hcap.
  unfold TokenBucket.refill. rewrite Hc, Hrf.
  set (el := F64.as_secs_f64 (Z.max 0 (now - last_refill b))).
  assert (F64.posf el) as Hel by (apply F64.as_secs_posf; lia).
  set (x := F64.add _ _). assert (F64.is_nan x = true ∨ F64.posf x) as Hx.
  { destruct (F64.mul_posf el (F64.of_int rps)) as [Hn|Hp]; [done|by eapply F64.nonneg_posf| |].
    - left. by apply add_nan.
    - right. apply F64.add_posf; [by eapply F64.nonneg_posf|done]. }
  destruct (F64.min_cap _ _ _ Hx Hcap) as (w & Hw & Hle). by exists rps, w.
Qed.
Lemma one_nonneg : F64.nonneg F64.one F64.unit.
Proof. apply (F64.of_int_nonneg 1). lia. Qed.

Lemma try_consume_ok b now : bucket_ok b → bucket_ok (TokenBucket.try_consume b now).2.
Proof.
  intros Hb. apply (refill_ok b now) in Hb. unfold TokenBucket.try_consume.
  set (b' := TokenBucket.refill b now) in *. clearbody b'.
  destruct Hb as (rps & v & Hr & Hc & Hrf & Hv & Hle).
  destruct (F64.le F64.one (available b')) eqn:E; [|by exists rps, v].
  rewrite (F64.le_nonneg _ _ _ _ one_nonneg Hv) in E. apply Z.leb_le in E.
  exists rps, (F64.rnd (v - F64.unit)). split_and!; try done.
  - apply F64.sub_nonneg; [done|apply one_nonneg|done].
  - rewrite <-(F64.nonneg_rnd _ _ (of_u32_nonneg rps Hr)).
    apply F64.rnd_mono. pose proof F64.unit_pos. lia.
Qed.

Lemma bucket_ok_range b : bucket_ok b →
  F64.le F64.zero (available b) = true ∧ F64.le (available b) (capacity b) = true.
Proof.
  intros (rps & v & Hr & Hc & _ & Hv & Hle). pose proof (F64.nonneg_ge _ _ Hv). split.
  - rewrite (F64.le_nonneg _ _ 0 v); [by apply Z.leb_le|constructor|done].
  - rewrite Hc, (F64.le_nonneg _ _ v (rps * F64.unit)); [by apply Z.leb_le|done|].
    by apply of_u32_nonneg.
Qed.

Lemma limiter_step_ok bs bs' :
  RateLimiter.step bs bs' → map_Forall (λ _, bucket_ok) bs → map_Forall (λ _, bucket_ok) bs'.
Proof.
  destruct 1 as [key rps now0 now bs Hr|key bs]; intros Hok.
  - unfold RateLimiter.check.
    assert (bucket_ok (match bs !! key with Some b => b | None => TokenBucket.new rps now0 end)) as Hb.
    { destruct (bs !! key) eqn:E; [by eapply Hok|by apply new_ok]. }
    apply (try_consume_ok _ now) in Hb. destruct (TokenBucket.try_consume _ now) as [ok b'].
    by apply map_Forall_insert_2.
  - by apply map_Forall_delete.
Qed.

(** ** Lemmas: the tracker and the ledger *)
Section ledger.
Context `{TimeCrate}.
Import SpendTracker.

Lemma since_snoc t l t' c :
  since t (l ++ [(t', c)]) = if t' =? t then since t l ++ [c] else [].
Proof. unfold since. rewrite rev_app_distr. cbn. by case_match. Qed.
Lemma total_snoc l c : total (l ++ [c]) = F64.add (total l) c.
Proof. unfold total. by rewrite foldl_app. Qed.

(** The entry the tracker keeps for a ledger: the period of the last record and
    the total since that period began. *)
Definition entry_of (l : list (Z * f64)) : option SpendState :=
  match last l with
  | Some (t, _) => Some (mkSpend t (total (since t l)))
  | None => None
  end.

Lemma run_snoc ops o : run (ops ++ [o]) = apply (run ops) o.
Proof. unfold run. by rewrite foldl_app. Qed.
Lemma ledger_snoc k ops o : ledger k (ops ++ [o]) = book k (ledger k ops) o.
Proof. unfold ledger. by rewrite foldl_app. Qed.

Lemma last_none_nil {A} (l : list A) : last l = None → l = [].
Proof. by rewrite last_None. Qed.

Lemma since_other t t' c l : last l = Some (t', c) → t' ≠ t → since t l = [].
Proof.
  intros [l' ->]%last_Some Hne. rewrite since_snoc.
  by rewrite (proj2 (Z.eqb_neq _ _)) by done.
Qed.

Lemma record_entry l t c :
  entry_of (l ++ [(t, c)]) =
    let st := match entry_of l with Some st => st | None => mkSpend t F64.zero end in
    let st := if period_token st =? t then st else mkSpend t F64.zero in
    Some (mkSpend (period_token st) (F64.add (cumulative_usd st) c)).
Proof.
  unfold entry_of. rewrite last_snoc, since_snoc, Z.eqb_refl, total_snoc.
  destruct (last l) as [[t' c']|] eqn:E; cbn.
  - destruct (Z.eqb_spec t' t) as [->|Hne]; [done|]. by rewrite (since_other _ _ _ _ E Hne).
  - apply last_none_nil in E. subst. cbn. by rewrite Z.eqb_refl.
Qed.

Lemma run_ledger ops k : run ops !! k = entry_of (ledger k ops).
Proof.
  induction ops as [|o ops IH] using rev_ind; [done|].
  rewrite run_snoc, ledger_snoc. destruct o as [k' p c now|k']; cbn.
  - unfold record. rewrite lookup_insert. case_decide as Hk; [|done]. subst.
    rewrite record_entry, IH. done.
  - unfold forget. rewrite lookup_delete. by case_decide.
Qed.
End ledger.

(** ** Properties *)

(** However the clock reads, and for any sequence of checks and revocations
    from an empty limiter, every bucket holds between zero and its capacity, a
    [u32] number of requests: a pause never earns more than the capacity, and a
    grant never drives a bucket negative. *)
Theorem rate_limiter_bounds (bs : gmap string TokenBucket) key b :
  rtc RateLimiter.step ∅ bs → bs !! key = Some b →
  F64.le F64.zero (available b) = true ∧ F64.le (available b) (capacity b) = true ∧
  ∃ rps, in_u32 rps ∧ capacity b = F64.of_int rps ∧ refill_per_second b = F64.of_int rps.
Proof.
  intros Hr Hb. assert (map_Forall (λ _, bucket_ok) bs) as Hok.
  { by eapply rtc_invariant; [apply limiter_step_ok|apply map_Forall_empty|]. }
  specialize (Hok key b Hb). destruct (bucket_ok_range b Hok) as [H1 H2].
  split; [done|]. split; [done|]. destruct Hok as (rps & v & ? & ? & ? & _). eauto.
Qed.

(** While the clock stands still a fresh key gets exactly its limit: of [n]
    checks at one instant the first [rps] pass and the rest fail, and the checks
    of one key leave every other key's bucket alone. *)
Theorem frozen_clock_allows_exactly_rps n key rps now (bs : gmap string TokenBucket) :
  in_u32 rps → bs !! key = None →
  (RateLimiter.burst n key rps now bs).1 = map (λ i, Z.of_nat i <? rps) (seq 0 n) ∧
  ∀ key', key' ≠ key → (RateLimiter.burst n key rps now bs).2 !! key' = bs !! key'.
Proof.
  unfold in_u32, u32_max. intros Hr Hb. split; [|intros; by apply burst_other].
  destruct n as [|n]; [done|]. cbn.
  pose proof (try_consume_frozen rps rps now ltac:(lia) ltac:(lia)) as Ht.
  unfold RateLimiter.check. rewrite Hb.
  change (TokenBucket.new rps now) with (bucket_at rps rps now). rewrite Ht.
  pose proof (burst_frozen (S n) key rps rps now (<[key := bucket_at rps rps now]> bs)
    ltac:(lia) ltac:(lia) (lookup_insert_eq _ _ _)) as Hbf.
  cbn in Hbf. unfold RateLimiter.check in Hbf. rewrite lookup_insert_eq, Ht, insert_insert_eq in Hbf.
  exact Hbf.
Qed.

Section properties.
Context `{TimeCrate}.

(** C18: The tracker refines the ledger: after any history of charges and
    revocations, the amount it reports for a key in a period is the sum, in the
    order they were made, of the charges to that key since the current period
    began (and since the key was last forgotten), and the budget check passes
    exactly when nothing was charged in the period or that sum is below the
    limit. *)
Theorem spend_refines_ledger (ops : list SpendTracker.op) key (limit : SpendLimit) now :
  let l := SpendTracker.since (current_period_token (period limit) now) (SpendTracker.ledger key ops) in
  SpendTracker.current_usd (SpendTracker.run ops) key (period limit) now = SpendTracker.total l ∧
  (SpendTracker.pre_check (SpendTracker.run ops) key limit now = true ↔
     l = [] ∨ F64.lt (SpendTracker.total l) (amount_usd limit) = true).
Proof.
  cbn zeta. unfold SpendTracker.current_usd, SpendTracker.pre_check.
  rewrite run_ledger. unfold entry_of.
  set (t := current_period_token (period limit) now).
  destruct (last (SpendTracker.ledger key ops)) as [[t' c]|] eqn:E; cbn.
  - destruct (Z.eqb_spec t' t) as [->|Hne].
    + split; [done|]. apply last_Some in E as [l' ->].
      rewrite since_snoc, Z.eqb_refl. split; [by auto|].
      intros [Hn|?]; [by destruct (SpendTracker.since t l')|done].
    + rewrite (since_other _ _ _ _ E Hne). split; [done|]. split; [by left|done].
  - apply last_none_nil in E. rewrite E. split; [done|]. split; [by left|done].
Qed.

(** Two instants of one ISO week that lie in different calendar years get
    different week tokens, so a weekly budget that was used up is whole again
    after New Year although the week has not ended. *)
Theorem week_budget_resets_at_new_year key a b cost amount (entries : gmap string SpendState) :
  iso_week (utc_at a) = iso_week (utc_at b) →
  0 ≤ year (utc_at a) < 10000 → 0 ≤ year (utc_at b) < 10000 → 0 ≤ iso_week (utc_at a) < 54 →
  year (utc_at a) ≠ year (utc_at b) →
  SpendTracker.pre_check (SpendTracker.record key Week cost a entries) key
    (mkSpendLimit amount Week) b = true.
Proof.
  intros Hw Ha Hb Hi Hne. unfold SpendTracker.pre_check, SpendTracker.record.
  rewrite lookup_insert_eq. cbn [period period_token amount_usd].
  assert (∀ st, period_token st = current_period_token Week a →
    (period_token st =? current_period_token Week b) = false) as Hd.
  { intros st ->. apply Z.eqb_neq. unfold current_period_token, wrap_u64. rewrite <-Hw.
    rewrite !(Z.mod_small (year _)), !Z.mod_small by lia. lia. }
  rewrite Hd; [done|].
  case_match eqn:E; [by apply Z.eqb_eq in E|done].
Qed.
End properties.

(** ** Witnesses *)
Lemma rate_limiter_bounds_witness :
  ∃ b, (RateLimiter.check "k" 2 0 500000000 ∅).2 !! "k" = Some b ∧
    F64.le F64.zero (available b) = true ∧ F64.le (available b) (capacity b) = true.
Proof.
  exists (TokenBucket.try_consume (TokenBucket.new 2 0) 500000000).2.
  split; [vm_compute; reflexivity|].
  destruct (rate_limiter_bounds (RateLimiter.check "k" 2 0 500000000 ∅).2 "k"
    (TokenBucket.try_consume (TokenBucket.new 2 0) 500000000).2) as (H1 & H2 & _).
  - eapply rtc_l; [apply RateLimiter.step_check|apply rtc_refl].
    unfold in_u32, u32_max. lia.
  - vm_compute. reflexivity.
  - split; [exact H1|exact H2].
Defined.

Lemma frozen_clock_allows_exactly_rps_witness :
  (RateLimiter.burst 4 "k" 2 7 ∅).1 = [true; true; false; false].
Proof.
  apply (frozen_clock_allows_exactly_rps 4 "k" 2 7 ∅); [unfold in_u32, u32_max; lia|reflexivity].
Defined.

(** The readings of 31 December 2024 and 1 January 2025, both in ISO week 1. *)
Definition sample_time : TimeCrate :=
  {| parse_rfc3339 _ := None;
     utc_at now := if now <? 1735689600000000000
                   then mkUtc (now / 1000000000) 2024 1 12
                   else mkUtc (now / 1000000000) 2025 1 1 |}.
Lemma week_budget_resets_at_new_year_witness :
  @SpendTracker.pre_check sample_time
    (@SpendTracker.record sample_time "k" Week (F64.of_int 100) 1735603200000000000 ∅)
    "k" (mkSpendLimit (F64.of_int 50) Week) 1735689600000000000 = true.
Proof.
  apply (@week_budget_resets_at_new_year sample_time "k" 1735603200000000000 1735689600000000000);
    vm_compute; (done || (split; done)).
Defined.
