(* ===== verification/FloatError.v ===== *)
(** * FloatError: how far a rounded result is from the exact one

    Bounds on the sums, products and quotients of [Float64] in terms of the
    integers the doubles denote, in units of 2^-1074. *)

From S2P Require Import Prelude Float64.
From Stdlib Require Import Floats.SpecFloat.
Import F64.
Local Open Scope Z_scope.

(** ** Rounding *)

(** Rounding to nearest is off by at most half a unit. *)
Lemma rne_error a d : 0 < d → 2 * (rne a d * d) ≤ 2 * a + d.
Proof.
  intros Hd. pose proof (Z.div_mod a d ltac:(lia)). pose proof (Z.mod_pos_bound a d Hd).
  unfold rne. repeat case_match; nia.
Qed.

(** The relative error is at most 2^-53. *)
Lemma rnd_error z : 0 ≤ z → 2 ^ 53 * rnd z ≤ (2 ^ 53 + 1) * z.
Proof.
  intros Hz. unfold rnd. pose proof (rnd_shift_pos z) as Hp.
  pose proof (rne_error z (2 ^ rnd_shift z) Hp) as He.
  destruct (decide (rnd_shift z = 0)) as [Hs|Hs].
  { rewrite Hs in *. pose proof (rne_exact z 1 ltac:(lia)) as H1. rewrite Z.mul_1_r in H1.
    change (2 ^ 0) with 1. rewrite H1. lia. }
  assert (0 < z) as Hz0.
  { destruct (decide (z = 0)) as [->|]; [by cbn in Hs|lia]. }
  assert (2 ^ 52 * 2 ^ rnd_shift z ≤ z) as Hl.
  { rewrite <-Z.pow_add_r by (unfold rnd_shift in *; lia).
    etrans; [|apply (proj1 (Z.log2_spec z Hz0))].
    apply Z.pow_le_mono_r; unfold rnd_shift in *; lia. }
  set (p := 2 ^ rnd_shift z) in *. set (q := rne z p * p) in *. clearbody p q. lia.
Qed.

(** An integer of the unit is a double, so rounding does not pass it. *)
Lemma rnd_ge_int n z : 0 ≤ n < 2 ^ 53 → n * unit ≤ z → n * unit ≤ rnd z.
Proof.
  intros Hn Hz. pose proof (rnd_exact n 1074 Hn ltac:(lia)) as E. fold unit in E.
  rewrite <-E. apply rnd_mono. pose proof unit_pos.
  split; [apply Z.mul_nonneg_nonneg; lia|done].
Qed.

(** Far from the largest double nothing overflows. *)
Lemma rnd_small z : 0 ≤ z < 2 ^ 2097 → rnd z < overflow.
Proof.
  intros Hz. pose proof (rnd_error z ltac:(lia)) as He. unfold overflow.
  change 2098 with (1 + 2097). rewrite Z.pow_add_r by lia.
  set (p := 2 ^ 2097) in *. clearbody p. lia.
Qed.

(** The significand and exponent of an integer, and the integer they denote. *)
Lemma of_int_scaled n :
  1 ≤ n < 2 ^ 53 → ∃ m e, of_int n = S754_finite false m e ∧
    2 ^ 52 ≤ Zpos m < 2 ^ 53 ∧ -53 < e ≤ 0 ∧ n * 2 ^ (- e) = Zpos m.
Proof.
  intros Hn. destruct (of_int_normal n Hn) as (m & e & E & Hm & He).
  exists m, e. split_and!; [done|lia..|].
  pose proof (of_int_nonneg n ltac:(lia)) as Hof. rewrite E in Hof.
  inversion Hof as [|? ? Hb E1 E2].
  assert (unit = 2 ^ (- e) * 2 ^ (e + 1074)) as Eu
    by (unfold unit; rewrite <-Z.pow_add_r by lia; f_equal; lia).
  pose proof (Z.pow_pos_nonneg 2 (e + 1074)).
  rewrite Eu, Z.mul_assoc in E2. apply Z.mul_reg_r in E2; lia.
Qed.

(** ** Products with an integer *)

(** A double that is not tiny times an integer below 2^53 is the exact product,
    rounded once. *)
Lemma mul_int_nonneg x v n :
  nonneg x v → v = 0 ∨ 2 ^ 106 ≤ v → 0 ≤ n < 2 ^ 53 → rnd (v * n) < overflow →
  nonneg (mul x (of_int n)) (rnd (v * n)).
Proof.
  intros Hx Hv Hn. destruct (decide (n = 0)) as [->|Hn0].
  { rewrite Z.mul_0_r. intros _. destruct Hx; constructor. }
  destruct (of_int_scaled n ltac:(lia)) as (m2 & e2 & -> & Hm2 & He2 & En).
  destruct Hx as [|m1 e1 Hb]; [intros _; constructor|].
  pose proof (bounded_exp _ _ Hb) as He1. pose proof (bounded_mantissa _ _ Hb) as Hm1.
  assert (-1021 < e1) as Hlow.
  { apply Z.nle_gt. intros Hle.
    assert (2 ^ (e1 + 1074) ≤ 2 ^ 53) by (apply Z.pow_le_mono_r; lia).
    assert (0 < 2 ^ (e1 + 1074)) by (apply Z.pow_pos_nonneg; lia).
    destruct Hv as [Hv|Hv]; [nia|]. change (2 ^ 106) with (2 ^ 53 * 2 ^ 53) in Hv. nia. }
  assert (Zpos m1 * 2 ^ (e1 + 1074) * n = Zpos (m1 * m2) * 2 ^ (e1 + e2 + 1074)) as Ep.
  { rewrite Pos2Z.inj_mul, <-En.
    replace (e1 + 1074) with (- e2 + (e1 + e2 + 1074)) by lia.
    rewrite (Z.pow_add_r 2 (- e2)) by lia. ring. }
  rewrite Ep. intros Hov. unfold mul. cbn [SFmul xorb].
  apply round_aux_nonneg; [lia|lia| |done].
  apply bounded_spec in Hb as [Ht _].
  assert (Z.log2 (Zpos m1) + Z.log2 (Zpos m2) ≤ Z.log2 (Zpos (m1 * m2))) as Hl
    by (rewrite Pos2Z.inj_mul; apply Z.log2_mul_below; lia).
  assert (52 ≤ Z.log2 (Zpos m2)) by (apply Z.log2_le_pow2; lia).
  pose proof (Z.log2_nonneg (Zpos m1)). unfold target in *. lia.
Qed.

(** ** Quotients of integers *)

(** The division algorithm keeps two bits below the integer quotient: the result is
    one rounding of a number within 2^-52 of the exact quotient. *)
Lemma div_ints_rounds a b :
  1 ≤ a < 2 ^ 53 → 1 ≤ b < 2 ^ 53 →
  ∃ z, 2 ^ 106 ≤ z ∧ 2 ^ 52 * (b * z) ≤ (2 ^ 52 + 1) * (a * unit) ∧
    (rnd z < overflow → nonneg (div (of_int a) (of_int b)) (rnd z)).
Proof.
  intros Ha Hb. destruct (of_int_scaled b Hb) as (m2 & e2 & -> & Hm2 & He2 & Eb).
  destruct (of_int_scaled a Ha) as (m1 & e1 & -> & Hm1 & He1 & Ea).
  unfold div. cbn [SFdiv]. unfold SFdiv_core_binary.
  assert (∀ m, 2 ^ 52 ≤ Zpos m < 2 ^ 53 → Zdigits2 (Zpos m) = 53) as Hd.
  { intros m ?. rewrite Zdigits2_log2 by lia.
    rewrite (Z.log2_unique (Zpos m) 52); [done..|lia]. }
  rewrite !Hd, fexp_eq by done.
  replace (Z.min _ (e1 - e2)) with (e1 - e2 - 53) by lia.
  replace (e1 - e2 - (e1 - e2 - 53)) with 53 by lia. cbn match.
  rewrite Z.shiftl_mul_pow2 by lia.
  pose proof (Z_div_mod (Zpos m1 * 2 ^ 53) (Zpos m2) ltac:(lia)) as Hdm.
  destruct (Z.div_eucl _ _) as [q r]. destruct Hdm as [Hq Hr]. cbn [xorb].
  assert (2 ^ 52 ≤ q) by nia.
  assert (52 ≤ Z.log2 q) by (apply Z.log2_le_pow2; lia).
  assert (0 ≤ loc_bits (new_location (Zpos m2) r) ≤ 3) as Hl
    by (destruct (new_location _ _) as [|[]]; cbn; lia).
  rewrite round_aux_loc by (unfold target; lia).
  set (x := 4 * q + loc_bits _) in *. exists (x * 2 ^ (e1 - e2 - 53 - 2 + 1074)).
  assert (2 ^ 54 ≤ x) as Hx by lia. split_and!.
  - assert (2 ^ 52 ≤ 2 ^ (e1 - e2 - 53 - 2 + 1074)) by (apply Z.pow_le_mono_r; lia).
    change (2 ^ 106) with (2 ^ 54 * 2 ^ 52). nia.
  - assert (unit = 2 ^ (- e1) * (2 ^ 55 * 2 ^ (e1 + 1019))) as ->
      by (unfold unit; rewrite <-!Z.pow_add_r by lia; f_equal; lia).
    replace (e1 - e2 - 53 - 2 + 1074) with (- e2 + (e1 + 1019)) by lia.
    rewrite (Z.pow_add_r 2 (- e2)) by lia.
    pose proof (Z.pow_pos_nonneg 2 (e1 + 1019)) as Hp.
    set (p := 2 ^ (e1 + 1019)) in *.
    replace (2 ^ 52 * _) with (2 ^ 52 * (Zpos m2 * x) * p) by (rewrite <-Eb; ring).
    replace ((2 ^ 52 + 1) * _) with ((2 ^ 52 + 1) * (Zpos m1 * 2 ^ 55) * p) by (rewrite <-Ea; ring).
    apply Z.mul_le_mono_nonneg_r; [lia|]. unfold x. nia.
  - apply round_aux_nonneg; [lia..|].
    assert (54 ≤ Z.log2 x) by (apply Z.log2_le_pow2; lia). unfold target. lia.
Qed.

Lemma div_ints_error a b :
  0 ≤ a < 2 ^ 53 → 1 ≤ b < 2 ^ 53 →
  ∃ d, nonneg (div (of_int a) (of_int b)) d ∧ (d = 0 ∨ 2 ^ 106 ≤ d) ∧
    2 ^ 51 * (b * d) ≤ (2 ^ 51 + 1) * (a * unit).
Proof.
  intros Ha Hb. destruct (decide (a = 0)) as [->|Hne].
  { exists 0. split_and!; [|by left|lia].
    destruct (of_int_normal b Hb) as (m2 & e2 & -> & _). constructor. }
  destruct (div_ints_rounds a b ltac:(lia) Hb) as (z & Hlow & Hz & Hn).
  pose proof (rnd_error z ltac:(lia)) as He. pose proof unit_pos as Hu.
  exists (rnd z). split_and!.
  - apply Hn, rnd_small. split; [lia|].
    assert (2 ^ 2097 = 2 ^ 1023 * unit) as -> by (unfold unit; rewrite <-Z.pow_add_r; done).
    assert (2 ^ 54 ≤ 2 ^ 1023) by (apply Z.pow_le_mono_r; lia).
    set (p := 2 ^ 1023) in *. set (u := unit) in *. clearbody p u. nia.
  - right. pose proof (rnd_exact 1 106 ltac:(lia) ltac:(lia)) as E. rewrite Z.mul_1_l in E.
    rewrite <-E. apply rnd_mono. lia.
  - set (u := unit) in *. clearbody u. nia.
Qed.

(** ** Durations *)

(** A duration below a second is one quotient. *)
Lemma as_secs_error n :
  0 ≤ n < 1000000000 →
  ∃ d, nonneg (as_secs_f64 n) d ∧ (d = 0 ∨ 2 ^ 106 ≤ d) ∧
    2 ^ 51 * (1000000000 * d) ≤ (2 ^ 51 + 1) * (n * unit).
Proof.
  intros Hn. destruct (div_ints_error n 1000000000 ltac:(lia) ltac:(lia)) as (d & Hd & Hrest).
  exists d. split; [|done]. unfold as_secs_f64.
  rewrite Z.div_small, Z.mod_small by lia. by destruct Hd; [constructor|constructor].
Qed.

(** A duration of a second or more is at least one. *)
Lemma as_secs_ge_1 n :
  1000000000 ≤ n < 2 ^ 64 * 1000000000 →
  ∃ d, nonneg (as_secs_f64 n) d ∧ unit ≤ d < 2 ^ 66 * unit.
Proof.
  intros Hn. pose proof unit_pos as Hu.
  assert (1 ≤ n / 1000000000 < 2 ^ 64) as Hs
    by (split; [apply Z.div_le_lower_bound|apply Z.div_lt_upper_bound]; lia).
  pose proof (Z.mod_pos_bound n 1000000000 ltac:(lia)) as Hm.
  set (s := n / 1000000000) in *.
  assert (2 ^ 1023 * unit = 2 ^ 2097) as Ebig by (unfold unit; rewrite <-Z.pow_add_r; done).
  assert (2 ^ 70 ≤ 2 ^ 1023) as Hbig by (apply Z.pow_le_mono_r; lia).
  pose proof (rnd_error (s * unit) ltac:(nia)) as He.
  pose proof (rnd_ge_int 1 (s * unit) ltac:(lia) ltac:(nia)) as Hge.
  assert (nonneg (of_int s) (rnd (s * unit))) as Hsec.
  { apply (normalize_nonneg s 0); [lia..|]. apply rnd_small. rewrite <-Ebig. fold unit.
    set (p := 2 ^ 1023) in *. clearbody p. generalize dependent unit. intros. nia. }
  destruct (div_ints_error (n mod 1000000000) 1000000000 ltac:(lia) ltac:(lia)) as (d & Hd & _ & Hde).
  assert (0 ≤ d ≤ unit) as Hdb.
  { pose proof (nonneg_ge _ _ Hd). generalize dependent unit. intros. nia. }
  set (r := rnd (s * unit)) in *.
  pose proof (rnd_error (r + d) ltac:(lia)) as Hre.
  exists (rnd (r + d)). split; [|split].
  - unfold as_secs_f64. fold s. apply add_nonneg; [done..|]. apply rnd_small.
    rewrite <-Ebig. set (p := 2 ^ 1023) in *. clearbody p. generalize dependent unit. intros. nia.
  - pose proof (rnd_ge_int 1 (r + d) ltac:(lia) ltac:(lia)). lia.
  - clearbody r. generalize dependent unit. intros. nia.
Qed.
