(* ===== verification/RateWindow.v ===== *)
(** * RateWindow: how many requests a rate limit admits in a stretch of time

    The limiter as a sequence of checks and revocations, and the number of checks
    of one key that pass between two instants, whatever the other keys do. The
    arithmetic is that of the code, rounding included. *)

From S2P Require Import Prelude Float64 FloatError Auth Limits.
Local Open Scope Z_scope.

(** ** Histories of a limiter *)
Module LimiterOps.
Inductive op :=
| Check_ (key_id : string) (rps now0 now : Z)
| Forget (key_id : string).
Definition apply (buckets : RateLimiter) (o : op) : RateLimiter :=
  match o with
  | Check_ k rps now0 now => (RateLimiter.check k rps now0 now buckets).2
  | Forget k => RateLimiter.forget k buckets
  end.
Definition run (ops : list op) : RateLimiter → RateLimiter := λ bs, foldl apply bs ops.

(** Whether a step is a check of [k], and whether it passes. *)
Definition asks (k : string) (o : op) : bool :=
  match o with Check_ k' _ _ _ => bool_decide (k' = k) | Forget _ => false end.
Definition passes (k : string) (o : op) (buckets : RateLimiter) : bool :=
  match o with
  | Check_ k' rps now0 now => bool_decide (k' = k) && (RateLimiter.check k' rps now0 now buckets).1
  | Forget _ => false
  end.
Fixpoint asked (k : string) (ops : list op) : Z :=
  match ops with [] => 0 | o :: ops => (if asks k o then 1 else 0) + asked k ops end.
Fixpoint admitted (k : string) (ops : list op) (buckets : RateLimiter) : Z :=
  match ops with
  | [] => 0
  | o :: ops => (if passes k o buckets then 1 else 0) + admitted k ops (apply buckets o)
  end.

(** The checks of [k] read the clock in order, between [t] and [t'], and [k] is
    not revoked. *)
Fixpoint within (k : string) (t t' : Z) (ops : list op) : Prop :=
  match ops with
  | [] => t ≤ t'
  | Check_ k' _ now0 now :: ops =>
      if decide (k' = k) then t ≤ now0 ≤ now ∧ within k now t' ops else within k t t' ops
  | Forget k' :: ops => k' ≠ k ∧ within k t t' ops
  end.
(** The rate [k] is held to: that of its bucket, or else that of the checks. *)
Definition rated (k : string) (rps : Z) (ops : list op) (buckets : RateLimiter) : Prop :=
  match buckets !! k with
  | Some b => capacity b = F64.of_int rps
  | None => Forall (λ o, match o with Check_ k' r _ _ => k' = k → r = rps | Forget _ => True end) ops
  end.
End LimiterOps.
Import LimiterOps.
Lemma within_order k t t' ops : within k t t' ops → t ≤ t'.
Proof.
  revert t. induction ops as [|[k' r now0 now|k'] ops IH]; intros t; cbn; [done| |].
  - case_decide; [intros [? ?%IH]; lia|apply IH].
  - intros [_ ?]. by apply IH.
Qed.

(** ** One bucket *)

(** A bucket of rate [rps] that holds [v] 2^-1074ths of a token. *)
Record holds (rps v : Z) (b : TokenBucket) : Prop := {
  holds_capacity : capacity b = F64.of_int rps;
  holds_rate : refill_per_second b = F64.of_int rps;
  holds_value : F64.nonneg (available b) v;
  holds_below : v ≤ rps * F64.unit
}.

Lemma of_u32_inj m n : in_u32 m → in_u32 n → F64.of_int m = F64.of_int n → m = n.
Proof.
  intros Hm Hn E. pose proof (of_u32_nonneg m Hm) as H1. pose proof (of_u32_nonneg n Hn) as H2.
  rewrite <-E in H2. pose proof (F64.compare_nonneg _ _ _ _ H1 H2) as E1.
  rewrite (F64.compare_nonneg _ _ _ _ H1 H1), Z.compare_refl in E1.
  injection E1 as E1. symmetry in E1. apply Z.compare_eq in E1.
  pose proof F64.unit_pos. apply Z.mul_reg_r in E1; lia.
Qed.
Lemma bucket_ok_holds rps b :
  in_u32 rps → bucket_ok b → capacity b = F64.of_int rps → ∃ v, holds rps v b.
Proof.
  intros Hr (rps' & v & Hr' & Hc & Hrf & Hv & Hle) E.
  assert (rps' = rps) as -> by (apply of_u32_inj; [done..|congruence]). by exists v.
Qed.

Section bucket.
Context (rps : Z) (Hrps : in_u32 rps).
Local Abbreviation u := F64.unit.
Local Abbreviation K := 1000000000.

Lemma rps_range : 0 ≤ rps < 2 ^ 32.
Proof. unfold in_u32, u32_max in Hrps. lia. Qed.
Lemma below_overflow z : 0 ≤ z ≤ 2 ^ 40 * u → F64.rnd z < F64.overflow.
Proof.
  intros Hz. apply rnd_small. split; [lia|].
  assert (2 ^ 1023 * u = 2 ^ 2097) as <- by (unfold F64.unit; rewrite <-Z.pow_add_r; done).
  assert (2 ^ 41 ≤ 2 ^ 1023) by (apply Z.pow_le_mono_r; lia).
  pose proof F64.unit_pos. set (p := 2 ^ 1023) in *. clearbody p.
  generalize dependent F64.unit. intros. nia.
Qed.

(** The credit of a pause shorter than a second. *)
Lemma credit_error e :
  0 ≤ e < K →
  ∃ p, F64.nonneg (F64.mul (F64.as_secs_f64 e) (F64.of_int rps)) p ∧ p ≤ rps * u ∧
    2 ^ 50 * (K * p) ≤ (2 ^ 50 + 1) * (e * rps * u).
Proof.
  intros He. pose proof rps_range as Hr. pose proof F64.unit_pos as Hu.
  destruct (as_secs_error e He) as (d & Hd & Hlow & Hde).
  pose proof (F64.nonneg_ge _ _ Hd) as Hd0.
  assert (d ≤ u) by (generalize dependent F64.unit; intros; nia).
  assert (d * rps ≤ rps * u) by (rewrite (Z.mul_comm rps); apply Z.mul_le_mono_nonneg_r; lia).
  assert (0 ≤ d * rps) by (apply Z.mul_nonneg_nonneg; lia).
  assert (rps * u ≤ 2 ^ 40 * u) by (apply Z.mul_le_mono_nonneg_r; lia).
  exists (F64.rnd (d * rps)). split_and!.
  - apply mul_int_nonneg; [done..|lia|apply below_overflow; lia].
  - rewrite <-(F64.nonneg_rnd _ _ (of_u32_nonneg rps Hrps)). apply F64.rnd_mono. lia.
  - pose proof (rnd_error (d * rps) ltac:(lia)) as Hre.
    assert (2 ^ 51 * (K * (d * rps)) ≤ (2 ^ 51 + 1) * (e * rps * u)) as Hy.
    { replace (2 ^ 51 * _) with (2 ^ 51 * (K * d) * rps) by ring.
      replace ((2 ^ 51 + 1) * _) with ((2 ^ 51 + 1) * (e * u) * rps) by ring.
      apply Z.mul_le_mono_nonneg_r; lia. }
    assert (0 ≤ e * rps * u) by (repeat apply Z.mul_nonneg_nonneg; lia).
    set (x := d * rps) in *. set (y := e * rps * u) in *. clearbody x y. lia.
Qed.

(** A refill caps at the rate, and otherwise credits the pause up to rounding. *)
Lemma refill_gain v b now :
  holds rps v b → last_refill b ≤ now →
  ∃ v', holds rps v' (TokenBucket.refill b now) ∧
    2 ^ 51 * (K * v') ≤
      2 ^ 51 * (K * v) + 2 * ((2 ^ 50 + 1) * ((now - last_refill b) * rps * u)) + K * (rps * u).
Proof.
  intros [Hc Hr Hv Hle] Hnow. pose proof rps_range as Hrange. pose proof F64.unit_pos as Hu.
  pose proof (of_u32_nonneg rps Hrps) as Hcap. pose proof (F64.nonneg_ge _ _ Hv) as Hv0.
  pose proof (F64.nonneg_ge _ _ Hcap) as Hcap0.
  set (e := now - last_refill b) in *.
  assert (0 ≤ e * rps * u) by (rewrite <-Z.mul_assoc; apply Z.mul_nonneg_nonneg; lia).
  destruct (decide (e < K)) as [Hs|Hs].
  - destruct (credit_error e ltac:(lia)) as (p & Hp & Hple & Hpe).
    pose proof (F64.nonneg_ge _ _ Hp) as Hp0.
    assert (rps * u ≤ 2 ^ 32 * u) by (apply Z.mul_le_mono_nonneg_r; lia).
    pose proof (rnd_error (v + p) ltac:(lia)) as He.
    exists (Z.min (F64.rnd (v + p)) (rps * u)). split.
    + split; cbn [TokenBucket.refill capacity refill_per_second available]; [done..| |lia].
      rewrite Hc, Hr. fold e. rewrite Z.max_r by lia.
      apply F64.min_nonneg; [|done]. apply F64.add_nonneg; [done..|apply below_overflow; lia].
    + set (c := rps * u) in *. set (y := e * rps * u) in *. clearbody c y. lia.
  - assert (bucket_ok b) as Hb by (exists rps, v; done).
    destruct (bucket_ok_holds rps _ Hrps (refill_ok b now Hb) Hc) as (v' & Hv').
    exists v'. split; [done|]. pose proof (holds_below _ _ _ Hv').
    assert (K * (rps * u) ≤ e * rps * u) by (rewrite <-(Z.mul_assoc e); apply Z.mul_le_mono_nonneg_r; lia).
    set (c := rps * u) in *. set (y := e * rps * u) in *. clearbody c y. lia.
Qed.

(** Taking a token. *)
Definition taken (ok : bool) : Z := if ok then u else 0.
Lemma take_error v b now :
  holds rps v (TokenBucket.refill b now) →
  let '(ok, b') := TokenBucket.try_consume b now in
  last_refill b' = now ∧
  ∃ v', holds rps v' b' ∧ 2 ^ 53 * (v' + taken ok) ≤ 2 ^ 53 * v + rps * u.
Proof.
  intros [Hc Hr Hv Hle]. unfold TokenBucket.try_consume.
  pose proof (F64.nonneg_ge _ _ (of_u32_nonneg rps Hrps)) as Hcap0.
  rewrite (F64.le_nonneg _ _ u v) by (done || apply one_nonneg). pose proof F64.unit_pos.
  destruct (Z.leb_spec u v) as [Hge|Hlt]; (split; [done|]).
  - pose proof (rnd_error (v - u) ltac:(lia)) as He. exists (F64.rnd (v - u)).
    split; [split; [done..| |]|]; cbn [available taken].
    + apply F64.sub_nonneg; [done|apply one_nonneg|done].
    + rewrite <-(F64.nonneg_rnd _ _ (of_u32_nonneg rps Hrps)). apply F64.rnd_mono. lia.
    + lia.
  - exists v. split; [done|]. cbn [taken]. lia.
Qed.
End bucket.

(** ** A key among others *)
Section window.
Context (k : string) (rps : Z) (Hrps : in_u32 rps).
Local Abbreviation u := F64.unit.
Local Abbreviation K := 1000000000.

Lemma apply_other o (bs : RateLimiter) t t' ops :
  asks k o = false → within k t t' (o :: ops) →
  passes k o bs = false ∧ apply bs o !! k = bs !! k ∧ within k t t' ops.
Proof.
  destruct o as [k' r now0 now|k']; cbn.
  - case_bool_decide as Ek; [done|]. rewrite decide_False by done. intros _ Hw. split; [done|]. split; [|done].
    unfold RateLimiter.check. destruct (TokenBucket.try_consume _ now). cbn [snd].
    by rewrite lookup_insert_ne.
  - intros _ [Hne Hw]. split; [done|]. split; [|done]. unfold RateLimiter.forget. by rewrite lookup_delete_ne.
Qed.
Lemma asks_inv o : asks k o = true → ∃ r now0 now, o = Check_ k r now0 now.
Proof. destruct o as [k' r now0 now|k']; cbn; [|done]. rewrite bool_decide_eq_true. intros ->. eauto. Qed.
Lemma check_own r now0 now (bs : RateLimiter) :
  let '(ok, b) := TokenBucket.try_consume (default (TokenBucket.new r now0) (bs !! k)) now in
  passes k (Check_ k r now0 now) bs = ok ∧ apply bs (Check_ k r now0 now) !! k = Some b.
Proof.
  cbn. rewrite bool_decide_true by done. unfold RateLimiter.check.
  change (match bs !! k with Some b => b | None => TokenBucket.new r now0 end)
    with (default (TokenBucket.new r now0) (bs !! k)).
  destruct (TokenBucket.try_consume _ now) as [ok b]. cbn. by rewrite lookup_insert_eq.
Qed.

(** Every check after the first is paid for by what the bucket held and by the time
    that passed, up to one rounding error a check. *)
Lemma admitted_since ops : ∀ (bs : RateLimiter) b v t t',
  bs !! k = Some b → holds rps v b → last_refill b ≤ t → within k t t' ops →
  2 ^ 50 * (K * (u * admitted k ops bs)) ≤
    2 ^ 50 * (K * v) + (2 ^ 50 + 1) * ((t' - last_refill b) * rps * u) + K * (rps * u * asked k ops).
Proof.
  pose proof F64.unit_pos as Hu. pose proof (rps_range _ Hrps) as Hr.
  assert (0 ≤ rps * u) as Hcap by (apply Z.mul_nonneg_nonneg; lia).
  induction ops as [|o ops IH]; intros bs b v t t' Hb Hv Ht Hw.
  - cbn [within admitted asked] in *. pose proof (F64.nonneg_ge _ _ (holds_value _ _ _ Hv)).
    assert (0 ≤ (t' - last_refill b) * (rps * u)) by (apply Z.mul_nonneg_nonneg; lia).
    rewrite <-(Z.mul_assoc _ rps u). lia.
  - destruct (asks k o) eqn:Ea.
    2:{ destruct (apply_other o bs t t' ops Ea Hw) as (Ep & El & Hw').
        cbn [admitted asked]. rewrite Ea, Ep. rewrite <-El in Hb. exact (IH _ _ _ _ _ Hb Hv Ht Hw'). }
    destruct (asks_inv o Ea) as (r & now0 & now & ->).
    cbn [within] in Hw. rewrite decide_True in Hw by done. destruct Hw as [Hnow Hw].
    pose proof (check_own r now0 now bs) as Hc. rewrite Hb in Hc.
    change (default _ (Some b)) with b in Hc.
    destruct (refill_gain rps Hrps v b now Hv ltac:(lia)) as (v1 & Hv1 & Hg).
    pose proof (take_error rps Hrps v1 b now Hv1) as Htk.
    destruct (TokenBucket.try_consume b now) as [ok b']. destruct Hc as [Ep El].
    destruct Htk as (Hl & v2 & Hv2 & Hte).
    specialize (IH _ _ _ now t' El Hv2 ltac:(lia) Hw). rewrite Hl in IH.
    cbn [admitted asked]. rewrite Ea, Ep.
    set (c := rps * u) in *. rewrite <-!(Z.mul_assoc _ rps u) in *. fold c in Hg, IH |- *.
    replace ((t' - last_refill b) * c) with ((t' - now) * c + (now - last_refill b) * c) by ring.
    unfold taken in Hte.
    set (m := admitted k ops _) in *. set (y := (t' - now) * c) in *. set (z := (now - last_refill b) * c) in *.
    clearbody c y z m. destruct ok; lia.
Qed.

(** The first check of a stretch finds at most a full bucket. *)
Lemma first_check r now0 now (bs : RateLimiter) :
  map_Forall (λ _, bucket_ok) bs → rated k rps [Check_ k r now0 now] bs → in_u32 r →
  ∃ b v, apply bs (Check_ k r now0 now) !! k = Some b ∧ last_refill b = now ∧ holds rps v b ∧
    2 ^ 53 * (v + taken (passes k (Check_ k r now0 now) bs)) ≤ (2 ^ 53 + 1) * (rps * u).
Proof.
  intros Hok Hrt Hr. pose proof (check_own r now0 now bs) as Hc.
  set (b0 := default _ _) in Hc.
  assert (bucket_ok b0 ∧ capacity b0 = F64.of_int rps) as [Hb0 Hc0].
  { unfold rated in Hrt. subst b0. destruct (bs !! k) as [b|] eqn:E; cbn [default].
    - split; [by eapply Hok|done].
    - inversion Hrt as [|? ? Hr0 _]. rewrite (Hr0 eq_refl). split; [by apply new_ok|done]. }
  destruct (bucket_ok_holds rps _ Hrps (refill_ok b0 now Hb0) Hc0) as (v & Hv).
  pose proof (take_error rps Hrps v b0 now Hv) as Htk.
  destruct (TokenBucket.try_consume b0 now) as [ok b]. destruct Hc as [-> Hl].
  destruct Htk as (? & v' & Hv' & Hte). exists b, v'. split_and!; [done..|].
  pose proof (holds_below _ _ _ Hv). lia.
Qed.
End window.

Lemma apply_ok (bs : RateLimiter) o :
  (∀ k r now0 now, o = Check_ k r now0 now → in_u32 r) →
  map_Forall (λ _, bucket_ok) bs → map_Forall (λ _, bucket_ok) (apply bs o).
Proof.
  intros Hr. apply limiter_step_ok. destruct o as [k r now0 now|k]; [|apply RateLimiter.step_forget].
  apply RateLimiter.step_check. by eapply Hr.
Qed.
Definition checked_u32 (o : op) : Prop := match o with Check_ _ r _ _ => in_u32 r | Forget _ => True end.
Lemma run_buckets_ok ops (bs : RateLimiter) :
  Forall checked_u32 ops → map_Forall (λ _, bucket_ok) bs → map_Forall (λ _, bucket_ok) (run ops bs).
Proof.
  unfold run. revert bs. induction ops as [|o ops IH]; intros bs Ho Hb; [done|]. inversion_clear Ho as [|? ? H1 H2].
  cbn. apply IH; [done|]. apply apply_ok; [|done]. intros k r now0 now ->. exact H1.
Qed.

(** Nothing is admitted before the first check. *)
Lemma window_bound k rps t d ops : ∀ bs : RateLimiter,
  in_u32 rps → Forall checked_u32 ops → map_Forall (λ _, bucket_ok) bs → 0 ≤ d →
  rated k rps ops bs → within k t (t + d) ops →
  2 ^ 50 * 1000000000 * admitted k ops bs ≤
    rps * (2 ^ 50 * 1000000000 + (2 ^ 50 + 1) * d + 1000000000 * asked k ops).
Proof.
  intros bs Hrps. revert bs. induction ops as [|o ops IH]; intros bs Hu Hok Hd Hrt Hw.
  { cbn [admitted asked]. pose proof (rps_range _ Hrps) as Hr.
    assert (0 ≤ rps * (2 ^ 50 * 1000000000 + (2 ^ 50 + 1) * d)) by (apply Z.mul_nonneg_nonneg; lia). lia. }
  inversion_clear Hu as [|? ? Hu1 Hu2]. pose proof F64.unit_pos as Hup.
  assert (map_Forall (λ _, bucket_ok) (apply bs o)) as Hok'.
  { apply apply_ok; [|done]. intros ? ? ? ? ->. exact Hu1. }
  destruct (asks k o) eqn:Ea.
  - destruct (asks_inv k o Ea) as (r & now0 & now & ->).
    cbn [within] in Hw. rewrite decide_True in Hw by done. destruct Hw as [Hnow Hw].
    assert (rated k rps [Check_ k r now0 now] bs) as Hrt1.
    { unfold rated in *. destruct (bs !! k); [done|]. by inversion Hrt; constructor. }
    destruct (first_check k rps Hrps r now0 now bs Hok Hrt1 Hu1) as (b & v & Hb & Hl & Hv & Hte).
    pose proof (admitted_since k rps Hrps ops _ b v now (t + d) Hb Hv ltac:(lia) Hw) as Ha.
    rewrite Hl in Ha. cbn [admitted asked]. rewrite Ea. unfold taken in Hte.
    pose proof (rps_range _ Hrps) as Hr. assert (t + d - now ≤ d) as Hle by lia.
    assert ((t + d - now) * rps * F64.unit ≤ d * rps * F64.unit) as Hmono.
    { rewrite <-!Z.mul_assoc. apply Z.mul_le_mono_nonneg_r; [apply Z.mul_nonneg_nonneg; lia|done]. }
    apply (Z.mul_le_mono_pos_l _ _ F64.unit); [done|].
    assert (0 ≤ rps * F64.unit) by (apply Z.mul_nonneg_nonneg; lia).
    replace (F64.unit * (rps * _)) with
      (2 ^ 50 * 1000000000 * (rps * F64.unit) + (2 ^ 50 + 1) * (d * rps * F64.unit)
       + 1000000000 * (rps * F64.unit) + 1000000000 * (rps * F64.unit * asked k ops)) by ring.
    set (c := rps * F64.unit) in *. set (y := d * rps * F64.unit) in *.
    set (y' := (t + d - now) * rps * F64.unit) in *.
    set (m := admitted k ops _) in *. destruct (passes k _ bs); nia.
  - destruct (apply_other k o bs t (t + d) ops Ea Hw) as (Ep & El & Hw').
    cbn [admitted asked]. rewrite Ea, Ep. apply IH; [done..| |done].
    unfold rated in *. rewrite El. destruct (bs !! k); [done|]. by inversion Hrt.
Qed.

(** After a pause of a second the bucket is full again. *)
Lemma full_after_a_second rps v b now :
  in_u32 rps → holds rps v b → 1000000000 ≤ now - last_refill b < 2 ^ 64 * 1000000000 →
  holds rps (rps * F64.unit) (TokenBucket.refill b now).
Proof.
  intros Hrps [Hc Hr Hv Hle] Hnow. pose proof (rps_range _ Hrps) as Hrange.
  pose proof (of_u32_nonneg rps Hrps) as Hcap. pose proof (F64.nonneg_ge _ _ Hv) as Hv0.
  destruct (as_secs_ge_1 _ Hnow) as (d & Hd & Hdb). pose proof F64.unit_pos as Hu.
  assert (rps * F64.unit ≤ d * rps ≤ 2 ^ 98 * F64.unit) as Hdr
    by (generalize dependent F64.unit; intros; nia).
  assert (2 ^ 1023 * F64.unit = 2 ^ 2097) as Ebig by (unfold F64.unit; rewrite <-Z.pow_add_r; done).
  assert (2 ^ 101 * F64.unit ≤ 2 ^ 2097) as Hbig.
  { rewrite <-Ebig. apply Z.mul_le_mono_nonneg_r; [lia|]. apply Z.pow_le_mono_r; lia. }
  assert (rps * F64.unit ≤ 2 ^ 98 * F64.unit) by (apply Z.mul_le_mono_nonneg_r; lia).
  pose proof (F64.nonneg_ge _ _ Hcap) as Hcap0.
  assert (2 ^ 106 ≤ F64.unit) by (apply Z.pow_le_mono_r; lia).
  pose proof (rnd_ge_int rps (d * rps) ltac:(lia) ltac:(lia)) as Hge.
  pose proof (rnd_error (d * rps) ltac:(lia)) as He.
  pose proof (mul_int_nonneg _ d rps Hd ltac:(lia) ltac:(lia) (rnd_small (d * rps) ltac:(lia))) as Hm.
  set (p := F64.rnd (d * rps)) in *. clearbody p.
  pose proof (rnd_ge_int rps (v + p) ltac:(lia) ltac:(lia)) as Hge'.
  pose proof (F64.add_nonneg _ _ v p Hv Hm (rnd_small (v + p) ltac:(lia))) as Hadd.
  split; cbn [TokenBucket.refill capacity refill_per_second available]; [done..| |lia].
  rewrite Hc, Hr, Z.max_r by lia.
  rewrite <-(Z.min_r _ _ Hge'). by apply F64.min_nonneg.
Qed.

(** ** Properties *)

(** However requests of all keys interleave, from any limiter that histories of
    checks and revocations reach: of [m] checks of a key that read the clock within
    [d] nanoseconds of each other, with the key not revoked in between, at most
    [rps * (1 + d / 10^9)] pass, up to one part in 2^50 for the rounding of the
    elapsed time and of each check. The rate is that of the key's bucket, whatever
    rate the checks ask for. And a key left alone for a second has its full rate
    again: a bucket never refuses forever, and never owes for what it refused. *)
Theorem rate_limit_window (bs : RateLimiter) k rps ops t d :
  rtc RateLimiter.step ∅ bs → in_u32 rps → Forall checked_u32 ops → 0 ≤ d →
  rated k rps ops bs → within k t (t + d) ops →
  2 ^ 50 * 1000000000 * admitted k ops bs ≤
    rps * (2 ^ 50 * 1000000000 + (2 ^ 50 + 1) * d + 1000000000 * asked k ops) ∧
  ∀ b now, run ops bs !! k = Some b → capacity b = F64.of_int rps →
    1000000000 ≤ now - last_refill b < 2 ^ 64 * 1000000000 →
    available (TokenBucket.refill b now) = F64.of_int rps ∧
    (TokenBucket.try_consume b now).1 = (1 <=? rps).
Proof.
  intros Hr Hrps Hops Hd Hrt Hw.
  assert (map_Forall (λ _, bucket_ok) bs) as Hok.
  { by eapply rtc_invariant; [apply limiter_step_ok|apply map_Forall_empty|]. }
  split; [by apply window_bound with (t := t)|]. intros b now Hb Hc Hnow.
  destruct (bucket_ok_holds rps b Hrps (run_buckets_ok ops bs Hops Hok k b Hb) Hc) as (v & Hv).
  pose proof (full_after_a_second rps v b now Hrps Hv Hnow) as Hfull.
  pose proof (of_u32_nonneg rps Hrps) as Hcap.
  assert (available (TokenBucket.refill b now) = F64.of_int rps) as Ea
    by (apply (F64.nonneg_inj _ _ _ (holds_value _ _ _ Hfull) Hcap)).
  split; [done|]. unfold TokenBucket.try_consume. rewrite Ea.
  pose proof (rps_range _ Hrps). unfold F64.one. rewrite F64.of_int_le by lia.
  by destruct (1 <=? rps).
Qed.

(** ** Witness: two keys, the first asking four times within half a second *)
Definition half_a_second : list op :=
  [Check_ "k" 2 0 0; Check_ "j" 1 0 0; Check_ "k" 2 0 0; Check_ "k" 2 100000000 100000000;
   Check_ "j" 1 0 0; Check_ "k" 2 500000000 500000000].
Lemma rate_limit_window_witness :
  admitted "k" half_a_second ∅ = 3 ∧
  2 ^ 50 * 1000000000 * admitted "k" half_a_second ∅ ≤
    2 * (2 ^ 50 * 1000000000 + (2 ^ 50 + 1) * 500000000 + 1000000000 * asked "k" half_a_second).
Proof.
  split; [vm_compute; reflexivity|].
  refine (proj1 (rate_limit_window ∅ "k" 2 half_a_second 0 500000000 (rtc_refl _ _) _ _ _ _ _)).
  - unfold in_u32, u32_max. lia.
  - unfold half_a_second, checked_u32, in_u32, u32_max. repeat constructor; lia.
  - lia.
  - cbn. repeat constructor; congruence.
  - cbn. repeat case_decide; try congruence; lia.
Defined.
