(* ===== verification/Plugin.v ===== *)
(** * Plugin: the inline plugin contract and the PII redaction plugin ([plugin.rs])

    Regular expressions belong to the [regex] crate and are the operations of the
    class [RegexCrate]. *)

From S2P Require Import Prelude Text Float64 Json.
Import Json.

(** [replace_all r text rep]: every match of [r] in [text] replaced by [rep]. *)
Class RegexCrate := {
  Regex : Type;
  regex_new : string → option Regex;
  replace_all : Regex → string → string → string
}.

Module PluginRequest.
Record PluginRequest := mk {
  method : string;
  path : string;
  headers : list (string * string);
  body : bytes
}.
End PluginRequest.
Abbreviation PluginRequest := PluginRequest.PluginRequest.

Record RejectInfo := mkReject { reason : string; status_code : Z }.

Inductive Decision :=
| Pass
| Modify (r : PluginRequest)
| Reject (i : RejectInfo).

(** The trait: a name and the hook. *)
Record Plugin := mkPlugin {
  plugin_name : string;
  inspect_request : PluginRequest → Decision
}.

Record PluginEntry := mkEntry {
  plugin : Plugin;
  bind_routes : list string
}.
Definition applies_to (e : PluginEntry) (virtual_model : string) : bool :=
  match bind_routes e with
  | [] => true
  | l => existsb (λ r, bool_decide (r = virtual_model)) l
  end.

Abbreviation PluginChain := (list PluginEntry).

Module PiiPattern.
Inductive PiiPattern := Ssn | CreditCard | PhoneUs | Email.
Definition ALL : list PiiPattern := [Ssn; CreditCard; PhoneUs; Email].
Definition regex (p : PiiPattern) : string :=
  match p with
  | Ssn => "\b\d{3}-\d{2}-\d{4}\b"
  | CreditCard => "\b\d{4}[- ]?\d{4}[- ]?\d{4}[- ]?\d{4}\b"
  | PhoneUs => "\b\d{3}[-.]\d{3}[-.]\d{4}\b"
  | Email => "\b[A-Za-z0-9._%+-]+@[A-Za-z0-9.-]+\.[A-Za-z]{2,}\b"
  end.
End PiiPattern.
Abbreviation PiiPattern := PiiPattern.PiiPattern.

Module PiiRedactionPlugin.
Section pii.
Context `{RegexCrate} `{SerdeJson}.

Record PiiRedactionPlugin := mk { patterns : list Regex; replacement : string }.

(** A pattern that does not compile is skipped ([filter_map]). *)
Definition new (ps : list PiiPattern) (replacement : string) : PiiRedactionPlugin :=
  mk (omap (λ p, regex_new (PiiPattern.regex p)) ps) replacement.
Definition default : PiiRedactionPlugin := new PiiPattern.ALL "[REDACTED]".

Definition redact (self : PiiRedactionPlugin) (text : string) : string :=
  foldl (λ result pattern, replace_all pattern result (replacement self)) text (patterns self).

(** One iteration of the loop over [messages]: the message, and whether its
    content was replaced. *)
Definition redact_message (self : PiiRedactionPlugin) (message : Value) : Value * bool :=
  match get "content" message with
  | Some content_val =>
      match as_str content_val with
      | Some s =>
          let new := redact self s in
          if decide (new = s) then (message, false)
          else (set "content" (Str new) message, true)
      | None => (message, false)
      end
  | None => (message, false)
  end.

Definition name : string := "pii-redaction".
Definition inspect_request (self : PiiRedactionPlugin) (request : PluginRequest) : Decision :=
  match from_slice (PluginRequest.body request) with
  | Err _ => Pass
  | Ok value =>
      match get "messages" value ≫= as_array with
      | None => Pass
      | Some messages =>
          let out := map (redact_message self) messages in
          let modified := existsb snd out in
          if negb modified then Pass
          else
            match to_vec (set "messages" (Array (map fst out)) value) with
            | Ok bytes =>
                Modify (PluginRequest.mk (PluginRequest.method request)
                  (PluginRequest.path request) (PluginRequest.headers request) bytes)
            | Err _ => Pass
            end
      end
  end.

Definition as_plugin (self : PiiRedactionPlugin) : Plugin := mkPlugin name (inspect_request self).

(** What redaction may change: in each message, the string under [content],
    which becomes its redaction. *)
Definition redacted_message (self : PiiRedactionPlugin) (m m' : Value) : Prop :=
  (∀ k, k ≠ "content" → get k m' = get k m) ∧
  match get "content" m with
  | Some (Str s) => get "content" m' = Some (Str (redact self s))
  | c => get "content" m' = c
  end.
Definition redacted_body (self : PiiRedactionPlugin) (v v' : Value) : Prop :=
  (∀ k, k ≠ "messages" → get k v' = get k v) ∧
  ∃ ms ms', get "messages" v = Some (Array ms) ∧ get "messages" v' = Some (Array ms') ∧
    Forall2 (redacted_message self) ms ms'.
End pii.
End PiiRedactionPlugin.

(** ** Lemmas *)
Lemma applies_to_spec e vm :
  applies_to e vm = true ↔ bind_routes e = [] ∨ vm ∈ bind_routes e.
Proof.
  unfold applies_to. destruct (bind_routes e) as [|r l]; [naive_solver|].
  rewrite existsb_exists. split.
  - intros (x & Hx%list_elem_of_In & ->%bool_decide_eq_true). by right.
  - intros [?|?]; [done|]. exists vm. by rewrite <-list_elem_of_In, bool_decide_eq_true.
Qed.

Section lemmas.
Context `{RegexCrate} `{SerdeJson}.
Import PiiRedactionPlugin.

Lemma get_as_object k v x : get k v = Some x → ∃ m, as_object v = Some m.
Proof. destruct v; cbn; naive_solver. Qed.

Lemma redact_message_spec self m : redacted_message self m (redact_message self m).1.
Proof.
  unfold redacted_message, redact_message.
  destruct (get "content" m) as [c|] eqn:E; [|done].
  destruct (get_as_object _ _ _ E) as [o Ho].
  destruct c as [| | |s| |]; cbn; try done.
  case_decide as Hd; cbn; [by rewrite Hd|]. split.
  - intros k Hk. rewrite (get_set _ _ _ _ o) by done. by rewrite decide_False by congruence.
  - by rewrite (get_set _ _ _ _ o), decide_True by done.
Qed.
Lemma redact_messages_spec self ms :
  Forall2 (redacted_message self) ms (map fst (map (redact_message self) ms)).
Proof. induction ms; cbn; constructor; auto using redact_message_spec. Qed.
Lemma redact_message_unmodified self m :
  (redact_message self m).2 = false → (redact_message self m).1 = m.
Proof. unfold redact_message. by repeat (case_match; try done). Qed.
End lemmas.

(** ** Properties *)
Section properties.
Context `{RegexCrate} `{SerdeJson}.
Import PiiRedactionPlugin.

(** C30: The redaction plugin never rejects. When it modifies a request the method, path
    and headers stay, and the new body is the serialisation of a document that differs
    from the original only in the [content] strings of its messages, each of which
    became its redaction, and in at least one of them. When it passes a request with a
    list of messages, no message had a content string to redact, or the document with
    every content redacted is one the JSON layer could not print. *)
Theorem pii_changes_only_contents (self : PiiRedactionPlugin) (r : PluginRequest) :
  match inspect_request self r with
  | Reject _ => False
  | Modify r' =>
      PluginRequest.method r' = PluginRequest.method r ∧
      PluginRequest.path r' = PluginRequest.path r ∧
      PluginRequest.headers r' = PluginRequest.headers r ∧
      ∃ v v', from_slice (PluginRequest.body r) = Ok v ∧
        to_vec v' = Ok (PluginRequest.body r') ∧ redacted_body self v v' ∧
        ∃ ms m s, get "messages" v = Some (Array ms) ∧ m ∈ ms ∧
          get "content" m = Some (Str s) ∧ redact self s ≠ s
  | Pass =>
      match from_slice (PluginRequest.body r) with
      | Ok v =>
          match get "messages" v with
          | Some (Array ms) =>
              Forall (λ m, match get "content" m with Some (Str s) => redact self s = s | _ => True end) ms ∨
              ∃ v' e, redacted_body self v v' ∧ to_vec v' = Err e
          | _ => True
          end
      | Err _ => True
      end
  end.
Proof.
  unfold inspect_request. destruct (from_slice _) as [v|e]; [|done].
  destruct (get "messages" v) as [c|] eqn:E; cbn; [|done].
  destruct c as [| | | |ms|]; cbn; try done.
  set (v' := set "messages" (Array (map fst (map (redact_message self) ms))) v).
  assert (redacted_body self v v') as Hv'.
  { destruct (get_as_object _ _ _ E) as [o Ho]. split.
    - intros k Hk. unfold v'. rewrite (get_set _ _ _ _ o) by done. by rewrite decide_False by congruence.
    - exists ms. eexists. split_and!; [done| |apply redact_messages_spec].
      unfold v'. by rewrite (get_set _ _ _ _ o), decide_True by done. }
  destruct (existsb snd (map (redact_message self) ms)) eqn:Eb; cbn.
  - destruct (to_vec v') as [b|e] eqn:Et; [|by right; exists v', e].
    split_and!; [done..|]. exists v, v'. split_and!; [done..|].
    apply existsb_exists in Eb as ([m' b'] & Hin & Hb). apply in_map_iff in Hin as (m & Hm & Hin).
    exists ms, m. cbn in Hb. subst b'. unfold redact_message in Hm.
    destruct (get "content" m) as [[| | |s| |]|]; cbn in Hm; try discriminate.
    case_decide as Hd; [discriminate|]. exists s. split_and!; try done.
    by apply list_elem_of_In.
  - left. apply Forall_forall. intros m Hin.
    assert ((redact_message self m).2 = false) as Hf.
    { apply not_true_is_false. intros Ht. apply not_true_iff_false in Eb. apply Eb.
      apply existsb_exists. exists (redact_message self m). split; [|done].
      apply in_map_iff. exists m. by rewrite <-list_elem_of_In. }
    unfold redact_message in Hf. destruct (get "content" m) as [[| | |s| |]|]; try done.
    cbn in Hf. by case_decide.
Qed.
End properties.

(** For concrete inputs. *)
Definition sample_regex : RegexCrate :=
  {| Regex := (); regex_new _ := Some (); replace_all _ s _ := s |}.
