(* ===== verification/Config.v ===== *)
(** * Config: the configuration document ([config.rs])

    One Module per configuration struct: its record and its [Default]. Reading
    YAML and environment variables is the [figment] crate's. *)

From S2P Require Import Prelude Float64 Events Auth Plugin.

Module TlsConfig.
Record TlsConfig := mk {
  cert_path : string;
  key_path : string;
  client_ca_path : option string
}.
End TlsConfig.

Module Listen.
Record Listen := mk {
  address : string;
  admin_address : string;
  tls : option TlsConfig.TlsConfig
}.
Definition default : Listen := mk "0.0.0.0:8080" "0.0.0.0:9091" None.
End Listen.

Module ControlPlane.
Inductive ControlPlaneMode := File | Api.
Record ControlPlane := mk {
  mode : ControlPlaneMode;
  config_dir : string;
  endpoint : option string;
  token_env : option string;
  poll_interval_seconds : Z
}.
Definition default_poll_interval : Z := 30.
Definition default : ControlPlane :=
  mk File "/etc/vaultplane" None None default_poll_interval.
#[export] Instance mode_eq_dec : EqDecision ControlPlaneMode.
Proof. solve_decision. Defined.
End ControlPlane.

Module Shutdown.
Record Shutdown := mk { drain_timeout_seconds : Z }.
Definition default : Shutdown := mk 30.
End Shutdown.

Module OpenAiProvider.
Record OpenAiProvider := mk { base_url : string; api_key_env : string }.
Definition default : OpenAiProvider := mk "https://api.openai.com" "OPENAI_API_KEY".
End OpenAiProvider.

Module AnthropicProvider.
Record AnthropicProvider := mk { base_url : string; api_key_env : string }.
Definition default : AnthropicProvider := mk "https://api.anthropic.com" "ANTHROPIC_API_KEY".
End AnthropicProvider.

Module AzureProvider.
Record AzureProvider := mk { base_url : string; api_key_env : string; api_version : string }.
Definition default : AzureProvider := mk "" "AZURE_OPENAI_API_KEY" "2024-10-21".
End AzureProvider.

Module BedrockProvider.
Record BedrockProvider := mk {
  region : string;
  access_key_env : string;
  secret_key_env : string;
  session_token_env : string
}.
Definition default : BedrockProvider :=
  mk "us-east-1" "AWS_ACCESS_KEY_ID" "AWS_SECRET_ACCESS_KEY" "AWS_SESSION_TOKEN".
End BedrockProvider.

Module Providers.
Record Providers := mk {
  openai : OpenAiProvider.OpenAiProvider;
  anthropic : AnthropicProvider.AnthropicProvider;
  azure : AzureProvider.AzureProvider;
  bedrock : BedrockProvider.BedrockProvider
}.
Definition default : Providers :=
  mk OpenAiProvider.default AnthropicProvider.default AzureProvider.default
    BedrockProvider.default.
End Providers.

Module AuthConfig.
Record Auth := mk { admin_token_env : string; keys : list VirtualKey }.
Definition default : Auth := mk "VAULTPLANE_ADMIN_TOKEN" [].
End AuthConfig.

Module Route.
Record Route := mk { provider : string; model : string }.
End Route.
Abbreviation Route := Route.Route.

Module ModelConfig.
Record ModelConfig := mk {
  name : string;
  primary : Route;
  fallbacks : list Route;
  retry_on : list Z;
  timeout_ms : Z
}.
Definition default_retry_on : list Z := [429; 500; 502; 503; 504]%Z.
Definition default_timeout_ms : Z := 30000.
End ModelConfig.
Abbreviation ModelConfig := ModelConfig.ModelConfig.

(** ** Pricing *)
Record ModelPricing := mkPrice {
  input_per_1k_tokens_usd : f64;
  output_per_1k_tokens_usd : f64
}.

Module Pricing.
(** The struct has one field, the table by provider then model. *)
Record Pricing := mk { providers : gmap string (gmap string ModelPricing) }.
Definition default : Pricing := mk ∅.

(** The inner loop: every price of one provider's table, written over [entry]. *)
Definition overlay_models `{HashOrder} (entry models : gmap string ModelPricing)
    : gmap string ModelPricing :=
  foldl (λ (e : gmap string ModelPricing) mp, <[mp.1 := mp.2]> e) entry (hm_iter models).
Definition overlaid_with `{HashOrder} (self overrides : Pricing) : Pricing :=
  mk (foldl
    (λ (ps : gmap string (gmap string ModelPricing)) pm,
       let entry := match ps !! pm.1 with Some e => e | None => ∅ end in
       <[pm.1 := overlay_models entry pm.2]> ps)
    (providers self) (hm_iter (providers overrides))).

(** [default_pricing.yaml]; [F64.lit m k] is the literal [m * 10^-k]. *)
Definition price (i ik o ok : Z) : ModelPricing := mkPrice (F64.lit i ik) (F64.lit o ok).
Definition table (l : list (string * ModelPricing)) : gmap string ModelPricing := list_to_map l.
Definition bundled : Pricing :=
  mk (list_to_map [
    ("openai", table [
      ("gpt-4o", price 25 4 1 2);
      ("gpt-4o-mini", price 15 5 6 4);
      ("gpt-4-turbo", price 1 2 3 2);
      ("text-embedding-3-small", price 2 5 0 1);
      ("text-embedding-3-large", price 13 5 0 1)]);
    ("azure", table [
      ("gpt-4o", price 25 4 1 2);
      ("gpt-4o-mini", price 15 5 6 4)]);
    ("anthropic", table [
      ("claude-3-7-sonnet", price 3 3 15 3);
      ("claude-3-5-haiku", price 8 4 4 3);
      ("claude-3-opus", price 15 3 75 3)]);
    ("bedrock", table [
      ("claude-3-7-sonnet", price 3 3 15 3);
      ("claude-3-5-haiku", price 8 4 4 3)])
  ]).
End Pricing.
Abbreviation Pricing := Pricing.Pricing.

Module CacheConfig.
Record CacheConfig := mk { enabled : bool; size_mb : Z; ttl_seconds : Z }.
Definition default : CacheConfig := mk true 256 3600.
End CacheConfig.

(** ** Plugins *)
Inductive FailMode := FailOpen | FailClosed.
#[export] Instance FailMode_eq_dec : EqDecision FailMode.
Proof. solve_decision. Defined.

Module WasmPluginConfig.
Record WasmPluginConfig := mk {
  name : string;
  path : string;
  hook : string;
  latency_budget_ms : Z;
  on_timeout : FailMode;
  bind_routes : list string
}.
Definition default_plugin_hook : string := "inspect-request".
Definition default_latency_budget_ms : Z := 5.
Definition default_on_timeout : FailMode := FailOpen.
End WasmPluginConfig.

Module PiiRedactionConfig.
Record PiiRedactionConfig := mk { patterns : list PiiPattern; replacement : string }.
Definition default_pii_patterns : list PiiPattern := PiiPattern.ALL.
Definition default_redaction_replacement : string := "[REDACTED]".
Definition default : PiiRedactionConfig := mk default_pii_patterns default_redaction_replacement.
End PiiRedactionConfig.

Inductive PluginConfig :=
| PiiRedaction (c : PiiRedactionConfig.PiiRedactionConfig)
| Wasm (c : WasmPluginConfig.WasmPluginConfig).

Module Config.
Record Config := mk {
  listen : Listen.Listen;
  providers : Providers.Providers;
  auth : AuthConfig.Auth;
  models : list ModelConfig;
  pricing : Pricing;
  cache : CacheConfig.CacheConfig;
  plugins : list PluginConfig;
  control_plane : ControlPlane.ControlPlane;
  shutdown : Shutdown.Shutdown
}.
Definition default : Config :=
  mk Listen.default Providers.default AuthConfig.default [] Pricing.default
    CacheConfig.default [] ControlPlane.default Shutdown.default.

(** The layers [figment] merges, later ones over earlier ones. *)
Inductive Layer :=
| Defaults (c : Config)
| YamlFile (path : string)
| EnvPrefixed (prefix split : string).
(** Extracting a configuration from the layers at an instant: it reads files and
    the environment as they are then. *)
Class Figment := { extract : Z → list Layer → result string Config }.

Definition load `{Figment} (path : option string) (now : Z) : result Error.Error Config :=
  let figment := [Defaults default] in
  let figment := match path with Some p => figment ++ [YamlFile p] | None => figment end in
  let figment := figment ++ [EnvPrefixed "VAULTPLANE_" "__"] in
  map_err Error.Config (extract now figment).
End Config.
Abbreviation Config := Config.Config.

(** ** Lemmas: overlaying pricing tables *)
Section overlay.
Context `{HashOrder}.

(** Inserting every entry of a map, in any order, is taking its entries first. *)
Lemma foldl_insert_iter {A} (m e : gmap string A) k :
  foldl (λ (e : gmap string A) mp, <[mp.1 := mp.2]> e) e (hm_iter m) !! k
  = match m !! k with Some x => Some x | None => e !! k end.
Proof.
  rewrite foldl_insert_lookup. assert (last_binding k (hm_iter m) = m !! k) as ->; [|done].
  apply option_eq. intros x. rewrite <-elem_of_hm_iter. apply last_binding_nodup.
  rewrite (fmap_Permutation fst _ _ (hm_iter_perm m)). apply NoDup_fst_map_to_list.
Qed.

Lemma overlay_models_lookup e m k :
  Pricing.overlay_models e m !! k = match m !! k with Some x => Some x | None => e !! k end.
Proof. apply foldl_insert_iter. Qed.
End overlay.

Section overlaid.
Context `{HashOrder}.

Lemma foldl_overlay l (ps : gmap string (gmap string ModelPricing)) p :
  NoDup (l.*1) →
  foldl (λ (ps : gmap string (gmap string ModelPricing)) pm,
     let entry := match ps !! pm.1 with Some e => e | None => ∅ end in
     <[pm.1 := Pricing.overlay_models entry pm.2]> ps) ps l !! p
  = match last_binding p l with
    | Some m =>
        Some (Pricing.overlay_models (match ps !! p with Some e => e | None => ∅ end) m)
    | None => ps !! p
    end.
Proof.
  revert ps. induction l as [|[p' m] l IH]; intros ps Hnd; [done|].
  apply NoDup_cons in Hnd as [Hni Hnd]. cbn. rewrite IH by done.
  destruct (last_binding p l) as [m'|] eqn:E.
  - rewrite lookup_insert_ne; [done|]. intros ->. apply Hni, list_elem_of_fmap.
    exists (p, m'). split; [done|]. by apply last_binding_nodup.
  - rewrite lookup_insert. case_decide; by subst.
Qed.

Lemma overlaid_with_lookup self ov p :
  Pricing.providers (Pricing.overlaid_with self ov) !! p
  = match Pricing.providers ov !! p with
    | Some m =>
        Some (Pricing.overlay_models
          (match Pricing.providers self !! p with Some e => e | None => ∅ end) m)
    | None => Pricing.providers self !! p
    end.
Proof.
  assert (NoDup ((hm_iter (Pricing.providers ov)).*1)) as Hnd.
  { rewrite (fmap_Permutation fst _ _ (hm_iter_perm _)). apply NoDup_fst_map_to_list. }
  unfold Pricing.overlaid_with. cbn. rewrite foldl_overlay by done.
  destruct (Pricing.providers ov !! p) as [m|] eqn:E.
  - apply elem_of_hm_iter, last_binding_nodup in E; [|done]. by rewrite E.
  - destruct (last_binding p _) as [m|] eqn:E'; [|done].
    apply last_binding_nodup, elem_of_hm_iter in E'; [|done]. congruence.
Qed.
End overlaid.

(** For concrete inputs. *)
Definition sample_figment : Config.Figment := {| Config.extract _ _ := Ok Config.default |}.
