(* ===== verification/Provider.v ===== *)
(** * Provider: the connector contract ([provider.rs]) and the world it runs in

    The HTTP client is the [reqwest] crate's: sending a request acts on an
    abstract network and takes time. A handler is a computation over [World]: the
    network, the clock and the trace of emitted events. *)

From S2P Require Import Prelude Text Float64 Json Events Config.
Import Json.

(** ** HTTP *)
Module Http.
Record Request := mkRequest {
  method : string;
  url : string;
  headers : list (string * string);
  body : bytes;
  timeout : option Z
}.
(** The chunks of the body as they arrive, each bytes or a transport error, and
    how long reading it to the end takes. *)
Record Response := mkResponse {
  status : Z;
  response_headers : list (string * bytes);
  chunks : list (result string bytes);
  read_nanos : Z
}.
End Http.

(** The [reqwest] client: [send] answers with the response or the text of the
    error, the network it leaves, and the nanoseconds it took; building a client
    may fail; [status_error] is the text of [error_for_status]'s error for a URL and
    a status; [to_str] reads a header value as text when it is visible ASCII. *)
Class Reqwest := {
  Net : Type;
  client_build : result string ();
  send : Http.Request → Net → result string Http.Response * Net * Z;
  status_error : string → Z → string;
  header_to_str : bytes → option string
}.

(** System entropy: the bytes [getrandom] yields at an instant. *)
Class Entropy := { getrandom : nat → Z → bytes }.

Record World `{Reqwest} := mkWorld {
  w_net : Net;
  w_now : Z;
  w_trace : list Effect
}.
Arguments mkWorld {_}.
Arguments w_net {_}.
Arguments w_now {_}.
Arguments w_trace {_}.

(** Computations over the world. *)
Abbreviation W := (M World).

Section world.
Context `{Reqwest}.

(** [SystemTime::now] in whole seconds since the epoch. *)
Definition epoch_seconds : W Z := gets (λ w, Z.max 0 (w_now w / 1000000000))%Z.
Definition random_bytes `{Entropy} (n : nat) : W bytes := gets (λ w, getrandom n (w_now w)).

Definition emit (e : Effect) : W () :=
  modify (λ w, mkWorld (w_net w) (w_now w) (w_trace w ++ [e])).
Definition audit_ (e : AuditEvent) : W () := emit (EAudit e).
Definition now : W Z := gets w_now.
Definition elapse (nanos : Z) : W () :=
  modify (λ w, mkWorld (w_net w) (w_now w + Z.max 0 nanos)%Z (w_trace w)).

Definition http_send (r : Http.Request) : W (result string Http.Response) :=
  λ w, let '(resp, net, nanos) := send r (w_net w) in
       (resp, mkWorld net (w_now w + Z.max 0 nanos)%Z (w_trace w)).

(** [Response::bytes]: the whole body, or the first transport error. *)
Fixpoint concat_chunks (l : list (result string bytes)) : result string bytes :=
  match l with
  | [] => Ok []
  | Ok c :: l => match concat_chunks l with Ok r => Ok (c ++ r) | Err e => Err e end
  | Err e :: _ => Err e
  end.
Definition http_bytes (r : Http.Response) : W (result string bytes) :=
  elapse (Http.read_nanos r);; mret (concat_chunks (Http.chunks r)).

(** [headers().get(name)] compares names without case; the values of the model
    carry lower-case names. *)
Definition header (name : string) (r : Http.Response) : option bytes :=
  snd <$> find_first (λ h, bool_decide (h.1 = name)) (Http.response_headers r).
(** [Response::error_for_status], of the answer to a request for the URL. *)
Definition error_for_status (url : string) (r : Http.Response) : result string Http.Response :=
  if ((400 <=? Http.status r) && (Http.status r <=? 599))%Z
  then Err (status_error url (Http.status r)) else Ok r.
Definition content_type_of (r : Http.Response) : option string :=
  header "content-type" r ≫= header_to_str.

(** [tokio::time::timeout]: the computation's answer if it was ready by the
    deadline; otherwise it is dropped at the deadline, with what it already did
    to the network done. *)
Definition timeout_ {A} (nanos : Z) (c : W A) : W (option A) := λ w,
  let '(a, w') := c w in
  if (w_now w' - w_now w <=? Z.max 0 nanos)%Z then (Some a, w')
  else (None, mkWorld (w_net w') (w_now w + Z.max 0 nanos)%Z (w_trace w')).
End world.

(** ** Bodies

    A stream is the answers its polls will give: nothing yet, or an item; the
    empty list is the end. *)
Inductive PollEvent :=
| PPending
| PItem (i : result string bytes).
Abbreviation BodyStream := (list PollEvent).

Inductive Poll (A : Type) :=
| Pending
| Ready (a : A).
Arguments Pending {A}.
Arguments Ready {A} a.

Definition poll_body (s : BodyStream) : Poll (option (result string bytes)) * BodyStream :=
  match s with
  | [] => (Ready None, [])
  | PPending :: s => (Pending, s)
  | PItem i :: s => (Ready (Some i), s)
  end.
(** What a reader of the stream sees: its items in order. *)
Definition items (s : BodyStream) : list (result string bytes) :=
  omap (λ p, match p with PItem i => Some i | PPending => None end) s.

Definition single_chunk (b : bytes) : BodyStream := [PItem (Ok b)].

(** ** Requests, responses, usage *)
Module Usage.
Record Usage := mk { prompt_tokens : Z; completion_tokens : Z }.
End Usage.
Abbreviation Usage := Usage.Usage.

Module ChatRequest.
Record ChatRequest := mk { model : string; stream : bool; body : bytes }.
End ChatRequest.
Abbreviation ChatRequest := ChatRequest.ChatRequest.

Module EmbeddingsRequest.
Record EmbeddingsRequest := mk { model : string; body : bytes }.
End EmbeddingsRequest.
Abbreviation EmbeddingsRequest := EmbeddingsRequest.EmbeddingsRequest.

Module ChatResponse.
Record ChatResponse := mk {
  status : Z;
  content_type : option string;
  body : BodyStream;
  provider : string;
  model : string;
  usage : option Usage;
  attempts : Z
}.
End ChatResponse.
Abbreviation ChatResponse := ChatResponse.ChatResponse.

(** [as u32] keeps the low 32 bits. *)
Definition parse_openai_usage `{SerdeJson} (body : bytes) : option Usage :=
  value ← result_ok (from_slice body);
  usage ← get "usage" value;
  prompt_tokens ← get "prompt_tokens" usage ≫= as_u64;
  let completion_tokens :=
    match get "completion_tokens" usage ≫= as_u64 with
    | Some n => wrap_u32 n
    | None => 0%Z
    end in
  Some (Usage.mk (wrap_u32 prompt_tokens) completion_tokens).

(** The trait [Connector]. A call answers, or panics ([None]). *)
Record Connector `{Reqwest} := mkConnector {
  c_name : string;
  c_chat : ChatRequest → W (option (result Error.Error ChatResponse));
  c_embeddings : EmbeddingsRequest → W (option (result Error.Error ChatResponse));
  c_reachable : W bool
}.
Arguments mkConnector {_}.
Arguments c_name {_}.
Arguments c_chat {_}.
Arguments c_embeddings {_}.
Arguments c_reachable {_}.

Section contract.
Context `{Reqwest}.

(** The trait's default [embeddings]. *)
Definition embeddings_unsupported (name : string) (_ : EmbeddingsRequest)
    : W (option (result Error.Error ChatResponse)) :=
  mret (Some (Err (Error.Provider ("provider '" +:+ name +:+ "' does not support embeddings")))).

Definition REACHABILITY_TIMEOUT : Z := 3000000000.
Definition http_reachable (url : string) : W bool :=
  if decide (url = "") then mret false
  else
    r ← http_send (Http.mkRequest "GET" url [] [] (Some REACHABILITY_TIMEOUT));
    mret (is_ok r).
End contract.

(** ** Cost ([cost.rs]) *)
Module cost.
Definition compute (pricing : Pricing) (provider model : string) (usage : Usage) : option f64 :=
  models ← Pricing.providers pricing !! provider;
  model_pricing ← models !! model;
  let input := F64.mul (F64.div (F64.of_int (Usage.prompt_tokens usage)) (F64.of_int 1000))
                 (input_per_1k_tokens_usd model_pricing) in
  let output := F64.mul (F64.div (F64.of_int (Usage.completion_tokens usage)) (F64.of_int 1000))
                  (output_per_1k_tokens_usd model_pricing) in
  Some (F64.add input output).
End cost.

(** A token usage fits its two [u32] fields. *)
Definition usage_ok (u : Usage) : Prop :=
  in_u32 (Usage.prompt_tokens u) ∧ in_u32 (Usage.completion_tokens u).

(** ** Lemmas *)
Lemma items_app s t : items (s ++ t) = items s ++ items t.
Proof. apply omap_app. Qed.
Lemma items_single b : items (single_chunk b) = [Ok b].
Proof. done. Qed.

Lemma parse_openai_usage_ok `{SerdeJson} b u : parse_openai_usage b = Some u → usage_ok u.
Proof.
  unfold parse_openai_usage. destruct (result_ok _) as [v|]; cbn; [|done].
  destruct (get "usage" v) as [us|]; cbn; [|done].
  destruct (get "prompt_tokens" us ≫= as_u64) as [n|]; cbn; [|done]. intros [= <-].
  split; cbn; [apply wrap_u32_in|]. case_match; [apply wrap_u32_in|].
  unfold in_u32, u32_max. lia.
Qed.

Section costs.
Context `{HashOrder}.

(** Pricing overrides act entry by entry: after the configured table is laid
    over the bundled one, the cost of a request is computed with the override's
    price where the override has that provider and model, and exactly as before
    where it does not, in whatever order the two maps are iterated. *)
Theorem overlay_cost (base ov : Pricing) p m u :
  cost.compute (Pricing.overlaid_with base ov) p m u =
    match cost.compute ov p m u with
    | Some c => Some c
    | None => cost.compute base p m u
    end.
Proof.
  unfold cost.compute. rewrite overlaid_with_lookup.
  destruct (Pricing.providers ov !! p) as [mo|]; [|done]. cbn.
  rewrite overlay_models_lookup. destruct (mo !! m) as [x|]; [done|]. cbn.
  destruct (Pricing.providers base !! p) as [mb|]; [done|]. cbn.
  by rewrite lookup_empty.
Qed.
End costs.

(** ** A concrete client for the witnesses: the network counts the requests and
    every one of them fails. *)
Definition sample_reqwest : Reqwest :=
  {| Net := nat; client_build := Ok (); send _ n := (Err "connection refused", S n, 5000000%Z);
     status_error _ _ := "HTTP status error"; header_to_str b := Some (of_bytes b) |}.
Definition sample_world : @World sample_reqwest := @mkWorld sample_reqwest 0 0%Z [].
(** A connector that answers every call with one status. *)
Definition sample_connector (name : string) (status : Z) : @Connector sample_reqwest :=
  @mkConnector sample_reqwest name
    (λ q, mret (Some (Ok (ChatResponse.mk status None (single_chunk []) name (ChatRequest.model q) None 1))))
    (λ q, mret (Some (Ok (ChatResponse.mk status None (single_chunk []) name (EmbeddingsRequest.model q) None 1))))
    (mret true).

(** For concrete inputs. *)
Definition sample_entropy : Entropy := {| getrandom n _ := repeat Byte.x00 n |}.
