(* ===== verification/OpenAi.v ===== *)
(** * OpenAi: the OpenAI-compatible connector ([provider/openai.rs]) *)

From S2P Require Import Prelude Text Float64 Json Events Config Provider.
Import Json.

Definition trim_slashes : string → string := trim_end_matches Byte.x2f.

Module OpenAiConnector.
Section openai.
Context `{Reqwest} `{SerdeJson}.

Record OpenAiConnector := mk { base_url : string; api_key : string }.

Definition new (base_url api_key : string) : result Error.Error OpenAiConnector :=
  _ ← map_err (λ e, Error.Provider ("failed to build HTTP client: " +:+ e)) client_build;
  Ok (mk (trim_slashes base_url) api_key).

(** [serde_json::to_vec(&value).unwrap_or_else(|_| body.to_vec())]. *)
Definition rewrite_model (body : bytes) (model : string) : bytes :=
  match from_slice body with
  | Ok value =>
      match as_object value with
      | Some object =>
          match to_vec (Object (<["model" := Str model]> object)) with
          | Ok b => b
          | Err _ => body
          end
      | None => body
      end
  | Err _ => body
  end.

Definition post (self : OpenAiConnector) (url : string) (body : bytes) : Http.Request :=
  Http.mkRequest "POST" url
    [("authorization", "Bearer " +:+ api_key self); ("content-type", "application/json")]
    body None.

Definition request_failed (e : string) : Error.Error :=
  Error.Provider ("request to OpenAI failed: " +:+ e).
Definition reading_failed (e : string) : Error.Error :=
  Error.Provider ("reading OpenAI response failed: " +:+ e).

(** Buffer the body and extract the usage. *)
Definition buffered (response : Http.Response) (model : string)
    : W (result Error.Error ChatResponse) :=
  upstream_body ← http_bytes response;
  mret (upstream_body ← map_err reading_failed upstream_body;
        Ok (ChatResponse.mk (Http.status response) (content_type_of response)
              (single_chunk upstream_body) "openai" model
              (parse_openai_usage upstream_body) 1)).

Definition chat (self : OpenAiConnector) (request : ChatRequest)
    : W (result Error.Error ChatResponse) :=
  let url := base_url self +:+ "/v1/chat/completions" in
  response ← http_send (post self url
    (rewrite_model (ChatRequest.body request) (ChatRequest.model request)));
  match map_err request_failed response with
  | Err e => mret (Err e)
  | Ok response =>
      if negb (ChatRequest.stream request)
      then buffered response (ChatRequest.model request)
      else
        mret (Ok (ChatResponse.mk (Http.status response) (content_type_of response)
                    (map PItem (Http.chunks response)) "openai"
                    (ChatRequest.model request) None 1))
  end.

Definition embeddings (self : OpenAiConnector) (request : EmbeddingsRequest)
    : W (result Error.Error ChatResponse) :=
  let url := base_url self +:+ "/v1/embeddings" in
  response ← http_send (post self url
    (rewrite_model (EmbeddingsRequest.body request) (EmbeddingsRequest.model request)));
  match map_err request_failed response with
  | Err e => mret (Err e)
  | Ok response => buffered response (EmbeddingsRequest.model request)
  end.

Definition reachable (self : OpenAiConnector) : W bool := http_reachable (base_url self).

Definition connector (self : OpenAiConnector) : Connector :=
  mkConnector "openai" (λ q, Some <$> chat self q) (λ q, Some <$> embeddings self q) (reachable self).
End openai.
End OpenAiConnector.

(** ** Lemmas *)
Section lemmas.
Context `{Reqwest} `{SerdeJson}.
Import OpenAiConnector.

Lemma rewrite_model_object body object model b :
  from_slice body = Ok (Object object) →
  to_vec (Object (<["model" := Str model]> object)) = Ok b →
  rewrite_model body model = b.
Proof. unfold rewrite_model. intros -> Ht. cbn. by rewrite Ht. Qed.

(** What the connector makes of an answer the network gives. *)
Definition answered (r : Http.Response) (stream : bool) (model : string)
    (out : result Error.Error ChatResponse) : Prop :=
  match out with
  | Ok c =>
      ChatResponse.status c = Http.status r ∧
      ChatResponse.content_type c = content_type_of r ∧
      ChatResponse.provider c = "openai" ∧ ChatResponse.model c = model ∧
      ChatResponse.attempts c = 1%Z ∧
      (if stream
       then items (ChatResponse.body c) = Http.chunks r ∧ ChatResponse.usage c = None
       else ∃ b, concat_chunks (Http.chunks r) = Ok b ∧
              items (ChatResponse.body c) = [Ok b] ∧
              ChatResponse.usage c = parse_openai_usage b)
  | Err e =>
      stream = false ∧ ∃ m, concat_chunks (Http.chunks r) = Err m ∧
        e = reading_failed m
  end.

Lemma items_map_PItem l : items (map PItem l) = l.
Proof. induction l; cbn; [done|]. by f_equal. Qed.

Lemma buffered_answered r model w : answered r false model (buffered r model w).1.
Proof.
  unfold buffered. rewrite M_bind_eq. unfold http_bytes, eval, exec. rewrite M_bind_eq.
  unfold eval, exec, mret, M_ret. cbn.
  destruct (concat_chunks (Http.chunks r)) as [b|m] eqn:E; cbn; [|eauto].
  split_and!; eauto.
Qed.
End lemmas.

(** ** Properties *)
Section properties.
Context `{Reqwest} `{SerdeJson}.
Import OpenAiConnector.

(** A chat request makes exactly one upstream call, with the key in the
    bearer header and the body's model rewritten; a transport failure is a
    provider error; otherwise the answer carries the upstream status and content
    type, and either the very chunks the upstream sent (streaming, usage unknown)
    or the whole body as one chunk with the usage read from it, a failure while
    reading being an error. *)
Theorem openai_chat_passthrough (self : OpenAiConnector) (q : ChatRequest) (w : World) :
  let req := post self (base_url self +:+ "/v1/chat/completions")
               (rewrite_model (ChatRequest.body q) (ChatRequest.model q)) in
  let '(out, w') := chat self q w in
  w_net w' = (send req (w_net w)).1.2 ∧ w_trace w' = w_trace w ∧ (w_now w ≤ w_now w')%Z ∧
  match (send req (w_net w)).1.1 with
  | Err e => out = Err (request_failed e)
  | Ok r => answered r (ChatRequest.stream q) (ChatRequest.model q) out
  end.
Proof.
  cbn zeta. unfold chat. rewrite M_bind_eq. unfold http_send, eval, exec.
  destruct (send _ (w_net w)) as [[[r|e] net] n]; cbn.
  - destruct (ChatRequest.stream q); cbn [negb].
    + unfold mret, M_ret. cbn. split_and!; try done; [lia|apply items_map_PItem].
    + set (w0 := mkWorld net (w_now w + Z.max 0 n)%Z (w_trace w)).
      pose proof (buffered_answered r (ChatRequest.model q) w0) as Ha.
      assert (buffered r (ChatRequest.model q) w0
        = ((buffered r (ChatRequest.model q) w0).1,
           mkWorld net (w_now w0 + Z.max 0 (Http.read_nanos r))%Z (w_trace w))) as E.
      { unfold buffered. rewrite M_bind_eq. unfold http_bytes, eval, exec. by rewrite M_bind_eq. }
      rewrite E. cbn. split_and!; [done..|lia|done].
  - unfold mret, M_ret. split_and!; [done..|cbn; lia|done].
Qed.
End properties.
