(* ===== verification/Azure.v ===== *)
(** * Azure: the Azure OpenAI connector ([provider/azure.rs])

    The deployment name goes into the URL path and the body is sent as it is. *)

From S2P Require Import Prelude Text Float64 Json Events Config Provider OpenAi.
Import Json.

Module AzureConnector.
Section azure.
Context `{Reqwest} `{SerdeJson}.

Record AzureConnector := mk { base_url : string; api_key : string; api_version : string }.

Definition new (base_url api_key api_version : string) : result Error.Error AzureConnector :=
  _ ← map_err (λ e, Error.Provider ("failed to build HTTP client: " +:+ e)) client_build;
  Ok (mk (trim_slashes base_url) api_key api_version).

Definition post (self : AzureConnector) (url : string) (body : bytes) : Http.Request :=
  Http.mkRequest "POST" url
    [("api-key", api_key self); ("content-type", "application/json")] body None.

Definition request_failed (e : string) : Error.Error :=
  Error.Provider ("request to Azure OpenAI failed: " +:+ e).
Definition reading_failed (e : string) : Error.Error :=
  Error.Provider ("reading Azure OpenAI response failed: " +:+ e).

Definition buffered (response : Http.Response) (model : string)
    : W (result Error.Error ChatResponse) :=
  upstream_body ← http_bytes response;
  mret (upstream_body ← map_err reading_failed upstream_body;
        Ok (ChatResponse.mk (Http.status response) (content_type_of response)
              (single_chunk upstream_body) "azure" model
              (parse_openai_usage upstream_body) 1)).

Definition chat (self : AzureConnector) (request : ChatRequest)
    : W (result Error.Error ChatResponse) :=
  let url := base_url self +:+ "/openai/deployments/" +:+ ChatRequest.model request
               +:+ "/chat/completions?api-version=" +:+ api_version self in
  response ← http_send (post self url (ChatRequest.body request));
  match map_err request_failed response with
  | Err e => mret (Err e)
  | Ok response =>
      if negb (ChatRequest.stream request)
      then buffered response (ChatRequest.model request)
      else
        mret (Ok (ChatResponse.mk (Http.status response) (content_type_of response)
                    (map PItem (Http.chunks response)) "azure"
                    (ChatRequest.model request) None 1))
  end.

Definition embeddings (self : AzureConnector) (request : EmbeddingsRequest)
    : W (result Error.Error ChatResponse) :=
  let url := base_url self +:+ "/openai/deployments/" +:+ EmbeddingsRequest.model request
               +:+ "/embeddings?api-version=" +:+ api_version self in
  response ← http_send (post self url (EmbeddingsRequest.body request));
  match map_err request_failed response with
  | Err e => mret (Err e)
  | Ok response => buffered response (EmbeddingsRequest.model request)
  end.

Definition reachable (self : AzureConnector) : W bool := http_reachable (base_url self).

Definition connector (self : AzureConnector) : Connector :=
  mkConnector "azure" (λ q, Some <$> chat self q) (λ q, Some <$> embeddings self q) (reachable self).
End azure.
End AzureConnector.
