(* ===== verification/Sse.v ===== *)
(** * Sse: the Server-Sent Events parser ([sse.rs]) *)

From S2P Require Import Prelude Text.

Module SseEvent.
Record SseEvent := mk { event : option string; data : string }.
End SseEvent.
Abbreviation SseEvent := SseEvent.SseEvent.

Definition lf : Byte.byte := Byte.x0a.

(** [windows(2).position(|w| w == b"\n\n")]. *)
Fixpoint find_blank (l : bytes) : option nat :=
  match l with
  | a :: (b :: _) as l' =>
      if Byte.eqb a lf && Byte.eqb b lf then Some 0 else S <$> find_blank l'
  | _ => None
  end.

(** One line of an event's text. *)
Definition parse_line (acc : SseEvent) (line : string) : SseEvent :=
  match strip_prefix "event:" line with
  | Some rest => SseEvent.mk (Some (trim rest)) (SseEvent.data acc)
  | None =>
      match strip_prefix "data:" line with
      | Some rest =>
          let d := SseEvent.data acc in
          let d := if decide (d = "") then d else d +:+ String nl "" in
          let piece := match strip_prefix " " rest with Some r => r | None => rest end in
          SseEvent.mk (SseEvent.event acc) (d +:+ piece)
      | None => acc
      end
  end.
Definition parse (text : string) : option SseEvent :=
  Some (foldl parse_line (SseEvent.mk None "") (lines text)).

(** The parser is its buffer. *)
Module SseParser.
Abbreviation t := bytes.
Definition new : t := [].
Definition feed (self : t) (b : bytes) : t := self ++ b.
Definition next_event (self : t) : option SseEvent * t :=
  match find_blank self with
  | None => (None, self)
  | Some pos =>
      match from_utf8 (take pos self) with
      | None => (None, self)
      | Some text => (parse text, drop (pos + 2) self)
      end
  end.

(** [while let Some(event) = parser.next_event()]; every event takes two bytes
    at least, so the length of the buffer is enough. *)
Fixpoint drain_fuel (fuel : nat) (self : t) : list SseEvent * t :=
  match fuel with
  | O => ([], self)
  | S n =>
      match next_event self with
      | (None, self) => ([], self)
      | (Some e, self) => let '(es, self) := drain_fuel n self in (e :: es, self)
      end
  end.
Definition drain (self : t) : list SseEvent * t := drain_fuel (length self) self.

(** The chunks of a stream fed one by one, the parser drained after each. *)
Fixpoint feed_all (self : t) (cs : list bytes) : list SseEvent * t :=
  match cs with
  | [] => ([], self)
  | c :: cs =>
      let '(es, self) := drain (feed self c) in
      let '(es', self) := feed_all self cs in
      (es ++ es', self)
  end.
End SseParser.

(** ** Encoding: an event as a server writes it *)
Definition data_line (d : string) : string := "data: " +:+ d.
Fixpoint join_nl (l : list string) : string :=
  match l with
  | [] => ""
  | [s] => s
  | s :: l => s +:+ String nl (join_nl l)
  end.
Definition encode_event (name : string) (ds : list string) : bytes :=
  as_bytes (join_nl (("event: " +:+ name) :: map data_line ds)) ++ [lf; lf].

(** ** Lemmas: the buffer *)
Lemma find_blank_cons a b l :
  find_blank (a :: b :: l) =
    if Byte.eqb a lf && Byte.eqb b lf then Some 0 else S <$> find_blank (b :: l).
Proof. done. Qed.
Lemma find_blank_app l r n : find_blank l = Some n → find_blank (l ++ r) = Some n.
Proof.
  revert n. induction l as [|a [|b l] IH]; intros n; [done..|].
  change ((a :: b :: l) ++ r) with (a :: b :: (l ++ r)). rewrite !find_blank_cons.
  case_match; [done|]. intros (m & Hm & ->)%fmap_Some. specialize (IH m Hm). cbn [app] in IH. by rewrite IH.
Qed.
Lemma find_blank_bound l n : find_blank l = Some n → n + 2 ≤ length l.
Proof.
  revert n. induction l as [|a [|b l] IH]; intros n; [done..|]. rewrite find_blank_cons.
  case_match; [intros [= <-]; cbn; lia|].
  intros (m & Hm & ->)%fmap_Some. apply IH in Hm. cbn in *. lia.
Qed.
Lemma find_blank_end t r :
  find_blank (t ++ [lf]) = None → find_blank (t ++ lf :: lf :: r) = Some (length t).
Proof.
  induction t as [|a [|b t] IH]; [done|..].
  - specialize (IH eq_refl). cbn [app length] in *. rewrite (find_blank_cons a lf []),
      (find_blank_cons a lf (lf :: r)), IH. by case_match.
  - cbn [app length] in *. rewrite (find_blank_cons a b (t ++ [lf])),
      (find_blank_cons a b (t ++ lf :: lf :: r)). case_match; [done|].
    intros Hn. apply fmap_None in Hn. by rewrite (IH Hn).
Qed.

(** ** Lemmas: draining *)
Import SseParser.

Lemma next_event_some b e b' :
  next_event b = (Some e, b') →
  length b' + 2 ≤ length b ∧ ∀ c, next_event (b ++ c) = (Some e, b' ++ c).
Proof.
  unfold next_event. destruct (find_blank b) as [n|] eqn:E; [|done].
  pose proof (find_blank_bound _ _ E).
  destruct (from_utf8 (take n b)) as [text|] eqn:Eu; [|done]. intros [= <- <-].
  split; [rewrite length_drop; lia|]. intros c. rewrite (find_blank_app _ _ _ E).
  rewrite take_app_le, Eu by lia. by rewrite drop_app_le by lia.
Qed.
Lemma next_event_none b b' : next_event b = (None, b') → b' = b.
Proof. unfold next_event. by repeat case_match; intros [= <-]. Qed.

Lemma drain_fuel_enough n m b :
  length b ≤ n → length b ≤ m → drain_fuel n b = drain_fuel m b.
Proof.
  revert m b. induction n as [|n IH]; intros [|m] b Hn Hm.
  - done.
  - destruct b; [|cbn in Hn; lia]. done.
  - destruct b; [|cbn in Hm; lia]. done.
  - cbn. destruct (next_event b) as [[e|] b'] eqn:E; [|done].
    apply next_event_some in E as [Hl _]. rewrite (IH m b'); [done|lia..].
Qed.

(** The equation of [drain], without the fuel. *)
Lemma drain_eq b :
  drain b = match next_event b with
            | (None, b) => ([], b)
            | (Some e, b) => let '(es, b) := drain b in (e :: es, b)
            end.
Proof.
  unfold drain at 1. destruct b as [|x b]; [done|]. cbn [length drain_fuel].
  destruct (next_event (x :: b)) as [[e|] b'] eqn:E; [|done].
  apply next_event_some in E as [Hl _]. cbn in Hl. unfold drain.
  by rewrite (drain_fuel_enough (length b) (length b') b') by lia.
Qed.

(** Induction along the events of a buffer. *)
Lemma drain_ind (P : bytes → Prop) :
  (∀ b, next_event b = (None, b) → P b) →
  (∀ b e b', next_event b = (Some e, b') → P b' → P b) →
  ∀ b, P b.
Proof.
  intros Hn Hs b. remember (length b) as n eqn:Hlen. revert b Hlen.
  induction (lt_wf n) as [n _ IH]. intros b ->.
  destruct (next_event b) as [[e|] b'] eqn:E.
  - eapply Hs; [done|]. apply next_event_some in E as [Hl _]. apply (IH (length b')); lia.
  - pose proof (next_event_none _ _ E). subst. by apply Hn.
Qed.

Lemma drain_app b c :
  drain (b ++ c) = let '(es, b') := drain b in let '(es', b'') := drain (b' ++ c) in
                   (es ++ es', b'').
Proof.
  induction b as [b E|b e b' E IH] using drain_ind.
  - rewrite (drain_eq b), E. by destruct (drain (b ++ c)).
  - rewrite (drain_eq b), E, (drain_eq (b ++ c)).
    apply next_event_some in E as [_ E]. rewrite E, IH.
    destruct (drain b') as [es b1]. by destruct (drain (b1 ++ c)).
Qed.

Lemma drain_stuck b es b' : drain b = (es, b') → next_event b' = (None, b').
Proof.
  revert es b'. induction b as [b E|b e b1 E IH] using drain_ind; intros es b'.
  - rewrite drain_eq, E. by intros [= <- <-].
  - rewrite drain_eq, E. destruct (drain b1) as [es1 b2] eqn:Ed. intros [= <- <-]. by eapply IH.
Qed.

Lemma feed_all_drain_from cs b :
  next_event b = (None, b) → feed_all b cs = drain (b ++ concat cs).
Proof.
  revert b. induction cs as [|c cs IH]; intros b Hb; cbn.
  - by rewrite app_nil_r, drain_eq, Hb.
  - unfold feed. rewrite app_assoc, (drain_app (b ++ c)).
    destruct (drain (b ++ c)) as [es b1] eqn:E. by rewrite (IH b1 (drain_stuck _ _ _ E)).
Qed.
Lemma feed_all_drain cs : feed_all SseParser.new cs = drain (concat cs).
Proof. by apply (feed_all_drain_from cs SseParser.new). Qed.

(** ** Lemmas: lines of an encoded event *)
Definition no_cr_end (s : string) : Prop := strip_cr s = s.

Lemma lines_join l s :
  Forall (λ s, no_nl s = true ∧ no_cr_end s) l → no_nl s = true → s ≠ "" →
  lines (join_nl (l ++ [s])) = l ++ [s].
Proof.
  intros Hl Hs Hne. unfold lines. induction l as [|x l IH]; cbn [app].
  - cbn [join_nl]. by rewrite split_lines_one.
  - apply Forall_cons in Hl as [[Hx Hcr] Hl]. specialize (IH Hl).
    assert (join_nl (x :: l ++ [s]) = x +:+ String nl (join_nl (l ++ [s]))) as ->.
    { destruct l; done. }
    rewrite split_lines_app by done. cbn [map fst snd]. rewrite Hcr. by f_equal.
Qed.

Lemma string_app_nil_r s : s +:+ "" = s.
Proof. apply as_bytes_inj. by rewrite as_bytes_app, app_nil_r. Qed.

Lemma parse_data_lines ds ev d :
  d ≠ "" →
  foldl parse_line (SseEvent.mk ev d) (map data_line ds) = SseEvent.mk ev (join_nl (d :: ds)).
Proof.
  revert d. induction ds as [|x ds IH]; intros d Hd; [done|].
  cbn [map foldl]. assert (parse_line (SseEvent.mk ev d) (data_line x)
    = SseEvent.mk ev (d +:+ String nl x)) as ->.
  { unfold parse_line. cbn [SseEvent.data SseEvent.event].
    change (strip_prefix "event:" (data_line x)) with (@None string).
    change (strip_prefix "data:" (data_line x)) with (Some (" " +:+ x)). cbv iota beta zeta.
    rewrite strip_prefix_app, decide_False by done. f_equal.
    rewrite string_app_assoc. done. }
  rewrite IH; [|by destruct d]. f_equal. cbn [join_nl].
  destruct ds as [|y ds]; [done|]. by rewrite string_app_assoc.
Qed.

Lemma find_blank_line s t :
  no_nl s = true → s ≠ "" → find_blank t = None → head t ≠ Some lf →
  find_blank (as_bytes s ++ lf :: t) = None.
Proof.
  induction s as [|a s IH]; [done|]. rewrite no_nl_cons, andb_true_iff.
  intros [Ha Hs] _ Ht Hh. rewrite as_bytes_cons. cbn [app].
  assert (Byte.eqb (Ascii.byte_of_ascii a) lf = false) as Hne.
  { apply not_true_is_false. intros E%Byte.byte_dec_bl.
    apply negb_true_iff, bool_decide_eq_false in Ha. apply Ha.
    rewrite <-(Ascii.ascii_of_byte_of_ascii a), E. done. }
  destruct s as [|a' s].
  - change (as_bytes "") with (@nil Byte.byte). cbn [app]. rewrite find_blank_cons, Hne. cbn [andb].
    destruct t as [|b t]; [done|]. rewrite find_blank_cons.
    assert (Byte.eqb b lf = false) as ->.
    { apply not_true_is_false. intros ->%Byte.byte_dec_bl. done. }
    rewrite andb_false_r. by rewrite Ht.
  - rewrite as_bytes_cons in *. cbn [app] in *. rewrite find_blank_cons, Hne. cbn [andb].
    by rewrite IH.
Qed.

Lemma find_blank_join l :
  Forall (λ s, no_nl s = true ∧ s ≠ "") l → l ≠ [] →
  find_blank (as_bytes (join_nl l) ++ [lf]) = None.
Proof.
  induction l as [|s l IH]; [done|]. intros [[Hs Hne] Hl]%Forall_cons _.
  destruct l as [|s' l]; [by apply find_blank_line|].
  change (join_nl (s :: s' :: l)) with (s +:+ String nl (join_nl (s' :: l))).
  rewrite as_bytes_app, as_bytes_cons, <-app_assoc. cbn [app].
  apply find_blank_line; [done..|by apply IH|].
  apply Forall_cons in Hl as [[Hs' Hne'] _]. destruct s' as [|a s']; [done|].
  assert (∃ r, join_nl (String a s' :: l) = String a r) as [r ->] by (destruct l; by eexists).
  rewrite as_bytes_cons. cbn. rewrite no_nl_cons, andb_true_iff in Hs'. destruct Hs' as [Ha _].
  intros [= E]. apply negb_true_iff, bool_decide_eq_false in Ha. apply Ha.
  rewrite <-(Ascii.ascii_of_byte_of_ascii a), E. done.
Qed.

Lemma utf8_join l :
  Forall (λ s, utf8_valid (as_bytes s) = true) l → utf8_valid (as_bytes (join_nl l)) = true.
Proof.
  induction l as [|s l IH]; [done|]. intros [Hs Hl]%Forall_cons. specialize (IH Hl).
  destruct l as [|s' l]; [done|].
  change (join_nl (s :: s' :: l)) with (s +:+ String nl (join_nl (s' :: l))).
  by rewrite as_bytes_app, as_bytes_cons, utf8_valid_app.
Qed.

Lemma no_nl_app s t : no_nl (s +:+ t) = no_nl s && no_nl t.
Proof.
  induction s as [|a s IH]; [done|]. change (String a s +:+ t) with (String a (s +:+ t)).
  by rewrite !no_nl_cons, IH, andb_assoc.
Qed.
Lemma trim_space s : trim (" " +:+ s) = trim s.
Proof. done. Qed.

Lemma strip_cr_cons a s : s ≠ "" → strip_cr (String a s) = String a (strip_cr s).
Proof. by destruct s. Qed.
Lemma no_cr_end_app p s : no_cr_end s → no_cr_end (p +:+ String " " s).
Proof.
  intros Hs. unfold no_cr_end in *. induction p as [|a p IH].
  - change ("" +:+ String " " s) with (String " " s).
    destruct s as [|b s]; [done|]. by rewrite strip_cr_cons, Hs.
  - change (String a p +:+ String " " s) with (String a (p +:+ String " " s)).
    rewrite strip_cr_cons; [by rewrite IH|]. by destruct p.
Qed.

(** Parsing the text of an encoded event. *)
Lemma parse_encoded name d ds :
  Forall (λ s, no_nl s = true ∧ no_cr_end s) (name :: d :: ds) → d ≠ "" → trim name = name →
  parse (join_nl (("event: " +:+ name) :: map data_line (d :: ds)))
  = Some (SseEvent.mk (Some name) (join_nl (d :: ds))).
Proof.
  intros Hf Hd Ht. unfold parse. f_equal.
  assert (lines (join_nl (("event: " +:+ name) :: map data_line (d :: ds)))
    = ("event: " +:+ name) :: map data_line (d :: ds)) as ->.
  { destruct (exists_last (l := d :: ds)) as (l & x & El); [done|]. rewrite El, map_app.
    rewrite app_comm_cons. apply Forall_cons in Hf as [[Hn Hnc] Hf]. rewrite El in Hf.
    apply Forall_app in Hf as [Hl [[Hx _] _]%Forall_cons].
    apply lines_join; [|by unfold data_line; rewrite no_nl_app|done].
    apply Forall_cons. split.
    - rewrite no_nl_app. split; [done|]. by apply (no_cr_end_app "event:").
    - apply Forall_map. eapply Forall_impl; [exact Hl|]. intros s [Hs Hc]. unfold compose, data_line.
      rewrite no_nl_app. split; [done|]. by apply (no_cr_end_app "data:"). }
  cbn [map foldl].
  assert (parse_line (SseEvent.mk None "") ("event: " +:+ name) = SseEvent.mk (Some name) "") as ->.
  { unfold parse_line. change (strip_prefix "event:" ("event: " +:+ name)) with (Some (" " +:+ name)).
    cbv iota beta. by rewrite trim_space, Ht. }
  assert (parse_line (SseEvent.mk (Some name) "") (data_line d) = SseEvent.mk (Some name) d) as ->.
  { done. }
  by rewrite parse_data_lines.
Qed.

(** ** Properties *)

(** C31: The events a stream yields do not depend on how the network cut it:
    feeding it chunk by chunk, draining the parser after each, gives the events
    and the leftover of feeding it whole; and draining always ends, with nothing
    more to take from what is left. *)
Theorem sse_chunking_independent (cs : list bytes) :
  feed_all SseParser.new cs = drain (concat cs) ∧
  next_event (feed_all SseParser.new cs).2 = (None, (feed_all SseParser.new cs).2).
Proof.
  rewrite feed_all_drain. split; [done|].
  destruct (drain (concat cs)) as [es b] eqn:E. exact (drain_stuck _ _ _ E).
Qed.

(** An event written as an [event:] line and [data:] lines comes back from
    the parser as that event, with its data lines joined, and leaves exactly the
    bytes that follow it: for a trimmed name and lines of valid text without
    newlines, not ending in a carriage return, the first not empty. *)
Theorem sse_encode_parse name d ds rest :
  Forall (λ s, no_nl s = true ∧ no_cr_end s) (name :: d :: ds) →
  Forall (λ s, utf8_valid (as_bytes s) = true) (name :: d :: ds) →
  d ≠ "" → trim name = name →
  next_event (encode_event name (d :: ds) ++ rest)
  = (Some (SseEvent.mk (Some name) (join_nl (d :: ds))), rest).
Proof.
  intros Hf Hu Hd Ht. unfold next_event, encode_event. rewrite <-app_assoc. cbn [app].
  set (text := join_nl _). rewrite find_blank_end.
  - assert (from_utf8 (take (length (as_bytes text)) (as_bytes text ++ lf :: lf :: rest)) = Some text) as ->.
    { rewrite take_app_length. unfold from_utf8.
      assert (utf8_valid (as_bytes text) = true) as ->; [|by rewrite of_as_bytes].
      apply utf8_join. apply Forall_cons in Hu as [Hn Hu]. apply Forall_cons. split.
      - by rewrite as_bytes_app, utf8_valid_app.
      - apply Forall_map. eapply Forall_impl; [exact Hu|]. intros s Hs. unfold compose, data_line.
        by rewrite as_bytes_app, utf8_valid_app. }
    unfold text. rewrite parse_encoded by done. fold text. f_equal.
    by rewrite drop_app_add.
  - apply find_blank_join; [|done]. apply Forall_cons in Hf as [[Hn _] Hf].
    apply Forall_cons. split; [by rewrite no_nl_app|].
    apply Forall_map. eapply Forall_impl; [exact Hf|]. intros s [Hs _]. unfold compose, data_line.
    by rewrite no_nl_app.
Qed.

(** C40: A complete event that is not valid UTF-8 blocks the parser for good: it
    is never drained, so whatever arrives after it, no event is ever yielded
    again and the buffer only grows. *)
Theorem sse_invalid_utf8_wedges (b : bytes) n (cs : list bytes) :
  find_blank b = Some n → utf8_valid (take n b) = false →
  feed_all b cs = ([], b ++ concat cs).
Proof.
  revert b. induction cs as [|c cs IH]; intros b Hb Hu; cbn; [by rewrite app_nil_r|].
  pose proof (find_blank_app _ c _ Hb) as Hb'. pose proof (find_blank_bound _ _ Hb).
  assert (utf8_valid (take n (b ++ c)) = false) as Hu' by (by rewrite take_app_le by lia).
  unfold feed. rewrite drain_eq. unfold next_event, from_utf8. rewrite Hb', Hu'.
  by rewrite IH, <-app_assoc.
Qed.

(** ** Witnesses *)
Lemma sse_encode_parse_witness :
  next_event (encode_event "message_stop" ["{}"; "x"] ++ as_bytes "data")
  = (Some (SseEvent.mk (Some "message_stop") ("{}" +:+ String nl "x")), as_bytes "data").
Proof.
  apply (sse_encode_parse "message_stop" "{}" ["x"] (as_bytes "data")); try done;
    repeat constructor.
Defined.

Lemma sse_invalid_utf8_wedges_witness :
  feed_all [Byte.xff; lf; lf] [as_bytes "data: x"; [lf; lf]]
  = ([], [Byte.xff; lf; lf] ++ as_bytes "data: x" ++ [lf; lf]).
Proof.
  exact (sse_invalid_utf8_wedges [Byte.xff; lf; lf] 1 [as_bytes "data: x"; [lf; lf]] eq_refl eq_refl).
Defined.
