(* ===== verification/Anthropic.v ===== *)
(** * Anthropic: the Anthropic Messages connector ([provider/anthropic.rs])

    Request and response schemas, the stateful conversion of the upstream event
    stream into OpenAI chunks, and the stream adapter, polled step by step. The
    derived (de)serialisers of the schema structs are generated code and belong
    to the class [AnthropicSerde]. *)

From S2P Require Import Prelude Text Float64 Json Events Auth Config Provider OpenAi Sse.
Import Json.

Definition ANTHROPIC_VERSION : string := "2023-06-01".
Definition DEFAULT_MAX_TOKENS : Z := 4096.
Definition DONE_MARKER : bytes := as_bytes "data: [DONE]" ++ [lf; lf].

Module Message.
Record Message := mk { role : string; content : string }.
End Message.
Abbreviation Message := Message.Message.

Module ChatMessages.
Record ChatMessages := mk {
  system : option string;
  messages : list Message;
  max_tokens : Z;
  temperature : option f64
}.
End ChatMessages.
Abbreviation ChatMessages := ChatMessages.ChatMessages.

Module OpenAiRequest.
(** [OpenAiMessage] has the same two fields as [Message]. *)
Record OpenAiRequest := mk {
  messages : list Message;
  max_tokens : option Z;
  temperature : option f64
}.
End OpenAiRequest.

Module AnthropicRequest.
Record AnthropicRequest := mk {
  model : string;
  messages : list Message;
  max_tokens : Z;
  system : option string;
  temperature : option f64;
  stream : option bool
}.
End AnthropicRequest.

Module AnthropicResponse.
Record AnthropicContentBlock := mkBlock { kind : string; text : string }.
Record AnthropicUsage := mkUsage { input_tokens : Z; output_tokens : Z }.
Record AnthropicResponse := mk {
  id : string;
  model : string;
  content : list AnthropicContentBlock;
  stop_reason : option string;
  usage : option AnthropicUsage
}.
End AnthropicResponse.

Class AnthropicSerde := {
  de_openai_request : bytes → result string OpenAiRequest.OpenAiRequest;
  de_anthropic_response : bytes → result string AnthropicResponse.AnthropicResponse;
  ser_anthropic_request : AnthropicRequest.AnthropicRequest → result string bytes
}.

(** One message of the loop: system contents accumulate, the rest is kept. *)
Definition hoist (acc : string * list Message) (message : Message) : string * list Message :=
  let '(system, messages) := acc in
  if decide (Message.role message = "system") then
    let system := if decide (system = "") then system else system +:+ String nl "" in
    (system +:+ Message.content message, messages)
  else (system, messages ++ [message]).

Definition parse_openai_messages `{AnthropicSerde} (body : bytes)
    : result Error.Error ChatMessages :=
  request ← map_err (λ e, Error.Provider ("invalid chat request: " +:+ e)) (de_openai_request body);
  let '(system, messages) := foldl hoist ("", []) (OpenAiRequest.messages request) in
  Ok (ChatMessages.mk
        (if decide (system = "") then None else Some system)
        messages
        (match OpenAiRequest.max_tokens request with Some n => n | None => DEFAULT_MAX_TOKENS end)
        (OpenAiRequest.temperature request)).

Definition map_finish_reason (stop_reason : string) : string :=
  if decide (stop_reason = "max_tokens") then "length" else "stop".

Definition str_concat (l : list string) : string := foldr String.append "" l.

(** The OpenAI document built from a response; the token total is a [u32] sum,
    which wraps in a release build. *)
Definition openai_document (response : AnthropicResponse.AnthropicResponse) (usage : Usage)
    (created : Z) : Value :=
  let content := str_concat (map AnthropicResponse.text
    (List.filter (λ block, bool_decide (AnthropicResponse.kind block = "text"))
       (AnthropicResponse.content response))) in
  obj [
    ("id", Str (AnthropicResponse.id response));
    ("object", Str "chat.completion");
    ("created", uint created);
    ("model", Str (AnthropicResponse.model response));
    ("choices", Array [obj [
      ("index", uint 0);
      ("message", obj [("role", Str "assistant"); ("content", Str content)]);
      ("finish_reason", Str (map_finish_reason
         (match AnthropicResponse.stop_reason response with Some s => s | None => "" end)))]]);
    ("usage", obj [
      ("prompt_tokens", uint (Usage.prompt_tokens usage));
      ("completion_tokens", uint (Usage.completion_tokens usage));
      ("total_tokens", uint (wrap_u32 (Usage.prompt_tokens usage + Usage.completion_tokens usage)))])
  ].

(** [created] is the clock in seconds. *)
Definition to_openai_response `{SerdeJson} `{AnthropicSerde} (body : bytes) (created : Z)
    : result Error.Error (bytes * Usage) :=
  response ← map_err (λ e, Error.Provider ("invalid Anthropic response: " +:+ e))
               (de_anthropic_response body);
  let upstream_usage :=
    match AnthropicResponse.usage response with
    | Some u => u
    | None => AnthropicResponse.mkUsage 0 0
    end in
  let usage := Usage.mk (AnthropicResponse.input_tokens upstream_usage)
                 (AnthropicResponse.output_tokens upstream_usage) in
  encoded ← map_err (λ e, Error.Provider ("failed to encode response: " +:+ e))
              (to_vec (openai_document response usage created));
  Ok (encoded, usage).

(** ** The event conversion *)
Module AnthropicTransform.
Record AnthropicTransform := mk {
  chat_id : string;
  created : Z;
  model : string;
  input_tokens : Z;
  output_tokens : Z
}.

(** [id_bytes] are the eight random bytes, [created] the clock in seconds. *)
Definition new `{Crypto} (model : string) (id_bytes : bytes) (created : Z) : AnthropicTransform :=
  mk ("chatcmpl-" +:+ hex_encode id_bytes) created model 0 0.

Section transform.
Context `{SerdeJson}.

Definition sse_data (v : Value) : bytes := as_bytes ("data: " +:+ display v) ++ [lf; lf].

Definition chunk_value (self : AnthropicTransform) (delta : Value) (finish_reason : option string)
    : Value :=
  obj [
    ("id", Str (chat_id self));
    ("object", Str "chat.completion.chunk");
    ("created", uint (created self));
    ("model", Str (model self));
    ("choices", Array [obj [
      ("index", uint 0);
      ("delta", delta);
      ("finish_reason", opt_str finish_reason)]])
  ].
Definition chunk (self : AnthropicTransform) (delta : Value) (finish_reason : option string)
    : bytes :=
  sse_data (chunk_value self delta finish_reason).

(** The total is a [u32] sum, which wraps in a release build. *)
Definition usage_value (self : AnthropicTransform) : Value :=
  let total := wrap_u32 (input_tokens self + output_tokens self) in
  obj [
    ("id", Str (chat_id self));
    ("object", Str "chat.completion.chunk");
    ("created", uint (created self));
    ("model", Str (model self));
    ("choices", Array []);
    ("usage", obj [
      ("prompt_tokens", uint (input_tokens self));
      ("completion_tokens", uint (output_tokens self));
      ("total_tokens", uint total)])
  ].
Definition usage_chunk (self : AnthropicTransform) : bytes := sse_data (usage_value self).

Definition set_model (m : string) (t : AnthropicTransform) : AnthropicTransform :=
  mk (chat_id t) (created t) m (input_tokens t) (output_tokens t).
Definition set_input (n : Z) (t : AnthropicTransform) : AnthropicTransform :=
  mk (chat_id t) (created t) (model t) n (output_tokens t).
Definition set_output (n : Z) (t : AnthropicTransform) : AnthropicTransform :=
  mk (chat_id t) (created t) (model t) (input_tokens t) n.
Definition update {A} (o : option A) (f : A → AnthropicTransform → AnthropicTransform)
    (t : AnthropicTransform) : AnthropicTransform :=
  match o with Some a => f a t | None => t end.

(** The three arms of [process]. *)
Definition message_start (self : AnthropicTransform) (data : Value)
    : AnthropicTransform * list bytes :=
  let self := update (get_path ["message"; "model"] data ≫= as_str) set_model self in
  let self := update (get_path ["message"; "usage"; "input_tokens"] data ≫= as_u64)
                (λ tokens, set_input (wrap_u32 tokens)) self in
  (self, [chunk self (obj [("role", Str "assistant")]) None]).
Definition content_block_delta (self : AnthropicTransform) (data : Value)
    : AnthropicTransform * list bytes :=
  if decide (get_path ["delta"; "type"] data ≫= as_str = Some "text_delta") then
    match get_path ["delta"; "text"] data ≫= as_str with
    | Some text => (self, [chunk self (obj [("content", Str text)]) None])
    | None => (self, [])
    end
  else (self, []).
Definition message_delta (self : AnthropicTransform) (data : Value)
    : AnthropicTransform * list bytes :=
  let stop_reason :=
    map_finish_reason <$> (get_path ["delta"; "stop_reason"] data ≫= as_str) in
  let self := update (get_path ["usage"; "output_tokens"] data ≫= as_u64)
                (λ tokens, set_output (wrap_u32 tokens)) self in
  (self, [chunk self (obj []) stop_reason; usage_chunk self]).

Definition process (self : AnthropicTransform) (event : SseEvent)
    : AnthropicTransform * list bytes :=
  let event_type := match SseEvent.event event with Some e => e | None => "" end in
  match from_str (SseEvent.data event) with
  | Err _ => (self, [])
  | Ok data =>
      if decide (event_type = "message_start") then message_start self data
      else if decide (event_type = "content_block_delta") then content_block_delta self data
      else if decide (event_type = "message_delta") then message_delta self data
      else (self, [])
  end.

(** The events of a stream, one after the other. *)
Fixpoint process_all (self : AnthropicTransform) (events : list SseEvent)
    : AnthropicTransform * list bytes :=
  match events with
  | [] => (self, [])
  | e :: events =>
      let '(self, out) := process self e in
      let '(self, out') := process_all self events in
      (self, out ++ out')
  end.
End transform.
End AnthropicTransform.
Abbreviation AnthropicTransform := AnthropicTransform.AnthropicTransform.

(** ** The stream adapter *)
Module AnthropicStreamAdapter.
Record AnthropicStreamAdapter := mk {
  inner : BodyStream;
  parser : SseParser.t;
  transform : AnthropicTransform;
  pending : list bytes;
  upstream_done : bool;
  emitted_done : bool
}.

Definition new (inner : BodyStream) (t : AnthropicTransform) : AnthropicStreamAdapter :=
  mk inner SseParser.new t [] false false.

Section adapter.
Context `{SerdeJson}.

(** Feed a chunk, drain the parser and queue what the events become. *)
Definition ingest (p : SseParser.t) (t : AnthropicTransform) (chunk : bytes)
    : SseParser.t * AnthropicTransform * list bytes :=
  let '(events, p) := SseParser.drain (SseParser.feed p chunk) in
  let '(t, out) := AnthropicTransform.process_all t events in
  (p, t, out).

(** The first two tests of the loop: a queued chunk, or the end of the stream. *)
Definition head (self : AnthropicStreamAdapter)
    : option (Poll (option (result string bytes)) * AnthropicStreamAdapter) :=
  let '(mk i p t q ud ed) := self in
  match q with
  | out :: q => Some (Ready (Some (Ok out)), mk i p t q ud ed)
  | [] =>
      if ud then
        if negb ed then Some (Ready (Some (Ok DONE_MARKER)), mk i p t [] ud true)
        else Some (Ready None, self)
      else None
  end.

(** The loop, over what the inner stream will answer. When the inner stream
    ends the flag is set and the next round returns. *)
Fixpoint poll_loop (i : BodyStream) (p : SseParser.t) (t : AnthropicTransform) (q : list bytes)
    (ud ed : bool) : Poll (option (result string bytes)) * AnthropicStreamAdapter :=
  match head (mk i p t q ud ed) with
  | Some r => r
  | None =>
      match i with
      | PPending :: i => (Pending, mk i p t q ud ed)
      | PItem (Err e) :: i => (Ready (Some (Err e)), mk i p t q ud ed)
      | PItem (Ok chunk) :: i =>
          let '(p, t, out) := ingest p t chunk in
          poll_loop i p t (q ++ out) ud ed
      | [] =>
          match head (mk [] p t q true ed) with
          | Some r => r
          | None => (Pending, mk [] p t q true ed)
          end
      end
  end.
Definition poll_next (self : AnthropicStreamAdapter)
    : Poll (option (result string bytes)) * AnthropicStreamAdapter :=
  poll_loop (inner self) (parser self) (transform self) (pending self) (upstream_done self)
    (emitted_done self).

(** What the polls of an adapter answer, as a stream. *)
Definition ok_items (l : list bytes) : BodyStream := map (λ b, PItem (Ok b)) l.
Definition finish (ed : bool) : BodyStream := if ed then [] else [PItem (Ok DONE_MARKER)].
Fixpoint translate (i : BodyStream) (p : SseParser.t) (t : AnthropicTransform) (ed : bool)
    : BodyStream :=
  match i with
  | [] => finish ed
  | PPending :: i => PPending :: translate i p t ed
  | PItem (Err e) :: i => PItem (Err e) :: translate i p t ed
  | PItem (Ok chunk) :: i =>
      let '(p, t, out) := ingest p t chunk in ok_items out ++ translate i p t ed
  end.
Definition boxed (self : AnthropicStreamAdapter) : BodyStream :=
  ok_items (pending self) ++
  (if upstream_done self then finish (emitted_done self)
   else translate (inner self) (parser self) (transform self) (emitted_done self)).
End adapter.
End AnthropicStreamAdapter.

(** ** Errors *)
Section errors.
Context `{SerdeJson}.

Definition parsed_error (body : bytes) : option (string * option string) :=
  value ← result_ok (from_slice body);
  error ← get "error" value;
  message ← get "message" error ≫= as_str;
  Some (message, get "type" error ≫= as_str).

(** [None] is the panic of the slice [&text[..512]]. *)
Definition error_message (body : bytes) : option (string * option string) :=
  match parsed_error body with
  | Some mk => Some mk
  | None =>
      let text := match from_utf8 body with
                  | Some t => t
                  | None => "upstream returned a non-JSON error"
                  end in
      trimmed ← (if decide (512 < length (as_bytes text)) then slice_to text 512 else Some text);
      Some (trimmed, None)
  end.
Definition error_envelope (message : string) (kind : option string) : Value :=
  match kind with
  | Some k => obj [("error", obj [("message", Str message); ("type", Str k)])]
  | None => obj [("error", obj [("message", Str message)])]
  end.
Definition quote : string := String (Ascii.ascii_of_nat 34) "".
Definition fallback_error : bytes :=
  as_bytes ("{" +:+ quote +:+ "error" +:+ quote +:+ ":{" +:+ quote +:+ "message" +:+ quote
    +:+ ":" +:+ quote +:+ "upstream returned an error" +:+ quote +:+ "}}").
Definition to_openai_error (body : bytes) : option bytes :=
  '(message, kind) ← error_message body;
  Some (match to_vec (error_envelope message kind) with
        | Ok b => b
        | Err _ => fallback_error
        end).
End errors.

(** ** The connector *)
Module AnthropicConnector.
Section anthropic.
Context `{Reqwest} `{SerdeJson} `{AnthropicSerde} `{Crypto} `{Entropy}.

Record AnthropicConnector := mk { base_url : string; api_key : string }.

Definition new (base_url api_key : string) : result Error.Error AnthropicConnector :=
  _ ← map_err (λ e, Error.Provider ("failed to build HTTP client: " +:+ e)) client_build;
  Ok (mk (trim_slashes base_url) api_key).

(** The payload sent upstream. *)
Definition payload (request : ChatRequest) : result Error.Error bytes :=
  parts ← parse_openai_messages (ChatRequest.body request);
  map_err (λ e, Error.Provider ("failed to encode request: " +:+ e))
    (ser_anthropic_request (AnthropicRequest.mk (ChatRequest.model request)
      (ChatMessages.messages parts) (ChatMessages.max_tokens parts) (ChatMessages.system parts)
      (ChatMessages.temperature parts)
      (if ChatRequest.stream request then Some true else None))).

Definition post (self : AnthropicConnector) (payload : bytes) : Http.Request :=
  Http.mkRequest "POST" (base_url self +:+ "/v1/messages")
    [("x-api-key", api_key self); ("anthropic-version", ANTHROPIC_VERSION);
     ("content-type", "application/json")] payload None.

(** The streaming answer: the adapter over the upstream's chunks. *)
Definition streamed (response : Http.Response) (model : string)
    : W (option (result Error.Error ChatResponse)) :=
  id_bytes ← random_bytes 8;
  created ← epoch_seconds;
  let adapter := AnthropicStreamAdapter.new (map PItem (Http.chunks response))
                   (AnthropicTransform.new model id_bytes created) in
  mret (Some (Ok (ChatResponse.mk 200 (Some "text/event-stream")
    (AnthropicStreamAdapter.boxed adapter) "anthropic" model None 1))).

(** The buffered answer: the converted document, or the converted error. *)
Definition buffered (response : Http.Response) (model : string)
    : W (option (result Error.Error ChatResponse)) :=
  upstream_body ← http_bytes response;
  created ← epoch_seconds;
  mret (match map_err (λ e, Error.Provider ("reading Anthropic response failed: " +:+ e)) upstream_body with
        | Err e => Some (Err e)
        | Ok upstream_body =>
            let finish body usage :=
              Ok (ChatResponse.mk (Http.status response) (Some "application/json")
                    (single_chunk body) "anthropic" model usage 1) in
            if decide (Http.status response = 200%Z) then
              Some ('(encoded, usage) ← to_openai_response upstream_body created;
                    finish encoded (Some usage))
            else
              body ← to_openai_error upstream_body;
              Some (finish body None)
        end).

Definition chat (self : AnthropicConnector) (request : ChatRequest)
    : W (option (result Error.Error ChatResponse)) :=
  match payload request with
  | Err e => mret (Some (Err e))
  | Ok payload =>
      response ← http_send (post self payload);
      match map_err (λ e, Error.Provider ("request to Anthropic failed: " +:+ e)) response with
      | Err e => mret (Some (Err e))
      | Ok response =>
          if ChatRequest.stream request && bool_decide (Http.status response = 200%Z)
          then streamed response (ChatRequest.model request)
          else buffered response (ChatRequest.model request)
      end
  end.

Definition reachable (self : AnthropicConnector) : W bool := http_reachable (base_url self).

Definition connector (self : AnthropicConnector) : Connector :=
  mkConnector "anthropic" (chat self) (embeddings_unsupported "anthropic") (reachable self).
End anthropic.
End AnthropicConnector.

(** ** Lemmas: the adapter *)
Section adapter_lemmas.
Context `{SerdeJson}.
Import AnthropicStreamAdapter.

Lemma ok_items_app l l' : ok_items (l ++ l') = ok_items l ++ ok_items l'.
Proof. apply map_app. Qed.
Lemma items_ok_items l : items (ok_items l) = map Ok l.
Proof. induction l; cbn; [done|]. by f_equal. Qed.

Lemma poll_loop_boxed i p t q ud ed :
  poll_body (boxed (mk i p t q ud ed))
  = let '(r, st) := poll_loop i p t q ud ed in (r, boxed st).
Proof.
  revert p t q. induction i as [|[|[c|e]] i IH]; intros p t [|x q];
    destruct ud, ed; try done; unfold boxed; cbn;
    destruct (ingest p t c) as [[p' t'] out]; rewrite <-IH; unfold boxed; cbn;
    by rewrite ?app_nil_r.
Qed.

Lemma process_all_app t es es' :
  AnthropicTransform.process_all t (es ++ es')
  = let '(t', out) := AnthropicTransform.process_all t es in
    let '(t'', out') := AnthropicTransform.process_all t' es' in (t'', out ++ out').
Proof.
  revert t. induction es as [|e es IH]; intros t; cbn; [by case_match|].
  destruct (AnthropicTransform.process t e) as [t1 o1]. rewrite IH.
  destruct (AnthropicTransform.process_all t1 es) as [t2 o2].
  destruct (AnthropicTransform.process_all t2 es') as [t3 o3]. by rewrite app_assoc.
Qed.

Lemma translate_ok cs p t :
  translate (ok_items cs) p t false
  = ok_items (AnthropicTransform.process_all t (SseParser.feed_all p cs).1).2
    ++ [PItem (Ok DONE_MARKER)].
Proof.
  revert p t. induction cs as [|c cs IH]; intros p t; [done|].
  cbn [ok_items map translate SseParser.feed_all]. unfold ingest.
  destruct (SseParser.drain (SseParser.feed p c)) as [es p1].
  destruct (AnthropicTransform.process_all t es) as [t1 o1] eqn:E1.
  fold (ok_items cs). rewrite IH. specialize (IH p1 t1).
  destruct (SseParser.feed_all p1 cs) as [es' p2] eqn:E2. cbn [fst].
  rewrite process_all_app, E1.
  destruct (AnthropicTransform.process_all t1 es') as [t2 o2]. cbn [snd].
  by rewrite ok_items_app, <-app_assoc.
Qed.
End adapter_lemmas.

(** ** Lemmas: the usage of a converted document *)
Lemma parse_usage_document `{SerdeJson} b r u created :
  from_slice b = Ok (openai_document r u created) →
  in_u32 (Usage.prompt_tokens u) → in_u32 (Usage.completion_tokens u) →
  parse_openai_usage b = Some u.
Proof.
  intros Hs Hp Hc. unfold parse_openai_usage. rewrite Hs.
  destruct u as [p c]. cbn [Usage.prompt_tokens Usage.completion_tokens] in *.
  set (us := obj [("prompt_tokens", uint p); ("completion_tokens", uint c);
    ("total_tokens", uint (wrap_u32 (p + c)))]).
  assert (get "usage" (openai_document r (Usage.mk p c) created) = Some us) as E1 by done.
  assert (get "prompt_tokens" us = Some (uint p)) as E2 by done.
  assert (get "completion_tokens" us = Some (uint c)) as E3 by done.
  cbn [result_ok mbind option_bind]. rewrite E1. cbn [mbind option_bind].
  rewrite E2, E3. cbn. by rewrite !wrap_u32_id.
Qed.

(** ** Lemmas: hoisting *)
Definition system_contents (l : list Message) : list string :=
  map Message.content (List.filter (λ m, bool_decide (Message.role m = "system")) l).

Lemma hoist_messages l s ms :
  (foldl hoist (s, ms) l).2
  = ms ++ List.filter (λ m, negb (bool_decide (Message.role m = "system"))) l.
Proof.
  revert s ms. induction l as [|m l IH]; intros s ms; cbn; [by rewrite app_nil_r|].
  case_decide; rewrite IH; cbn; [by rewrite bool_decide_true by done|].
  rewrite bool_decide_false by done. cbn. by rewrite <-app_assoc.
Qed.
Lemma string_app_eq_nil (s t : string) : s +:+ t = "" ↔ s = "" ∧ t = "".
Proof. destruct s; [naive_solver|]. split; [done|]. by intros [? _]. Qed.
Lemma hoist_system_empty l s ms :
  (foldl hoist (s, ms) l).1 = "" ↔ s = "" ∧ Forall (λ s, s = "") (system_contents l).
Proof.
  unfold system_contents. revert s ms. induction l as [|m l IH]; intros s ms; cbn; [naive_solver|].
  case_decide; rewrite IH; [rewrite bool_decide_true by done|by rewrite bool_decide_false by done].
  cbn. rewrite Forall_cons, string_app_eq_nil. case_decide; [naive_solver|].
  rewrite string_app_eq_nil. naive_solver.
Qed.
Lemma hoist_system_join l s ms :
  Forall (λ s, s ≠ "") (system_contents l) →
  (foldl hoist (s, ms) l).1
  = if decide (s = "") then join_nl (system_contents l) else join_nl (s :: system_contents l).
Proof.
  unfold system_contents. revert s ms. induction l as [|m l IH]; intros s ms; cbn.
  - intros _. by case_decide.
  - case_decide as Hr; [rewrite bool_decide_true by done|rewrite bool_decide_false by done; apply IH].
    cbn. intros [Hm Hf]%Forall_cons. rewrite IH by done.
    rewrite decide_False by (by intros [_ ?]%string_app_eq_nil).
    destruct (decide (s = "")) as [->|Hs]; [done|].
    set (l' := map _ _). destruct l' as [|x l']; cbn [join_nl]; by rewrite !string_app_assoc.
Qed.

(** ** Properties *)
Section properties.
Context `{SerdeJson} `{AnthropicSerde}.

(** C22: Polling the adapter is polling the stream it stands for: each poll
    answers what the translated stream's poll answers, and leaves an adapter that
    stands for the rest. Every queued chunk is handed out before the upstream is
    polled again, errors pass through in place, and after the upstream ends there
    is exactly one terminator and then the end. *)
Theorem adapter_refines_translation (st : AnthropicStreamAdapter.AnthropicStreamAdapter) :
  poll_body (AnthropicStreamAdapter.boxed st)
  = let '(r, st') := AnthropicStreamAdapter.poll_next st in (r, AnthropicStreamAdapter.boxed st').
Proof. destruct st as [i p t q ud ed]. apply poll_loop_boxed. Qed.

(** What a client reads does not depend on how the upstream's bytes were cut
    into chunks: it is the conversion of the events of the whole byte stream,
    in order, and then the terminator, once. *)
Theorem adapter_output_chunk_independent (cs : list bytes) t :
  items (AnthropicStreamAdapter.boxed (AnthropicStreamAdapter.new (map (λ c, PItem (Ok c)) cs) t))
  = map Ok (AnthropicTransform.process_all t (SseParser.drain (concat cs)).1).2
    ++ [Ok DONE_MARKER].
Proof.
  unfold AnthropicStreamAdapter.boxed, AnthropicStreamAdapter.new. cbn [AnthropicStreamAdapter.pending
    AnthropicStreamAdapter.upstream_done AnthropicStreamAdapter.inner
    AnthropicStreamAdapter.parser AnthropicStreamAdapter.transform].
  change (map (λ c, PItem (Ok c)) cs) with (AnthropicStreamAdapter.ok_items cs).
  rewrite translate_ok. cbn [AnthropicStreamAdapter.ok_items map app].
  rewrite items_app, items_ok_items. cbn [items omap list_omap].
  by rewrite (feed_all_drain cs).
Qed.

(** The message transform keeps the conversation: the messages that are not
    system messages go upstream in their order with their contents; the system
    prompt is the system contents joined by newlines (when none is empty), absent
    exactly when every one is empty; the token limit is the request's or 4096. *)
Theorem parse_openai_messages_spec body r :
  de_openai_request body = Ok r →
  let sys := map Message.content
    (List.filter (λ m, bool_decide (Message.role m = "system")) (OpenAiRequest.messages r)) in
  ∃ c, parse_openai_messages body = Ok c ∧
    ChatMessages.messages c =
      List.filter (λ m, negb (bool_decide (Message.role m = "system"))) (OpenAiRequest.messages r) ∧
    (ChatMessages.system c = None ↔ Forall (λ s, s = "") sys) ∧
    (Forall (λ s, s ≠ "") sys → sys ≠ [] → ChatMessages.system c = Some (join_nl sys)) ∧
    ChatMessages.max_tokens c =
      match OpenAiRequest.max_tokens r with Some n => n | None => 4096%Z end ∧
    ChatMessages.temperature c = OpenAiRequest.temperature r.
Proof.
  intros Hr. cbn zeta. unfold parse_openai_messages. rewrite Hr. cbn.
  destruct (foldl hoist ("", []) (OpenAiRequest.messages r)) as [s ms] eqn:E.
  eexists. split; [done|]. cbn [ChatMessages.messages ChatMessages.system
    ChatMessages.max_tokens ChatMessages.temperature].
  pose proof (hoist_messages (OpenAiRequest.messages r) "" []) as Hm.
  pose proof (hoist_system_empty (OpenAiRequest.messages r) "" []) as He.
  pose proof (hoist_system_join (OpenAiRequest.messages r) "" []) as Hj.
  rewrite E in Hm, He, Hj. cbn in Hm, He, Hj. split; [done|]. split; [|split; [|done]].
  - destruct (decide (s = "")) as [Hs|Hs].
    + split; [intros _; exact (proj2 (proj1 He Hs))|done].
    + split; [done|]. intros Hf. destruct (Hs (proj2 He (conj eq_refl Hf))).
  - intros Hf Hne. specialize (Hj Hf). unfold system_contents in *.
    destruct (map Message.content _) as [|x l] eqn:El; [done|].
    cbn in Hj. apply Forall_cons in Hf as [Hx Hf]. rewrite decide_False; [by rewrite Hj|].
    rewrite Hj. destruct l; [done|]. by destruct x.
Qed.

(** C39: Rewriting an upstream error panics exactly when the body is not an error
    envelope and its text is longer than 512 bytes with the 512th inside a
    character; otherwise it answers. *)
Theorem to_openai_error_panics_iff (body : bytes) :
  to_openai_error body = None ↔
  parsed_error body = None ∧ utf8_valid body = true ∧ 512 < length body ∧
  is_char_boundary body 512 = false.
Proof.
  unfold to_openai_error, error_message.
  destruct (parsed_error body) as [[m k]|] eqn:E; cbn [mbind option_bind]; [by split; [|intros [? _]]|].
  unfold from_utf8. destruct (utf8_valid body) eqn:Eu.
  - rewrite as_of_bytes. case_decide as Hd; cbn [mbind option_bind].
    + unfold slice_to. rewrite as_of_bytes, bool_decide_true by lia. cbn [andb].
      destruct (is_char_boundary body 512); cbn; split; [done|by intros (_&_&_&?)|done|done].
    + split; [done|]. by intros (_ & _ & ? & _).
  - cbn. split; [done|]. by intros (_ & ? & _).
Qed.

(** For a converted response the usage booked by the gateway is the usage
    the client reads back from the body, whenever the body parses back; the total
    shown is the sum of the two reduced to 32 bits, so it is wrong once they add up
    to 2^32 or more. *)
Theorem to_openai_response_usage body created b u r :
  de_anthropic_response body = Ok r →
  to_openai_response body created = Ok (b, u) →
  let doc := openai_document r u created in
  (from_slice b = Ok doc →
   in_u32 (Usage.prompt_tokens u) → in_u32 (Usage.completion_tokens u) →
   parse_openai_usage b = Some u) ∧
  to_vec doc = Ok b ∧
  (get_path ["usage"; "total_tokens"] doc ≫= as_u64)
  = Some ((Usage.prompt_tokens u + Usage.completion_tokens u) mod 4294967296)%Z.
Proof.
  intros Hr. unfold to_openai_response. rewrite Hr. cbn [map_err mbind result_bind].
  set (u0 := match AnthropicResponse.usage r with Some _ => _ | None => _ end).
  destruct (to_vec _) as [b'|] eqn:Et; cbn [map_err]; [|done].
  intros [= <- <-]. cbn zeta. split; [|done].
  set (u := Usage.mk _ _) in *. intros Hs Hp Hc. by rewrite (parse_usage_document _ _ _ _ Hs).
Qed.
End properties.

(** ** Witnesses *)
Definition sample_request : OpenAiRequest.OpenAiRequest :=
  OpenAiRequest.mk [Message.mk "system" "be brief"; Message.mk "user" "hi"] None None.
Definition sample_response : AnthropicResponse.AnthropicResponse :=
  AnthropicResponse.mk "msg_1" "claude" [AnthropicResponse.mkBlock "text" "hello"] None
    (Some (AnthropicResponse.mkUsage 4294967295 1)).
Definition sample_anthropic_serde : AnthropicSerde :=
  {| de_openai_request _ := Ok sample_request;
     de_anthropic_response _ := Ok sample_response;
     ser_anthropic_request _ := Ok [] |}.
(** A JSON layer that knows one document. *)
Definition one_document (v : Value) : SerdeJson :=
  {| from_slice b := match b with [] => Err "EOF" | _ => Ok v end;
     to_vec _ := Ok [Byte.x7b];
     display _ := "{}" |}.

Lemma parse_openai_messages_spec_witness :
  ∃ c, @parse_openai_messages sample_anthropic_serde [] = Ok c ∧
    ChatMessages.messages c = [Message.mk "user" "hi"].
Proof.
  destruct (@parse_openai_messages_spec sample_anthropic_serde [] sample_request eq_refl)
    as (c & Hc & Hm & _).
  exists c. split; [exact Hc|exact Hm].
Defined.

Lemma to_openai_response_usage_witness :
  let u := Usage.mk 4294967295 1 in
  let doc := openai_document sample_response u 0 in
  @parse_openai_usage (one_document doc) [Byte.x7b] = Some u ∧
  (get_path ["usage"; "total_tokens"] doc ≫= as_u64) = Some 0%Z.
Proof.
  destruct (@to_openai_response_usage
    (one_document (openai_document sample_response (Usage.mk 4294967295 1) 0))
    sample_anthropic_serde [] 0 [Byte.x7b] (Usage.mk 4294967295 1) sample_response
    eq_refl eq_refl) as (H1 & _ & H2).
  split; [apply H1; [reflexivity|unfold in_u32, u32_max; cbn; lia..]|exact H2].
Defined.

(** A body of 511 letters and one two-byte character. *)
Example to_openai_error_panic :
  @to_openai_error (one_document Null) (repeat Byte.x61 511 ++ [Byte.xc3; Byte.xa9]) = None.
Proof. vm_compute. reflexivity. Qed.
