(* ===== verification/StreamEnd.v ===== *)
(** * StreamEnd: a translated stream ends, and how much it can say

    Termination of reading an Anthropic stream through the adapter, with a bound on
    its answers by what the upstream sent. *)

From S2P Require Import Prelude Text Float64 Json Events Config Provider Sse Anthropic.
Import Json SseParser AnthropicStreamAdapter.

Section ends.
Context `{SerdeJson}.

Lemma process_length t e : length (AnthropicTransform.process t e).2 ≤ 2.
Proof.
  unfold AnthropicTransform.process, AnthropicTransform.message_start,
    AnthropicTransform.content_block_delta, AnthropicTransform.message_delta.
  repeat case_match; cbn; lia.
Qed.
Lemma process_all_length t es : length (AnthropicTransform.process_all t es).2 ≤ 2 * length es.
Proof.
  revert t. induction es as [|e es IH]; intros t; [done|]. cbn [AnthropicTransform.process_all].
  pose proof (process_length t e) as Hl. destruct (AnthropicTransform.process t e) as [t1 o1].
  specialize (IH t1). destruct (AnthropicTransform.process_all t1 es) as [t2 o2].
  cbn [snd length] in *. rewrite length_app. lia.
Qed.
(** Every event takes the blank line that ends it. *)
Lemma drain_length b : 2 * length (drain b).1 + length (drain b).2 ≤ length b.
Proof.
  induction b as [b E|b e b' E IH] using drain_ind; rewrite drain_eq, E; [done|].
  apply next_event_some in E as [Hl _]. destruct (drain b') as [es b1]. cbn [fst snd length] in *. lia.
Qed.
Lemma ingest_length p t c :
  length (ingest p t c).2 + length (ingest p t c).1.1 ≤ length p + length c.
Proof.
  unfold ingest. pose proof (drain_length (feed p c)) as Hd.
  destruct (drain (feed p c)) as [es p']. pose proof (process_all_length t es) as Hp.
  destruct (AnthropicTransform.process_all t es) as [t' out]. cbn [fst snd] in *.
  unfold feed in Hd. rewrite length_app in Hd. lia.
Qed.

(** What is still to come from the upstream: its polls, and its bytes. *)
Definition sent (p : PollEvent) : nat :=
  match p with PItem (Ok c) => length c | _ => 1 end.
Definition budget (st : AnthropicStreamAdapter) : nat :=
  length (pending st) + length (parser st) + sum_list_with sent (inner st) + 1.
Lemma translate_length i p t ed :
  length (translate i p t ed) ≤ length p + sum_list_with sent i + 1.
Proof.
  revert p t. induction i as [|[|[c|e]] i IH]; intros p t; cbn [translate sum_list_with sent].
  - unfold finish. destruct ed; cbn; lia.
  - cbn. specialize (IH p t). lia.
  - pose proof (ingest_length p t c) as Hi. destruct (ingest p t c) as [[p' t'] out].
    cbn [fst snd] in Hi. specialize (IH p' t'). rewrite length_app. unfold ok_items.
    rewrite length_map. lia.
  - cbn. specialize (IH p t). lia.
Qed.
Lemma boxed_length st : length (boxed st) ≤ budget st.
Proof.
  destruct st as [i p t q ud ed]. unfold boxed, budget. cbn [pending parser inner upstream_done
    emitted_done transform]. rewrite length_app. unfold ok_items. rewrite length_map.
  pose proof (translate_length i p t ed). destruct ud; [|lia].
  unfold finish. destruct ed; cbn; lia.
Qed.

(** [n] polls, their answers, and the adapter they leave. *)
Fixpoint polls (n : nat) (st : AnthropicStreamAdapter)
    : list (Poll (option (result string bytes))) * AnthropicStreamAdapter :=
  match n with
  | O => ([], st)
  | S n =>
      let '(r, st) := poll_next st in
      let '(rs, st) := polls n st in (r :: rs, st)
  end.
(** An answer of a poll, as an event of a stream. *)
Definition event_of (r : Poll (option (result string bytes))) : option PollEvent :=
  match r with
  | Pending => Some PPending
  | Ready (Some i) => Some (PItem i)
  | Ready None => None
  end.
Lemma polls_boxed n st :
  boxed (polls n st).2 = drop n (boxed st) ∧
  (polls n st).1 = map (λ e, (poll_body [e]).1) (take n (boxed st))
                   ++ repeat (Ready None) (n - length (boxed st)).
Proof.
  revert st. induction n as [|n IH]; intros st; cbn [polls]; [done|].
  destruct st as [i p t q ud ed]. pose proof (poll_loop_boxed i p t q ud ed) as Hp.
  change (poll_loop i p t q ud ed) with (poll_next (mk i p t q ud ed)) in Hp.
  set (st := mk i p t q ud ed) in *. destruct (poll_next st) as [r st'].
  destruct (IH st') as [Hb Hr]. destruct (polls n st') as [rs st'']. cbn [fst snd] in *.
  rewrite Hb, Hr. clear Hb Hr IH.
  destruct (boxed st) as [|[|x] l]; cbn [poll_body] in Hp; simplify_eq;
    match goal with E : _ = boxed st' |- _ => rewrite <-E | E : boxed st' = _ |- _ => rewrite E | _ => idtac end.
  all: cbn; rewrite ?drop_nil, ?take_nil, ?Nat.sub_0_r; by split.
Qed.
End ends.

Section properties.
Context `{SerdeJson}.

(** C23: Reading a translated stream terminates. Whatever state an adapter is in and
    whatever its upstream still sends, the client sees the end after at most as
    many polls as there are queued chunks, buffered bytes, bytes and pauses or
    errors still to come from the upstream, and one; from then on every poll
    answers the end again, and no poll before it does. The adapter therefore never
    says more than the upstream sent, plus its terminator. *)
Theorem translated_stream_ends (st : AnthropicStreamAdapter) :
  ∃ n, n ≤ budget st ∧
    (∀ k, (polls (n + k) st).1 = (polls n st).1 ++ repeat (Ready None) k) ∧
    Forall (λ r, r ≠ Ready None) (polls n st).1.
Proof.
  exists (length (boxed st)). split; [apply boxed_length|]. split.
  - intros k. destruct (polls_boxed (length (boxed st) + k) st) as [_ ->].
    destruct (polls_boxed (length (boxed st)) st) as [_ ->].
    rewrite !take_ge by lia. rewrite Nat.sub_diag, app_nil_r. do 2 f_equal. lia.
  - destruct (polls_boxed (length (boxed st)) st) as [_ ->].
    rewrite take_ge, Nat.sub_diag, app_nil_r by lia.
    apply Forall_fmap, Forall_true. by intros [|i].
Qed.
End properties.
