(* ===== verification/StreamObserver.v ===== *)
(** * StreamObserver: usage recorded from a passing stream ([stream_observer.rs]) *)

From S2P Require Import Prelude Text Float64 Json Events Auth Limits Config Provider Sse Anthropic.
Import Json.

Definition parse_chunk_usage `{SerdeJson} (data : string) : option Usage :=
  if decide (trim data = "[DONE]") then None
  else
    value ← result_ok (from_str data);
    usage ← get "usage" value;
    prompt_tokens ← get "prompt_tokens" usage ≫= as_u64;
    completion_tokens ← get "completion_tokens" usage ≫= as_u64;
    Some (Usage.mk (wrap_u32 prompt_tokens) (wrap_u32 completion_tokens)).

Module UsageObservingStream.
Record UsageObservingStream := mk {
  inner : BodyStream;
  parser : SseParser.t;
  pricing : Pricing;
  key_id : string;
  spend_limit : option SpendLimit;
  provider : string;
  model : string;
  found_usage : bool
}.

Definition new (inner : BodyStream) (pricing : Pricing) (key_id : string)
    (spend_limit : option SpendLimit) (provider model : string) : UsageObservingStream :=
  mk inner SseParser.new pricing key_id spend_limit provider model false.

Section observer.
Context `{SerdeJson} `{TimeCrate}.

(** The span and the spend tracker are shared with the rest of the gateway: the
    fields recorded and the tracker are passed through. *)
Definition observe (self : UsageObservingStream) (usage : Usage) (now : Z)
    (tracker : SpendTracker) : SpendTracker * list Effect :=
  let span := [ESpan "gen_ai.usage.input_tokens" (FInt (Usage.prompt_tokens usage));
               ESpan "gen_ai.usage.output_tokens" (FInt (Usage.completion_tokens usage))] in
  match cost.compute (pricing self) (provider self) (model self) usage with
  | Some c =>
      (match spend_limit self with
       | Some limit => SpendTracker.record (key_id self) (period limit) c now tracker
       | None => tracker
       end, span ++ [ESpan "vaultplane.cost_usd" (FF64 c)])
  | None => (tracker, span)
  end.

(** [while let Some(event) = parser.next_event()], left at the first event that
    carries usage. *)
Fixpoint scan (fuel : nat) (p : SseParser.t) : SseParser.t * option Usage :=
  match fuel with
  | O => (p, None)
  | S n =>
      match SseParser.next_event p with
      | (None, p) => (p, None)
      | (Some event, p) =>
          match parse_chunk_usage (SseEvent.data event) with
          | Some usage => (p, Some usage)
          | None => scan n p
          end
      end
  end.

Definition set_inner (i : BodyStream) (p : SseParser.t) (found : bool) (self : UsageObservingStream) :=
  mk i p (pricing self) (key_id self) (spend_limit self) (provider self) (model self) found.

Definition poll_next (self : UsageObservingStream) (now : Z) (tracker : SpendTracker)
    : Poll (option (result string bytes)) * UsageObservingStream * SpendTracker * list Effect :=
  let '(polled, i) := poll_body (inner self) in
  match polled with
  | Ready (Some (Ok chunk)) =>
      if negb (found_usage self) then
        let p := SseParser.feed (parser self) chunk in
        let '(p, usage) := scan (length p) p in
        match usage with
        | Some usage =>
            let '(tracker, eff) := observe self usage now tracker in
            (polled, set_inner i p true self, tracker, eff)
        | None => (polled, set_inner i p false self, tracker, [])
        end
      else (polled, set_inner i (parser self) (found_usage self) self, tracker, [])
  | _ => (polled, set_inner i (parser self) (found_usage self) self, tracker, [])
  end.

(** A client that polls once at each clock reading: the answers, the stream and
    the tracker it leaves, and the span fields recorded. *)
Fixpoint run (self : UsageObservingStream) (nows : list Z) (tracker : SpendTracker)
    : list (Poll (option (result string bytes))) * UsageObservingStream * SpendTracker * list Effect :=
  match nows with
  | [] => ([], self, tracker, [])
  | t :: nows =>
      let '(r, self, tracker, eff) := poll_next self t tracker in
      let '(rs, self, tracker, eff') := run self nows tracker in
      (r :: rs, self, tracker, eff ++ eff')
  end.

(** The same client on the bare stream. *)
Fixpoint run_inner (i : BodyStream) (n : nat) : list (Poll (option (result string bytes))) :=
  match n with
  | O => []
  | S n => let '(r, i) := poll_body i in r :: run_inner i n
  end.

(** The usage the events of a stream carry: the first one that parses. *)
Fixpoint first_usage (events : list SseEvent) : option Usage :=
  match events with
  | [] => None
  | e :: events =>
      match parse_chunk_usage (SseEvent.data e) with
      | Some u => Some u
      | None => first_usage events
      end
  end.
(** The bytes of the items among the first [n] polls. *)
Definition bytes_of (rs : list (Poll (option (result string bytes)))) : bytes :=
  concat (omap (λ r, match r with Ready (Some (Ok b)) => Some b | _ => None end) rs).
End observer.
End UsageObservingStream.

(** ** Lemmas *)
Section lemmas.
Context `{SerdeJson} `{TimeCrate}.
Import UsageObservingStream.

Lemma first_usage_app es es' :
  first_usage (es ++ es') = match first_usage es with Some u => Some u | None => first_usage es' end.
Proof. induction es as [|e es IH]; cbn; [done|]. by destruct (parse_chunk_usage _). Qed.

(** Scanning a buffer finds the first usage among its events, and when there is
    none leaves what draining leaves. *)
Lemma scan_drain n p :
  length p ≤ n →
  (scan n p).2 = first_usage (SseParser.drain p).1 ∧
  ((scan n p).2 = None → (scan n p).1 = (SseParser.drain p).2).
Proof.
  revert p. induction n as [|n IH]; intros p Hn.
  - destruct p; [done|cbn in Hn; lia].
  - cbn. rewrite drain_eq. destruct (SseParser.next_event p) as [[e|] p'] eqn:E; [|done].
    apply next_event_some in E as [Hl _].
    destruct (SseParser.drain p') as [es p''] eqn:Ed. cbn.
    destruct (parse_chunk_usage (SseEvent.data e)); [done|].
    specialize (IH p' ltac:(lia)). by rewrite Ed in IH.
Qed.

(** A poll answers what the inner stream answers. *)
Lemma poll_next_inner self t tracker :
  ∃ st tr eff, poll_next self t tracker = ((poll_body (inner self)).1, st, tr, eff) ∧
    inner st = (poll_body (inner self)).2.
Proof.
  unfold poll_next. destruct (poll_body (inner self)) as [r i].
  destruct r as [|[[b|e]|]]; try by eexists _, _, _.
  destruct (negb (found_usage self)); [|by eexists _, _, _].
  destruct (scan _ _) as [p [u|]]; [|by eexists _, _, _].
  destruct (observe _ _ _ _). by eexists _, _, _.
Qed.
Lemma run_outputs self nows tracker :
  (run self nows tracker).1.1.1 = run_inner (inner self) (length nows).
Proof.
  revert self tracker. induction nows as [|t nows IH]; intros self tracker; [done|]. cbn.
  destruct (poll_next_inner self t tracker) as (st & tr & eff & -> & Hi).
  specialize (IH st tr). rewrite Hi in IH. destruct (poll_body (inner self)) as [r i].
  destruct (run st nows tr) as [[[rs st'] tr'] eff']. cbn in *. by f_equal.
Qed.

(** Once the usage was found nothing more is recorded. *)
Lemma run_found self nows tracker :
  found_usage self = true →
  (run self nows tracker).1.2 = tracker ∧ (run self nows tracker).2 = [].
Proof.
  revert self. induction nows as [|t nows IH]; intros self Hf; [done|]. cbn.
  assert (∃ r st, poll_next self t tracker = (r, st, tracker, []) ∧ found_usage st = true)
    as (r & st & -> & Hst).
  { unfold poll_next. destruct (poll_body (inner self)) as [r i]. rewrite Hf. cbn [negb].
    destruct r as [|[[|]|]]; eauto. }
  specialize (IH st Hst). by destruct (run st nows tracker) as [[[rs st'] tr'] eff'].
Qed.

(** The observer before the usage is found: either some poll finds the first
    usage of the bytes that passed, or none of them carries any. *)
Lemma run_search self nows tracker :
  found_usage self = false → SseParser.next_event (parser self) = (None, parser self) →
  let '(rs, _, tracker', eff) := run self nows tracker in
  match first_usage (SseParser.drain (parser self ++ bytes_of rs)).1 with
  | Some u => ∃ t, t ∈ nows ∧ (tracker', eff) = observe self u t tracker
  | None => tracker' = tracker ∧ eff = []
  end.
Proof.
  revert self tracker. induction nows as [|t nows IH]; intros self tracker Hf Hp.
  - cbn. rewrite app_nil_r, drain_eq, Hp. done.
  - cbn [run]. unfold poll_next. rewrite Hf. cbn [negb].
    destruct (poll_body (inner self)) as [r i].
    assert (∀ p tr, SseParser.next_event p = (None, p) →
      let '(rs, _, tracker', eff) := run (set_inner i p false self) nows tr in
      match first_usage (SseParser.drain (p ++ bytes_of rs)).1 with
      | Some u => ∃ t0, t0 ∈ t :: nows ∧ (tracker', eff) = observe self u t0 tr
      | None => tracker' = tr ∧ eff = []
      end) as Hgo.
    { intros p tr Hn. specialize (IH (set_inner i p false self) tr eq_refl Hn).
      destruct (run (set_inner i p false self) nows tr) as [[[rs st'] tr'] eff'].
      cbn [set_inner parser] in IH. destruct (first_usage _); [|done].
      destruct IH as (t0 & Hin & E). exists t0. split; [by right|done]. }
    assert (∀ r', (∀ b, r' ≠ Ready (Some (Ok b))) → ∀ rs, bytes_of (r' :: rs) = bytes_of rs) as Hb.
    { intros r' Hr rs. unfold bytes_of. cbn. destruct r' as [|[[b|e]|]]; try done.
      by destruct (Hr b). }
    specialize (Hgo (parser self) tracker Hp) as Hsame.
    destruct r as [|[[b|e]|]].
    1,3,4: destruct (run (set_inner i (parser self) false self) nows tracker) as [[[rs st'] tr'] eff'];
      rewrite Hb by done; exact Hsame.
    pose proof (scan_drain (length (SseParser.feed (parser self) b))
      (SseParser.feed (parser self) b) (Nat.le_refl _)) as [Hs1 Hs2].
    destruct (scan _ _) as [p u]. cbn [fst snd] in Hs1, Hs2.
    assert (∀ rs, first_usage (SseParser.drain (parser self ++ bytes_of (Ready (Some (Ok b)) :: rs))).1
      = match u with
        | Some u => Some u
        | None => first_usage (SseParser.drain (p ++ bytes_of rs)).1
        end) as Hfu.
    { intros rs. unfold bytes_of. cbn [omap list_omap concat]. rewrite app_assoc, drain_app.
      change (parser self ++ b) with (SseParser.feed (parser self) b).
      destruct (SseParser.drain (SseParser.feed (parser self) b)) as [es p'].
      cbn in Hs1, Hs2. destruct u as [u|].
      - destruct (SseParser.drain (p' ++ _)). cbn. by rewrite first_usage_app, <-Hs1.
      - rewrite (Hs2 eq_refl). destruct (SseParser.drain (p' ++ _)). cbn.
        by rewrite first_usage_app, <-Hs1. }
    destruct u as [u|].
    + destruct (observe self u t tracker) as [tr1 eff1] eqn:Eo.
      pose proof (run_found (set_inner i p true self) nows tr1 eq_refl) as [Ht He].
      destruct (run (set_inner i p true self) nows tr1) as [[[rs st'] tr'] eff'].
      cbn in Ht, He. subst. rewrite Hfu. exists t. split; [left|]. by rewrite app_nil_r.
    + assert (p = (SseParser.drain (SseParser.feed (parser self) b)).2) as Ep by auto.
      assert (SseParser.next_event p = (None, p)) as Hn.
      { destruct (SseParser.drain (SseParser.feed (parser self) b)) as [es p'] eqn:Ed.
        subst. by apply (drain_stuck _ _ _ Ed). }
      specialize (Hgo p tracker Hn).
      destruct (run (set_inner i p false self) nows tracker) as [[[rs st'] tr'] eff'].
      by rewrite Hfu.
Qed.
End lemmas.

(** The one event of a [data:] chunk. *)
Lemma next_event_data s rest :
  no_nl s = true → utf8_valid (as_bytes s) = true →
  SseParser.next_event (as_bytes ("data: " +:+ s) ++ lf :: lf :: rest)
  = (Some (SseEvent.mk None s), rest).
Proof.
  intros Hn Hu. unfold SseParser.next_event.
  assert (no_nl ("data: " +:+ s) = true) as Hn' by (by rewrite no_nl_app).
  rewrite find_blank_end by (by apply find_blank_line).
  rewrite take_app_length, drop_app_add.
  unfold from_utf8. rewrite as_bytes_app, utf8_valid_app, Hu by done.
  rewrite <-as_bytes_app, of_as_bytes. unfold parse. f_equal. f_equal.
  unfold lines. rewrite split_lines_one by done. done.
Qed.

(** ** Properties *)
Section properties.
Context `{SerdeJson} `{TimeCrate}.
Import UsageObservingStream.

(** C21: The observer is a transparent tee that charges at most once: polled any
    number of times it answers what the bare stream answers; if some event of the
    bytes that passed carries a usage, the first such usage, however the bytes
    were cut into chunks, is recorded on the span and against the key exactly
    once, at one of the polls; otherwise nothing is recorded. *)
Theorem observer_transparent_charges_once inner pricing key limit provider model nows tracker :
  let self := new inner pricing key limit provider model in
  let '(rs, _, tracker', eff) := run self nows tracker in
  rs = run_inner inner (length nows) ∧
  match first_usage (SseParser.drain (bytes_of rs)).1 with
  | Some u =>
      ∃ t, t ∈ nows ∧
        tracker' = match cost.compute pricing provider model u, limit with
                   | Some c, Some l => SpendTracker.record key (period l) c t tracker
                   | _, _ => tracker
                   end ∧
        eff = [ESpan "gen_ai.usage.input_tokens" (FInt (Usage.prompt_tokens u));
               ESpan "gen_ai.usage.output_tokens" (FInt (Usage.completion_tokens u))] ++
              match cost.compute pricing provider model u with
              | Some c => [ESpan "vaultplane.cost_usd" (FF64 c)]
              | None => []
              end
  | None => tracker' = tracker ∧ eff = []
  end.
Proof.
  cbn zeta. set (self := new _ _ _ _ _ _).
  pose proof (run_outputs self nows tracker) as Ho.
  pose proof (run_search self nows tracker eq_refl eq_refl) as Hs.
  destruct (run self nows tracker) as [[[rs st'] tr'] eff]. split; [done|].
  change (SseParser.drain (parser self ++ bytes_of rs)) with (SseParser.drain (bytes_of rs)) in Hs.
  destruct (first_usage _) as [u|]; [|done]. destruct Hs as (t & Hin & E).
  exists t. split; [done|]. unfold observe, self in E. cbn in E.
  destruct (cost.compute pricing provider model u); [destruct limit|]; by injection E as -> ->.
Qed.

(** The usage chunk the Anthropic conversion appends to a stream is one the
    observer understands: its event parses back to the input tokens of the start
    of the message and the output tokens of its end, whenever the JSON layer reads
    back the one-line document it printed. *)
Theorem usage_chunk_observed (t : AnthropicTransform) rest :
  let doc := AnthropicTransform.usage_value t in
  from_str (display doc) = Ok doc → trim (display doc) ≠ "[DONE]" →
  no_nl (display doc) = true → utf8_valid (as_bytes (display doc)) = true →
  in_u32 (AnthropicTransform.input_tokens t) → in_u32 (AnthropicTransform.output_tokens t) →
  ∃ e, SseParser.next_event (AnthropicTransform.usage_chunk t ++ rest) = (Some e, rest) ∧
    parse_chunk_usage (SseEvent.data e)
    = Some (Usage.mk (AnthropicTransform.input_tokens t) (AnthropicTransform.output_tokens t)).
Proof.
  cbn zeta. intros Hs Hd Hn Hu Hi Ho.
  exists (SseEvent.mk None (display (AnthropicTransform.usage_value t))). split.
  - unfold AnthropicTransform.usage_chunk, AnthropicTransform.sse_data. rewrite <-app_assoc.
    by apply next_event_data.
  - unfold parse_chunk_usage. cbn [SseEvent.data]. rewrite decide_False, Hs by done.
    destruct t as [id cr m i o]. cbn in Hi, Ho. cbn [AnthropicTransform.input_tokens
      AnthropicTransform.output_tokens].
    set (us := obj [("prompt_tokens", uint i); ("completion_tokens", uint o);
      ("total_tokens", uint (wrap_u32 (i + o)))]).
    assert (get "usage" (AnthropicTransform.usage_value (AnthropicTransform.mk id cr m i o))
      = Some us) as E1 by done.
    assert (get "prompt_tokens" us = Some (uint i)) as E2 by done.
    assert (get "completion_tokens" us = Some (uint o)) as E3 by done.
    cbn [result_ok mbind option_bind]. rewrite E1. cbn [mbind option_bind].
    rewrite E2, E3. cbn. by rewrite !wrap_u32_id.
Qed.
End properties.

(** ** Witnesses *)
Definition sample_transform : AnthropicTransform := AnthropicTransform.mk "chatcmpl-00" 0 "claude" 12 5.
Lemma usage_chunk_observed_witness :
  let J := one_document (AnthropicTransform.usage_value sample_transform) in
  ∃ e, SseParser.next_event (@AnthropicTransform.usage_chunk J sample_transform ++ []) = (Some e, []) ∧
    @parse_chunk_usage J (SseEvent.data e) = Some (Usage.mk 12 5).
Proof.
  apply (@usage_chunk_observed (one_document (AnthropicTransform.usage_value sample_transform))
    sample_transform []); try reflexivity; try done; unfold in_u32, u32_max; cbn; lia.
Defined.
