(* ===== verification/SigV4.v ===== *)
(** * SigV4: AWS request signing ([provider/sigv4.rs]) *)

From S2P Require Import Prelude Text Auth Sse.
Local Open Scope Z_scope.

(** ** Formatting integers: [{n:0w}] *)
Fixpoint pad (w : nat) (s : string) : string :=
  match w with
  | O => s
  | S w => if (String.length s <=? w)%nat then String "0" (pad w s) else s
  end.
Definition fmt (w : nat) (n : Z) : string := pad w (pretty n).

(** ** The civil calendar *)

(** [i64] division truncates towards zero; the casts to [u32] and [i64] keep
    these small values. *)
Definition civil_from_days (z : Z) : Z * Z * Z :=
  let z := z + 719468 in
  let era := Z.quot (if 0 <=? z then z else z - 146096) 146097 in
  let doe := z - era * 146097 in
  let yoe := Z.quot (doe - Z.quot doe 1460 + Z.quot doe 36524 - Z.quot doe 146096) 365 in
  let year := yoe + era * 400 in
  let doy := doe - (365 * yoe + Z.quot yoe 4 - Z.quot yoe 100) in
  let mp := Z.quot (5 * doy + 2) 153 in
  let day := doy - Z.quot (153 * mp + 2) 5 + 1 in
  let month := if mp <? 10 then mp + 3 else mp - 9 in
  (if month <=? 2 then year + 1 else year, month, day).

Definition format_amz_date (secs : Z) : string * string :=
  let days := secs / 86400 in
  let rem := secs mod 86400 in
  let '(hour, minute, second) := (rem / 3600, rem mod 3600 / 60, rem mod 60) in
  let '(year, month, day) := civil_from_days days in
  (fmt 4 year +:+ fmt 2 month +:+ fmt 2 day +:+ "T" +:+ fmt 2 hour +:+ fmt 2 minute
     +:+ fmt 2 second +:+ "Z",
   fmt 4 year +:+ fmt 2 month +:+ fmt 2 day).

(** ** Percent-encoding *)
Definition unreserved (b : Byte.byte) : bool :=
  let n := Byte.to_N b in
  ((65 <=? n) && (n <=? 90) || (97 <=? n) && (n <=? 122) || (48 <=? n) && (n <=? 57)
   || (n =? 45) || (n =? 95) || (n =? 46) || (n =? 126))%N.

(** An upper-case hexadecimal digit of [{byte:02X}]. *)
Definition hex_digit (n : N) : Ascii.ascii :=
  Ascii.ascii_of_N (if (n <? 10)%N then 48 + n else 55 + n)%N.
Definition percent (b : Byte.byte) : string :=
  let n := Byte.to_N b in
  String "%" (String (hex_digit (n / 16)) (String (hex_digit (n mod 16)) "")).
Fixpoint encode_bytes (l : bytes) : string :=
  match l with
  | [] => ""
  | b :: l =>
      if unreserved b then String (Ascii.ascii_of_byte b) (encode_bytes l)
      else percent b +:+ encode_bytes l
  end.
Definition uri_encode_segment (input : string) : string := encode_bytes (as_bytes input).

(** ** Signing *)
Section signing.
Context `{Crypto}.

Definition sha256_hex (data : bytes) : string := hex_encode (sha256 data).

Definition signing_key (secret date_stamp region service : string) : bytes :=
  let k_date := hmac_sha256 (as_bytes ("AWS4" +:+ secret)) (as_bytes date_stamp) in
  let k_region := hmac_sha256 k_date (as_bytes region) in
  let k_service := hmac_sha256 k_region (as_bytes service) in
  hmac_sha256 k_service (as_bytes "aws4_request").

Definition ln : string := String nl "".

Definition canonical_headers (session_token : option string) (content_type host amz_date : string)
    : string :=
  "content-type:" +:+ content_type +:+ ln +:+ "host:" +:+ host +:+ ln +:+ "x-amz-date:" +:+ amz_date +:+ ln
  +:+ match session_token with
      | Some token => "x-amz-security-token:" +:+ token +:+ ln
      | None => ""
      end.
Definition signed_headers (session_token : option string) : string :=
  "content-type;host;x-amz-date" +:+
  match session_token with Some _ => ";x-amz-security-token" | None => "" end.
Definition canonical_request (session_token : option string)
    (host canonical_path content_type amz_date payload_hash : string) : string :=
  "POST" +:+ ln +:+ canonical_path +:+ ln +:+ ln
  +:+ canonical_headers session_token content_type host amz_date +:+ ln
  +:+ signed_headers session_token +:+ ln +:+ payload_hash.

Definition sign_post (access_key secret_key : string) (session_token : option string)
    (region service host canonical_path content_type : string) (body : bytes)
    (amz_date date_stamp : string) : string :=
  let payload_hash := sha256_hex body in
  let canonical_request :=
    canonical_request session_token host canonical_path content_type amz_date payload_hash in
  let scope := date_stamp +:+ "/" +:+ region +:+ "/" +:+ service +:+ "/aws4_request" in
  let string_to_sign := "AWS4-HMAC-SHA256" +:+ ln +:+ amz_date +:+ ln +:+ scope +:+ ln
    +:+ sha256_hex (as_bytes canonical_request) in
  let key := signing_key secret_key date_stamp region service in
  let signature := hex_encode (hmac_sha256 key (as_bytes string_to_sign)) in
  "AWS4-HMAC-SHA256 Credential=" +:+ access_key +:+ "/" +:+ scope +:+ ", SignedHeaders="
  +:+ signed_headers session_token +:+ ", Signature=" +:+ signature.
End signing.

Example uri_ex : uri_encode_segment "anthropic.claude-3-7-sonnet:0" = "anthropic.claude-3-7-sonnet%3A0".
Proof. vm_compute. reflexivity. Qed.
Example date_ex : format_amz_date 1700000000 = ("20231114T221320Z", "20231114").
Proof. vm_compute. reflexivity. Qed.

(** ** The Gregorian calendar, for the specification *)
Definition leap (y : Z) : bool :=
  (y mod 4 =? 0) && negb (y mod 100 =? 0) || (y mod 400 =? 0).
Definition days_in_month (y m : Z) : Z :=
  if m =? 2 then if leap y then 29 else 28
  else if (m =? 4) || (m =? 6) || (m =? 9) || (m =? 11) then 30 else 31.
Definition next_day (d : Z * Z * Z) : Z * Z * Z :=
  let '(y, m, d) := d in
  if d <? days_in_month y m then (y, m, d + 1)
  else if m <? 12 then (y, m + 1, 1) else (y + 1, 1, 1).
Definition valid_date (d : Z * Z * Z) : Prop :=
  let '(y, m, d) := d in 1 ≤ m ≤ 12 ∧ 1 ≤ d ≤ days_in_month y m.

(** Percent-decoding: [%XY] is the byte with that code. *)
Definition unhex (a : Ascii.ascii) : N :=
  let n := Ascii.N_of_ascii a in if (n <? 58)%N then n - 48 else n - 55.
Fixpoint decode_bytes (s : string) : bytes :=
  match s with
  | EmptyString => []
  | String c (String h (String l s') as s0) =>
      if Ascii.eqb c "%" then
        match Byte.of_N (16 * unhex h + unhex l) with
        | Some b => b :: decode_bytes s'
        | None => Ascii.byte_of_ascii c :: decode_bytes s0
        end
      else Ascii.byte_of_ascii c :: decode_bytes s0
  | String c s0 => Ascii.byte_of_ascii c :: decode_bytes s0
  end.

(** ** Lemmas: the calendar repeats every 400 years *)
Definition shift_years (n : Z) (d : Z * Z * Z) : Z * Z * Z :=
  let '(y, m, d) := d in (y + n, m, d).

(** The date within an era, from the day of the era. *)
Definition civil_in_era (doe : Z) : Z * Z * Z := civil_from_days (doe - 719468).

Lemma civil_era_shift z :
  civil_from_days z
  = shift_years ((z + 719468) / 146097 * 400) (civil_in_era ((z + 719468) mod 146097)).
Proof.
  unfold civil_in_era, civil_from_days.
  set (w := z + 719468). set (r := w mod 146097).
  assert (0 ≤ r < 146097) by (apply Z.mod_pos_bound; lia).
  replace (r - 719468 + 719468) with r by lia.
  assert (Z.quot (if 0 <=? w then w else w - 146096) 146097 = w / 146097) as ->.
  { destruct (Z.leb_spec 0 w); Z.to_euclidean_division_equations; lia. }
  assert (Z.quot (if 0 <=? r then r else r - 146096) 146097 = 0) as ->.
  { destruct (Z.leb_spec 0 r); Z.to_euclidean_division_equations; lia. }
  replace (w - w / 146097 * 146097) with r by (unfold r; rewrite Z.mod_eq by lia; lia).
  replace (r - 0 * 146097) with r by lia. unfold shift_years.
  destruct (_ <=? 2); f_equal; f_equal; lia.
Qed.

Lemma leap_shift n y : n mod 400 = 0 → leap (y + n) = leap y.
Proof.
  intros Hn. unfold leap.
  assert (∃ k, n = 400 * k) as [k ->] by (exists (n / 400); Z.to_euclidean_division_equations; lia).
  replace ((y + 400 * k) mod 4) with (y mod 4) by (Z.to_euclidean_division_equations; lia).
  replace ((y + 400 * k) mod 100) with (y mod 100) by (Z.to_euclidean_division_equations; lia).
  replace ((y + 400 * k) mod 400) with (y mod 400) by (Z.to_euclidean_division_equations; lia).
  done.
Qed.
Lemma next_day_shift n d : n mod 400 = 0 → next_day (shift_years n d) = shift_years n (next_day d).
Proof.
  intros Hn. destruct d as [[y m] d]. cbn.
  pose proof (leap_shift n y Hn) as Hl.
  unfold days_in_month. rewrite Hl.
  repeat case_match; cbn; f_equal; try f_equal; lia.
Qed.

(** Years of an era start in March: the first day of year [y], the year of a day,
    and the date of a day of a year. *)
Definition start (y : Z) : Z := 365 * y + y / 4 - y / 100.
Definition yoe (doe : Z) : Z := (doe - doe / 1460 + doe / 36524 - doe / 146096) / 365.
Definition month_of (doy : Z) : Z :=
  let mp := (5 * doy + 2) / 153 in if mp <? 10 then mp + 3 else mp - 9.
Definition day_of (doy : Z) : Z := doy - (153 * ((5 * doy + 2) / 153) + 2) / 5 + 1.
Definition date (y doy : Z) : Z * Z * Z :=
  (if month_of doy <=? 2 then y + 1 else y, month_of doy, day_of doy).
Definition year_len (y : Z) : Z := if leap (y + 1) then 366 else 365.

Lemma yoe_mono i j : 0 ≤ i ≤ j → yoe i ≤ yoe j.
Proof.
  intros Hij. unfold yoe. apply Z.div_le_mono; [lia|].
  assert (i - i / 1460 ≤ j - j / 1460) by (Z.to_euclidean_division_equations; lia).
  assert (i / 36524 - i / 146096 ≤ j / 36524 - j / 146096); [|lia].
  change 146096 with (36524 * 4). rewrite <-!Z.div_div by lia.
  assert (i / 36524 ≤ j / 36524) by (apply Z.div_le_mono; lia).
  Z.to_euclidean_division_equations; lia.
Qed.

(** A property of the numbers below [n], checked one by one. *)
Definition forall_below (n : nat) (p : Z → bool) : bool := forallb (λ i, p (Z.of_nat i)) (seq 0 n).
Lemma forall_below_spec n p : forall_below n p = true → ∀ i, 0 ≤ i < Z.of_nat n → p i = true.
Proof.
  unfold forall_below. rewrite forallb_forall. intros H i Hi.
  specialize (H (Z.to_nat i)). rewrite Z2Nat.id in H by lia. apply H, in_seq. lia.
Qed.

Lemma years_checked :
  forall_below 400 (λ y, (yoe (start y) =? y) && (yoe (start y + year_len y - 1) =? y) &&
    ((start (y + 1) =? start y + year_len y) || (y =? 399))) = true.
Proof. vm_compute. reflexivity. Qed.
Lemma year_facts y : 0 ≤ y < 400 →
  yoe (start y) = y ∧ yoe (start y + year_len y - 1) = y ∧
  (start (y + 1) = start y + year_len y ∨ y = 399).
Proof.
  intros Hy. pose proof (forall_below_spec _ _ years_checked y ltac:(lia)) as H. cbn beta in H.
  rewrite !andb_true_iff, orb_true_iff, !Z.eqb_eq in H. tauto.
Qed.

(** The day of the year lies within the year. *)
Lemma yoe_bracket i : 0 ≤ i < 146097 →
  0 ≤ yoe i < 400 ∧ start (yoe i) ≤ i < start (yoe i) + year_len (yoe i).
Proof.
  intros Hi. assert (0 ≤ yoe i < 400) as Hy.
  { pose proof (yoe_mono 0 i ltac:(lia)) as H1. pose proof (yoe_mono i 146096 ltac:(lia)) as H2.
    change (yoe 0) with 0 in H1. change (yoe 146096) with 399 in H2. lia. }
  split; [done|]. set (y := yoe i) in *.
  destruct (year_facts y Hy) as (H1 & H2 & H3). split.
  - apply Z.nlt_ge. intros Hlt. assert (0 < y).
    { destruct (decide (y = 0)) as [E|]; [rewrite E in Hlt; change (start 0) with 0 in Hlt; lia|lia]. }
    destruct (year_facts (y - 1) ltac:(lia)) as (_ & Hp & [He|He]); [|lia].
    replace (y - 1 + 1) with y in He by lia. rewrite <-He in Hp.
    pose proof (yoe_mono i (start y - 1) ltac:(lia)) as Hm. fold y in Hm. lia.
  - apply Z.nle_gt. intros Hge. destruct H3 as [He|He].
    + destruct (decide (y = 399)) as [E|].
      { rewrite E in He. vm_compute in He. done. }
      destruct (year_facts (y + 1) ltac:(lia)) as (Hn & _ & _).
      assert (0 ≤ start y) by (unfold start; Z.to_euclidean_division_equations; lia).
      assert (0 ≤ year_len y) by (unfold year_len; case_match; lia).
      pose proof (yoe_mono (start (y + 1)) i ltac:(lia)) as Hm. fold y in Hm. lia.
    + rewrite He in Hge. change (start 399 + year_len 399) with 146097 in Hge. lia.
Qed.

Lemma days_checked :
  forall_below 365 (λ doy,
    (month_of doy =? month_of (doy + 1)) && (day_of (doy + 1) =? day_of doy + 1) &&
      ((day_of doy <? (if month_of doy =? 2 then 28 else days_in_month 0 (month_of doy)))
       || (doy =? 364))
    || negb (month_of doy =? 2) && (day_of doy =? days_in_month 0 (month_of doy)) &&
       (day_of (doy + 1) =? 1) &&
       (if month_of doy =? 12 then month_of (doy + 1) =? 1
        else (month_of (doy + 1) =? month_of doy + 1) && (month_of doy <? 12) &&
             Bool.eqb (month_of doy <=? 2) (month_of (doy + 1) <=? 2))) = true.
Proof. vm_compute. reflexivity. Qed.

Lemma days_in_month_2 y m : m ≠ 2 → days_in_month y m = days_in_month 0 m.
Proof. intros. unfold days_in_month. by rewrite (proj2 (Z.eqb_neq m 2)). Qed.

Lemma date_step y doy : 0 ≤ doy → doy + 1 < year_len y → next_day (date y doy) = date y (doy + 1).
Proof.
  intros H0 H1. assert (doy < 365) by (unfold year_len in H1; case_match; lia).
  pose proof (forall_below_spec _ _ days_checked doy ltac:(lia)) as H2. cbn beta in H2.
  unfold date, next_day. rewrite orb_true_iff, !andb_true_iff, orb_true_iff, !Z.eqb_eq, Z.ltb_lt,
    negb_true_iff, Z.eqb_neq in H2.
  destruct H2 as [[[Hm Hd] Hl]|[[[Hm Hd] H1'] Hn]].
  - rewrite <-Hm, Hd. destruct (decide (doy = 364)) as [->|Hne].
    + change (month_of 364) with 2. change (day_of 364) with 28. cbn.
      unfold year_len in H1. unfold days_in_month. cbn. by destruct (leap (y + 1)).
    + destruct Hl as [Hl|Hl]; [|lia].
      assert ((day_of doy <? days_in_month (if month_of doy <=? 2 then y + 1 else y) (month_of doy)) = true) as ->; [|done].
      apply Z.ltb_lt. destruct (Z.eqb_spec (month_of doy) 2) as [E|E].
      * rewrite E. unfold days_in_month. cbn. case_match; lia.
      * by rewrite days_in_month_2.
  - rewrite (days_in_month_2 _ _ Hm), <-Hd, Z.ltb_irrefl.
    destruct (Z.eqb_spec (month_of doy) 12) as [E|E].
    + apply Z.eqb_eq in Hn. rewrite E, Hn, H1'. done.
    + rewrite !andb_true_iff, Z.eqb_eq in Hn. destruct Hn as [[Hn Hlt] He%eqb_prop].
      rewrite Hlt, <-He, Hn, H1'. done.
Qed.
Lemma date_last y : next_day (date y (year_len y - 1)) = date (y + 1) 0.
Proof.
  unfold year_len. destruct (leap (y + 1)) eqn:E.
  - change (date y (366 - 1)) with (y + 1, 2, 29). cbn. unfold days_in_month. cbn. by rewrite E.
  - change (date y (365 - 1)) with (y + 1, 2, 28). cbn. unfold days_in_month. cbn. by rewrite E.
Qed.

Lemma civil_in_era_date i : 0 ≤ i < 146097 → civil_in_era i = date (yoe i) (i - start (yoe i)).
Proof.
  intros Hi. destruct (yoe_bracket i Hi) as [Hy Hb]. unfold civil_in_era, civil_from_days.
  replace (i - 719468 + 719468) with i by lia.
  assert (Z.quot (if 0 <=? i then i else i - 146096) 146097 = 0) as ->.
  { destruct (Z.leb_spec 0 i); Z.to_euclidean_division_equations; lia. }
  replace (i - 0 * 146097) with i by lia.
  assert (0 ≤ i - i / 1460 + i / 36524 - i / 146096) as Hg.
  { Z.to_euclidean_division_equations; lia. }
  rewrite !(Z.quot_div_nonneg i) by lia. rewrite (Z.quot_div_nonneg (_ - _)) by lia.
  fold (yoe i). rewrite !(Z.quot_div_nonneg (yoe i)) by lia. fold (start (yoe i)).
  set (doy := i - start (yoe i)) in *. assert (0 ≤ doy) by (unfold doy; lia).
  rewrite !Z.quot_div_nonneg by (Z.to_euclidean_division_equations; lia).
  unfold date, month_of, day_of. by rewrite Z.add_0_r.
Qed.

Lemma civil_in_era_next i : 0 ≤ i < 146096 → civil_in_era (i + 1) = next_day (civil_in_era i).
Proof.
  intros Hi. rewrite !civil_in_era_date by lia.
  destruct (yoe_bracket i ltac:(lia)) as [Hy Hb].
  destruct (yoe_bracket (i + 1) ltac:(lia)) as [Hy' Hb'].
  destruct (decide (i + 1 < start (yoe i) + year_len (yoe i))) as [Hin|Hout].
  - assert (yoe (i + 1) = yoe i) as ->.
    { destruct (year_facts (yoe i) Hy) as (_ & Hl & _).
      assert (0 ≤ start (yoe i)) by (unfold start; Z.to_euclidean_division_equations; lia).
      pose proof (yoe_mono i (i + 1) ltac:(lia)).
      pose proof (yoe_mono (i + 1) (start (yoe i) + year_len (yoe i) - 1) ltac:(lia)). lia. }
    replace (i + 1 - start (yoe i)) with (i - start (yoe i) + 1) by lia.
    symmetry. apply date_step; lia.
  - destruct (year_facts (yoe i) Hy) as (_ & _ & [Hs|He]).
    + assert (i + 1 = start (yoe i + 1)) as Ei by lia.
      assert (yoe i + 1 < 400).
      { destruct (decide (yoe i = 399)) as [E|]; [|lia]. rewrite E in Hs. by vm_compute in Hs. }
      destruct (year_facts (yoe i + 1) ltac:(lia)) as (Hf & _ & _).
      rewrite Ei, Hf, Z.sub_diag, <-date_last. do 2 f_equal. lia.
    + rewrite He in Hout. change (start 399 + year_len 399) with 146097 in Hout. lia.
Qed.

Lemma valid_shift n d : n mod 400 = 0 → valid_date d → valid_date (shift_years n d).
Proof.
  intros Hn. destruct d as [[y m] d]. cbn. unfold days_in_month.
  by rewrite leap_shift.
Qed.
Lemma valid_checked :
  forall_below 366 (λ doy, (1 <=? month_of doy) && (month_of doy <=? 12) && (1 <=? day_of doy) &&
    ((day_of doy <=? (if month_of doy =? 2 then 28 else days_in_month 0 (month_of doy)))
     || (doy =? 365))) = true.
Proof. vm_compute. reflexivity. Qed.
Lemma valid_date_of y doy : 0 ≤ doy < year_len y → valid_date (date y doy).
Proof.
  intros H. assert (doy < 366) by (unfold year_len in H; case_match; lia).
  pose proof (forall_below_spec _ _ valid_checked doy ltac:(lia)) as H2. cbn beta in H2.
  rewrite !andb_true_iff, orb_true_iff, !Z.leb_le, Z.eqb_eq in H2. unfold date, valid_date.
  destruct H2 as [[[? ?] ?] Hl]. split; [lia|]. split; [lia|].
  destruct (decide (doy = 365)) as [->|].
  - change (month_of 365) with 2. change (day_of 365) with 29. cbn. unfold days_in_month. cbn.
    unfold year_len in H. case_match; lia.
  - destruct Hl as [Hl|Hl]; [|lia]. destruct (Z.eqb_spec (month_of doy) 2) as [E|E].
    + rewrite E. unfold days_in_month. cbn. case_match; lia.
    + by rewrite days_in_month_2.
Qed.

(** ** Lemmas: percent-encoding *)
Lemma byte_facts :
  forallb (λ n, match Byte.of_N (N.of_nat n) with
    | Some b =>
        (negb (unreserved b) || negb (Ascii.eqb (Ascii.ascii_of_byte b) "%")) &&
        match Byte.of_N (16 * unhex (hex_digit (Byte.to_N b / 16)) + unhex (hex_digit (Byte.to_N b mod 16))) with
        | Some b' => Byte.eqb b' b
        | None => false
        end &&
        unreserved (Ascii.byte_of_ascii (hex_digit (Byte.to_N b / 16))) &&
        unreserved (Ascii.byte_of_ascii (hex_digit (Byte.to_N b mod 16)))
    | None => false
    end) (seq 0 256) = true.
Proof. vm_compute. reflexivity. Qed.
Lemma byte_fact b :
  (unreserved b = true → Ascii.eqb (Ascii.ascii_of_byte b) "%" = false) ∧
  Byte.of_N (16 * unhex (hex_digit (Byte.to_N b / 16)) + unhex (hex_digit (Byte.to_N b mod 16))) = Some b ∧
  unreserved (Ascii.byte_of_ascii (hex_digit (Byte.to_N b / 16))) = true ∧
  unreserved (Ascii.byte_of_ascii (hex_digit (Byte.to_N b mod 16))) = true.
Proof.
  pose proof byte_facts as H. rewrite forallb_forall in H.
  specialize (H (N.to_nat (Byte.to_N b))). rewrite N2Nat.id, Byte.of_to_N in H.
  pose proof (Byte.to_N_bounded b).
  assert (In (N.to_nat (Byte.to_N b)) (seq 0 256)) as Hin by (apply in_seq; lia).
  specialize (H Hin). rewrite !andb_true_iff in H. destruct H as [[[H1 H2] H3] H4].
  split_and!; try done.
  - intros Hu. rewrite Hu in H1. by destruct (Ascii.eqb _ _).
  - destruct (Byte.of_N (16 * _ + _)) as [b'|]; [|done]. apply Byte.byte_dec_bl in H2. by subst.
Qed.

Lemma decode_encode l : decode_bytes (encode_bytes l) = l.
Proof.
  induction l as [|b l IH]; [done|]. cbn [encode_bytes].
  destruct (byte_fact b) as (Hp & Hd & _ & _). destruct (unreserved b).
  - specialize (Hp eq_refl). cbn [decode_bytes]. rewrite Hp.
    destruct (encode_bytes l) as [|h [|h' s]] eqn:E; cbn in IH |- *;
      rewrite Ascii.byte_of_ascii_of_byte; by rewrite <-IH.
  - change (percent b +:+ encode_bytes l) with (String "%" (String (hex_digit (Byte.to_N b / 16))
      (String (hex_digit (Byte.to_N b mod 16)) (encode_bytes l)))).
    cbn [decode_bytes]. change (Ascii.eqb "%" "%") with true. cbv iota. by rewrite Hd, IH.
Qed.

(** ** Properties *)

(** C33: The signing date is the Gregorian calendar's: day 0 is 1 January 1970,
    and each following day, and each preceding one, is the next, respectively the
    previous, valid date, leap years included. *)
Theorem civil_from_days_gregorian z :
  civil_from_days 0 = (1970, 1, 1) ∧
  civil_from_days (z + 1) = next_day (civil_from_days z) ∧
  valid_date (civil_from_days z).
Proof.
  split; [done|]. assert (0 ≤ (z + 719468) mod 146097 < 146097) as Hr by (apply Z.mod_pos_bound; lia).
  split.
  - rewrite (civil_era_shift z), next_day_shift by (apply Z.mod_mul; lia).
    destruct (decide ((z + 719468) mod 146097 = 146096)) as [E|Hne].
    + rewrite (civil_era_shift (z + 1)), E.
      assert ((z + 1 + 719468) mod 146097 = 0) as -> by (Z.to_euclidean_division_equations; lia).
      assert ((z + 1 + 719468) / 146097 = (z + 719468) / 146097 + 1) as ->
        by (Z.to_euclidean_division_equations; lia).
      change (next_day (civil_in_era 146096)) with (shift_years 400 (civil_in_era 0)).
      cbn. f_equal. f_equal. lia.
    + rewrite (civil_era_shift (z + 1)).
      assert ((z + 1 + 719468) mod 146097 = (z + 719468) mod 146097 + 1) as ->
        by (Z.to_euclidean_division_equations; lia).
      assert ((z + 1 + 719468) / 146097 = (z + 719468) / 146097) as ->
        by (Z.to_euclidean_division_equations; lia).
      by rewrite civil_in_era_next by lia.
  - rewrite civil_era_shift. apply valid_shift; [apply Z.mod_mul; lia|].
    rewrite civil_in_era_date by done. destruct (yoe_bracket _ Hr) as [_ Hb].
    apply valid_date_of; lia.
Qed.

(** Percent-encoding a path segment loses nothing and leaves nothing unsafe:
    decoding gives the bytes back, so two models never share a path, and every
    character of the result is unreserved or the percent sign. *)
Theorem uri_encode_roundtrip (s t : string) :
  of_bytes (decode_bytes (uri_encode_segment s)) = s ∧
  (uri_encode_segment s = uri_encode_segment t → s = t) ∧
  Forall (λ b, unreserved b = true ∨ b = Byte.x25) (as_bytes (uri_encode_segment s)).
Proof.
  assert (∀ s, of_bytes (decode_bytes (uri_encode_segment s)) = s) as Hd.
  { intros u. unfold uri_encode_segment. by rewrite decode_encode, of_as_bytes. }
  split; [apply Hd|]. split; [intros E; by rewrite <-(Hd s), <-(Hd t), E|].
  unfold uri_encode_segment. induction (as_bytes s) as [|b l IH]; [constructor|].
  cbn [encode_bytes]. destruct (byte_fact b) as (_ & _ & H1 & H2).
  destruct (unreserved b) eqn:Eu.
  - rewrite as_bytes_cons, Ascii.byte_of_ascii_of_byte. constructor; [by left|done].
  - change (percent b +:+ encode_bytes l) with (String "%" (String (hex_digit (Byte.to_N b / 16))
      (String (hex_digit (Byte.to_N b mod 16)) (encode_bytes l)))).
    rewrite !as_bytes_cons. constructor; [by right|]. repeat (constructor; [by left|]). done.
Qed.
