(* ===== verification/Bedrock.v ===== *)
(** * Bedrock: the AWS Bedrock connector for Anthropic models ([provider/bedrock.rs]) *)

From S2P Require Import Prelude Text Float64 Json Events Auth Config Provider OpenAi Sse Anthropic SigV4.
Import Json.

Definition SERVICE : string := "bedrock".
Definition BEDROCK_ANTHROPIC_VERSION : string := "bedrock-2023-05-31".

Module BedrockRequest.
Record BedrockRequest := mk {
  anthropic_version : string;
  messages : list Message;
  max_tokens : Z;
  system : option string;
  temperature : option f64
}.
End BedrockRequest.

(** The derived serialiser. *)
Class BedrockSerde := {
  ser_bedrock_request : BedrockRequest.BedrockRequest → result string bytes
}.

Module BedrockConnector.
Section bedrock.
Context `{Reqwest} `{SerdeJson} `{AnthropicSerde} `{BedrockSerde} `{Crypto}.

Record BedrockConnector := mk {
  endpoint : string;
  host : string;
  region : string;
  access_key : string;
  secret_key : string;
  session_token : option string
}.

Definition build (endpoint region access_key secret_key : string) (session_token : option string)
    : result Error.Error BedrockConnector :=
  _ ← map_err (λ e, Error.Provider ("failed to build HTTP client: " +:+ e)) client_build;
  let host :=
    match strip_prefix "https://" endpoint with
    | Some h => h
    | None => match strip_prefix "http://" endpoint with Some h => h | None => endpoint end
    end in
  Ok (mk endpoint host region access_key secret_key session_token).
Definition new (region access_key secret_key : string) (session_token : option string)
    : result Error.Error BedrockConnector :=
  build ("https://bedrock-runtime." +:+ region +:+ ".amazonaws.com") region access_key secret_key
    session_token.

(** Streaming is refused before anything is sent. *)
Definition not_supported (model : string) : ChatResponse :=
  let body := obj [("error", obj [("message",
    Str "streaming is not yet supported for the Bedrock provider")])] in
  ChatResponse.mk 501 (Some "application/json")
    (single_chunk (match to_vec body with Ok b => b | Err _ => [] end))
    "bedrock" model None 1.

Definition payload (request : ChatRequest) : result Error.Error bytes :=
  parts ← parse_openai_messages (ChatRequest.body request);
  map_err (λ e, Error.Provider ("failed to encode request: " +:+ e))
    (ser_bedrock_request (BedrockRequest.mk BEDROCK_ANTHROPIC_VERSION
      (ChatMessages.messages parts) (ChatMessages.max_tokens parts) (ChatMessages.system parts)
      (ChatMessages.temperature parts))).

Definition path (model : string) : string := "/model/" +:+ uri_encode_segment model +:+ "/invoke".
Definition authorization (self : BedrockConnector) (model : string) (payload : bytes)
    (amz_date date_stamp : string) : string :=
  sign_post (access_key self) (secret_key self) (session_token self) (region self) SERVICE
    (host self) (path model) "application/json" payload amz_date date_stamp.
Definition post (self : BedrockConnector) (model : string) (payload : bytes)
    (amz_date date_stamp : string) : Http.Request :=
  Http.mkRequest "POST" (endpoint self +:+ path model)
    ([("content-type", "application/json"); ("x-amz-date", amz_date);
      ("authorization", authorization self model payload amz_date date_stamp)] ++
     match session_token self with
     | Some token => [("x-amz-security-token", token)]
     | None => []
     end) payload None.

(** The buffered answer: the converted document, or the upstream's own body. *)
Definition buffered (response : Http.Response) (model : string)
    : W (result Error.Error ChatResponse) :=
  upstream_body ← http_bytes response;
  created ← epoch_seconds;
  mret (upstream_body ← map_err
          (λ e, Error.Provider ("reading Bedrock response failed: " +:+ e)) upstream_body;
        '(body, usage) ←
          (if decide (Http.status response = 200%Z) then
             '(encoded, usage) ← to_openai_response upstream_body created;
             Ok (encoded, Some usage)
           else Ok (upstream_body, None));
        Ok (ChatResponse.mk (Http.status response) (Some "application/json")
              (single_chunk body) "bedrock" model usage 1)).

Definition chat (self : BedrockConnector) (request : ChatRequest)
    : W (result Error.Error ChatResponse) :=
  let model := ChatRequest.model request in
  if ChatRequest.stream request then mret (Ok (not_supported model))
  else
    match payload request with
    | Err e => mret (Err e)
    | Ok payload =>
        secs ← epoch_seconds;
        let '(amz_date, date_stamp) := format_amz_date secs in
        response ← http_send (post self model payload amz_date date_stamp);
        match map_err (λ e, Error.Provider ("request to Bedrock failed: " +:+ e)) response with
        | Err e => mret (Err e)
        | Ok response => buffered response model
        end
    end.

Definition reachable (self : BedrockConnector) : W bool := http_reachable (endpoint self).

Definition connector (self : BedrockConnector) : Connector :=
  mkConnector "bedrock" (λ q, Some <$> chat self q) (embeddings_unsupported "bedrock")
    (reachable self).
End bedrock.
End BedrockConnector.

(** ** Lemmas: what was signed *)

(** The value of a header of a request. *)
Definition sent (name : string) (r : Http.Request) : option string :=
  snd <$> find_first (λ h, bool_decide (h.1 = name)) (Http.headers r).

Section properties.
Context `{Reqwest} `{SerdeJson} `{AnthropicSerde} `{BedrockSerde} `{Crypto}.
Import BedrockConnector.

(** The canonical request of the algorithm, line by line. *)
Definition canonical_lines (host path date payload_hash : string) (token : option string) : list string :=
  ["POST"; path; ""; "content-type:application/json"; "host:" +:+ host; "x-amz-date:" +:+ date]
  ++ match token with Some t => ["x-amz-security-token:" +:+ t] | None => [] end
  ++ [""; "content-type;host;x-amz-date" +:+ match token with Some _ => ";x-amz-security-token" | None => "" end;
      payload_hash].
Lemma canonical_request_lines token host path date hash :
  canonical_request token host path "application/json" date hash
  = String.concat ln (canonical_lines host path date hash token).
Proof.
  unfold canonical_request, canonical_headers, signed_headers, canonical_lines.
  destruct token as [t|]; cbn [app String.concat]; by rewrite !string_app_assoc.
Qed.
Lemma format_amz_date_day secs :
  ∃ time, (format_amz_date secs).1 = (format_amz_date secs).2 +:+ "T" +:+ time.
Proof.
  unfold format_amz_date. destruct (civil_from_days _) as [[y m] d]. cbn [fst snd].
  eexists. rewrite !string_app_assoc. done.
Qed.

(** C32: What Bedrock is asked is what was signed. A chat of a connector built for a
    region and credentials makes one request, a [POST] of the translated body to that
    region's host, and its authorization is the signature, under those credentials and
    for that region, of the lines of exactly this request: its path, its host, its
    content type, its date header, its session token header when there are session
    credentials, and the hash of its body. The path is signed as it is sent, encoded once. The date is the clock's when the request is
    made, and the day in the credential scope and in the signing key is the day of that
    date. *)
Theorem bedrock_signature_covers_request region access_key secret_key session_token self q p w :
  new region access_key secret_key session_token = Ok self →
  ChatRequest.stream q = false → payload q = Ok p →
  let host := "bedrock-runtime." +:+ region +:+ ".amazonaws.com" in
  let path := "/model/" +:+ uri_encode_segment (ChatRequest.model q) +:+ "/invoke" in
  let '(date, day) := format_amz_date (Z.max 0 (w_now w / 1000000000)) in
  let scope := day +:+ "/" +:+ region +:+ "/bedrock/aws4_request" in
  ∃ r, w_net (chat self q w).2 = (send r (w_net w)).1.2 ∧
    Http.method r = "POST" ∧ Http.url r = "https://" +:+ host +:+ path ∧ Http.body r = p ∧
    sent "content-type" r = Some "application/json" ∧ sent "x-amz-date" r = Some date ∧
    sent "x-amz-security-token" r = session_token ∧ (∃ time, date = day +:+ "T" +:+ time) ∧
    sent "authorization" r = Some ("AWS4-HMAC-SHA256 Credential=" +:+ access_key +:+ "/" +:+ scope
      +:+ ", SignedHeaders=content-type;host;x-amz-date"
      +:+ match session_token with Some _ => ";x-amz-security-token" | None => "" end
      +:+ ", Signature="
      +:+ hex_encode (hmac_sha256 (signing_key secret_key day region "bedrock")
            (as_bytes (String.concat ln ["AWS4-HMAC-SHA256"; date; scope;
               sha256_hex (as_bytes (String.concat ln
                 (canonical_lines host path date (sha256_hex p) session_token)))])))).
Proof.
  intros Hn Hs Hp host pth. pose proof (format_amz_date_day (Z.max 0 (w_now w / 1000000000))) as Hday.
  destruct (format_amz_date _) as [date day] eqn:Ef. cbn [fst snd] in Hday. intros scope.
  unfold new, build in Hn.
  change ("https://bedrock-runtime." +:+ region +:+ ".amazonaws.com") with ("https://" +:+ host) in Hn.
  rewrite strip_prefix_app in Hn.
  destruct client_build; cbn [map_err mbind result_bind] in Hn; [|done]. injection Hn as <-.
  set (self := mk _ _ _ _ _ _). exists (post self (ChatRequest.model q) p date day). split_and!; try done.
  - unfold chat. rewrite Hs, Hp, M_bind_eq. unfold epoch_seconds, eval, exec, gets. cbn [fst snd].
    rewrite Ef, M_bind_eq. unfold http_send, eval, exec.
    destruct (send _ (w_net w)) as [[[resp|e] net] t]; cbn [fst snd map_err]; [|done].
    unfold buffered. rewrite M_bind_eq. unfold http_bytes, eval, exec. rewrite M_bind_eq.
    unfold elapse, modify. rewrite M_bind_eq. done.
  - by destruct session_token.
  - unfold sent, post, authorization, sign_post. cbn [Http.headers find_first fst snd self
      BedrockConnector.access_key BedrockConnector.secret_key BedrockConnector.session_token
      BedrockConnector.region BedrockConnector.host BedrockConnector.endpoint].
    rewrite canonical_request_lines. fold pth. cbn [String.concat]. unfold signed_headers.
    do 3 f_equal.
Qed.

(** A streamed request never reaches the network: it is answered 501 without
    a call; every other request makes one call at most, and an upstream error
    body is passed on as it came. *)
Theorem bedrock_chat_behaviour (self : BedrockConnector) (q : ChatRequest) (w : World) :
  (ChatRequest.stream q = true →
   chat self q w = (Ok (not_supported (ChatRequest.model q)), w)) ∧
  (ChatRequest.stream q = false → ∀ p r net n,
   payload q = Ok p →
   let '(amz_date, date_stamp) := format_amz_date (Z.max 0 (w_now w / 1000000000)) in
   send (post self (ChatRequest.model q) p amz_date date_stamp) (w_net w) = (Ok r, net, n) →
   Http.status r ≠ 200%Z → ∀ b, concat_chunks (Http.chunks r) = Ok b →
   (chat self q w).1 = Ok (ChatResponse.mk (Http.status r) (Some "application/json")
     (single_chunk b) "bedrock" (ChatRequest.model q) None 1) ∧
   w_net (chat self q w).2 = net ∧ w_trace (chat self q w).2 = w_trace w).
Proof.
  split; [intros Hs; unfold chat; by rewrite Hs|]. intros Hs p r net n Hp.
  destruct (format_amz_date _) as [amz_date date_stamp] eqn:Ef. intros Hsend Hst b Hb.
  unfold chat. rewrite Hs, Hp, M_bind_eq. unfold epoch_seconds, eval, exec, gets. cbn [fst snd].
  rewrite Ef, M_bind_eq. unfold http_send, eval, exec. rewrite Hsend. cbn [fst snd map_err].
  unfold buffered. rewrite M_bind_eq. unfold http_bytes, eval, exec. rewrite M_bind_eq.
  unfold elapse, modify. rewrite M_bind_eq. unfold epoch_seconds, gets, eval, exec, mret, M_ret.
  rewrite Hb. cbn [fst snd map_err mbind result_bind w_net w_trace].
  by rewrite decide_False by done.
Qed.
End properties.

(** For concrete inputs. *)
Definition sample_bedrock_serde : BedrockSerde := {| ser_bedrock_request _ := Ok [] |}.
Lemma bedrock_signature_covers_request_witness :
  ∃ self r, @BedrockConnector.new sample_reqwest "eu-west-1" "AKID" "secret" (Some "session") = Ok self ∧
    w_net (@BedrockConnector.chat sample_reqwest (one_document Null) sample_anthropic_serde
             sample_bedrock_serde sample_crypto self (ChatRequest.mk "claude:0" false []) sample_world).2
    = (@send sample_reqwest r (w_net sample_world)).1.2 ∧
    Http.url r = "https://bedrock-runtime.eu-west-1.amazonaws.com/model/claude%3A0/invoke" ∧
    sent "x-amz-security-token" r = Some "session".
Proof.
  destruct (@bedrock_signature_covers_request sample_reqwest (one_document Null) sample_anthropic_serde
    sample_bedrock_serde sample_crypto "eu-west-1" "AKID" "secret" (Some "session") _
    (ChatRequest.mk "claude:0" false []) _ sample_world eq_refl eq_refl eq_refl)
    as (r & Hn & _ & Hu & _ & _ & _ & Ht & _).
  eexists _, r. split; [reflexivity|]. split; [exact Hn|]. split; [exact Hu|exact Ht].
Defined.
