(* ===== verification/Registry.v ===== *)
(** * Registry: virtual models with provider failover ([provider/registry.rs]) *)

From S2P Require Import Prelude Text Float64 Json Events Config Provider.

Module Registry.
Section registry.
Context `{Reqwest} `{HashOrder}.

Record ResolvedRoute := mkRoute { connector : Connector; model : string }.
(** [timeout] in nanoseconds. *)
Record ResolvedModel := mkModel {
  routes : list ResolvedRoute;
  retry_on : gset Z;
  timeout : Z
}.
Record Registry := mk {
  connectors : gmap string Connector;
  models : gmap string ResolvedModel
}.

Definition unknown_provider (model provider : string) : Error.Error :=
  Error.Config ("model '" +:+ model +:+ "' references unknown provider '" +:+ provider +:+ "'").

(** The inner loop: the primary route and the fallbacks, in order. *)
Fixpoint resolve_routes (connectors : gmap string Connector) (name : string) (rs : list Route)
    : result Error.Error (list ResolvedRoute) :=
  match rs with
  | [] => Ok []
  | route :: rs =>
      c ← ok_or (unknown_provider name (Route.provider route)) (connectors !! Route.provider route);
      routes ← resolve_routes connectors name rs;
      Ok (mkRoute c (Route.model route) :: routes)
  end.
Definition resolve (connectors : gmap string Connector) (m : ModelConfig)
    : result Error.Error ResolvedModel :=
  routes ← resolve_routes connectors (ModelConfig.name m)
             (ModelConfig.primary m :: ModelConfig.fallbacks m);
  Ok (mkModel routes (list_to_set (ModelConfig.retry_on m)) (ModelConfig.timeout_ms m * 1000000)%Z).
Fixpoint resolve_all (connectors : gmap string Connector) (ms : list ModelConfig)
    (resolved : gmap string ResolvedModel) : result Error.Error (gmap string ResolvedModel) :=
  match ms with
  | [] => Ok resolved
  | m :: ms =>
      r ← resolve connectors m;
      resolve_all connectors ms (<[ModelConfig.name m := r]> resolved)
  end.
Definition new (connectors : gmap string Connector) (ms : list ModelConfig)
    : result Error.Error Registry :=
  resolved ← resolve_all connectors ms ∅;
  Ok (mk connectors resolved).

Definition fallback_connector (self : Registry) (model : string) : option Connector :=
  connectors self !! (if starts_with "claude" model then "anthropic" else "openai").

Definition route_name (resolved : ResolvedModel) (index : nat) : string :=
  match routes resolved !! index with
  | Some route => c_name (connector route)
  | None => "none"
  end.

Definition with_attempts (n : Z) (r : ChatResponse) : ChatResponse :=
  ChatResponse.mk (ChatResponse.status r) (ChatResponse.content_type r) (ChatResponse.body r)
    (ChatResponse.provider r) (ChatResponse.model r) (ChatResponse.usage r) n.

Definition timed_out (name : string) : Error.Error :=
  Error.UpstreamTimeout
    ("request timed out on all configured providers (last: " +:+ name +:+ ")").

(** The loop over the routes, shared by [dispatch] and [dispatch_embeddings],
    which differ only in the call they make. *)
Section loop.
Context (resolved : ResolvedModel) (virtual_model : string).
Context (call : Connector → string → W (option (result Error.Error ChatResponse))).

Definition failover_to (route : ResolvedRoute) (index : nat) (reason : string) : W () :=
  audit_ (audit.failover virtual_model (c_name (connector route))
            (route_name resolved (index + 1)) reason).

Fixpoint attempts_from (index : nat) (rs : list ResolvedRoute)
    : W (option (result Error.Error ChatResponse)) :=
  match rs with
  | [] => mret (Some (Err (Error.Provider "no providers were attempted")))
  | route :: rs =>
      let last := (length (routes resolved) - 1)%nat in
      let is_last := (index =? last)%nat in
      answer ← timeout_ (timeout resolved) (call (connector route) (model route));
      match answer with
      | Some None => mret None
      | Some (Some (Ok response)) =>
          if negb is_last && bool_decide (ChatResponse.status response ∈ retry_on resolved) then
            failover_to route index ("status " +:+ pretty (ChatResponse.status response));;
            attempts_from (index + 1) rs
          else mret (Some (Ok (with_attempts (wrap_u32 (Z.of_nat (index + 1))) response)))
      | Some (Some (Err err)) =>
          if is_last then mret (Some (Err err))
          else
            failover_to route index (Error.to_string err);;
            attempts_from (index + 1) rs
      | None =>
          if is_last then mret (Some (Err (timed_out (c_name (connector route)))))
          else
            failover_to route index
              ("timeout after " +:+ pretty (timeout resolved / 1000000)%Z +:+ "ms");;
            attempts_from (index + 1) rs
      end
  end.
End loop.

Definition dispatch (resolved : ResolvedModel) (virtual_model : string) (request : ChatRequest)
    : W (option (result Error.Error ChatResponse)) :=
  attempts_from resolved virtual_model
    (λ c m, c_chat c (ChatRequest.mk m (ChatRequest.stream request) (ChatRequest.body request)))
    0 (routes resolved).
Definition dispatch_embeddings (resolved : ResolvedModel) (virtual_model : string)
    (request : EmbeddingsRequest) : W (option (result Error.Error ChatResponse)) :=
  attempts_from resolved virtual_model
    (λ c m, c_embeddings c (EmbeddingsRequest.mk m (EmbeddingsRequest.body request)))
    0 (routes resolved).

Definition no_provider (model : string) : Error.Error :=
  Error.Provider ("no provider configured for model '" +:+ model +:+ "'").

Definition chat (self : Registry) (request : ChatRequest)
    : W (option (result Error.Error ChatResponse)) :=
  match models self !! ChatRequest.model request with
  | Some resolved => dispatch resolved (ChatRequest.model request) request
  | None =>
      match fallback_connector self (ChatRequest.model request) with
      | Some connector => c_chat connector request
      | None => mret (Some (Err (no_provider (ChatRequest.model request))))
      end
  end.
Definition embeddings (self : Registry) (request : EmbeddingsRequest)
    : W (option (result Error.Error ChatResponse)) :=
  match models self !! EmbeddingsRequest.model request with
  | Some resolved => dispatch_embeddings resolved (EmbeddingsRequest.model request) request
  | None =>
      match fallback_connector self (EmbeddingsRequest.model request) with
      | Some connector => c_embeddings connector request
      | None => mret (Some (Err (no_provider (EmbeddingsRequest.model request))))
      end
  end.

(** The distinct connectors (by name) of the routes, first occurrences. *)
Definition distinct_step (acc : gset string * list Connector) (route : ResolvedRoute)
    : gset string * list Connector :=
  let '(seen, cs) := acc in
  let name := c_name (connector route) in
  if decide (name ∈ seen) then (seen, cs) else ({[name]} ∪ seen, cs ++ [connector route]).
Definition distinct (rs : list ResolvedRoute) : list Connector :=
  (foldl distinct_step (∅, []) rs).2.
(** [join_all]: every probe runs; the model runs them in order. *)
Fixpoint probe_all (cs : list Connector) : W (list bool) :=
  match cs with
  | [] => mret []
  | c :: cs => b ← c_reachable c; bs ← probe_all cs; mret (b :: bs)
  end.
Definition all_routes (self : Registry) : list ResolvedRoute :=
  concat (map (λ m, routes m.2) (hm_iter (models self))).
Definition reachable (self : Registry) : W bool :=
  match distinct (all_routes self) with
  | [] => mret true
  | cs => bs ← probe_all cs; mret (existsb id bs)
  end.

Definition as_connector (self : Registry) : Connector :=
  mkConnector "registry" (chat self) (embeddings self) (reachable self).
End registry.
End Registry.

(** ** Lemmas: the attempts *)
Section lemmas.
Context `{Reqwest} `{HashOrder}.
Import Registry.

(** What came of one attempt at a provider: an answer, an error, or nothing in time. *)
Inductive Attempted :=
| Answer (r : ChatResponse)
| Errored (e : Error.Error)
| Late.
Definition observed_as (o : Attempted) : option (option (result Error.Error ChatResponse)) :=
  match o with
  | Answer r => Some (Some (Ok r))
  | Errored e => Some (Some (Err e))
  | Late => None
  end.
(** Why the configuration of a model would have its next provider tried. *)
Definition retry_reason (m : ModelConfig) (o : Attempted) : option string :=
  match o with
  | Answer r =>
      if decide (ChatResponse.status r ∈ ModelConfig.retry_on m)
      then Some ("status " +:+ pretty (ChatResponse.status r)) else None
  | Errored e => Some (Error.to_string e)
  | Late => Some ("timeout after " +:+ pretty (ModelConfig.timeout_ms m) +:+ "ms")
  end.
(** What the caller gets of the last attempt, the [n]-th, at a provider. *)
Definition conclusion (n : nat) (provider : string) (o : Attempted) : result Error.Error ChatResponse :=
  match o with
  | Answer r => Ok (with_attempts (wrap_u32 (Z.of_nat n)) r)
  | Errored e => Err e
  | Late => Err (timed_out provider)
  end.

Section policy.
Context (cs : gmap string Connector) (m : ModelConfig) (vm : string).
Context (ask : Connector → string → W (option (result Error.Error ChatResponse))).

(** An attempt at a route: the connector of its provider is asked for its model, for
    no longer than the timeout of the configuration. *)
Definition attempt (a : Route) (w : World) (o : Attempted) (w' : World) : Prop :=
  ∃ c, cs !! Route.provider a = Some c ∧
    timeout_ (ModelConfig.timeout_ms m * 1000000) (ask c (Route.model a)) w = (observed_as o, w').
Definition hop (a b : Route) (reason : string) : AuditEvent :=
  audit.failover vm (Route.provider a) (Route.provider b) reason.
(** Attempts along routes, and the failovers between them: it ends with an attempt that
    gives no reason to go on, or with no route left; a reason leads to the next route. *)
Inductive attempts : list Route → World → list Attempted → list AuditEvent → World → Prop :=
| attempts_end a rest w o w' :
    attempt a w o w' → retry_reason m o = None ∨ rest = [] → attempts (a :: rest) w [o] [] w'
| attempts_next a b rest w o w1 reason os evs w' :
    attempt a w o w1 → retry_reason m o = Some reason →
    attempts (b :: rest) (audit_ (hop a b reason) w1).2 os evs w' →
    attempts (a :: b :: rest) w (o :: os) (hop a b reason :: evs) w'.

(** Each failover is from a route to the one after it, for the reason the attempt at it
    gave, and the attempt after the last failover is the last. *)
Lemma attempts_hops qs w os evs w' :
  attempts qs w os evs w' →
  length os = S (length evs) ∧ length evs < length qs ∧
  (∀ j e, evs !! j = Some e → ∃ a b o reason,
     qs !! j = Some a ∧ qs !! S j = Some b ∧ os !! j = Some o ∧ retry_reason m o = Some reason ∧
     e = hop a b reason) ∧
  ∃ o, os !! length evs = Some o ∧ (retry_reason m o = None ∨ length qs = S (length evs)).
Proof.
  induction 1 as [a rest w o w' _ Ho|a b rest w o w1 reason os evs w' _ Hr _ (IH1 & IH2 & IH3 & IH4)].
  - split_and!; [done|cbn; lia|done|]. exists o. split; [done|].
    destruct Ho as [?| ->]; [by left|by right].
  - cbn [length] in *. split_and!; [lia|lia| |].
    + intros [|j] e; [|apply IH3]. intros [= <-]. by exists a, b, o, reason.
    + destruct IH4 as (o' & Ho & [?|?]); exists o'; (split; [done|]); [by left|right; lia].
Qed.

Lemma timeout_spec {A} n (c : W A) w :
  (0 ≤ n)%Z →
  (w_now (timeout_ n c w).2 ≤ w_now w + n)%Z ∧
  w_trace (timeout_ n c w).2 = w_trace (c w).2 ∧
  ∀ a, (timeout_ n c w).1 = Some a → (c w).1 = a.
Proof.
  intros Hn. unfold timeout_. rewrite Z.max_r by done. destruct (c w) as [a w'].
  destruct (Z.leb_spec (w_now w' - w_now w) n); cbn.
  - split; [lia|]. split; [done|]. naive_solver.
  - split; [lia|]. split; [done|]. naive_solver.
Qed.
(** With connectors that emit nothing themselves, the failovers are all that is added to
    the trace, and each attempt takes at most its timeout. *)
Lemma attempts_trace qs w os evs w' :
  (∀ n c, cs !! n = Some c → ∀ name w, w_trace (ask c name w).2 = w_trace w) →
  (0 ≤ ModelConfig.timeout_ms m)%Z → attempts qs w os evs w' →
  w_trace w' = w_trace w ++ map EAudit evs ∧
  (w_now w' ≤ w_now w + Z.of_nat (length os) * (ModelConfig.timeout_ms m * 1000000))%Z.
Proof.
  intros Hq Hm. assert (∀ a w o w', attempt a w o w' →
    w_trace w' = w_trace w ∧ (w_now w' ≤ w_now w + ModelConfig.timeout_ms m * 1000000)%Z) as Hone.
  { intros a v o v' (c & Hc & E).
    destruct (timeout_spec (ModelConfig.timeout_ms m * 1000000) (ask c (Route.model a)) v ltac:(lia)) as (Hn & Ht & _).
    rewrite E in Hn, Ht. cbn [snd] in *. by rewrite Ht, (Hq _ _ Hc). }
  induction 1 as [a rest w o w' Ha _|a b rest w o w1 reason os evs w' Ha _ _ [IH1 IH2]].
  - destruct (Hone _ _ _ _ Ha) as [-> Hn]. rewrite app_nil_r. split; [done|]. cbn [length]. lia.
  - destruct (Hone _ _ _ _ Ha) as [Ht Hn]. unfold audit_, emit, modify in IH1, IH2.
    cbn [snd w_trace w_now] in *. rewrite IH1, Ht, <-app_assoc. split; [done|]. cbn [length]. lia.
Qed.
End policy.

(** The loop follows the policy. *)
Lemma attempts_from_policy cs m vm ask rm qs rs index w out w' :
  retry_on rm = list_to_set (ModelConfig.retry_on m) → timeout rm = (ModelConfig.timeout_ms m * 1000000)%Z →
  (∀ n c, cs !! n = Some c → c_name c = n) →
  Forall2 (λ q x, cs !! Route.provider q = Some (connector x) ∧ model x = Route.model q) qs rs →
  drop index (routes rm) = rs → rs ≠ [] →
  attempts_from rm vm ask index rs w = (Some out, w') →
  ∃ os evs o a, attempts cs m vm ask qs w os evs w' ∧ os !! length evs = Some o ∧
    qs !! length evs = Some a ∧ out = conclusion (index + S (length evs)) (Route.provider a) o.
Proof.
  intros Hre Htm Hname Hf. revert index w. induction Hf as [|a route qs rs [Hc Hm] Hf IH]; [done|].
  intros index w Hr _. assert (index + S (length rs) = length (routes rm)) as Hlen.
  { pose proof (f_equal length Hr) as Hl. rewrite length_drop in Hl. cbn in Hl. lia. }
  assert (∀ b next rest, qs = b :: rest → rs = next :: drop 1 rs → route_name rm (index + 1) = Route.provider b) as Hnext.
  { intros b next rest -> Hrs. apply Forall2_cons_inv_l in Hf as (x & rs' & [Hb _] & _ & ->).
    unfold route_name. rewrite <-lookup_drop, Hr. cbn. by apply Hname. }
  cbn [attempts_from]. rewrite M_bind_eq. unfold eval, exec. rewrite Htm, Hm, (Hname _ _ Hc).
  assert (∀ o w1, timeout_ (ModelConfig.timeout_ms m * 1000000) (ask (connector route) (Route.model a)) w = (observed_as o, w1) →
    attempt cs m ask a w o w1) as Hat by (intros; by exists (connector route)).
  assert (∀ o w1, attempt cs m ask a w o w1 → retry_reason m o = None ∨ qs = [] →
    (Some (conclusion (index + 1) (Route.provider a) o), w1) = (Some out, w') →
    ∃ os evs o a0, attempts cs m vm ask (a :: qs) w os evs w' ∧ os !! length evs = Some o ∧
      (a :: qs) !! length evs = Some a0 ∧ out = conclusion (index + S (length evs)) (Route.provider a0) o) as Hend.
  { intros o w1 Ha Ho [= <- <-]. exists [o], [], o, a. split_and!; try done. by constructor. }
  assert (∀ o w1 reason, attempt cs m ask a w o w1 → retry_reason m o = Some reason → S index ≠ length (routes rm) →
    (failover_to rm vm route index reason;; attempts_from rm vm ask (index + 1) rs) w1 = (Some out, w') →
    ∃ os evs o a0, attempts cs m vm ask (a :: qs) w os evs w' ∧ os !! length evs = Some o ∧
      (a :: qs) !! length evs = Some a0 ∧ out = conclusion (index + S (length evs)) (Route.provider a0) o) as Hgo.
  { intros o w1 reason Ha Ho Hne. rewrite M_bind_eq. unfold failover_to.
    destruct Hf as [|b next qs rs Hb Hf]; [cbn in Hlen; lia|].
    rewrite (Hname _ _ Hc), (Hnext b next qs eq_refl eq_refl). intros Hrun.
    apply IH in Hrun as (os & evs & o' & a0 & Hs & Ho' & Ha0 & ->); [|by rewrite <-drop_drop, Hr|done].
    exists (o :: os), (hop vm a b reason :: evs), o', a0. split_and!; [by econstructor|done|done|].
    cbn [length]. by replace (index + 1 + S (length evs)) with (index + S (S (length evs))) by lia. }
  assert (∀ b, (index =? length (routes rm) - 1) = b → if b then qs = [] else S index ≠ length (routes rm)) as Hb.
  { intros b <-. destruct (Nat.eqb_spec index (length (routes rm) - 1)); [|lia].
    apply nil_length_inv. rewrite (Forall2_length _ _ _ Hf). lia. }
  destruct (timeout_ _ _ w) as [[[[r|e]|]|] w1]; cbn [fst snd];
    [specialize (Hat (Answer r) _ eq_refl)|specialize (Hat (Errored e) _ eq_refl)|done|specialize (Hat Late _ eq_refl)].
  - assert (bool_decide (ChatResponse.status r ∈ retry_on rm) = bool_decide (ChatResponse.status r ∈ ModelConfig.retry_on m)) as ->.
    { apply bool_decide_ext. by rewrite Hre, elem_of_list_to_set. }
    specialize (Hb _ eq_refl). destruct (index =? _); cbn [negb andb]; [by apply (Hend (Answer r)); [done|right]|].
    case_bool_decide as Hin.
    + apply (Hgo (Answer r)); [done| |done]. cbn. by rewrite decide_True.
    + apply (Hend (Answer r)); [done|left]. cbn. by rewrite decide_False.
  - specialize (Hb _ eq_refl). destruct (index =? _); [by apply (Hend (Errored e)); [done|right]|].
    by apply (Hgo (Errored e)).
  - specialize (Hb _ eq_refl). destruct (index =? _); [by apply (Hend Late); [done|right]|].
    rewrite Z.div_mul by done. by apply (Hgo Late).
Qed.

Lemma resolve_routes_ok cs name rs l :
  resolve_routes cs name rs = Ok l →
  Forall2 (λ r x, cs !! Route.provider r = Some (connector x) ∧ model x = Route.model r) rs l.
Proof.
  revert l. induction rs as [|r rs IH]; intros l; cbn; [by intros [= <-]|].
  destruct (cs !! Route.provider r) as [c|] eqn:E; cbn; [|done].
  destruct (resolve_routes cs name rs) as [l'|]; cbn; [|done]. intros [= <-].
  constructor; [done|by apply IH].
Qed.
Lemma resolve_routes_err cs name rs e :
  resolve_routes cs name rs = Err e →
  ∃ r, r ∈ rs ∧ cs !! Route.provider r = None ∧ e = unknown_provider name (Route.provider r).
Proof.
  induction rs as [|r rs IH]; cbn; [done|].
  destruct (cs !! Route.provider r) as [c|] eqn:E; cbn.
  - destruct (resolve_routes cs name rs) as [l'|e']; cbn; [done|]. intros [= <-].
    destruct (IH eq_refl) as (r' & ? & ?). exists r'. split; [by right|done].
  - intros [= <-]. exists r. split_and!; [left|done..].
Qed.

(** The routes a model configuration names. *)
Definition named_routes (m : ModelConfig) : list Route :=
  ModelConfig.primary m :: ModelConfig.fallbacks m.

Lemma resolve_all_cons cs m ms acc :
  resolve_all cs (m :: ms) acc =
    match resolve cs m with
    | Ok r => resolve_all cs ms (<[ModelConfig.name m := r]> acc)
    | Err e => Err e
    end.
Proof. done. Qed.
Lemma resolve_all_ok cs ms acc res :
  resolve_all cs ms acc = Ok res →
  ∀ name, res !! name =
    match find_first (λ m, bool_decide (ModelConfig.name m = name)) (rev ms) with
    | Some m => result_ok (resolve cs m)
    | None => acc !! name
    end.
Proof.
  revert acc. induction ms as [|m ms IH]; intros acc; [by intros [= <-]|].
  rewrite resolve_all_cons. destruct (resolve cs m) as [r|] eqn:E; [|done].
  intros Hres name. rewrite (IH _ Hres name). cbn [rev]. rewrite find_first_app.
  destruct (find_first _ (rev ms)); [done|]. cbn [find_first].
  rewrite lookup_insert. case_decide; case_bool_decide; simplify_eq; [by rewrite E|done].
Qed.
Lemma resolve_all_err cs ms acc e :
  resolve_all cs ms acc = Err e → ∃ m, m ∈ ms ∧ resolve cs m = Err e.
Proof.
  revert acc. induction ms as [|m ms IH]; intros acc; [done|].
  rewrite resolve_all_cons. destruct (resolve cs m) as [r|e'] eqn:E.
  - intros [m' [? ?]]%IH. exists m'. split; [by right|done].
  - intros [= <-]. exists m. split; [left|done].
Qed.
Lemma resolve_all_all_ok cs ms acc res :
  resolve_all cs ms acc = Ok res → Forall (λ m, is_ok (resolve cs m) = true) ms.
Proof.
  revert acc. induction ms as [|m ms IH]; intros acc; [constructor|].
  rewrite resolve_all_cons. destruct (resolve cs m) as [r|] eqn:E; [|done].
  intros Hres. constructor; [by rewrite E|by eapply IH].
Qed.
Lemma resolve_ok cs m r :
  resolve cs m = Ok r →
  Forall2 (λ q x, cs !! Route.provider q = Some (connector x) ∧ model x = Route.model q)
    (named_routes m) (routes r) ∧
  retry_on r = list_to_set (ModelConfig.retry_on m) ∧
  timeout r = (ModelConfig.timeout_ms m * 1000000)%Z.
Proof.
  unfold resolve. fold (named_routes m). destruct (resolve_routes _ _ _) as [l|] eqn:E; cbn; [|done].
  intros [= <-]. split; [by eapply resolve_routes_ok|done].
Qed.
Lemma resolve_err cs m e :
  resolve cs m = Err e →
  ∃ q, q ∈ named_routes m ∧ cs !! Route.provider q = None ∧
    e = unknown_provider (ModelConfig.name m) (Route.provider q).
Proof.
  unfold resolve. fold (named_routes m). destruct (resolve_routes _ _ _) as [l|] eqn:E; cbn; [done|].
  intros [= <-]. by apply resolve_routes_err in E.
Qed.
End lemmas.

Section building.
Context `{Reqwest} `{HashOrder}.
Import Registry.

Lemma new_models cs ms self name rm :
  new cs ms = Ok self → models self !! name = Some rm →
  ∃ m, m ∈ ms ∧ ModelConfig.name m = name ∧ resolve cs m = Ok rm.
Proof.
  unfold new. destruct (resolve_all cs ms ∅) as [res|] eqn:E; cbn; [|done]. intros [= <-]. cbn.
  rewrite (resolve_all_ok _ _ _ _ E name).
  destruct (find_first _ (rev ms)) as [m|] eqn:Ef; [|by rewrite lookup_empty].
  destruct (find_first_Some _ _ _ Ef) as [Hin Hb%bool_decide_eq_true].
  destruct (resolve cs m) as [x|e] eqn:Er; [|done]. intros [= ->].
  exists m. split_and!; [by apply elem_of_rev|done..].
Qed.

Lemma new_configured cs ms reg vm m :
  new cs ms = Ok reg → find_first (λ m, bool_decide (ModelConfig.name m = vm)) (rev ms) = Some m →
  ∃ rm, models reg !! vm = Some rm ∧ resolve cs m = Ok rm.
Proof.
  unfold new. destruct (resolve_all cs ms ∅) as [res|] eqn:E; cbn [mbind result_bind fmap result_fmap]; [|done].
  intros [= <-] Hf. cbn [models]. rewrite (resolve_all_ok _ _ _ _ E vm), Hf.
  pose proof (resolve_all_all_ok _ _ _ _ E) as Ha. rewrite Forall_forall in Ha.
  destruct (find_first_Some _ _ _ Hf) as [Hm _].
  assert (m ∈ ms) as Hin by (by apply elem_of_rev). specialize (Ha m Hin).
  destruct (resolve cs m) as [rm|]; [|done]. by exists rm.
Qed.
Lemma resolved_attempts cs m vm ask rm w out w' :
  (∀ n c, cs !! n = Some c → c_name c = n) → resolve cs m = Ok rm →
  attempts_from rm vm ask 0 (routes rm) w = (Some out, w') →
  ∃ os evs o a, attempts cs m vm ask (named_routes m) w os evs w' ∧ os !! length evs = Some o ∧
    named_routes m !! length evs = Some a ∧ out = conclusion (S (length evs)) (Route.provider a) o.
Proof.
  intros Hn Hr. pose proof (resolve_ok _ _ _ Hr) as (Hf & Hre & Htm).
  apply (attempts_from_policy cs m vm ask rm _ _ 0); try done. intros E. rewrite E in Hf. inversion Hf.
Qed.
End building.

(** ** Properties *)
Section properties.
Context `{Reqwest} `{HashOrder}.
Import Registry.

(** Building a registry fails exactly when some route of some model names an
    unknown provider, and says which model and which provider; otherwise each
    virtual name resolves by the last model of that name, to the primary route
    followed by its fallbacks, each with the connector of its provider and its
    own upstream model, so to at least one route. *)
Theorem registry_new_spec cs ms :
  match new cs ms with
  | Err e =>
      ∃ m q, m ∈ ms ∧ q ∈ named_routes m ∧ cs !! Route.provider q = None ∧
        e = unknown_provider (ModelConfig.name m) (Route.provider q)
  | Ok self =>
      (∀ m q, m ∈ ms → q ∈ named_routes m → is_Some (cs !! Route.provider q)) ∧
      connectors self = cs ∧
      ∀ name,
        match find_first (λ m, bool_decide (ModelConfig.name m = name)) (rev ms) with
        | None => models self !! name = None
        | Some m =>
            ∃ rm, models self !! name = Some rm ∧ routes rm ≠ [] ∧
              Forall2 (λ q x, cs !! Route.provider q = Some (connector x) ∧
                              model x = Route.model q) (named_routes m) (routes rm) ∧
              retry_on rm = list_to_set (ModelConfig.retry_on m) ∧
              timeout rm = (ModelConfig.timeout_ms m * 1000000)%Z
        end
  end.
Proof.
  unfold new. destruct (resolve_all cs ms ∅) as [res|e] eqn:E; cbn.
  - split; [|split; [done|]].
    + intros m q Hm Hq. pose proof (resolve_all_all_ok _ _ _ _ E) as Hf.
      rewrite Forall_forall in Hf. specialize (Hf m Hm).
      destruct (resolve cs m) as [rm|] eqn:Er; [|done]. apply resolve_ok in Er as (Hr & _).
      apply list_elem_of_lookup in Hq as [i Hi].
      destruct (Forall2_lookup_l _ _ _ _ _ Hr Hi) as (x & _ & -> & _). done.
    + intros name. rewrite (resolve_all_ok _ _ _ _ E name).
      destruct (find_first _ (rev ms)) as [m|] eqn:Ef; [|apply lookup_empty].
      pose proof (resolve_all_all_ok _ _ _ _ E) as Hf. rewrite Forall_forall in Hf.
      destruct (find_first_Some _ _ _ Ef) as [Hin _].
      assert (m ∈ ms) as Hm by (by apply elem_of_rev).
      specialize (Hf m Hm). destruct (resolve cs m) as [rm|] eqn:Er; [|done].
      exists rm. split; [done|]. pose proof (resolve_ok _ _ _ Er) as (Hr & Hret & Htm).
      split_and!; [|done..]. intros Hnil. rewrite Hnil in Hr. inversion Hr.
  - apply resolve_all_err in E as (m & Hm & Hr). apply resolve_err in Hr as (q & Hq & Hc & He).
    eauto 10.
Qed.

(** A chat for a configured model follows the failover policy of its configuration:
    the last of its name decides which routes are attempted, in order, which outcomes
    are a reason to go on to the next, and which is handed out. *)
Theorem registry_chat_policy cs ms self q m w out w' :
  new cs ms = Ok self → (∀ n c, cs !! n = Some c → c_name c = n) →
  find_first (λ m, bool_decide (ModelConfig.name m = ChatRequest.model q)) (rev ms) = Some m →
  chat self q w = (Some out, w') →
  ∃ os evs o a,
    attempts cs m (ChatRequest.model q)
      (λ c name, c_chat c (ChatRequest.mk name (ChatRequest.stream q) (ChatRequest.body q)))
      (named_routes m) w os evs w' ∧
    os !! length evs = Some o ∧ named_routes m !! length evs = Some a ∧
    out = conclusion (S (length evs)) (Route.provider a) o.
Proof.
  intros Hnew Hn Hm. destruct (new_configured _ _ _ _ _ Hnew Hm) as (rm & Hrm & Hr).
  unfold chat. rewrite Hrm. unfold dispatch. by apply resolved_attempts.
Qed.

(** A model that is not configured goes to one provider, chosen by its name:
    Anthropic's for names starting with [claude], OpenAI's otherwise, unchanged
    and without failover; when that provider is absent the call is an error that
    touches nothing. *)
Theorem registry_unlisted_model self q w :
  models self !! ChatRequest.model q = None →
  ∃ p, (p = "anthropic" ∨ p = "openai") ∧
    (p = "anthropic" ↔ ∃ r, ChatRequest.model q = "claude" +:+ r) ∧
    chat self q w =
      match connectors self !! p with
      | Some c => c_chat c q w
      | None => (Some (Err (no_provider (ChatRequest.model q))), w)
      end.
Proof.
  intros Hm. unfold chat. rewrite Hm. unfold fallback_connector.
  setoid_rewrite <-(starts_with_spec "claude").
  destruct (starts_with "claude" (ChatRequest.model q)); eexists.
  - split; [by left|]. split; [done|]. by destruct (connectors self !! "anthropic").
  - split; [by right|]. split; [done|]. by destruct (connectors self !! "openai").
Qed.
End properties.

(** ** Witnesses *)
Definition sample_models : list ModelConfig :=
  [ModelConfig.mk "smart" (Route.mk "a" "gpt-4o") [Route.mk "b" "claude"] [503%Z] 30000].
Definition sample_connectors : gmap string (@Connector sample_reqwest) :=
  {["a" := sample_connector "a" 503; "b" := sample_connector "b" 200]}.
Definition sample_registry : @Registry.Registry sample_reqwest :=
  match @Registry.new sample_reqwest sample_connectors sample_models with
  | Ok r => r
  | Err _ => @Registry.mk sample_reqwest ∅ ∅
  end.

Lemma registry_unlisted_model_witness :
  @Registry.chat sample_reqwest sample_registry (ChatRequest.mk "claude-3" false []) sample_world
  = (Some (Err (Registry.no_provider "claude-3")), sample_world).
Proof.
  destruct (@registry_unlisted_model sample_reqwest sample_registry
    (ChatRequest.mk "claude-3" false []) sample_world eq_refl) as (p & Hp & Hc & He).
  rewrite He. destruct Hp as [-> | ->]; reflexivity.
Defined.
