(* ===== verification/Cache.v ===== *)
(** * Cache: the exact-match response cache ([cache.rs])

    The store is the [moka] crate's: it may evict at any time. What the gateway
    relies on is in [MokaLaws]: a lookup answers only with what was last inserted
    under its key. *)

From S2P Require Import Prelude Text Auth Provider.

Module CachedResponse.
Record CachedResponse := mk {
  status : Z;
  content_type : option string;
  body : bytes;
  provider : string;
  model : string;
  usage : option Usage
}.
End CachedResponse.
Abbreviation CachedResponse := CachedResponse.CachedResponse.

(** [Cache::builder()] with a capacity, a weigher and a time to live (in
    seconds), [get] and [insert] at a clock reading. *)
Class Moka := {
  MokaCache : Type;
  moka_build : Z → (CachedResponse → Z) → Z → MokaCache;
  moka_get : string → Z → MokaCache → option CachedResponse * MokaCache;
  moka_insert : string → CachedResponse → Z → MokaCache → MokaCache
}.
Class MokaLaws `{Moka} := {
  holds : MokaCache → string → CachedResponse → Prop;
  build_holds cap w ttl k v : ¬ holds (moka_build cap w ttl) k v;
  get_holds k now c v c' : moka_get k now c = (Some v, c') → holds c k v;
  get_keeps k now c o c' k' v : moka_get k now c = (o, c') → holds c' k' v → holds c k' v;
  insert_holds k v now c k' v' :
    holds (moka_insert k v now c) k' v' → (k' = k ∧ v' = v) ∨ (k' ≠ k ∧ holds c k' v')
}.

Module ResponseCache.
Section cache.
Context `{Crypto} `{Moka}.
Definition ResponseCache := MokaCache.

(** [u32::try_from(len).unwrap_or(u32::MAX)]. *)
Definition weight (v : CachedResponse) : Z :=
  let n := Z.of_nat (length (CachedResponse.body v)) in
  if decide (n ≤ u32_max)%Z then n else u32_max.
Definition new (max_size_bytes ttl : Z) : ResponseCache := moka_build max_size_bytes weight ttl.

(** What is hashed into a key. *)
Definition key_bytes (scope model : string) (body : bytes) : bytes :=
  as_bytes scope ++ [Byte.x00] ++ as_bytes model ++ [Byte.x00] ++ body.
Definition key (scope model : string) (body : bytes) : string :=
  hex_encode (sha256 (key_bytes scope model body)).

Definition get (key : string) (now : Z) (self : ResponseCache) : option CachedResponse * ResponseCache :=
  moka_get key now self.
Definition insert (key : string) (value : CachedResponse) (now : Z) (self : ResponseCache)
    : ResponseCache :=
  moka_insert key value now self.

(** A use of the cache: a response stored for a request, or a lookup. *)
Inductive op :=
| Put (scope model : string) (body : bytes) (value : CachedResponse) (now : Z)
| Look (scope model : string) (body : bytes) (now : Z).
Definition apply (c : ResponseCache) (o : op) : ResponseCache :=
  match o with
  | Put s m b v now => insert (key s m b) v now c
  | Look s m b now => (get (key s m b) now c).2
  end.
Definition run (cap ttl : Z) (ops : list op) : ResponseCache := foldl apply (new cap ttl) ops.

(** The last response stored for exactly this request. *)
Fixpoint last_put (s m : string) (b : bytes) (ops : list op) : option CachedResponse :=
  match ops with
  | [] => None
  | Put s' m' b' v _ :: ops =>
      match last_put s m b ops with
      | Some v' => Some v'
      | None => if decide (s' = s ∧ m' = m ∧ b' = b) then Some v else None
      end
  | Look _ _ _ _ :: ops => last_put s m b ops
  end.
Definition requests (ops : list op) : list (string * string * bytes) :=
  map (λ o, match o with Put s m b _ _ => (s, m, b) | Look s m b _ => (s, m, b) end) ops.
End cache.
End ResponseCache.

(** ** Lemmas *)
Definition no_nul (s : string) : Prop := Byte.x00 ∉ as_bytes s.

Lemma app_nul_inj (a a' b b' : bytes) :
  Byte.x00 ∉ a → Byte.x00 ∉ a' → a ++ Byte.x00 :: b = a' ++ Byte.x00 :: b' → a = a' ∧ b = b'.
Proof.
  revert a'. induction a as [|x a IH]; intros [|y a'] Ha Ha' E; cbn in E.
  - by injection E.
  - injection E as <- _. destruct Ha'. left.
  - injection E as -> _. destruct Ha. left.
  - injection E as -> E. rewrite not_elem_of_cons in Ha, Ha'.
    destruct (IH a') as [-> ->]; [naive_solver..|done].
Qed.

Lemma key_bytes_inj s m b s' m' b' :
  no_nul s → no_nul s' → no_nul m → no_nul m' →
  ResponseCache.key_bytes s m b = ResponseCache.key_bytes s' m' b' → s = s' ∧ m = m' ∧ b = b'.
Proof.
  intros Hs Hs' Hm Hm' E. unfold ResponseCache.key_bytes in E. cbn [app] in E.
  apply app_nul_inj in E as [Es E]; [|done..].
  apply app_nul_inj in E as [Em ->]; [|done..]. by apply as_bytes_inj in Es, Em.
Qed.

Section properties.
Context `{Crypto} `{Moka} `{!MokaLaws}.
Import ResponseCache.

(** The hash separates the requests of a history. *)
Definition separated (ops : list op) : Prop :=
  Forall (λ q, no_nul q.1.1 ∧ no_nul q.1.2) (requests ops) ∧
  ∀ q q', q ∈ requests ops → q' ∈ requests ops →
    key q.1.1 q.1.2 q.2 = key q'.1.1 q'.1.2 q'.2 →
    key_bytes q.1.1 q.1.2 q.2 = key_bytes q'.1.1 q'.1.2 q'.2.

Lemma separated_mono ops ops' :
  (∀ q, q ∈ requests ops' → q ∈ requests ops) → separated ops → separated ops'.
Proof.
  intros Hin [Hf Hi]. split; [|eauto]. rewrite !Forall_forall in *. eauto.
Qed.

Lemma last_put_snoc s m b ops o :
  last_put s m b (ops ++ [o]) =
    match o with
    | Put s' m' b' v _ =>
        if decide (s' = s ∧ m' = m ∧ b' = b) then Some v else last_put s m b ops
    | Look _ _ _ _ => last_put s m b ops
    end.
Proof.
  induction ops as [|[s0 m0 b0 v0 t0|s0 m0 b0 t0] ops IH]; cbn.
  - destruct o; [by case_decide|done].
  - rewrite IH. destruct o as [s1 m1 b1 v1 t1|]; [|done].
    by destruct (decide (s1 = s ∧ m1 = m ∧ b1 = b)).
  - rewrite IH. done.
Qed.

Lemma run_holds cap ttl ops s m b v :
  separated (ops ++ [Look s m b 0]) → holds (run cap ttl ops) (key s m b) v →
  last_put s m b ops = Some v.
Proof.
  revert v. induction ops as [|o ops IH] using rev_ind; intros v Hsep Hh.
  - by apply build_holds in Hh.
  - unfold run in Hh. rewrite foldl_app in Hh. cbn in Hh. fold (run cap ttl ops) in Hh.
    rewrite last_put_snoc.
    assert (separated (ops ++ [Look s m b 0])) as Hsep'.
    { eapply separated_mono; [|exact Hsep]. unfold requests. intros q.
      rewrite !map_app, !elem_of_app. tauto. }
    destruct o as [s' m' b' v' t|s' m' b' t]; cbn in Hh.
    + apply insert_holds in Hh as [[Hk ->]|[Hk Hh]].
      * rewrite decide_True; [done|]. destruct Hsep as [Hf Hi].
        assert ((s', m', b') ∈ requests ((ops ++ [Put s' m' b' v' t]) ++ [Look s m b 0])) as Hin1.
        { unfold requests. rewrite !map_app, !elem_of_app. left. right. by left. }
        assert ((s, m, b) ∈ requests ((ops ++ [Put s' m' b' v' t]) ++ [Look s m b 0])) as Hin2.
        { unfold requests. rewrite !map_app, !elem_of_app. right. by left. }
        rewrite Forall_forall in Hf. destruct (Hf _ Hin1) as [Hs1 Hm1], (Hf _ Hin2) as [Hs2 Hm2].
        cbn in *. apply key_bytes_inj; try done. by apply (Hi _ _ Hin1 Hin2).
      * rewrite decide_False; [by apply IH|]. intros (-> & -> & ->). done.
    + destruct (get (key s' m' b') t (run cap ttl ops)) as [o c] eqn:E. cbn in Hh.
      unfold get in E. apply IH; [done|]. by eapply get_keeps.
Qed.

(** The cache never answers one request with another's response: after any
    history of stores and lookups, a hit for a scope, model and body is the last
    response stored for that very scope, model and body, provided the hash does
    not collide on the requests of the history and scopes and models hold no zero
    byte; what was evicted is simply not found. *)
Theorem cache_hit_is_last_put cap ttl ops s m b now v :
  separated (ops ++ [Look s m b 0]) →
  (get (key s m b) now (run cap ttl ops)).1 = Some v →
  last_put s m b ops = Some v.
Proof.
  intros Hsep Hg. destruct (get _ _ _) as [o c'] eqn:E. cbn in Hg. subst o.
  eapply run_holds; [done|]. by eapply get_holds.
Qed.
End properties.

(** ** Witnesses *)

(** A cache that forgets nothing. *)
Definition sample_moka : Moka :=
  {| MokaCache := gmap string CachedResponse;
     moka_build _ _ _ := ∅;
     moka_get k _ c := (c !! k, c);
     moka_insert k v _ c := <[k := v]> c |}.
Lemma sample_moka_laws : @MokaLaws sample_moka.
Proof.
  refine (@Build_MokaLaws sample_moka (λ c k v, (c : gmap string CachedResponse) !! k = Some v) _ _ _ _).
  - intros cap w ttl k v. cbn. by rewrite lookup_empty.
  - by intros k now c v c' [= E _].
  - by intros k now c o c' k' v [= _ <-].
  - intros k v now c k' v'. cbn. rewrite lookup_insert.
    case_decide; [left|right]; simplify_eq; naive_solver.
Qed.
Definition sample_cached : CachedResponse := CachedResponse.mk 200 None [Byte.x7b] "openai" "gpt-4o" None.

Lemma cache_hit_is_last_put_witness :
  @ResponseCache.last_put "k" "m" [Byte.x01] [ResponseCache.Put "k" "m" [Byte.x01] sample_cached 0]
  = Some sample_cached.
Proof.
  apply (@cache_hit_is_last_put sample_crypto sample_moka sample_moka_laws 10 10
    [ResponseCache.Put "k" "m" [Byte.x01] sample_cached 0] "k" "m" [Byte.x01] 1 sample_cached).
  - split.
    + repeat constructor; cbn; intros Hin; apply list_elem_of_In in Hin; cbn in Hin; naive_solver.
    + intros q q' Hq Hq' _. cbn in Hq, Hq'. rewrite !elem_of_cons in Hq, Hq'.
      assert (∀ x : string * string * bytes, x ∈ [] → False) as Hnil by (by intros x Hx%not_elem_of_nil).
      destruct Hq as [-> | [-> | Hq]], Hq' as [-> | [-> | Hq']]; try reflexivity;
        exfalso; eapply Hnil; eassumption.
  - reflexivity.
Defined.
