(* ===== verification/Tls.v ===== *)
(** * Tls: TLS material for the proxy listener ([tls.rs])

    Parsing PEM and building a server configuration belong to the [rustls]
    crates. Files are read as they are at an instant. *)

From S2P Require Import Prelude Text Config.

Class Rustls := {
  Cert : Type;
  PrivateKey : Type;
  Verifier : Type;
  ServerConfig : Type;
  read_file : string → Z → result string bytes;
  pem_certs : bytes → result string (list Cert);
  pem_private_key : bytes → result string (option PrivateKey);
  safe_default_protocol_versions : result string ();
  root_ok : Cert → result string ();
  build_verifier : list Cert → result string Verifier;
  (** A configuration with a client verifier, certificates and key, and the
      protocols it advertises. *)
  server_config : Verifier → list Cert → PrivateKey → list string → result string ServerConfig;
  (** [RustlsConfig]'s own PEM path: no client authentication. *)
  config_from_pem_file : string → string → Z → result string ServerConfig
}.

Module tls.
Section tls.
Context `{Rustls}.

Definition load_certs (path : string) (now : Z) : result anyhow (list Cert) :=
  data ← foreign (read_file path now);
  with_context "failed to parse PEM certificates" (foreign (pem_certs data)).
Definition load_key (path : string) (now : Z) : result anyhow PrivateKey :=
  data ← foreign (read_file path now);
  k ← with_context "failed to parse PEM private key" (foreign (pem_private_key data));
  ok_or (anyhow_msg ("no private key found in " +:+ path)) k.

Fixpoint add_roots (cas : list Cert) (roots : list Cert) : result anyhow (list Cert) :=
  match cas with
  | [] => Ok roots
  | ca :: cas =>
      _ ← with_context "failed to add a client CA certificate to the trust store"
            (foreign (root_ok ca));
      add_roots cas (roots ++ [ca])
  end.

Definition mtls_server_config (cert_path key_path client_ca_path : string) (now : Z)
    : result anyhow ServerConfig :=
  certs ← with_context ("failed to load TLS cert " +:+ cert_path) (load_certs cert_path now);
  key ← with_context ("failed to load TLS key " +:+ key_path) (load_key key_path now);
  cas ← with_context ("failed to load client CA bundle " +:+ client_ca_path)
          (load_certs client_ca_path now);
  roots ← add_roots cas [];
  match roots with
  | [] => Err (anyhow_msg ("client CA bundle " +:+ client_ca_path +:+ " contained no certificates"))
  | _ =>
      verifier ← with_context "failed to build the client certificate verifier"
                   (foreign (build_verifier roots));
      _ ← with_context "failed to select TLS protocol versions"
            (foreign safe_default_protocol_versions);
      with_context "failed to build the mTLS server config"
        (foreign (server_config verifier certs key ["h2"; "http/1.1"]))
  end.

Definition pem_failed (verb : string) (t : TlsConfig.TlsConfig) : string :=
  "failed to " +:+ verb +:+ " TLS material (cert: " +:+ TlsConfig.cert_path t
  +:+ ", key: " +:+ TlsConfig.key_path t +:+ ")".

Definition build_rustls_config (t : TlsConfig.TlsConfig) (now : Z) : result anyhow ServerConfig :=
  match TlsConfig.client_ca_path t with
  | None =>
      with_context (pem_failed "load" t)
        (foreign (config_from_pem_file (TlsConfig.cert_path t) (TlsConfig.key_path t) now))
  | Some ca => mtls_server_config (TlsConfig.cert_path t) (TlsConfig.key_path t) ca now
  end.

(** The live configuration is swapped only when everything parsed. *)
Definition reload_certs (t : TlsConfig.TlsConfig) (now : Z) (live : ServerConfig)
    : result anyhow () * ServerConfig :=
  let parsed :=
    match TlsConfig.client_ca_path t with
    | None =>
        with_context (pem_failed "reload" t)
          (foreign (config_from_pem_file (TlsConfig.cert_path t) (TlsConfig.key_path t) now))
    | Some ca => mtls_server_config (TlsConfig.cert_path t) (TlsConfig.key_path t) ca now
    end in
  match parsed with
  | Ok c => (Ok (), c)
  | Err e => (Err e, live)
  end.
End tls.
End tls.

Section properties.
Context `{Rustls}.
Import tls.

(** A reload of the TLS material either installs the material the startup
    path would build from the same files, or fails and leaves the live
    configuration as it was; and mutual TLS is never configured with an empty
    trust store. *)
Theorem reload_certs_all_or_nothing (t : TlsConfig.TlsConfig) (now : Z) (live : ServerConfig) :
  match reload_certs t now live with
  | (Ok _, c) => build_rustls_config t now = Ok c ∧
      ∀ ca, TlsConfig.client_ca_path t = Some ca →
        ∃ roots v certs key, load_certs ca now = Ok roots ∧ roots ≠ [] ∧
          build_verifier roots = Ok v ∧ server_config v certs key ["h2"; "http/1.1"] = Ok c
  | (Err _, c) => c = live ∧ is_ok (build_rustls_config t now) = false
  end.
Proof.
  assert (∀ cas roots out, add_roots cas roots = Ok out → out = roots ++ cas) as Hadd.
  { induction cas as [|ca cas IH]; intros roots out; cbn; [intros [= <-]; by rewrite app_nil_r|].
    destruct (root_ok ca); cbn; [|done]. intros ->%IH. by rewrite <-app_assoc. }
  unfold reload_certs, build_rustls_config. destruct (TlsConfig.client_ca_path t) as [ca|].
  - destruct (mtls_server_config _ _ ca now) as [c|e] eqn:E; [|done]. split; [done|].
    intros ca' [= <-]. unfold mtls_server_config in E.
    destruct (load_certs (TlsConfig.cert_path t) now) as [certs|]; cbn in E; [|done].
    destruct (load_key _ _) as [key|]; cbn in E; [|done].
    destruct (load_certs ca now) as [cas|]; cbn in E; [|done].
    destruct (add_roots cas []) as [roots|] eqn:Ea; cbn in E; [|done].
    apply Hadd in Ea as ->. cbn in E. destruct cas as [|c0 cas]; [done|].
    destruct (build_verifier _) as [v|] eqn:Ev; cbn in E; [|done].
    destruct safe_default_protocol_versions; cbn in E; [|done].
    destruct (server_config v certs key _) as [c'|] eqn:Es; cbn in E; [|done].
    injection E as ->. by exists (c0 :: cas), v, certs, key.
  - destruct (config_from_pem_file _ _ _); cbn; [|done]. done.
Qed.
End properties.

(** A TLS library for concrete inputs: nothing to read, every configuration fine. *)
Definition sample_rustls : Rustls :=
  {| Cert := (); PrivateKey := (); Verifier := (); ServerConfig := ();
     read_file _ _ := Err "no such file"; pem_certs _ := Ok []; pem_private_key _ := Ok None;
     safe_default_protocol_versions := Ok (); root_ok _ := Ok (); build_verifier _ := Ok (); server_config _ _ _ _ := Ok ();
     config_from_pem_file _ _ _ := Ok () |}.
