(* ===== verification/Wasm.v ===== *)
(** * Wasm: WebAssembly plugins ([plugin/wasm.rs])

    Compiling, linking and running components belong to [wasmtime]; the download of
    a remote component and what the host decides around a call are modelled. *)

From S2P Require Import Prelude Text Plugin Config Provider.

(** The decision of a guest, as the WIT contract has it. *)
Module guest.
Inductive Action :=
| Pass
| Modify (r : PluginRequest)
| Reject (i : RejectInfo).
End guest.

(** A failure inside the guest; whether it was the deadline. *)
Record WasmError := mkWasmError { interrupted : bool; wasm_message : string }.

(** A component file is read as it is at an instant. [instantiate] and [call_inspect] run in a store with a memory limit and a
    deadline in ticks. *)
Class Wasmtime := {
  Component : Type;
  InstancePre : Type;
  PluginPre : Type;
  Instance_ : Type;
  component_from_binary : bytes → result string Component;
  component_from_file : string → Z → result string Component;
  add_wasi_to_linker : result string ();
  instantiate_pre : Component → result string InstancePre;
  plugin_pre : InstancePre → result string PluginPre;
  instantiate : PluginPre → Z → Z → result WasmError Instance_;
  call_inspect : Instance_ → PluginRequest → result WasmError guest.Action
}.

Definition DEFAULT_MEMORY_BYTES : Z := 64 * 1024 * 1024.
Definition FAIL_CLOSED_STATUS : Z := 403.
Definition is_http_url (source : string) : bool :=
  starts_with "http://" source || starts_with "https://" source.

(** The download of a remote component, by a blocking client on its own thread. *)
Definition REMOTE_FETCH_TIMEOUT : Z := 30000000000.
Section fetch.
Context `{Reqwest}.
Definition download_request (url : string) : Http.Request :=
  Http.mkRequest "GET" url [] [] (Some REMOTE_FETCH_TIMEOUT).
Definition fetch_remote (url : string) : W (result anyhow bytes) :=
  try_ (foreign client_build) (λ _,
    response ← http_send (download_request url);
    try_ (foreign response) (λ response,
    try_ (foreign (error_for_status url response)) (λ response,
      bytes ← http_bytes response;
      mret (foreign bytes)))).

(** What downloads may do to the network. *)
Definition downloads : relation Net :=
  rtc (λ n n', ∃ url, n' = (send (download_request url) n).1.2).
Lemma fetch_remote_spec url w :
  let w' := (fetch_remote url w).2 in
  downloads (w_net w) (w_net w') ∧ (w_now w ≤ w_now w')%Z ∧ w_trace w' = w_trace w.
Proof.
  unfold fetch_remote, http_send. destruct client_build; cbn; [|by split_and!; [apply rtc_refl|..]].
  rewrite M_bind_eq. unfold eval, exec.
  destruct (send (download_request url) (w_net w)) as [[r net] n] eqn:E. cbn [fst snd].
  assert (downloads (w_net w) net) as Hd by (apply rtc_once; exists url; by rewrite E).
  destruct r as [r|]; cbn [foreign map_err try_]; [|cbn; split_and!; [done|lia|done]].
  destruct (error_for_status url r) as [r'|]; cbn [foreign map_err try_];
    [|cbn; split_and!; [done|lia|done]].
  unfold http_bytes, elapse, modify. rewrite !M_bind_eq. unfold eval, exec. cbn -[Z.max]. rewrite M_bind_eq. unfold exec. cbn -[Z.max]. split_and!; [done|lia|done].
Qed.
End fetch.

Definition map_action (action : guest.Action) : Decision :=
  match action with
  | guest.Pass => Pass
  | guest.Modify req =>
      Modify (PluginRequest.mk (PluginRequest.method req) (PluginRequest.path req)
                (PluginRequest.headers req) (PluginRequest.body req))
  | guest.Reject info => Reject (mkReject (reason info) (status_code info))
  end.

Module WasmPlugin.
Section wasm.
Context `{Reqwest} `{Wasmtime}.

Record WasmPlugin := mk {
  name : string;
  pre : PluginPre;
  budget_ticks : Z;
  on_timeout : FailMode;
  memory_bytes : Z
}.

Definition component (name source : string) : W (result anyhow Component) :=
  if is_http_url source then
    fetched ← fetch_remote source;
    mret (bytes ← with_context ("failed to download wasm plugin '" +:+ name +:+ "' from " +:+ source)
                    fetched;
          with_context ("wasm plugin '" +:+ name +:+ "' downloaded from " +:+ source +:+ " is invalid")
            (foreign (component_from_binary bytes)))
  else
    let path := match strip_prefix "file://" source with Some p => p | None => source end in
    now ← now;
    mret (with_context ("failed to load wasm plugin '" +:+ name +:+ "' from " +:+ path)
            (foreign (component_from_file path now))).

(** From the component to the plugin. *)
Definition link (name : string) (latency_budget_ms : Z) (on_timeout : FailMode)
    (component : Component) : result anyhow WasmPlugin :=
  _ ← with_context "failed to add WASI to the plugin linker" (foreign add_wasi_to_linker);
  instance_pre ← with_context ("wasm plugin '" +:+ name +:+ "' failed to link")
                   (foreign (instantiate_pre component));
  pre ← with_context ("wasm plugin '" +:+ name +:+ "' does not implement the inspect contract")
          (foreign (plugin_pre instance_pre));
  let budget_ticks := Z.max latency_budget_ms 1 in
  Ok (mk name pre budget_ticks on_timeout DEFAULT_MEMORY_BYTES).
Definition load (name source : string) (latency_budget_ms : Z) (on_timeout : FailMode)
    : W (result anyhow WasmPlugin) :=
  component ← component name source;
  mret (component ← component; link name latency_budget_ms on_timeout component).

Definition circuit_break (self : WasmPlugin) (_ : WasmError) : Decision :=
  match on_timeout self with
  | FailOpen => Pass
  | FailClosed =>
      Reject (mkReject ("request blocked: plugin '" +:+ name self +:+ "' could not evaluate it")
                FAIL_CLOSED_STATUS)
  end.

Definition run (self : WasmPlugin) (request : PluginRequest) : Decision :=
  let guest_request := PluginRequest.mk (PluginRequest.method request)
    (PluginRequest.path request) (PluginRequest.headers request) (PluginRequest.body request) in
  match instantiate (pre self) (memory_bytes self) (budget_ticks self) with
  | Err error => circuit_break self error
  | Ok instance =>
      match call_inspect instance guest_request with
      | Ok action => map_action action
      | Err error => circuit_break self error
      end
  end.

Definition as_plugin (self : WasmPlugin) : Plugin := mkPlugin (name self) (run self).

(** What the guest made of a request: its decision, or a failure. *)
Definition evaluated (self : WasmPlugin) (request : PluginRequest) : result WasmError guest.Action :=
  instance ← instantiate (pre self) (memory_bytes self) (budget_ticks self);
  call_inspect instance request.
End wasm.
End WasmPlugin.

Section properties.
Context `{Reqwest} `{Wasmtime}.
Import WasmPlugin.

Lemma load_world n src budget mode w :
  let w' := (load n src budget mode w).2 in
  downloads (w_net w) (w_net w') ∧ (w_now w ≤ w_now w')%Z ∧ w_trace w' = w_trace w.
Proof.
  unfold load, component. rewrite M_bind_eq. unfold eval, exec. cbn [mret M_ret snd].
  destruct (is_http_url src); rewrite M_bind_eq; unfold eval, exec; cbn [mret M_ret snd].
  - apply fetch_remote_spec.
  - cbn. by split_and!; [apply rtc_refl|..].
Qed.

(** C28: A loaded plugin always runs with a positive deadline and the 64 MiB
    memory limit under the policy it was configured with; whatever goes wrong
    inside the guest, before or during the call, a fail-open plugin forwards the
    request unchanged and a fail-closed one rejects it with 403 naming itself; a
    decision the guest did make is the host's decision, field by field. *)
Theorem wasm_circuit_breaker n src budget mode p request w w' :
  load n src budget mode w = (Ok p, w') →
  name p = n ∧ (1 ≤ budget_ticks p)%Z ∧ (budget ≤ budget_ticks p)%Z ∧
  memory_bytes p = 67108864%Z ∧
  match evaluated p request with
  | Err _ =>
      run p request =
        match mode with
        | FailOpen => Pass
        | FailClosed => Reject (mkReject
            ("request blocked: plugin '" +:+ n +:+ "' could not evaluate it") 403)
        end
  | Ok guest.Pass => run p request = Pass
  | Ok (guest.Modify r) => run p request = Modify r
  | Ok (guest.Reject i) => run p request = Reject i
  end.
Proof.
  unfold load. rewrite M_bind_eq. unfold eval, exec, link.
  destruct (component n src w) as [[c|] w1]; cbn; [|done].
  destruct add_wasi_to_linker; cbn; [|done].
  destruct (instantiate_pre c) as [ip|]; cbn; [|done].
  destruct (plugin_pre ip) as [pp|]; cbn; [|done]. intros [= <- _]. cbn [name budget_ticks memory_bytes].
  split; [done|]. split; [lia|]. split; [lia|]. split; [done|].
  unfold evaluated, run. cbn [pre memory_bytes budget_ticks].
  destruct (instantiate pp _ _) as [i|e]; cbn [mbind result_bind]; [|by destruct mode].
  destruct request as [m pa h b]. cbn [PluginRequest.method PluginRequest.path
    PluginRequest.headers PluginRequest.body].
  destruct (call_inspect i _) as [[|[]|[]]|e]; cbn; done.
Qed.
End properties.

(** ** Witness: a host whose guests always run out of time *)
Definition sample_wasmtime : Wasmtime :=
  {| Component := (); InstancePre := (); PluginPre := (); Instance_ := ();
     component_from_binary _ := Ok (); component_from_file _ _ := Ok ();
     add_wasi_to_linker := Ok (); instantiate_pre _ := Ok (); plugin_pre _ := Ok ();
     instantiate _ _ _ := Ok ();
     call_inspect _ _ := Err (mkWasmError true "wasm trap: interrupt") |}.
Definition sample_plugin_request : PluginRequest := PluginRequest.mk "POST" "/v1/embeddings" [] [].
Lemma wasm_circuit_breaker_witness :
  @WasmPlugin.run sample_wasmtime (@WasmPlugin.mk sample_wasmtime "dlp" () 5 FailClosed DEFAULT_MEMORY_BYTES)
    sample_plugin_request
  = Reject (mkReject "request blocked: plugin 'dlp' could not evaluate it" 403).
Proof.
  exact (proj2 (proj2 (proj2 (proj2 (@wasm_circuit_breaker sample_reqwest sample_wasmtime "dlp"
    "/p.wasm" 5 FailClosed (@WasmPlugin.mk sample_wasmtime "dlp" () 5 FailClosed DEFAULT_MEMORY_BYTES)
    sample_plugin_request sample_world sample_world eq_refl))))).
Defined.
