(* ===== verification/PiiGuest.v ===== *)
(** * PiiGuest: the reference guest plugin ([plugins/pii-redaction]) and the plugin SDK

    What the WebAssembly component computes on a request; the component glue is
    generated by [wit-bindgen]. *)

From S2P Require Import Prelude Text Float64 Json Plugin Config Provider Anthropic Wasm.
Import Json.

(** The SDK's hook. *)
Module Hook.
Inductive Hook := InspectRequest.
Definition as_str (h : Hook) : string := match h with InspectRequest => "inspect-request" end.
End Hook.

Module Component.
Section component.
Context `{RegexCrate} `{SerdeJson}.

Definition REPLACEMENT : string := "[REDACTED]".
Definition patterns : list Regex :=
  omap regex_new
    ["\b\d{3}-\d{2}-\d{4}\b";
     "\b\d{4}[- ]?\d{4}[- ]?\d{4}[- ]?\d{4}\b";
     "\b\d{3}[-.]\d{3}[-.]\d{4}\b";
     "\b[A-Za-z0-9._%+-]+@[A-Za-z0-9.-]+\.[A-Za-z]{2,}\b"].
Definition redact (text : string) : string :=
  foldl (λ result pattern, replace_all pattern result REPLACEMENT) text patterns.

(** The loop over the messages: what they become, and whether any changed. *)
Fixpoint redact_messages (messages : list Value) (modified : bool) : list Value * bool :=
  match messages with
  | [] => ([], modified)
  | message :: messages =>
      let '(message, modified) :=
        match get "content" message with
        | Some (Str text) =>
            let redacted := redact text in
            if decide (redacted = text) then (message, modified)
            else (set "content" (Str redacted) message, true)
        | _ => (message, modified)
        end in
      let '(messages, modified) := redact_messages messages modified in
      (message :: messages, modified)
  end.
Definition inspect_request (req : PluginRequest) : guest.Action :=
  match from_slice (PluginRequest.body req) with
  | Err _ => guest.Pass
  | Ok value =>
      let '(value, modified) :=
        match get "messages" value ≫= as_array with
        | Some messages =>
            let '(messages, modified) := redact_messages messages false in
            (set "messages" (Array messages) value, modified)
        | None => (value, false)
        end in
      if negb modified then guest.Pass
      else
        match to_vec value with
        | Ok body =>
            guest.Modify (PluginRequest.mk (PluginRequest.method req) (PluginRequest.path req)
                            (PluginRequest.headers req) body)
        | Err _ => guest.Pass
        end
  end.
End component.
End Component.

Section properties.
Context `{RegexCrate} `{SerdeJson} `{Wasmtime}.

Abbreviation builtin := PiiRedactionPlugin.default.
Lemma redact_message_builtin m b :
  match get "content" m with
  | Some (Str text) =>
      let redacted := Component.redact text in
      if decide (redacted = text) then (m, b) else (set "content" (Str redacted) m, true)
  | _ => (m, b)
  end = ((PiiRedactionPlugin.redact_message builtin m).1,
         b || (PiiRedactionPlugin.redact_message builtin m).2).
Proof.
  unfold PiiRedactionPlugin.redact_message.
  assert (∀ t, Component.redact t = PiiRedactionPlugin.redact builtin t) as Hr by done.
  destruct (get "content" m) as [[| | |t| |]|]; cbn [as_str]; rewrite ?orb_false_r; try done.
  cbv zeta. rewrite Hr. case_decide; cbn [fst snd]; by rewrite ?orb_false_r, ?orb_true_r.
Qed.
Lemma redact_messages_builtin ms b :
  Component.redact_messages ms b
  = (map fst (map (PiiRedactionPlugin.redact_message builtin) ms),
     b || existsb snd (map (PiiRedactionPlugin.redact_message builtin) ms)).
Proof.
  revert b. induction ms as [|m ms IH]; intros b; cbn [Component.redact_messages map existsb].
  - by rewrite orb_false_r.
  - rewrite redact_message_builtin, IH. by rewrite orb_assoc.
Qed.

(** C29: The reference guest and the built-in plugin are interchangeable: a wasm
    plugin whose engine runs the guest on a request decides exactly what the
    native PII plugin with its default patterns and replacement decides on it,
    byte for byte. *)
Theorem guest_matches_builtin (p : WasmPlugin.WasmPlugin) (req : PluginRequest) :
  WasmPlugin.evaluated p req = Ok (Component.inspect_request req) →
  WasmPlugin.run p req = PiiRedactionPlugin.inspect_request PiiRedactionPlugin.default req.
Proof.
  intros He. assert (WasmPlugin.run p req = map_action (Component.inspect_request req)) as ->.
  { unfold WasmPlugin.evaluated in He. unfold WasmPlugin.run. destruct req.
    destruct (instantiate _ _ _) as [i|]; cbn in *; [|done]. by rewrite He. }
  unfold Component.inspect_request, PiiRedactionPlugin.inspect_request.
  destruct (from_slice _) as [value|]; [|done].
  destruct (get "messages" value ≫= as_array) as [ms|]; [|done].
  rewrite redact_messages_builtin. cbn [orb]. destruct (negb _); [done|].
  by destruct (to_vec _).
Qed.
End properties.

(** ** Witness: an engine that runs the guest *)
#[local] Existing Instance sample_regex.
#[local] Instance chat_json : SerdeJson := one_document Null.
Definition guest_engine : Wasmtime :=
  {| Wasm.Component := (); InstancePre := (); PluginPre := (); Instance_ := ();
     component_from_binary _ := Ok (); component_from_file _ _ := Ok ();
     add_wasi_to_linker := Ok (); instantiate_pre _ := Ok (); plugin_pre _ := Ok ();
     instantiate _ _ _ := Ok (); call_inspect _ req := Ok (Component.inspect_request req) |}.
#[local] Existing Instance guest_engine.
Lemma guest_matches_builtin_witness :
  WasmPlugin.run (WasmPlugin.mk "pii" () 5 FailOpen 0) (PluginRequest.mk "POST" "/v1" [] [Byte.x7b])
  = PiiRedactionPlugin.inspect_request PiiRedactionPlugin.default (PluginRequest.mk "POST" "/v1" [] [Byte.x7b]).
Proof. apply guest_matches_builtin. reflexivity. Defined.
