(* ===== verification/Runtime.v ===== *)
(** * Runtime: the hot-swappable bundle and the gateway's state ([runtime.rs])

    [Gateway] is everything the handlers share: the world, the caches (a heap, a
    runtime holding the handle of its own), the key store, the limiter, the spend
    tracker, the current runtime and the TLS configuration. *)

From S2P Require Import Prelude Text Float64 Json Events Auth Limits Plugin Config Provider.
From S2P Require Import OpenAi Azure Sse Anthropic SigV4 Bedrock Registry Cache Tls Wasm.
Import Json.

(** Process environment variables ([std::env::var(..).ok()]). *)
Class Env := { env_var : string → option string }.

Module RegisteredModel.
Record RegisteredModel := mk { id : string; provider : string }.
End RegisteredModel.
Abbreviation RegisteredModel := RegisteredModel.RegisteredModel.

Module Runtime.
Record Runtime `{Reqwest} := mk {
  connector : Connector;
  pricing : Pricing;
  cache : option nat;
  plugins : PluginChain;
  models : list RegisteredModel
}.
Arguments mk {_}.
Arguments connector {_}.
Arguments pricing {_}.
Arguments cache {_}.
Arguments plugins {_}.
Arguments models {_}.
End Runtime.
Abbreviation Runtime := Runtime.Runtime.

Record Gateway `{Reqwest} `{Moka} `{Rustls} := mkGateway {
  g_world : World;
  g_caches : list MokaCache;
  g_keys : KeyStore;
  g_limiter : RateLimiter;
  g_spend : SpendTracker;
  g_runtime : Runtime;
  g_tls : option ServerConfig
}.
Arguments mkGateway {_ _ _}.
Arguments g_world {_ _ _}.
Arguments g_caches {_ _ _}.
Arguments g_keys {_ _ _}.
Arguments g_limiter {_ _ _}.
Arguments g_spend {_ _ _}.
Arguments g_runtime {_ _ _}.
Arguments g_tls {_ _ _}.

Abbreviation G := (M Gateway).

Section state.
Context `{Reqwest} `{Moka} `{Rustls}.

Definition set_world (w : World) (g : Gateway) : Gateway :=
  mkGateway w (g_caches g) (g_keys g) (g_limiter g) (g_spend g) (g_runtime g) (g_tls g).
Definition set_caches (c : list MokaCache) (g : Gateway) : Gateway :=
  mkGateway (g_world g) c (g_keys g) (g_limiter g) (g_spend g) (g_runtime g) (g_tls g).
Definition set_keys (k : KeyStore) (g : Gateway) : Gateway :=
  mkGateway (g_world g) (g_caches g) k (g_limiter g) (g_spend g) (g_runtime g) (g_tls g).
Definition set_limiter (l : RateLimiter) (g : Gateway) : Gateway :=
  mkGateway (g_world g) (g_caches g) (g_keys g) l (g_spend g) (g_runtime g) (g_tls g).
Definition set_spend (s : SpendTracker) (g : Gateway) : Gateway :=
  mkGateway (g_world g) (g_caches g) (g_keys g) (g_limiter g) s (g_runtime g) (g_tls g).
Definition set_runtime (r : Runtime) (g : Gateway) : Gateway :=
  mkGateway (g_world g) (g_caches g) (g_keys g) (g_limiter g) (g_spend g) r (g_tls g).
Definition set_tls (t : option ServerConfig) (g : Gateway) : Gateway :=
  mkGateway (g_world g) (g_caches g) (g_keys g) (g_limiter g) (g_spend g) (g_runtime g) t.

(** Computations on the world alone. *)
Definition in_world {A} (c : W A) : G A := zoom g_world set_world c.
Definition g_emit (e : Effect) : G () := in_world (emit e).
Definition g_audit (e : AuditEvent) : G () := g_emit (EAudit e).
Definition g_now : G Z := gets (λ g, w_now (g_world g)).

Fixpoint g_emits (es : list Effect) : G () :=
  match es with [] => mret () | e :: es => g_emit e;; g_emits es end.

(** The heap of caches. *)
Definition new_cache (max_size_bytes ttl : Z) : G nat := λ g,
  (length (g_caches g),
   set_caches (g_caches g ++ [ResponseCache.new max_size_bytes ttl]) g).
Definition cache_get (h : nat) (key : string) : G (option CachedResponse) := λ g,
  match g_caches g !! h with
  | Some c =>
      let '(r, c') := ResponseCache.get key (w_now (g_world g)) c in
      (r, set_caches (<[h := c']> (g_caches g)) g)
  | None => (None, g)
  end.
Definition cache_insert (h : nat) (key : string) (v : CachedResponse) : G () := λ g,
  match g_caches g !! h with
  | Some c =>
      ((), set_caches (<[h := ResponseCache.insert key v (w_now (g_world g)) c]> (g_caches g)) g)
  | None => ((), g)
  end.
End state.

Module runtime.
Section build.
Context `{Reqwest} `{Moka} `{Rustls} `{SerdeJson} `{AnthropicSerde} `{BedrockSerde} `{Crypto}
  `{Entropy} `{RegexCrate} `{Wasmtime} `{Env} `{HashOrder}.

(** [std::env::var(..).unwrap_or_default()]. *)
Definition env_or_empty (var : string) : string :=
  match env_var var with Some v => v | None => "" end.
Definition read_key (var : string) : string := env_or_empty var.
Definition optional_env (var : string) : option string :=
  let value := env_or_empty var in if decide (value = "") then None else Some value.

(** A core error as the root of a chain. *)
Definition core {A} (r : result Error.Error A) : result anyhow A :=
  map_err (λ e, anyhow_msg (Error.to_string e)) r.

Definition build_openai (c : OpenAiProvider.OpenAiProvider) : result anyhow Connector :=
  x ← with_context "failed to build OpenAI connector"
        (core (OpenAiConnector.new (OpenAiProvider.base_url c)
          (read_key (OpenAiProvider.api_key_env c))));
  Ok (OpenAiConnector.connector x).
Definition build_anthropic (c : AnthropicProvider.AnthropicProvider) : result anyhow Connector :=
  x ← with_context "failed to build Anthropic connector"
        (core (AnthropicConnector.new (AnthropicProvider.base_url c)
          (read_key (AnthropicProvider.api_key_env c))));
  Ok (AnthropicConnector.connector x).
Definition build_azure (c : AzureProvider.AzureProvider) : result anyhow Connector :=
  x ← with_context "failed to build Azure OpenAI connector"
        (core (AzureConnector.new (AzureProvider.base_url c)
          (read_key (AzureProvider.api_key_env c)) (AzureProvider.api_version c)));
  Ok (AzureConnector.connector x).
Definition build_bedrock (c : BedrockProvider.BedrockProvider) : result anyhow Connector :=
  x ← with_context "failed to build Bedrock connector"
        (core (BedrockConnector.new (BedrockProvider.region c)
          (read_key (BedrockProvider.access_key_env c))
          (env_or_empty (BedrockProvider.secret_key_env c))
          (optional_env (BedrockProvider.session_token_env c))));
  Ok (BedrockConnector.connector x).

(** The four connectors and the registry over them. *)
Definition build_connectors (p : Providers.Providers) : result anyhow (gmap string Connector) :=
  openai ← build_openai (Providers.openai p);
  anthropic ← build_anthropic (Providers.anthropic p);
  azure ← build_azure (Providers.azure p);
  bedrock ← build_bedrock (Providers.bedrock p);
  Ok (collect_map [("openai", openai); ("anthropic", anthropic); ("azure", azure);
                   ("bedrock", bedrock)]).
Definition build_registry (config : Config) : result anyhow Registry.Registry :=
  connectors ← build_connectors (Config.providers config);
  with_context "failed to build model registry"
    (core (Registry.new connectors (Config.models config))).

Definition build_pricing (config : Config) : Pricing :=
  Pricing.overlaid_with Pricing.bundled (Config.pricing config).
Definition build_cache (c : CacheConfig.CacheConfig) : G (option nat) :=
  if CacheConfig.enabled c then
    let size_bytes := sat_mul_u64 (CacheConfig.size_mb c) (1024 * 1024) in
    Some <$> new_cache size_bytes (CacheConfig.ttl_seconds c)
  else mret None.
Definition build_models (ms : list ModelConfig) : list RegisteredModel :=
  map (λ m, RegisteredModel.mk (ModelConfig.name m) (Route.provider (ModelConfig.primary m))) ms.

Definition unsupported_hook (c : WasmPluginConfig.WasmPluginConfig) : string :=
  "wasm plugin '" +:+ WasmPluginConfig.name c +:+ "' binds unsupported hook '"
  +:+ WasmPluginConfig.hook c +:+ "'; only 'inspect-request' is supported".

(** One iteration of the plugin loop. *)
Definition build_plugin (p : PluginConfig) : G (result anyhow PluginEntry) :=
  match p with
  | PiiRedaction c =>
      let plugin := PiiRedactionPlugin.new (PiiRedactionConfig.patterns c)
                      (PiiRedactionConfig.replacement c) in
      g_audit (audit.plugin_loaded PiiRedactionPlugin.name "pii_redaction" "built-in");;
      mret (Ok (mkEntry (PiiRedactionPlugin.as_plugin plugin) []))
  | Wasm c =>
      if decide (WasmPluginConfig.hook c = "inspect-request") then
        loaded ← in_world (WasmPlugin.load (WasmPluginConfig.name c) (WasmPluginConfig.path c)
                             (WasmPluginConfig.latency_budget_ms c) (WasmPluginConfig.on_timeout c));
        try_ (with_context ("failed to load wasm plugin '" +:+ WasmPluginConfig.name c +:+ "'") loaded)
          (λ plugin,
             g_audit (audit.plugin_loaded (WasmPlugin.name plugin) "wasm" (WasmPluginConfig.path c));;
             mret (Ok (mkEntry (WasmPlugin.as_plugin plugin) (WasmPluginConfig.bind_routes c))))
      else mret (Err (anyhow_msg (unsupported_hook c)))
  end.
Fixpoint build_plugins (ps : list PluginConfig) : G (result anyhow PluginChain) :=
  match ps with
  | [] => mret (Ok [])
  | p :: ps =>
      try_m (build_plugin p) (λ e, try_m (build_plugins ps) (λ es, mret (Ok (e :: es))))
  end.

Definition build_runtime (config : Config) : G (result anyhow Runtime) :=
  try_ (build_registry config) (λ registry,
    let pricing := build_pricing config in
    cache ← build_cache (Config.cache config);
    let models := build_models (Config.models config) in
    try_m (build_plugins (Config.plugins config)) (λ plugins,
      mret (Ok (Runtime.mk (Registry.as_connector registry) pricing cache plugins models)))).

(** The reload of the TLS material when the gateway has TLS and the new
    configuration still does; the other combinations only log. *)
Definition reload_tls (config : Config) : G (result anyhow ()) := λ g,
  match g_tls g, Listen.tls (Config.listen config) with
  | Some live, Some t =>
      let '(r, live) := tls.reload_certs t (w_now (g_world g)) live in (r, set_tls (Some live) g)
  | _, _ => (Ok (), g)
  end.

Definition reload `{Config.Figment} (config_path : option string) : G (result anyhow ()) :=
  now ← g_now;
  try_ (with_context "failed to load configuration" (core (Config.load config_path now)))
    (λ config,
       r ← build_runtime config;
       try_ (with_context "failed to build runtime from new config" r) (λ new_runtime,
         try_m (reload_tls config) (λ _,
           modify (set_runtime new_runtime);;
           mret (Ok ())))).
End build.
End runtime.

(** ** Lemmas: what building a runtime leaves alone *)
Section frame.
Context `{Reqwest} `{Moka} `{Rustls}.

(** Everything but the trace, the clock, new caches and the downloads of plugins. *)
Record frame (g g' : Gateway) : Prop := {
  frame_keys : g_keys g' = g_keys g;
  frame_limiter : g_limiter g' = g_limiter g;
  frame_spend : g_spend g' = g_spend g;
  frame_runtime : g_runtime g' = g_runtime g;
  frame_tls : g_tls g' = g_tls g;
  frame_caches : g_caches g `prefix_of` g_caches g';
  frame_net : downloads (w_net (g_world g)) (w_net (g_world g'))
}.
#[export] Instance frame_preorder : PreOrder frame.
Proof.
  split.
  - intros g. by constructor.
  - intros a b c [] []. constructor; by etrans.
Qed.

Lemma M_bind_frame {A B} (c : G A) (k : A → G B) g :
  frame g (c g).2 → (∀ a, frame (c g).2 (k a (c g).2).2) → frame g ((c ≫= k) g).2.
Proof. rewrite M_bind_eq. unfold eval, exec. intros H2 H3. etrans; [exact H2|apply H3]. Qed.

Lemma g_emit_frame e g : frame g (g_emit e g).2.
Proof. by constructor. Qed.

Lemma try_frame {E A B} (r : result E A) (k : A → G (result E B)) g :
  (∀ a, frame g (k a g).2) → frame g (try_ r k g).2.
Proof. destruct r; cbn; [auto|]. intros _. reflexivity. Qed.
End frame.

Section reload.
Context `{Reqwest} `{Moka} `{Rustls} `{SerdeJson} `{AnthropicSerde} `{BedrockSerde} `{Crypto}
  `{Entropy} `{RegexCrate} `{Wasmtime} `{Env} `{HashOrder} `{Config.Figment}.
Import runtime.

Lemma load_frame n src budget mode g :
  frame g (in_world (WasmPlugin.load n src budget mode) g).2.
Proof.
  pose proof (load_world n src budget mode (g_world g)) as (Hd & _). unfold in_world, zoom.
  by destruct (WasmPlugin.load n src budget mode (g_world g)) as [r w].
Qed.
Lemma build_plugin_frame p g : frame g (build_plugin p g).2.
Proof.
  destruct p as [c|c]; cbn [build_plugin].
  - apply M_bind_frame; [apply g_emit_frame|]. intros ?. reflexivity.
  - case_decide; [|reflexivity]. apply M_bind_frame; [apply load_frame|]. intros loaded.
    apply try_frame. intros plugin.
    apply M_bind_frame; [apply g_emit_frame|]. intros ?. reflexivity.
Qed.
Lemma build_plugins_frame ps g : frame g (build_plugins ps g).2.
Proof.
  revert g. induction ps as [|p ps IH]; intros g; cbn [build_plugins]; [reflexivity|].
  unfold try_m. apply M_bind_frame; [apply build_plugin_frame|]. intros r.
  apply try_frame. intros e. apply M_bind_frame; [apply IH|]. intros r'.
  apply try_frame. intros es. reflexivity.
Qed.
Lemma build_cache_frame c g : frame g (build_cache c g).2.
Proof.
  unfold build_cache. destruct (CacheConfig.enabled c); [|reflexivity].
  constructor; try done. cbn. by apply prefix_app_r.
Qed.
Lemma build_runtime_frame config g : frame g (build_runtime config g).2.
Proof.
  unfold build_runtime. apply try_frame. intros registry.
  apply M_bind_frame; [apply build_cache_frame|]. intros cache. unfold try_m.
  apply M_bind_frame; [apply build_plugins_frame|]. intros r. apply try_frame. intros ?. reflexivity.
Qed.

(** What each plugin entry of a built runtime is: the redactor its configuration
    describes, on every route; or what loading its component gave, under its hook and on
    the routes it is bound to. *)
Definition plugin_built (p : PluginConfig) (e : PluginEntry) : Prop :=
  match p with
  | PiiRedaction c =>
      e = mkEntry (PiiRedactionPlugin.as_plugin
            (PiiRedactionPlugin.new (PiiRedactionConfig.patterns c) (PiiRedactionConfig.replacement c))) []
  | Wasm c =>
      WasmPluginConfig.hook c = "inspect-request" ∧
      ∃ x w, (WasmPlugin.load (WasmPluginConfig.name c) (WasmPluginConfig.path c)
                (WasmPluginConfig.latency_budget_ms c) (WasmPluginConfig.on_timeout c) w).1 = Ok x ∧
        e = mkEntry (WasmPlugin.as_plugin x) (WasmPluginConfig.bind_routes c)
  end.
(** What a built runtime is made of. *)
Definition built_from (config : Config) (r : Runtime) : Prop :=
  (∃ reg, build_registry config = Ok reg ∧ Runtime.connector r = Registry.as_connector reg) ∧
  Runtime.pricing r = build_pricing config ∧
  (is_Some (Runtime.cache r) ↔ CacheConfig.enabled (Config.cache config) = true) ∧
  Runtime.models r = build_models (Config.models config) ∧
  Forall2 plugin_built (Config.plugins config) (Runtime.plugins r).

Lemma build_plugin_built p g e g' : build_plugin p g = (Ok e, g') → plugin_built p e.
Proof.
  destruct p as [c|c]; cbn [build_plugin plugin_built].
  - rewrite M_bind_eq. by intros [= <- _].
  - case_decide as Hh; [|done]. rewrite M_bind_eq. unfold in_world, zoom, eval, exec.
    destruct (WasmPlugin.load _ _ _ _ (g_world g)) as [[x|e1] w] eqn:El; cbn [fst snd with_context map_err try_]; [|done].
    rewrite M_bind_eq. intros [= <- _]. split; [done|]. exists x, (g_world g). by rewrite El.
Qed.
Lemma build_plugins_built ps g es g' :
  build_plugins ps g = (Ok es, g') → Forall2 plugin_built ps es.
Proof.
  revert g es g'. induction ps as [|p ps IH]; intros g es g'; cbn [build_plugins].
  - intros [= <- _]. constructor.
  - unfold try_m. rewrite M_bind_eq. unfold eval, exec.
    destruct (build_plugin p g) as [[e|e] g1] eqn:Ep; cbn [fst snd try_]; [|done].
    rewrite M_bind_eq. unfold eval, exec.
    destruct (build_plugins ps g1) as [[es1|e1] g2] eqn:E; cbn [fst snd try_]; [|done].
    intros [= <- _]. constructor; [by eapply build_plugin_built|by eapply IH].
Qed.

Lemma build_runtime_built config g r g' :
  build_runtime config g = (Ok r, g') → built_from config r.
Proof.
  unfold build_runtime. destruct (build_registry config) as [reg|] eqn:Er; cbn [try_]; [|done].
  rewrite M_bind_eq. unfold eval, exec.
  assert (is_Some (build_cache (Config.cache config) g).1
    ↔ CacheConfig.enabled (Config.cache config) = true) as Hc.
  { unfold build_cache. destruct (CacheConfig.enabled _); cbn; [by split; [|eauto]|].
    split; [by intros []|done]. }
  destruct (build_cache _ g) as [h g1]. cbn [fst snd] in *. unfold try_m.
  rewrite M_bind_eq. unfold eval, exec.
  destruct (build_plugins _ g1) as [[es|e] g2] eqn:Ep; cbn [fst snd try_]; [|done].
  intros [= <- _]. split; [by exists reg|]. split; [done|]. split; [done|]. split; [done|].
  by eapply build_plugins_built.
Qed.

Lemma reload_tls_frame config g r g' :
  reload_tls config g = (r, g') →
  g_keys g' = g_keys g ∧ g_limiter g' = g_limiter g ∧ g_spend g' = g_spend g ∧
  g_runtime g' = g_runtime g ∧ g_caches g' = g_caches g ∧ g_world g' = g_world g ∧
  (is_Some (g_tls g') ↔ is_Some (g_tls g)) ∧
  (is_ok r = false → g_tls g' = g_tls g).
Proof.
  unfold reload_tls. destruct (g_tls g) as [live|] eqn:El, (Listen.tls (Config.listen config)) as [t|];
    try (by intros [= <- <-]; rewrite ?El).
  unfold tls.reload_certs. set (p := match TlsConfig.client_ca_path t with Some _ => _ | None => _ end).
  destruct p; intros [= <- <-]; cbn; rewrite ?El; split_and!; done.
Qed.

Lemma reload_spec path g :
  let '(r, g') := reload path g in
  g_keys g' = g_keys g ∧ g_limiter g' = g_limiter g ∧ g_spend g' = g_spend g ∧
  g_caches g `prefix_of` g_caches g' ∧ downloads (w_net (g_world g)) (w_net (g_world g')) ∧
  (is_Some (g_tls g') ↔ is_Some (g_tls g)) ∧
  match r with
  | Err _ => g_runtime g' = g_runtime g ∧ g_tls g' = g_tls g
  | Ok _ => ∃ config, Config.load path (w_now (g_world g)) = Ok config ∧
      built_from config (g_runtime g')
  end.
Proof.
  unfold reload. rewrite M_bind_eq. unfold g_now, gets, eval, exec. cbn [fst snd].
  destruct (Config.load path _) as [config|e]; cbn [core map_err with_context try_]; [|done].
  rewrite M_bind_eq. unfold eval, exec.
  pose proof (build_runtime_frame config g) as Hf.
  destruct (build_runtime config g) as [r1 g1] eqn:Eb. cbn [fst snd] in *.
  destruct r1 as [rt|e]; cbn [with_context map_err try_]; [|destruct Hf; split_and!; congruence || by rewrite frame_tls0].
  apply build_runtime_built in Eb. unfold try_m. rewrite M_bind_eq. unfold eval, exec.
  destruct (reload_tls config g1) as [r2 g2] eqn:Et.
  apply reload_tls_frame in Et as (E1 & E2 & E3 & E4 & E5 & E6 & E8 & E7).
  destruct Hf as [F1 F2 F3 F4 F5 F6 F7]. cbn [fst snd].
  destruct r2 as [u|e]; cbn [try_].
  - rewrite M_bind_eq. unfold modify, eval, exec, mret, M_ret. cbn [fst snd set_runtime
      g_keys g_limiter g_spend g_caches g_runtime g_tls g_world].
    rewrite E1, E2, E3, E5, E6. split_and!; try done; [by rewrite E8, F5|by exists config].
  - unfold mret, M_ret. rewrite E1, E2, E3, E4, E5, E6, E7 by done. split_and!; try done. by rewrite F5.
Qed.

(** C14: A reload is all or nothing. Whatever fails (the file, a connector, an
    unknown provider, a plugin, the TLS material), the gateway keeps its runtime
    and its TLS material; when it succeeds the runtime is the one built from the
    configuration read, in one swap. Either way virtual keys, rate-limit buckets
    and recorded spend are untouched, and so are the caches in-flight requests may
    still hold. *)
Theorem reload_atomic path g :
  let '(r, g') := reload path g in
  g_keys g' = g_keys g ∧ g_limiter g' = g_limiter g ∧ g_spend g' = g_spend g ∧
  g_caches g `prefix_of` g_caches g' ∧
  match r with
  | Err _ => g_runtime g' = g_runtime g ∧ g_tls g' = g_tls g
  | Ok _ => ∃ config, Config.load path (w_now (g_world g)) = Ok config ∧
      built_from config (g_runtime g')
  end.
Proof.
  pose proof (reload_spec path g) as Hr. destruct (reload path g) as [r g'].
  destruct Hr as (? & ? & ? & ? & _ & _ & Hr). by split_and!.
Qed.
End reload.

(** For concrete inputs. *)
Definition sample_env : Env := {| env_var _ := Some "secret" |}.
