(* ===== verification/Connectors.v ===== *)
(** * Connectors: the contract every connector keeps

    The promises of the trait [Connector] that its callers rely on, as classes, with
    an instance for each connector the gateway builds and for the registry over
    them; the proxy's theorems need only the classes. *)

From S2P Require Import Prelude Text Float64 Json Events Auth Limits Plugin Config Provider.
From S2P Require Import OpenAi Azure Sse Anthropic SigV4 Bedrock Registry Cache Tls Wasm Runtime.
Import Json.

(** ** What a call may emit *)
Section silence.
Context `{Reqwest}.

(** Time passes, and nothing is emitted. *)
Definition Silent {A} (c : W A) : Prop :=
  ∀ w, w_trace (c w).2 = w_trace w ∧ (w_now w ≤ w_now (c w).2)%Z.
Lemma Silent_ret {A} (a : A) : Silent (mret a).
Proof. done. Qed.
Lemma Silent_gets {A} (f : World → A) : Silent (gets f).
Proof. done. Qed.
Lemma Silent_bind {A B} (c : W A) (k : A → W B) : Silent c → (∀ a, Silent (k a)) → Silent (c ≫= k).
Proof.
  intros Hc Hk w. rewrite M_bind_eq. unfold eval, exec.
  destruct (Hc w) as [Ec Lc], (Hk (c w).1 (c w).2) as [Ek Lk]. split; [congruence|lia].
Qed.
Lemma Silent_fmap {A B} (f : A → B) (c : W A) : Silent c → Silent (f <$> c).
Proof. intros Hc w. specialize (Hc w). unfold fmap, M_fmap. by destruct (c w). Qed.
Lemma Silent_send r : Silent (http_send r).
Proof.
  intros w. unfold http_send. destruct (send _ _) as [[resp net] t]. cbn. split; [done|lia].
Qed.
Lemma Silent_elapse nanos : Silent (elapse nanos).
Proof. intros w. cbn. split; [done|lia]. Qed.
Lemma Silent_bytes r : Silent (http_bytes r).
Proof. apply Silent_bind; [apply Silent_elapse|]. intros. apply Silent_ret. Qed.
Lemma timeout_trace {A} n (c : W A) w : w_trace (timeout_ n c w).2 = w_trace (c w).2.
Proof. unfold timeout_. destruct (c w). by case_match. Qed.
Lemma timeout_onward {A} n (c : W A) w :
  (w_now w ≤ w_now (c w).2)%Z → (w_now w ≤ w_now (timeout_ n c w).2)%Z.
Proof. unfold timeout_. destruct (c w) as [a w']. cbn. case_match; cbn; lia. Qed.

(** Time passes, and nothing but failover events is emitted. *)
Definition failover_only (evs : list AuditEvent) : Prop := Forall (λ e, action e = "failover") evs.
Definition OnlyFailovers {A} (c : W A) : Prop :=
  ∀ w, (w_now w ≤ w_now (c w).2)%Z ∧
    ∃ evs, w_trace (c w).2 = w_trace w ++ map EAudit evs ∧ failover_only evs.
Lemma Silent_failovers {A} (c : W A) : Silent c → OnlyFailovers c.
Proof.
  intros Hc w. destruct (Hc w) as [E L]. split; [done|].
  exists []. rewrite E. split; [by rewrite app_nil_r|constructor].
Qed.
Lemma OnlyFailovers_bind {A B} (c : W A) (k : A → W B) :
  OnlyFailovers c → (∀ a, OnlyFailovers (k a)) → OnlyFailovers (c ≫= k).
Proof.
  intros Hc Hk w. rewrite M_bind_eq. unfold eval, exec.
  destruct (Hc w) as (L1 & e1 & E1 & F1), (Hk (c w).1 (c w).2) as (L2 & e2 & E2 & F2).
  split; [lia|]. exists (e1 ++ e2). rewrite E2, E1, <-app_assoc, map_app. split; [done|].
  by apply Forall_app.
Qed.
End silence.

Create HintDb silent discriminated.
#[export] Hint Resolve Silent_ret Silent_gets Silent_send Silent_elapse Silent_bytes : silent.
Ltac silent :=
  repeat (intros; first [progress eauto with silent | apply Silent_bind | apply Silent_fmap | case_match]).

(** ** The contract *)
Section contract.
Context `{Reqwest}.

(** A connector to one provider emits nothing. *)
Class DirectConnector (c : Connector) : Prop := {
  direct_chat q : Silent (c_chat c q);
  direct_embeddings q : Silent (c_embeddings c q);
  direct_reachable : Silent (c_reachable c)
}.
(** A connector the proxy calls emits failovers at most. *)
Class LawfulConnector (c : Connector) : Prop := {
  lawful_chat q : OnlyFailovers (c_chat c q);
  lawful_embeddings q : OnlyFailovers (c_embeddings c q);
  lawful_reachable : Silent (c_reachable c)
}.
#[export] Instance direct_lawful c : DirectConnector c → LawfulConnector c.
Proof. intros []. split; eauto using Silent_failovers. Qed.

(** Every answer of a call. *)
Definition Always (P : ChatResponse → Prop) (c : W (option (result Error.Error ChatResponse))) : Prop :=
  ∀ w r, (c w).1 = Some (Ok r) → P r.
(** An answer is attributed to the connector, and to the model that was asked for. *)
Definition attributed (provider model : string) (r : ChatResponse) : Prop :=
  ChatResponse.provider r = provider ∧ ChatResponse.model r = model.
Class AttributedConnector (c : Connector) : Prop := {
  attributed_chat q : Always (attributed (c_name c) (ChatRequest.model q)) (c_chat c q);
  attributed_embeddings q : Always (attributed (c_name c) (EmbeddingsRequest.model q)) (c_embeddings c q)
}.
(** The answer to a streaming request reports no usage: that is in the stream. *)
Definition unreported (r : ChatResponse) : Prop := ChatResponse.usage r = None.
Class StreamConnector (c : Connector) : Prop := {
  stream_chat q : ChatRequest.stream q = true → Always unreported (c_chat c q)
}.
End contract.

(** ** The four connectors *)
Section direct.
Context `{Reqwest} `{SerdeJson} `{AnthropicSerde} `{BedrockSerde} `{Crypto} `{Entropy}.

Lemma reachable_silent url : Silent (http_reachable url).
Proof. unfold http_reachable. silent. Qed.
#[local] Hint Resolve reachable_silent : silent.
#[export] Instance openai_direct c : DirectConnector (OpenAiConnector.connector c).
Proof.
  split; cbn; intros; unfold OpenAiConnector.chat, OpenAiConnector.embeddings,
    OpenAiConnector.buffered, OpenAiConnector.reachable; silent.
Qed.
#[export] Instance azure_direct c : DirectConnector (AzureConnector.connector c).
Proof.
  split; cbn; intros; unfold AzureConnector.chat, AzureConnector.embeddings,
    AzureConnector.buffered, AzureConnector.reachable; silent.
Qed.
#[export] Instance anthropic_direct c : DirectConnector (AnthropicConnector.connector c).
Proof.
  split; cbn; intros; unfold AnthropicConnector.chat, AnthropicConnector.streamed,
    AnthropicConnector.buffered, AnthropicConnector.reachable, embeddings_unsupported,
    random_bytes, epoch_seconds; silent.
Qed.
#[export] Instance bedrock_direct c : DirectConnector (BedrockConnector.connector c).
Proof.
  split; cbn; intros; unfold BedrockConnector.chat, BedrockConnector.buffered,
    BedrockConnector.reachable, embeddings_unsupported, epoch_seconds; silent.
Qed.
End direct.

(** ** What a call answers *)
Section post.
Context `{Reqwest}.
Definition Post {A} (P : A → Prop) (c : W A) : Prop := ∀ w, P (c w).1.
Lemma Post_ret {A} (P : A → Prop) a : P a → Post P (mret a).
Proof. by intros ? w. Qed.
Lemma Post_bind {A B} (Q : A → Prop) (P : B → Prop) (c : W A) (k : A → W B) :
  Post Q c → (∀ a, Q a → Post P (k a)) → Post P (c ≫= k).
Proof. intros Hc Hk w. rewrite M_bind_eq. unfold eval, exec. by apply Hk. Qed.
Lemma Post_any {A B} (P : B → Prop) (c : W A) (k : A → W B) : (∀ a, Post P (k a)) → Post P (c ≫= k).
Proof. intros Hk w. rewrite M_bind_eq. apply Hk. Qed.
Lemma Post_fmap {A B} (P : B → Prop) (f : A → B) (c : W A) : Post (λ a, P (f a)) c → Post P (f <$> c).
Proof. intros Hc w. specialize (Hc w). unfold fmap, M_fmap. by destruct (c w). Qed.
End post.

(** ** Streaming requests *)
Section streams.
Context `{Reqwest} `{SerdeJson} `{AnthropicSerde} `{BedrockSerde} `{Crypto} `{Entropy}.

Lemma Always_Post (P : ChatResponse → Prop) c :
  Always P c ↔ Post (λ x, ∀ r, x = Some (Ok r) → P r) c.
Proof. done. Qed.
Lemma Always_fmap (P : ChatResponse → Prop) (c : W (result Error.Error ChatResponse)) :
  Post (λ x, ∀ r, x = Ok r → P r) c → Always P (Some <$> c).
Proof.
  intros Hc w r. specialize (Hc w). unfold fmap, M_fmap. destruct (c w) as [x w']. intros [= ->].
  by apply Hc.
Qed.
#[export] Instance openai_stream c : StreamConnector (OpenAiConnector.connector c).
Proof.
  split. cbn. intros q Hq. apply Always_fmap, Post_any. intros [resp|e]; cbn; [|by apply Post_ret].
  rewrite Hq. apply Post_ret. by intros r [= <-].
Qed.
#[export] Instance azure_stream c : StreamConnector (AzureConnector.connector c).
Proof.
  split. cbn. intros q Hq. apply Always_fmap, Post_any. intros [resp|e]; cbn; [|by apply Post_ret].
  rewrite Hq. apply Post_ret. by intros r [= <-].
Qed.
#[export] Instance bedrock_stream c : StreamConnector (BedrockConnector.connector c).
Proof.
  split. cbn. intros q Hq. apply Always_fmap. unfold BedrockConnector.chat. rewrite Hq.
  apply Post_ret. by intros r [= <-].
Qed.
Lemma anthropic_buffered_unreported r model :
  Http.status r ≠ 200%Z → Always unreported (AnthropicConnector.buffered r model).
Proof.
  intros Hs. apply Always_Post, Post_any. intros body. apply Post_any. intros created.
  apply Post_ret. destruct body as [b|e]; [|done]. cbn. rewrite decide_False by done.
  intros a. destruct (to_openai_error b); cbn; [|done]. by intros [= <-].
Qed.
#[export] Instance anthropic_stream c : StreamConnector (AnthropicConnector.connector c).
Proof.
  split. cbn. intros q Hq. apply Always_Post. unfold AnthropicConnector.chat. rewrite Hq.
  destruct (AnthropicConnector.payload q); [|by apply Post_ret].
  apply Post_any. intros [resp|e]; cbn [map_err]; [|by apply Post_ret]. cbn [andb].
  case_bool_decide; [|by apply anthropic_buffered_unreported].
  apply Post_any. intros ids. apply Post_any. intros created. apply Post_ret. by intros ans [= <-].
Qed.

(** Attribution. *)
Lemma openai_buffered_attributed r model :
  Post (λ x, ∀ a, x = Ok a → attributed "openai" model a) (OpenAiConnector.buffered r model).
Proof. apply Post_any. intros [b|e]; apply Post_ret; [|done]. by intros a [= <-]. Qed.
Lemma azure_buffered_attributed r model :
  Post (λ x, ∀ a, x = Ok a → attributed "azure" model a) (AzureConnector.buffered r model).
Proof. apply Post_any. intros [b|e]; apply Post_ret; [|done]. by intros a [= <-]. Qed.
#[export] Instance openai_attributed c : AttributedConnector (OpenAiConnector.connector c).
Proof.
  split; cbn; intros q; apply Always_fmap, Post_any; intros [resp|e]; cbn; try by apply Post_ret.
  - destruct (negb _); [apply openai_buffered_attributed|]. apply Post_ret. by intros r [= <-].
  - apply openai_buffered_attributed.
Qed.
#[export] Instance azure_attributed c : AttributedConnector (AzureConnector.connector c).
Proof.
  split; cbn; intros q; apply Always_fmap, Post_any; intros [resp|e]; cbn; try by apply Post_ret.
  - destruct (negb _); [apply azure_buffered_attributed|]. apply Post_ret. by intros r [= <-].
  - apply azure_buffered_attributed.
Qed.
Lemma anthropic_buffered_attributed r model :
  Always (attributed "anthropic" model) (AnthropicConnector.buffered r model).
Proof.
  apply Always_Post, Post_any. intros body. apply Post_any. intros created. apply Post_ret.
  destruct body as [b|e]; [|done]. cbn. intros a. case_decide.
  - destruct (to_openai_response b created) as [[b' u]|]; cbn; [|done]. by intros [= <-].
  - destruct (to_openai_error b); cbn; [|done]. by intros [= <-].
Qed.
#[export] Instance anthropic_attributed c : AttributedConnector (AnthropicConnector.connector c).
Proof.
  split; cbn; intros q; [|by intros w r]. apply Always_Post. unfold AnthropicConnector.chat.
  destruct (AnthropicConnector.payload q); [|by apply Post_ret].
  apply Post_any. intros [resp|e]; cbn; [|by apply Post_ret].
  destruct (_ && _); [|apply anthropic_buffered_attributed].
  apply Post_any. intros ids. apply Post_any. intros created. apply Post_ret. by intros ? [= <-].
Qed.
#[export] Instance bedrock_attributed c : AttributedConnector (BedrockConnector.connector c).
Proof.
  split; cbn; intros q; [|by intros w r]. apply Always_fmap. unfold BedrockConnector.chat.
  destruct (ChatRequest.stream q).
  { apply Post_ret. by intros a [= <-]. }
  destruct (BedrockConnector.payload q); [|by apply Post_ret].
  apply Post_any. intros secs. destruct (format_amz_date secs) as [d s].
  apply Post_any. intros [resp|e]; cbn; [|by apply Post_ret].
  apply Post_any. intros body. apply Post_any. intros created. apply Post_ret.
  destruct body as [b|e]; [|done]. cbn. intros ans. case_decide.
  - destruct (to_openai_response b created) as [[b' u]|]; cbn; [|done]. by intros [= <-].
  - by intros [= <-].
Qed.
End streams.

(** ** The registry *)
Section registry.
Context `{Reqwest} `{HashOrder}.
Import Registry.

Lemma failover_to_only resolved vm route index reason :
  OnlyFailovers (failover_to resolved vm route index reason).
Proof.
  intros w. split; [done|]. eexists [_]. split; [done|]. by constructor; [|constructor].
Qed.
Lemma attempts_only resolved vm call index rs :
  Forall (λ r, ∀ m, OnlyFailovers (call (connector r) m)) rs →
  OnlyFailovers (attempts_from resolved vm call index rs).
Proof.
  revert index. induction rs as [|route rs IH]; intros index Hrs; cbn [attempts_from];
    [by apply Silent_failovers|].
  apply Forall_cons in Hrs as [Hr Hrs]. apply OnlyFailovers_bind.
  { intros w. destruct (Hr (model route) w) as (L & evs & E & F). split; [by apply timeout_onward|].
    exists evs. by rewrite timeout_trace. }
  intros answer.
  repeat case_match; try (by apply Silent_failovers);
    apply OnlyFailovers_bind; intros; (apply failover_to_only || by apply IH).
Qed.
Lemma attempts_always (P : ChatResponse → Prop) resolved vm call index rs :
  (∀ n r, P r → P (with_attempts (wrap_u32 n) r)) →
  Forall (λ r, ∀ m, Always P (call (connector r) m)) rs →
  Always P (attempts_from resolved vm call index rs).
Proof.
  set (good' (x : option (result Error.Error ChatResponse)) := ∀ r, x = Some (Ok r) → P r).
  intros HP Hrs. enough (Post good' (attempts_from resolved vm call index rs)) by done. revert index.
  induction rs as [|route rs IH]; intros index; cbn [attempts_from]; [by apply Post_ret|].
  apply Forall_cons in Hrs as [Hr Hrs].
  eapply (Post_bind (λ x, ∀ y, x = Some y → good' y)).
  { intros w y. unfold timeout_. specialize (Hr (model route) w).
    destruct (call _ _ w) as [z w']. case_match; [|done]. cbn. by intros [= <-]. }
  intros answer Ha.
  assert (∀ r, Post good' (failover_to resolved vm route index r;;
    attempts_from resolved vm call (index + 1) rs)) as Hnext
    by (intros; apply Post_any; intros; by apply IH).
  destruct answer as [[[r|e]|]|]; try by case_match; [apply Post_ret|apply Hnext].
  - case_match; [apply Hnext|]. apply Post_ret. intros r' [= <-].
    apply HP, (Ha _ eq_refl r eq_refl).
  - by apply Post_ret.
Qed.
(** A registry over connectors that keep the contract keeps it. *)
Lemma resolved_all {P : Connector → Prop} cs ms self name rm :
  new cs ms = Ok self → (∀ n c, cs !! n = Some c → P c) → models self !! name = Some rm →
  Forall (λ r, P (connector r)) (routes rm).
Proof.
  intros Hn Hp Hm. destruct (new_models _ _ _ _ _ Hn Hm) as (m & _ & _ & Hr).
  apply resolve_ok in Hr as (Hf & _ & _).
  induction Hf as [|q x qs xs [Hc _] _ IH]; constructor; eauto.
Qed.
Lemma new_connectors cs ms self : new cs ms = Ok self → connectors self = cs.
Proof. unfold new. destruct (resolve_all _ _ _); cbn; [|done]. by intros [= <-]. Qed.
Lemma fallback_all {P : Connector → Prop} cs ms self name c :
  new cs ms = Ok self → (∀ n c, cs !! n = Some c → P c) → fallback_connector self name = Some c → P c.
Proof.
  intros Hn Hp. unfold fallback_connector. rewrite (new_connectors _ _ _ Hn). apply Hp.
Qed.

Lemma probe_all_silent cs : Forall (λ c, Silent (c_reachable c)) cs → Silent (probe_all cs).
Proof.
  induction 1 as [|c cs Hc _ IH]; cbn [probe_all]; [done|]. silent.
Qed.
Lemma distinct_step_in rs acc c :
  c ∈ (foldl distinct_step acc rs).2 → c ∈ acc.2 ∨ ∃ r, r ∈ rs ∧ connector r = c.
Proof.
  revert acc. induction rs as [|r rs IH]; intros acc; cbn [foldl]; [by left|].
  intros [Hc|(r' & ? & ?)]%IH; [|right; exists r'; by split; [right|]].
  unfold distinct_step in Hc. destruct acc as [seen cs]. case_decide; [by left|].
  cbn in Hc. apply elem_of_app in Hc as [?|Hc%list_elem_of_singleton]; [by left|].
  subst c. right. exists r. split; [by left|done].
Qed.
Lemma reachable_registry cs ms self :
  new cs ms = Ok self → (∀ n c, cs !! n = Some c → LawfulConnector c) → Silent (reachable self).
Proof.
  intros Hn Hc. unfold reachable.
  assert (Forall (λ c, Silent (c_reachable c)) (distinct (all_routes self))) as Hd.
  { apply Forall_forall. intros c [Hf|(r & Hr & <-)]%distinct_step_in; [by apply not_elem_of_nil in Hf|].
    unfold all_routes in Hr. apply list_elem_of_In, in_concat in Hr as (l & Hl & Hr%list_elem_of_In).
    apply list_elem_of_In, list_elem_of_fmap in Hl as ([n m] & -> & Hin%elem_of_hm_iter).
    pose proof (resolved_all (P := LawfulConnector) _ _ _ _ _ Hn Hc Hin) as Hall.
    rewrite Forall_forall in Hall. by destruct (Hall r Hr). }
  destruct (distinct (all_routes self)) as [|c l] eqn:E; [done|].
  apply Silent_bind; [|done]. by apply probe_all_silent.
Qed.

Lemma registry_lawful cs ms self :
  new cs ms = Ok self → (∀ n c, cs !! n = Some c → LawfulConnector c) →
  LawfulConnector (as_connector self).
Proof.
  intros Hn Hc. split; cbn [as_connector c_chat c_embeddings c_reachable]; intros.
  - unfold chat. destruct (models self !! _) as [rm|] eqn:E.
    + apply attempts_only. eapply Forall_impl; [by eapply (resolved_all (P := LawfulConnector))|].
      intros r [] m. apply lawful_chat0.
    + destruct (fallback_connector self _) as [c|] eqn:Ef; [|by apply Silent_failovers].
      eapply (fallback_all (P := LawfulConnector)) in Ef as []; eauto.
  - unfold embeddings. destruct (models self !! _) as [rm|] eqn:E.
    + apply attempts_only. eapply Forall_impl; [by eapply (resolved_all (P := LawfulConnector))|].
      intros r [] m. apply lawful_embeddings0.
    + destruct (fallback_connector self _) as [c|] eqn:Ef; [|by apply Silent_failovers].
      eapply (fallback_all (P := LawfulConnector)) in Ef as []; eauto.
  - by eapply reachable_registry.
Qed.
(** What every connector answers to a request, whatever the model, the registry over
    them answers. *)
Lemma chat_always (P : ChatResponse → Prop) cs ms self q :
  new cs ms = Ok self → (∀ n r, P r → P (with_attempts (wrap_u32 n) r)) →
  (∀ n c m, cs !! n = Some c →
     Always P (c_chat c (ChatRequest.mk m (ChatRequest.stream q) (ChatRequest.body q)))) →
  Always P (chat self q).
Proof.
  intros Hn HP Hc. set (A c := ∀ m, Always P (c_chat c (ChatRequest.mk m (ChatRequest.stream q) (ChatRequest.body q)))).
  assert (∀ n c, cs !! n = Some c → A c) as HA by (intros n c Hl m; by eapply Hc).
  unfold chat. destruct (models self !! _) as [rm|] eqn:E.
  - apply attempts_always; [done|]. exact (resolved_all (P := A) _ _ _ _ _ Hn HA E).
  - destruct (fallback_connector self _) as [c|] eqn:Ef; [|by intros w r].
    pose proof (fallback_all (P := A) _ _ _ _ _ Hn HA Ef (ChatRequest.model q)) as Hf. by destruct q.
Qed.
Lemma registry_stream cs ms self :
  new cs ms = Ok self → (∀ n c, cs !! n = Some c → StreamConnector c) →
  StreamConnector (as_connector self).
Proof.
  intros Hn Hc. split. intros q Hq. cbn [as_connector c_chat].
  eapply chat_always; [done|done|]. intros n c m Hl. by apply (stream_chat (StreamConnector := Hc n c Hl)).
Qed.
End registry.

(** ** The runtime the gateway builds *)
Section built.
Context `{Reqwest} `{Moka} `{Rustls} `{SerdeJson} `{AnthropicSerde} `{BedrockSerde} `{Crypto}
  `{Entropy} `{RegexCrate} `{Wasmtime} `{Env} `{HashOrder}.
Import runtime.

(** Each connector under its provider's name. *)
Lemma build_connectors_each (P : string → Connector → Prop) p cs n c :
  (∀ x, P "openai" (OpenAiConnector.connector x)) → (∀ x, P "anthropic" (AnthropicConnector.connector x)) →
  (∀ x, P "azure" (AzureConnector.connector x)) → (∀ x, P "bedrock" (BedrockConnector.connector x)) →
  build_connectors p = Ok cs → cs !! n = Some c → P n c.
Proof.
  intros Po Pa Pz Pb. unfold build_connectors.
  unfold build_openai. destruct (core (OpenAiConnector.new _ _)); [cbn [mbind result_bind with_context map_err]|done].
  unfold build_anthropic. destruct (core (AnthropicConnector.new _ _)); [cbn [mbind result_bind with_context map_err]|done].
  unfold build_azure. destruct (core (AzureConnector.new _ _ _)); [cbn [mbind result_bind with_context map_err]|done].
  unfold build_bedrock. destruct (core (BedrockConnector.new _ _ _ _)); [cbn [mbind result_bind with_context map_err]|done].
  intros [= <-]. rewrite collect_map_lookup. cbn [last_binding].
  repeat case_decide; subst; by intros [= <-].
Qed.
Lemma build_connectors_all (P : Connector → Prop) p cs n c :
  (∀ x, P (OpenAiConnector.connector x)) → (∀ x, P (AnthropicConnector.connector x)) →
  (∀ x, P (AzureConnector.connector x)) → (∀ x, P (BedrockConnector.connector x)) →
  build_connectors p = Ok cs → cs !! n = Some c → P c.
Proof. intros ????. by apply (build_connectors_each (λ _, P)). Qed.
Lemma build_connectors_named p cs n c : build_connectors p = Ok cs → cs !! n = Some c → c_name c = n.
Proof. by apply (build_connectors_each (λ n c, c_name c = n)). Qed.
Lemma built_registry cfg rt :
  built_from cfg rt → ∃ cs reg, build_connectors (Config.providers cfg) = Ok cs ∧
    Registry.new cs (Config.models cfg) = Ok reg ∧ Runtime.connector rt = Registry.as_connector reg.
Proof.
  intros ((reg & Hreg & E) & _). unfold build_registry in Hreg.
  destruct (build_connectors _) as [cs|] eqn:Ec; cbn in Hreg; [|done].
  destruct (Registry.new cs _) as [reg'|] eqn:En; cbn in Hreg; [|done].
  simplify_eq. by exists cs, reg.
Qed.
Lemma built_lawful cfg rt : built_from cfg rt → LawfulConnector (Runtime.connector rt).
Proof.
  intros (cs & reg & Hc & Hn & ->)%built_registry. eapply registry_lawful; [done|].
  intros n c Hl. eapply (build_connectors_all LawfulConnector); [..|done|done]; intros; apply _.
Qed.
Lemma built_stream cfg rt : built_from cfg rt → StreamConnector (Runtime.connector rt).
Proof.
  intros (cs & reg & Hc & Hn & ->)%built_registry. eapply registry_stream; [done|].
  intros n c Hl. eapply (build_connectors_all StreamConnector); [..|done|done]; intros; apply _.
Qed.
End built.

(** ** For witnesses: the default configuration, on a network that answers 200 *)
Definition ok_reqwest : Reqwest :=
  {| Net := (); client_build := Ok ();
     send _ n := (Ok (Http.mkResponse 200 [] [Ok []] 0), n, 1000000%Z);
     status_error _ _ := "HTTP status error"; header_to_str b := Some (of_bytes b) |}.
#[local] Existing Instances ok_reqwest sample_moka sample_rustls sample_bedrock_serde sample_crypto
  sample_entropy sample_regex sample_wasmtime sample_env some_hash_order.
#[local] Instance null_json : SerdeJson := one_document Null.
Definition no_usage_serde : AnthropicSerde :=
  {| de_openai_request _ := Err "unused"; ser_anthropic_request _ := Ok [];
     de_anthropic_response _ := Err "unused" |}.
#[local] Existing Instance no_usage_serde.
Definition empty_gateway : Gateway :=
  mkGateway (mkWorld (tt : @Net ok_reqwest) 0 []) [] ∅ ∅ ∅
    (Runtime.mk (mkConnector "none" (λ _, mret None) (λ _, mret None) (mret true)) Pricing.default
       None [] []) None.
Definition default_runtime : Runtime :=
  match (runtime.build_runtime Config.default empty_gateway).1 with
  | Ok rt => rt
  | Err _ => g_runtime empty_gateway
  end.
Lemma default_builds : (runtime.build_runtime Config.default empty_gateway).1 = Ok default_runtime.
Proof.
  assert (is_ok (runtime.build_runtime Config.default empty_gateway).1 = true) as Hb
    by (vm_compute; reflexivity).
  unfold default_runtime. by destruct (runtime.build_runtime _ _).1.
Qed.
