(* ===== verification/Schema.v ===== *)
(** * Schema: what a client of a translated provider reads

    Anthropic and Bedrock do not speak the OpenAI schema; the answers the gateway
    makes of theirs do. A small language of JSON types with its checker, the types of
    the OpenAI answers, and what each of those answers says of the upstream's. *)

From S2P Require Import Prelude Text Float64 Json Events Auth Limits Plugin Config Provider.
From S2P Require Import OpenAi Azure Sse Anthropic SigV4 Bedrock Registry Cache Tls Wasm Runtime Connectors.
Import Json.

(** ** JSON types *)
Inductive Ty :=
| TStr
| TOneOf (ss : list string)
| TUint
| TNull
| TAlt (a b : Ty)
| TTuple (ts : list Ty)
| TObj (fields : list (string * Ty)).

(** An object has exactly the fields of its type, an array exactly its elements. *)
Fixpoint has_type (t : Ty) (v : Value) {struct t} : bool :=
  match t, v with
  | TStr, Str _ => true
  | TOneOf ss, Str s => bool_decide (s ∈ ss)
  | TUint, Num (PosInt _) => true
  | TNull, Null => true
  | TAlt a b, v => has_type a v || has_type b v
  | TTuple ts, Array l =>
      (fix all ts l {struct ts} :=
         match ts, l with
         | [], [] => true
         | t :: ts, v :: l => has_type t v && all ts l
         | _, _ => false
         end) ts l
  | TObj fields, Object m =>
      bool_decide (dom m = list_to_set fields.*1) &&
      (fix all fields :=
         match fields with
         | [] => true
         | (k, t) :: fields =>
             match m !! k with Some v => has_type t v && all fields | None => false end
         end) fields
  | _, _ => false
  end.

(** The answers of the chat completions endpoint: a completion, a chunk of a streamed
    one (the chunk that reports the usage has no choice), and an error. *)
Definition usage_ty : Ty :=
  TObj [("prompt_tokens", TUint); ("completion_tokens", TUint); ("total_tokens", TUint)].
Definition completion_ty : Ty :=
  TObj [("id", TStr); ("object", TOneOf ["chat.completion"]); ("created", TUint); ("model", TStr);
        ("choices", TTuple [TObj [("index", TUint);
           ("message", TObj [("role", TOneOf ["assistant"]); ("content", TStr)]);
           ("finish_reason", TOneOf ["stop"; "length"])]]);
        ("usage", usage_ty)].
Definition chunk_fields (choices : Ty) : list (string * Ty) :=
  [("id", TStr); ("object", TOneOf ["chat.completion.chunk"]); ("created", TUint); ("model", TStr);
   ("choices", choices)].
Definition delta_ty : Ty :=
  TAlt (TObj [("role", TOneOf ["assistant"])]) (TAlt (TObj [("content", TStr)]) (TObj [])).
Definition chunk_ty : Ty :=
  TAlt
    (TObj (chunk_fields (TTuple [TObj [("index", TUint); ("delta", delta_ty);
       ("finish_reason", TAlt TNull (TOneOf ["stop"; "length"]))]])))
    (TObj (chunk_fields (TTuple []) ++ [("usage", usage_ty)])).
Definition error_ty : Ty :=
  TAlt (TObj [("error", TObj [("message", TStr)])])
       (TObj [("error", TObj [("message", TStr); ("type", TStr)])]).

(** ** What an answer says *)

(** The text of a message, block by block, and its token counts. *)
Fixpoint spoken_text (blocks : list AnthropicResponse.AnthropicContentBlock) : string :=
  match blocks with
  | [] => ""
  | b :: blocks =>
      if decide (AnthropicResponse.kind b = "text") then AnthropicResponse.text b +:+ spoken_text blocks
      else spoken_text blocks
  end.
Definition tokens_of (m : AnthropicResponse.AnthropicResponse) : Usage :=
  match AnthropicResponse.usage m with
  | Some u => Usage.mk (AnthropicResponse.input_tokens u) (AnthropicResponse.output_tokens u)
  | None => Usage.mk 0 0
  end.
(** The counts of a usage object. *)
Definition counts_of (v : Value) : option (Z * Z * Z) :=
  p ← get "prompt_tokens" v ≫= as_u64; c ← get "completion_tokens" v ≫= as_u64;
  t ← get "total_tokens" v ≫= as_u64; Some (p, c, t).
(** The total of two counts, in 32 bits. *)
Definition with_total (p c : Z) : Z * Z * Z := (p, c, ((p + c) mod 2 ^ 32)%Z).

(** A completion says what the upstream's message does. *)
Definition renders (m : AnthropicResponse.AnthropicResponse) (v : Value) : Prop :=
  get "id" v = Some (Str (AnthropicResponse.id m)) ∧
  get "model" v = Some (Str (AnthropicResponse.model m)) ∧
  (∃ choice, get "choices" v = Some (Array [choice]) ∧
     get_path ["message"; "content"] choice = Some (Str (spoken_text (AnthropicResponse.content m))) ∧
     get "finish_reason" choice = Some (Str
       (if decide (AnthropicResponse.stop_reason m = Some "max_tokens") then "length" else "stop"))) ∧
  (get "usage" v ≫= counts_of)
  = Some (with_total (Usage.prompt_tokens (tokens_of m)) (Usage.completion_tokens (tokens_of m))).

Lemma spoken_text_eq blocks :
  str_concat (map AnthropicResponse.text
    (List.filter (λ block, bool_decide (AnthropicResponse.kind block = "text")) blocks)) = spoken_text blocks.
Proof.
  induction blocks as [|b blocks IH]; [done|]. cbn [List.filter spoken_text].
  case_bool_decide; [rewrite decide_True by done|by rewrite decide_False]. cbn. by rewrite <-IH.
Qed.
Lemma finish_reason_cases s : map_finish_reason s = "length" ∨ map_finish_reason s = "stop".
Proof. unfold map_finish_reason. case_decide; auto. Qed.
Lemma document_typed m u created : has_type completion_ty (openai_document m u created) = true.
Proof.
  unfold openai_document. destruct m as [id model content stop usage], u as [p c].
  cbn [AnthropicResponse.id AnthropicResponse.model AnthropicResponse.content AnthropicResponse.stop_reason
    Usage.prompt_tokens Usage.completion_tokens].
  generalize (str_concat (map AnthropicResponse.text
    (List.filter (λ block, bool_decide (AnthropicResponse.kind block = "text")) content))).
  generalize (wrap_u32 (p + c)). intros total text.
  destruct (finish_reason_cases (match stop with Some s => s | None => "" end)) as [-> | ->];
    vm_compute; reflexivity.
Qed.
Lemma document_renders m created : renders m (openai_document m (tokens_of m) created).
Proof.
  unfold renders, openai_document. rewrite !get_obj. split_and!; [done|done| |done].
  eexists. split; [done|]. rewrite spoken_text_eq. split; [done|].
  rewrite get_obj. cbn [last_binding decide]. unfold map_finish_reason.
  destruct (AnthropicResponse.stop_reason m) as [s|]; [|done].
  destruct (decide (s = "max_tokens")) as [->|Hs]; [done|].
  destruct (decide (Some s = Some "max_tokens")) as [E|]; [by injection E|done].
Qed.

(** ** What a streamed answer says *)
Section stream.
Context `{SerdeJson}.
Import AnthropicTransform.

(** The upstream's events: their data when it is JSON and the event is of a kind; the
    text, the end and the counts they report. *)
Definition event_json (kind : string) (e : SseEvent) : option Value :=
  if decide (SseEvent.event e = Some kind) then result_ok (from_str (SseEvent.data e)) else None.
Definition begun (e : SseEvent) : option string := (λ _, "assistant") <$> event_json "message_start" e.
Definition text_delta (e : SseEvent) : option string :=
  d ← event_json "content_block_delta" e;
  if decide (get_path ["delta"; "type"] d ≫= as_str = Some "text_delta")
  then get_path ["delta"; "text"] d ≫= as_str else None.
Definition stopped (e : SseEvent) : option string :=
  d ← event_json "message_delta" e;
  reason ← get_path ["delta"; "stop_reason"] d ≫= as_str;
  Some (if decide (reason = "max_tokens") then "length" else "stop").
Definition input_of (e : SseEvent) : option Z :=
  d ← event_json "message_start" e;
  n ← get_path ["message"; "usage"; "input_tokens"] d ≫= as_u64; Some (n mod 2 ^ 32)%Z.
Definition output_of (e : SseEvent) : option Z :=
  d ← event_json "message_delta" e;
  n ← get_path ["usage"; "output_tokens"] d ≫= as_u64; Some (n mod 2 ^ 32)%Z.
(** The counts to report at each [message_delta]: the last input and output counts. *)
Definition tally_of (p c : Z) (e : SseEvent) : option (Z * Z * Z) :=
  (λ _, with_total p c) <$> event_json "message_delta" e.
Fixpoint tallies (p c : Z) (es : list SseEvent) : list (Z * Z * Z) :=
  match es with
  | [] => []
  | e :: es =>
      let p := default p (input_of e) in
      let c := default c (output_of e) in
      option_list (tally_of p c e) ++ tallies p c es
  end.

(** A chunk: the role, the text, the end and the counts it carries. *)
Definition choice_of (v : Value) : option Value :=
  match get "choices" v with Some (Array [choice]) => Some choice | _ => None end.
Definition chunk_role (v : Value) : option string :=
  (choice_of v ≫= get_path ["delta"; "role"]) ≫= as_str.
Definition chunk_text (v : Value) : option string :=
  (choice_of v ≫= get_path ["delta"; "content"]) ≫= as_str.
Definition chunk_end (v : Value) : option string := (choice_of v ≫= get "finish_reason") ≫= as_str.
Definition chunk_counts (v : Value) : option (Z * Z * Z) := get "usage" v ≫= counts_of.

(** A chunk of the answer with this identifier and time. *)
Definition chunk_of (id : string) (created : Z) (v : Value) : Prop :=
  has_type chunk_ty v = true ∧ get "id" v = Some (Str id) ∧ get "created" v = Some (uint created).
(** The chunks say what the events do, given the counts before. *)
Record retells (id : string) (created p c : Z) (es : list SseEvent) (vs : list Value) : Prop := {
  retold_typed : Forall (chunk_of id created) vs;
  retold_role : omap chunk_role vs = omap begun es;
  retold_text : omap chunk_text vs = omap text_delta es;
  retold_end : omap chunk_end vs = omap stopped es;
  retold_counts : omap chunk_counts vs = tallies p c es
}.

Lemma chunk_value_of t delta finish :
  delta = obj [("role", Str "assistant")] ∨ (∃ s, delta = obj [("content", Str s)]) ∨ delta = obj [] →
  chunk_of (chat_id t) (created t) (chunk_value t delta (map_finish_reason <$> finish)).
Proof.
  intros Hd. destruct t as [id created model p c]. unfold chunk_of.
  cbn [chat_id AnthropicTransform.created]. unfold chunk_value. cbn [chat_id AnthropicTransform.created AnthropicTransform.model].
  split; [|by rewrite !get_obj].
  destruct finish as [s|]; cbn [fmap option_fmap option_map opt_str];
    [destruct (finish_reason_cases s) as [-> | ->]|];
    destruct Hd as [-> | [[s' ->] | ->]]; vm_compute; reflexivity.
Qed.
Lemma usage_value_of t :
  chunk_of (chat_id t) (created t) (usage_value t).
Proof.
  destruct t as [id created model p c]. unfold chunk_of, usage_value.
  cbn [chat_id AnthropicTransform.created AnthropicTransform.model input_tokens output_tokens].
  split; [|by rewrite !get_obj]. generalize (wrap_u32 (p + c)). intros total. vm_compute. reflexivity.
Qed.

(** What an arm of [process] owes. *)
Definition handles (t : AnthropicTransform) (e : SseEvent) (out : AnthropicTransform * list bytes) : Prop :=
  ∃ vs, out.2 = map sse_data vs ∧ chat_id out.1 = chat_id t ∧ created out.1 = created t ∧
    input_tokens out.1 = default (input_tokens t) (input_of e) ∧
    output_tokens out.1 = default (output_tokens t) (output_of e) ∧
    retells (chat_id t) (created t) (input_tokens t) (output_tokens t) [e] vs.
Lemma event_json_other kind kind' e :
  SseEvent.event e = Some kind → kind ≠ kind' → event_json kind' e = None.
Proof. intros E Hk. unfold event_json. rewrite decide_False; [done|]. congruence. Qed.
Lemma silent_event t e :
  event_json "message_start" e = None → event_json "content_block_delta" e = None →
  event_json "message_delta" e = None → handles t e (t, []).
Proof.
  intros E1 E2 E3. exists [].
  split_and!; [done|done|done|by unfold input_of; rewrite E1|by unfold output_of; rewrite E3|].
  split; cbn [omap list_omap tallies]; unfold begun, text_delta, stopped, input_of, output_of, tally_of;
    rewrite ?E1, ?E2, ?E3; done.
Qed.
Lemma message_start_event t e d :
  SseEvent.event e = Some "message_start" → from_str (SseEvent.data e) = Ok d →
  handles t e (message_start t d).
Proof.
  intros Ek Ed. assert (event_json "message_start" e = Some d) as E1
    by (unfold event_json; by rewrite decide_True, Ed).
  pose proof (event_json_other _ "content_block_delta" _ Ek ltac:(done)) as E2.
  pose proof (event_json_other _ "message_delta" _ Ek ltac:(done)) as E3.
  unfold handles, message_start. cbn [fst snd]. set (t1 := update _ set_model t). set (t2 := update _ _ t1).
  assert (chat_id t2 = chat_id t ∧ created t2 = created t ∧ output_tokens t2 = output_tokens t) as (Hi & Hc & Ho).
  { subst t2 t1. unfold update. repeat case_match; done. }
  exists [chunk_value t2 (obj [("role", Str "assistant")]) None].
  split_and!; [done|done|done| |by unfold output_of; rewrite E3|].
  - unfold input_of. rewrite E1. cbn [mbind option_bind]. subst t2.
    assert (input_tokens t1 = input_tokens t) as Hn by (subst t1; unfold update; by case_match).
    rewrite <-Hn. unfold update. by destruct (get_path ["message"; "usage"; "input_tokens"] d ≫= as_u64).
  - split; cbn [omap list_omap tallies]; unfold begun, text_delta, stopped, input_of, output_of, tally_of;
      rewrite ?E1, ?E2, ?E3; try done.
    constructor; [|done]. rewrite <-Hi, <-Hc. apply (chunk_value_of t2 _ None). by left.
Qed.
Lemma content_block_delta_event t e d :
  SseEvent.event e = Some "content_block_delta" → from_str (SseEvent.data e) = Ok d →
  handles t e (content_block_delta t d).
Proof.
  intros Ek Ed. assert (event_json "content_block_delta" e = Some d) as E1
    by (unfold event_json; by rewrite decide_True, Ed).
  pose proof (event_json_other _ "message_start" _ Ek ltac:(done)) as E2.
  pose proof (event_json_other _ "message_delta" _ Ek ltac:(done)) as E3.
  unfold handles, content_block_delta.
  assert (text_delta e = if decide (get_path ["delta"; "type"] d ≫= as_str = Some "text_delta")
    then get_path ["delta"; "text"] d ≫= as_str else None) as Et by (unfold text_delta; by rewrite E1).
  exists (match text_delta e with Some s => [chunk_value t (obj [("content", Str s)]) None] | None => [] end).
  assert (retells (chat_id t) (created t) (input_tokens t) (output_tokens t) [e]
    (match text_delta e with Some s => [chunk_value t (obj [("content", Str s)]) None] | None => [] end)) as Hr.
  { split; cbn [omap list_omap tallies]; unfold begun, stopped, input_of, output_of, tally_of;
      rewrite ?E2, ?E3; destruct (text_delta e) as [s|]; try done.
    constructor; [|done]. apply (chunk_value_of t _ None). right. left. by eexists. }
  revert Hr. rewrite Et. unfold input_of, output_of. rewrite E2, E3.
  case_decide; [|by intros]. by destruct (get_path ["delta"; "text"] d ≫= as_str).
Qed.
Lemma message_delta_event t e d :
  SseEvent.event e = Some "message_delta" → from_str (SseEvent.data e) = Ok d →
  handles t e (message_delta t d).
Proof.
  intros Ek Ed. assert (event_json "message_delta" e = Some d) as E1
    by (unfold event_json; by rewrite decide_True, Ed).
  pose proof (event_json_other _ "message_start" _ Ek ltac:(done)) as E2.
  pose proof (event_json_other _ "content_block_delta" _ Ek ltac:(done)) as E3.
  unfold handles, message_delta. cbn [fst snd]. set (t1 := update _ _ t).
  assert (chat_id t1 = chat_id t ∧ created t1 = created t ∧ input_tokens t1 = input_tokens t) as (Hi & Hc & Hn)
    by (subst t1; unfold update; by case_match).
  assert (output_tokens t1 = default (output_tokens t) (output_of e)) as Ho.
  { unfold output_of. rewrite E1. cbn [mbind option_bind]. subst t1. unfold update.
    by destruct (get_path ["usage"; "output_tokens"] d ≫= as_u64). }
  set (reason := get_path ["delta"; "stop_reason"] d ≫= as_str).
  exists [chunk_value t1 (obj []) (map_finish_reason <$> reason); usage_value t1].
  split_and!; [done|done|done|by unfold input_of; rewrite E2|done|].
  split; cbn [omap list_omap tallies].
  - rewrite <-Hi, <-Hc. constructor; [apply chunk_value_of; by right; right|].
    constructor; [apply usage_value_of|done].
  - unfold begun. by rewrite E2.
  - unfold text_delta. by rewrite E3.
  - unfold stopped. rewrite E1. cbn [mbind option_bind]. fold reason. by destruct reason.
  - unfold tally_of. rewrite E1. cbn [fmap option_fmap option_map option_list app].
    unfold input_of at 1. rewrite E2. cbn [mbind option_bind default]. rewrite <-Ho, <-Hn. done.
Qed.
Lemma process_event t e : handles t e (process t e).
Proof.
  unfold process. destruct (from_str (SseEvent.data e)) as [d|err] eqn:Ed.
  2:{ apply silent_event; unfold event_json; rewrite Ed; by case_decide. }
  destruct (SseEvent.event e) as [k|] eqn:Ek.
  2:{ apply silent_event; unfold event_json; by rewrite Ek. }
  case_decide as H1; [subst; by apply message_start_event|].
  case_decide as H2; [subst; by apply content_block_delta_event|].
  case_decide as H3; [subst; by apply message_delta_event|].
  apply silent_event; by eapply event_json_other.
Qed.
Lemma process_all_retells t es :
  ∃ vs, (process_all t es).2 = map sse_data vs ∧
    retells (chat_id t) (created t) (input_tokens t) (output_tokens t) es vs.
Proof.
  revert t. induction es as [|e es IH]; intros t; [exists []; by split|]. cbn [process_all].
  destruct (process_event t e) as (vs1 & E1 & Hi & Hc & Hn & Ho & [T1 R1 X1 S1 C1]).
  destruct (process t e) as [t1 out1]. cbn [fst snd] in *.
  destruct (IH t1) as (vs2 & E2 & [T2 R2 X2 S2 C2]). destruct (process_all t1 es) as [t2 out2].
  cbn [fst snd] in *. exists (vs1 ++ vs2). rewrite E1, E2, map_app. split; [done|].
  rewrite Hi, Hc in T2. change (e :: es) with ([e] ++ es).
  split; rewrite ?omap_app; [by apply Forall_app|congruence..|].
  rewrite C1, C2, Hn, Ho. cbn [tallies app]. by rewrite app_nil_r.
Qed.

(** The bytes of a stream, and its transport errors, without the polls that find it not
    ready. *)
Definition sent_bytes (s : BodyStream) : list bytes := omap result_ok (items s).
Definition failures (s : BodyStream) : list string :=
  omap (λ i, match i with Ok _ => None | Err e => Some e end) (items s).
Lemma ok_bytes (l : list bytes) : omap result_ok (map Ok l : list (result string bytes)) = l.
Proof. induction l as [|b l IH]; [done|]. cbn. by rewrite IH. Qed.
Import AnthropicStreamAdapter.
Lemma translated_bytes i p t :
  sent_bytes (translate i p t false)
  = (process_all t (SseParser.feed_all p (sent_bytes i)).1).2 ++ [DONE_MARKER].
Proof.
  revert p t. induction i as [|[|[c|e]] i IH]; intros p t; [done|apply IH| |apply IH].
  cbn [translate]. unfold ingest. change (sent_bytes (PItem (Ok c) :: i)) with (c :: sent_bytes i).
  cbn [SseParser.feed_all]. destruct (SseParser.drain (SseParser.feed p c)) as [es p1].
  destruct (process_all t es) as [t1 o1] eqn:E1. specialize (IH p1 t1).
  destruct (SseParser.feed_all p1 (sent_bytes i)) as [es' p2]. cbn [fst] in *.
  rewrite process_all_app, E1. destruct (process_all t1 es') as [t2 o2]. cbn [snd] in *.
  unfold sent_bytes at 1. rewrite items_app, omap_app, items_ok_items. fold (sent_bytes (translate i p1 t1 false)).
  rewrite IH, app_assoc. by rewrite ok_bytes.
Qed.
Lemma translated_failures i p t : failures (translate i p t false) = failures i.
Proof.
  revert p t. induction i as [|[|[c|e]] i IH]; intros p t; [done|apply IH| |].
  - cbn [translate]. unfold ingest. destruct (SseParser.drain _) as [es p1].
    destruct (process_all t es) as [t1 o1]. unfold failures at 1.
    rewrite items_app, omap_app, items_ok_items. fold (failures (translate i p1 t1 false)). rewrite IH.
    change (failures (PItem (Ok c) :: i)) with (failures i).
    induction o1 as [|b o1 IHo]; [done|]. cbn. exact IHo.
  - change (e :: failures (translate i p t false) = e :: failures i). by rewrite IH.
Qed.
End stream.

(** ** The answers of the two connectors *)
Section answers.
Context `{Reqwest} `{SerdeJson} `{AnthropicSerde} `{BedrockSerde} `{Crypto} `{Entropy}.

(** The bytes of the request in the schema of the upstream: the messages, limit and
    temperature of the body, for a model. *)
Definition translated (stream : bool) (body payload : bytes) : Prop :=
  ∃ parts model, parse_openai_messages body = Ok parts ∧
    (ser_anthropic_request (AnthropicRequest.mk model (ChatMessages.messages parts)
       (ChatMessages.max_tokens parts) (ChatMessages.system parts) (ChatMessages.temperature parts)
       (if stream then Some true else None)) = Ok payload ∨
     ser_bedrock_request (BedrockRequest.mk BEDROCK_ANTHROPIC_VERSION (ChatMessages.messages parts)
       (ChatMessages.max_tokens parts) (ChatMessages.system parts) (ChatMessages.temperature parts))
     = Ok payload).
(** A response that the network gave to a [POST] of the translated request. *)
Definition heard (stream : bool) (body : bytes) (resp : Http.Response) : Prop :=
  ∃ rq net net' t, Http.method rq = "POST" ∧ translated stream body (Http.body rq) ∧
    send rq net = (Ok resp, net', t).
(** The bytes of an error, or what stands for one that cannot be encoded. *)
Definition enveloped (v : Value) (fallback e : bytes) : Prop :=
  has_type error_ty v = true ∧ (to_vec v = Ok e ∨ is_ok (to_vec v) = false ∧ e = fallback).

(** What a client reads from a translated provider, for the body of a request that
    streams or not. *)
Inductive openai_answer (stream : bool) (body : bytes) (r : ChatResponse) : Prop :=
| says_completion resp b m v e :
    stream = false →
    heard stream body resp → Http.status resp = 200%Z → concat_chunks (Http.chunks resp) = Ok b →
    de_anthropic_response b = Ok m →
    has_type completion_ty v = true → renders m v → to_vec v = Ok e →
    ChatResponse.status r = 200%Z → ChatResponse.content_type r = Some "application/json" →
    ChatResponse.body r = single_chunk e → ChatResponse.usage r = Some (tokens_of m) →
    openai_answer stream body r
| says_stream resp id created vs :
    stream = true → ChatResponse.provider r = "anthropic" →
    heard stream body resp → Http.status resp = 200%Z →
    retells id created 0 0 (SseParser.feed_all SseParser.new
      (sent_bytes (map PItem (Http.chunks resp)))).1 vs →
    ChatResponse.status r = 200%Z → ChatResponse.content_type r = Some "text/event-stream" →
    sent_bytes (ChatResponse.body r) = map AnthropicTransform.sse_data vs ++ [DONE_MARKER] →
    failures (ChatResponse.body r) = failures (map PItem (Http.chunks resp)) →
    ChatResponse.usage r = None →
    openai_answer stream body r
| says_error resp b v e :
    ChatResponse.provider r = "anthropic" →
    heard stream body resp → Http.status resp ≠ 200%Z → concat_chunks (Http.chunks resp) = Ok b →
    enveloped v fallback_error e →
    (∀ message kind, parsed_error b = Some (message, kind) →
       get_path ["error"; "message"] v = Some (Str message) ∧ get_path ["error"; "type"] v = Str <$> kind) →
    ChatResponse.status r = Http.status resp → ChatResponse.content_type r = Some "application/json" →
    ChatResponse.body r = single_chunk e → ChatResponse.usage r = None →
    openai_answer stream body r
| passes_error resp b :
    stream = false → ChatResponse.provider r = "bedrock" →
    heard stream body resp → Http.status resp ≠ 200%Z → concat_chunks (Http.chunks resp) = Ok b →
    ChatResponse.status r = Http.status resp → ChatResponse.content_type r = Some "application/json" →
    ChatResponse.body r = single_chunk b → ChatResponse.usage r = None →
    openai_answer stream body r
| refuses_stream v e :
    stream = true → ChatResponse.provider r = "bedrock" → enveloped v [] e →
    ChatResponse.status r = 501%Z → ChatResponse.content_type r = Some "application/json" →
    ChatResponse.body r = single_chunk e → ChatResponse.usage r = None →
    openai_answer stream body r.
Lemma openai_answer_attempts stream body n r :
  openai_answer stream body r → openai_answer stream body (Registry.with_attempts n r).
Proof. intros []; [eapply says_completion|eapply says_stream|eapply says_error|eapply passes_error|eapply refuses_stream]; eauto. Qed.

Lemma Post_heard stream body rq :
  Http.method rq = "POST" → translated stream body (Http.body rq) →
  Post (λ x, ∀ resp, x = Ok resp → heard stream body resp) (http_send rq).
Proof.
  intros Hm Hb w resp. unfold http_send. destruct (send rq (w_net w)) as [[x net] t] eqn:E. cbn.
  intros ->. by exists rq, (w_net w), net, t.
Qed.
Lemma anthropic_translated q p :
  AnthropicConnector.payload q = Ok p → translated (ChatRequest.stream q) (ChatRequest.body q) p.
Proof.
  unfold AnthropicConnector.payload. destruct (parse_openai_messages _) as [parts|] eqn:E; cbn; [|done].
  destruct (ser_anthropic_request _) as [b|] eqn:Es; cbn; [|done]. intros [= <-].
  exists parts, (ChatRequest.model q). by split; [|left].
Qed.
Lemma bedrock_translated q p :
  BedrockConnector.payload q = Ok p → translated (ChatRequest.stream q) (ChatRequest.body q) p.
Proof.
  unfold BedrockConnector.payload. destruct (parse_openai_messages _) as [parts|] eqn:E; cbn; [|done].
  destruct (ser_bedrock_request _) as [b|] eqn:Es; cbn; [|done]. intros [= <-].
  exists parts, (ChatRequest.model q). by split; [|right].
Qed.
Lemma Post_body r : Post (λ x, x = concat_chunks (Http.chunks r)) (http_bytes r).
Proof. apply Post_any. intros _. by apply Post_ret. Qed.

(** A buffered 200 answer, of either connector. *)
Lemma converted_answer b created e u :
  to_openai_response b created = Ok (e, u) →
  ∃ m v, de_anthropic_response b = Ok m ∧ has_type completion_ty v = true ∧ renders m v ∧
    to_vec v = Ok e ∧ u = tokens_of m.
Proof.
  unfold to_openai_response. destruct (de_anthropic_response b) as [m|] eqn:Em; cbn [map_err mbind result_bind]; [|done].
  assert (∀ o, Usage.mk (AnthropicResponse.input_tokens (default (AnthropicResponse.mkUsage 0 0) o))
    (AnthropicResponse.output_tokens (default (AnthropicResponse.mkUsage 0 0) o))
    = match o with
      | Some u => Usage.mk (AnthropicResponse.input_tokens u) (AnthropicResponse.output_tokens u)
      | None => Usage.mk 0 0
      end) as Hu by by intros [].
  unfold default in Hu. rewrite Hu. fold (tokens_of m). cbv zeta.
  destruct (to_vec _) as [e'|] eqn:Ev; cbn [map_err mbind result_bind]; [|done]. intros [= <- <-].
  exists m, (openai_document m (tokens_of m) created).
  split_and!; [done|apply document_typed|apply document_renders|done|done].
Qed.
Lemma error_answer b e : to_openai_error b = Some e →
  ∃ v, enveloped v fallback_error e ∧
    ∀ message kind, parsed_error b = Some (message, kind) →
      get_path ["error"; "message"] v = Some (Str message) ∧ get_path ["error"; "type"] v = Str <$> kind.
Proof.
  unfold to_openai_error. destruct (error_message b) as [[m k]|] eqn:Em; cbn; [|done]. intros [= <-].
  exists (error_envelope m k). split.
  - split; [destruct k; vm_compute; reflexivity|]. destruct (to_vec _); [by left|by right].
  - intros message kind Hp. unfold error_message in Em. rewrite Hp in Em. injection Em as <- <-. by destruct kind.
Qed.

Lemma anthropic_buffered_answer resp model stream rbody :
  heard stream rbody resp → (stream = true → Http.status resp ≠ 200%Z) →
  Always (openai_answer stream rbody) (AnthropicConnector.buffered resp model).
Proof.
  intros Hh Hs. apply Always_Post. eapply Post_bind; [apply Post_body|]. intros body Hb.
  apply Post_any. intros created. apply Post_ret. intros r.
  destruct body as [b|e]; cbn [map_err]; [|done]. symmetry in Hb. case_decide as Hc.
  - destruct (to_openai_response b created) as [[e u]|] eqn:E; cbn [mbind result_bind]; [|done].
    intros [= <-]. destruct (converted_answer _ _ _ _ E) as (m & v & Hm & Ht & Hr & Hv & ->).
    eapply says_completion; try done. destruct stream; [by destruct (Hs eq_refl)|done].
  - destruct (to_openai_error b) as [e|] eqn:E; cbn [mbind option_bind]; [|done]. intros [= <-].
    destruct (error_answer _ _ E) as (v & Hv & Hp). by eapply says_error.
Qed.
Lemma anthropic_answers c q :
  Always (openai_answer (ChatRequest.stream q) (ChatRequest.body q)) (AnthropicConnector.chat c q).
Proof.
  apply Always_Post. unfold AnthropicConnector.chat.
  destruct (AnthropicConnector.payload q) as [p|] eqn:Ep; [|by apply Post_ret].
  apply anthropic_translated in Ep.
  eapply Post_bind; [by apply (Post_heard (ChatRequest.stream q) (ChatRequest.body q))|]. intros [resp|e] Hr; cbn [map_err]; [|by apply Post_ret].
  specialize (Hr _ eq_refl). destruct (ChatRequest.stream q); cbn [andb];
    [|by apply Always_Post, anthropic_buffered_answer].
  case_bool_decide as Hs; [|by apply Always_Post, anthropic_buffered_answer].
  apply Post_any. intros ids. apply Post_any. intros created. apply Post_ret. intros r [= <-].
  set (t := AnthropicTransform.new _ _ _).
  destruct (process_all_retells t (SseParser.feed_all SseParser.new
    (sent_bytes (map PItem (Http.chunks resp)))).1) as (vs & Ev & Hv).
  eapply says_stream; try done.
  - cbn [ChatResponse.body]. unfold AnthropicStreamAdapter.boxed, AnthropicStreamAdapter.new.
    cbn [AnthropicStreamAdapter.ok_items map app AnthropicStreamAdapter.pending
      AnthropicStreamAdapter.upstream_done AnthropicStreamAdapter.inner AnthropicStreamAdapter.parser
      AnthropicStreamAdapter.transform AnthropicStreamAdapter.emitted_done].
    by rewrite translated_bytes, Ev.
  - apply translated_failures.
Qed.
Lemma bedrock_answers c q :
  Post (λ x, ∀ r, x = Ok r → openai_answer (ChatRequest.stream q) (ChatRequest.body q) r)
    (BedrockConnector.chat c q).
Proof.
  unfold BedrockConnector.chat. pose proof (bedrock_translated q) as Ht. destruct (ChatRequest.stream q).
  { apply Post_ret. intros r [= <-].
    eapply (refuses_stream _ _ _ (obj [("error", obj [("message",
      Str "streaming is not yet supported for the Bedrock provider")])])); try done.
    split; [vm_compute; reflexivity|]. destruct (to_vec _); [by left|by right]. }
  destruct (BedrockConnector.payload q) as [p|]; [|by apply Post_ret]. specialize (Ht p eq_refl).
  apply Post_any. intros secs. destruct (format_amz_date secs) as [d s].
  eapply Post_bind; [by apply (Post_heard false (ChatRequest.body q))|]. intros [resp|e] Hr; cbn [map_err]; [|by apply Post_ret].
  specialize (Hr _ eq_refl). unfold BedrockConnector.buffered.
  eapply Post_bind; [apply Post_body|]. intros body Hb. apply Post_any. intros created. apply Post_ret.
  intros r. destruct body as [b|e]; cbn [map_err mbind result_bind]; [|done]. symmetry in Hb. case_decide as Hc.
  - destruct (to_openai_response b created) as [[e u]|] eqn:E; cbn [mbind result_bind]; [|done].
    intros [= <-]. destruct (converted_answer _ _ _ _ E) as (m & v & Hm & Hty & Hrr & Hv & ->).
    by eapply says_completion.
  - intros [= <-]. by eapply passes_error.
Qed.
End answers.

(** ** Properties *)
Section properties.
Context `{Reqwest} `{Moka} `{Rustls} `{SerdeJson} `{AnthropicSerde} `{BedrockSerde} `{Crypto}
  `{Entropy} `{RegexCrate} `{Wasmtime} `{Env} `{HashOrder}.
Import runtime.

(** C24: Every chat answer of Anthropic and Bedrock is typed by the OpenAI schema and
    says what the upstream said. Whatever configuration the runtime was built from,
    whatever its registry tried before, an answer attributed to one of the two is one
    of these, made of a response the network gave to a POST of the translated request. A buffered 200 is a completion with
    exactly the fields of the schema, with the message's identifier and model, the text
    of its text blocks in order, [length] as the reason to finish exactly when the
    upstream stopped at its token limit and [stop] otherwise, its two token counts each
    in its place and their sum in 32 bits; the same counts are reported to be charged.
    A streamed 200 is a sequence of chunks of one identifier and time, each with exactly
    the fields of the schema, ended by [DONE]: their roles, texts, ends and counts are,
    in order, those of the upstream's events, the counts being the last ones reported;
    the upstream's transport errors are passed on. An error of Anthropic is an error
    object under the upstream's status, with its message and type when its body has
    them, one of Bedrock is passed on as it came, and neither reports a usage; a request
    to Bedrock that streams is refused with 501 and an error object. *)
Theorem translated_answers_typed config g rt g' q w r :
  build_runtime config g = (Ok rt, g') →
  (c_chat (Runtime.connector rt) q w).1 = Some (Ok r) →
  ChatResponse.provider r ∈ ["anthropic"; "bedrock"] →
  openai_answer (ChatRequest.stream q) (ChatRequest.body q) r.
Proof.
  intros (cs & reg & Hc & Hn & ->)%build_runtime_built%built_registry.
  set (P r := ChatResponse.provider r ∈ ["anthropic"; "bedrock"] →
    openai_answer (ChatRequest.stream q) (ChatRequest.body q) r).
  intros E. revert E. cbn [Registry.as_connector c_chat]. revert w r. change (Always P (Registry.chat reg q)).
  apply (chat_always P _ _ _ _ Hn).
  - intros n r Hr Hp. apply openai_answer_attempts. by apply Hr.
  - intros n c m Hl.
    apply (build_connectors_all (λ c, Always P (c_chat c (ChatRequest.mk m (ChatRequest.stream q) (ChatRequest.body q))))
      (Config.providers config) cs n c); [..|done|done]; intros x.
    + intros w r Hr. destruct (attributed_chat (AttributedConnector := openai_attributed x) _ w r Hr) as [Hp _].
      unfold P. rewrite Hp. intros Hin. apply elem_of_cons in Hin as [Hin|Hin%list_elem_of_singleton]; discriminate Hin.
    + intros w r Hr _. exact (anthropic_answers x (ChatRequest.mk m (ChatRequest.stream q) (ChatRequest.body q)) w r Hr).
    + intros w r Hr. destruct (attributed_chat (AttributedConnector := azure_attributed x) _ w r Hr) as [Hp _].
      unfold P. rewrite Hp. intros Hin. apply elem_of_cons in Hin as [Hin|Hin%list_elem_of_singleton]; discriminate Hin.
    + pose proof (Always_fmap _ _
        (bedrock_answers x (ChatRequest.mk m (ChatRequest.stream q) (ChatRequest.body q)))) as Hb.
      intros w r Hr _. exact (Hb w r Hr).
Qed.
End properties.

(** ** Witness: a message of Anthropic, through the default configuration *)
#[local] Existing Instances ok_reqwest sample_moka sample_rustls sample_anthropic_serde sample_bedrock_serde
  sample_crypto sample_entropy sample_regex sample_wasmtime sample_env some_hash_order.
#[local] Instance braces : SerdeJson := one_document Null.
Definition claude_rq : ChatRequest := ChatRequest.mk "claude-3-opus" false [].
Definition claude_answer : ChatResponse :=
  ChatResponse.mk 200 (Some "application/json") (single_chunk [Byte.x7b]) "anthropic" "claude-3-opus"
    (Some (Usage.mk 4294967295 1)) 1.
Lemma claude_answers :
  match (runtime.build_runtime Config.default empty_gateway).1 with
  | Ok rt => (c_chat (Runtime.connector rt) claude_rq (g_world empty_gateway)).1 = Some (Ok claude_answer)
  | Err _ => False
  end.
Proof. vm_compute. reflexivity. Qed.
Lemma translated_answers_typed_witness : openai_answer false [] claude_answer.
Proof.
  pose proof claude_answers as Ha.
  destruct (runtime.build_runtime Config.default empty_gateway) as [[rt|e] g'] eqn:Eb; [|destruct Ha].
  exact (translated_answers_typed Config.default empty_gateway rt g' claude_rq (g_world empty_gateway)
    claude_answer Eb Ha (list_elem_of_here _ _)).
Defined.
