(* ===== verification/Proxy.v ===== *)
(** * Proxy: the OpenAI-compatible request pipeline ([proxy.rs])

    Authentication, model scope, budget, plugins, cache, upstream call, accounting.
    A handler is a computation over the gateway; [None] is a panic of the handler.
    Routing, extraction and the printing of [Json] bodies belong to [axum]. *)

From S2P Require Import Prelude Text Float64 Json Events Auth Limits Plugin Config Provider.
From S2P Require Import Sse StreamObserver Cache Tls Runtime.
Import Json.

(** Request headers, lower-case names. *)
Abbreviation HeaderMap := (list (string * bytes)).
Definition header_get (headers : HeaderMap) (name : string) : option bytes :=
  snd <$> find_first (λ h, bool_decide (h.1 = name)) headers.

Module ChatMeta.
Record ChatMeta := mk { model : option string; stream : bool }.
Definition default : ChatMeta := mk None false.
End ChatMeta.
Module EmbeddingsMeta.
Record EmbeddingsMeta := mk { model : option string }.
Definition default : EmbeddingsMeta := mk None.
End EmbeddingsMeta.

(** The derived deserialisers of the two structures, and the check of a header
    value by [http]'s response builder. *)
Class MetaSerde := {
  chat_meta_from_slice : bytes → result string ChatMeta.ChatMeta;
  embeddings_meta_from_slice : bytes → result string EmbeddingsMeta.EmbeddingsMeta;
  header_value_ok : string → bool
}.

(** A response body: bytes, a JSON value, the upstream's stream, or the stream
    under observation. *)
Inductive Body :=
| BFull (b : bytes)
| BJson (v : Value)
| BStream (s : BodyStream)
| BObserved (s : UsageObservingStream.UsageObservingStream).
Module Response.
Record Response := mk { status : Z; headers : list (string * string); body : Body }.
End Response.
Abbreviation Response := Response.Response.

Record PluginRejection := mkRejection { pr_plugin : string; pr_info : RejectInfo }.

(** ** Pure parts *)
Definition CACHE_HEADER : string := "x-vaultplane-cache".
Definition TRACE_ID_HEADER : string := "x-vaultplane-trace-id".
Definition IDEMPOTENCY_HEADER : string := "x-vaultplane-idempotency-key".

Definition cache_key_for `{Crypto} `{Moka} (scope model : string)
    (idempotency_key : option string) (body : bytes) : string :=
  match idempotency_key with
  | Some k => ResponseCache.key scope model (as_bytes ("idempotency:" +:+ k))
  | None => ResponseCache.key scope model body
  end.

Definition header_str `{Reqwest} (headers : HeaderMap) (name : string) : option string :=
  s ← header_get headers name ≫= header_to_str;
  if decide (s = "") then None else Some s.

(** [main.rs] *)
Definition bearer_token `{Reqwest} (headers : HeaderMap) : option string :=
  value ← header_get headers "authorization";
  s ← header_to_str value;
  strip_prefix "Bearer " s.

Definition rejection (reason : string) : Effect :=
  ECounter names.REJECTIONS_TOTAL [("reason", reason)] 1.

Definition cost_cents (provider model : string) (cost_usd : option f64) : list Effect :=
  match cost_usd with
  | Some cost =>
      if F64.is_finite cost && F64.lt F64.zero cost then
        let cents := F64.to_u64 (F64.round (F64.mul cost (F64.of_int 100))) in
        if (0 <? cents)%Z then
          [ECounter names.COST_CENTS_TOTAL [("provider", provider); ("model", model)] cents]
        else []
      else []
  | None => []
  end.
Definition record_completion (provider model : string) (status : Z) (cache_label : string)
    (duration_seconds : f64) (cost_usd : option f64) : list Effect :=
  [ECounter names.REQUESTS_TOTAL
     [("provider", provider); ("model", model); ("status", pretty status)] 1;
   EHistogram names.REQUEST_DURATION_SECONDS
     [("provider", provider); ("model", model); ("cache", cache_label)] duration_seconds]
  ++ cost_cents provider model cost_usd.

Definition compute_cost (pricing : Pricing) (provider model : string) (usage : Usage) : option f64 :=
  cost.compute pricing provider model usage.

(** The chunks up to the end, or the first transport error. *)
Fixpoint collect_body (body : BodyStream) : result string bytes :=
  match body with
  | [] => Ok []
  | PPending :: body => collect_body body
  | PItem (Ok chunk) :: body => rest ← collect_body body; Ok (chunk ++ rest)
  | PItem (Err e) :: _ => Err e
  end.

Fixpoint run_plugins (plugins : list PluginEntry) (path virtual_model : string) (body : bytes)
    : result PluginRejection bytes :=
  match plugins with
  | [] => Ok body
  | entry :: plugins =>
      if negb (applies_to entry virtual_model) then run_plugins plugins path virtual_model body
      else
        match inspect_request (plugin entry) (PluginRequest.mk "POST" path [] body) with
        | Pass => run_plugins plugins path virtual_model body
        | Modify updated => run_plugins plugins path virtual_model (PluginRequest.body updated)
        | Reject info => Err (mkRejection (plugin_name (plugin entry)) info)
        end
  end.

(** [StatusCode::from_u16]. *)
Definition status_from_u16 (n : Z) : option Z := if ((100 <=? n) && (n <=? 999))%Z then Some n else None.

Definition json_response (status : Z) (v : Value) : Response :=
  Response.mk status [("content-type", "application/json")] (BJson v).
Definition error (status : Z) (message : string) : Response :=
  json_response status (obj [("error", obj [("message", Str message)])]).
Definition upstream_error_response (err : Error.Error) : Response :=
  let '(status, kind, message) :=
    match err with
    | Error.UpstreamTimeout detail =>
        (504%Z, "upstream_timeout", "upstream request timed out: " +:+ detail)
    | other => (502%Z, "upstream_error", Error.to_string other)
    end in
  json_response status (obj [("error", obj [("message", Str message); ("type", Str kind)])]).

Definition build_response `{MetaSerde} (status : Z) (content_type : option string) (body : Body)
    (cache : string) : Response :=
  let ct_ok := match content_type with Some ct => header_value_ok ct | None => true end in
  match status_from_u16 status with
  | Some status =>
      if ct_ok then
        Response.mk status
          ((CACHE_HEADER, cache) ::
           match content_type with Some ct => [("content-type", ct)] | None => [] end) body
      else error 502 "invalid upstream response"
  | None => error 502 "invalid upstream response"
  end.

(** ** The handlers *)
Section proxy.
Context `{Reqwest} `{Moka} `{Rustls} `{SerdeJson} `{Crypto} `{TimeCrate} `{HashOrder} `{MetaSerde}.

Definition record_rejection (reason : string) : G () := g_emit (rejection reason).
Definition span (field : string) (v : FieldValue) : G () := g_emit (ESpan field v).

(** [start.elapsed()]: in whole milliseconds, and in seconds. *)
Definition elapsed_ms (start : Z) : G Z :=
  now ← g_now; mret (wrap_u64 (Z.max 0 (now - start) / 1000000))%Z.
Definition elapsed_secs (start : Z) : G f64 :=
  now ← g_now; mret (F64.as_secs_f64 (Z.max 0 (now - start)))%Z.

(** The middleware: the key of the request, or the answer that ends it. *)
Definition present_key (headers : HeaderMap) : G (option VirtualKey) :=
  keys ← gets g_keys;
  mret (if KeyStore.is_empty keys then Some VirtualKey.anonymous
        else bearer_token headers ≫= KeyStore.authenticate keys).
Definition within_rate (key : VirtualKey) : G bool := λ g,
  match VirtualKey.rate_limit_rps key with
  | Some rps =>
      let now := w_now (g_world g) in
      let '(ok, limiter) :=
        RateLimiter.check (VirtualKey.identifier key) rps now now (g_limiter g) in
      (ok, set_limiter limiter g)
  | None => (true, g)
  end.
Definition authenticate (headers : HeaderMap) : G (result Response VirtualKey) :=
  presented ← present_key headers;
  match presented with
  | None =>
      record_rejection label_values.REASON_AUTH;;
      mret (Err (error 401 "missing or invalid virtual key"))
  | Some key =>
      now ← g_now;
      if VirtualKey.is_expired now key then
        record_rejection label_values.REASON_EXPIRED;;
        mret (Err (error 401 "virtual key has expired"))
      else
        ok ← within_rate key;
        if (ok : bool) then mret (Ok key)
        else
          record_rejection label_values.REASON_RATE_LIMIT;;
          mret (Err (error 429 "rate limit exceeded"))
  end.

Definition list_models : G Response :=
  runtime ← gets g_runtime;
  mret (json_response 200
    (obj [("object", Str "list");
          ("data", Array (map (λ m, obj [("id", Str (RegisteredModel.id m));
                                         ("object", Str "model");
                                         ("owned_by", Str (RegisteredModel.provider m))])
                            (Runtime.models runtime)))])).

(** The fields a request's span opens with. *)
Definition open_span (key : VirtualKey) (virtual_model : string) (headers : HeaderMap) : G () :=
  g_emits ([ESpan "gen_ai.request.model" (FStr virtual_model);
            ESpan "vaultplane.virtual_key.id" (FStr (VirtualKey.identifier key));
            ESpan "vaultplane.team" (FStr (VirtualKey.team key));
            ESpan "vaultplane.app" (FStr (VirtualKey.app key));
            ESpan "vaultplane.env" (FStr (VirtualKey.env key))]
           ++ match header_str headers TRACE_ID_HEADER with
              | Some trace_id => [ESpan "vaultplane.trace_id" (FStr trace_id)]
              | None => []
              end).

(** A request refused before the cache and the upstream. *)
Definition refuse {A} (reason : string) (status : Z) (start : Z) (events : list Effect)
    (response : Response) : G (result Response A) :=
  record_rejection reason;;
  g_emits events;;
  span "vaultplane.cache.hit" (FBool false);;
  span "http.response.status_code" (FInt status);;
  ms ← elapsed_ms start;
  span "duration_ms" (FInt ms);;
  mret (Err response).

Definition check_model (key : VirtualKey) (virtual_model : string) (start : Z)
    : G (result Response ()) :=
  if negb (VirtualKey.allows_model key virtual_model) then
    refuse label_values.REASON_FORBIDDEN_MODEL 403 start []
      (error 403 "virtual key is not allowed to use this model")
  else mret (Ok ()).
Definition check_budget (key : VirtualKey) (start : Z) : G (result Response ()) :=
  now ← g_now;
  tracker ← gets g_spend;
  match VirtualKey.spend_limit key with
  | Some limit =>
      if negb (SpendTracker.pre_check tracker (VirtualKey.identifier key) limit now) then
        refuse label_values.REASON_SPEND_LIMIT 402 start []
          (error 402 "spend limit exceeded for this period")
      else mret (Ok ())
  | None => mret (Ok ())
  end.
Definition inspect (plugins : PluginChain) (key : VirtualKey) (path virtual_model : string)
    (body : bytes) (start : Z) : G (result Response bytes) :=
  match run_plugins plugins path virtual_model body with
  | Ok body => mret (Ok body)
  | Err r =>
      let info := pr_info r in
      refuse label_values.REASON_PLUGIN (status_code info) start
        [EAudit (audit.plugin_rejected (VirtualKey.identifier key) (pr_plugin r)
                   (reason info) (status_code info))]
        (error (match status_from_u16 (status_code info) with Some s => s | None => 403%Z end)
           (reason info))
  end.
Definition guards (plugins : PluginChain) (key : VirtualKey) (path virtual_model : string)
    (body : bytes) (start : Z) : G (result Response bytes) :=
  try_m (check_model key virtual_model start) (λ _,
  try_m (check_budget key start) (λ _,
  inspect plugins key path virtual_model body start)).

(** Both handlers open their span, run the guards, and go on with the body the
    plugins left. *)
Definition guarded (plugins : PluginChain) (key : VirtualKey) (path virtual_model : string)
    (headers : HeaderMap) (body : bytes) (start : Z) (forward : bytes → G (option Response))
    : G (option Response) :=
  open_span key virtual_model headers;;
  passed ← guards plugins key path virtual_model body start;
  match passed with
  | Err response => mret (Some response)
  | Ok body => forward body
  end.

Definition serve_from_cache (pricing : Pricing) (cached : CachedResponse) (start : Z)
    : G Response :=
  let provider := CachedResponse.provider cached in
  let model := CachedResponse.model cached in
  g_emits [ESpan "gen_ai.system" (FStr provider); ESpan "gen_ai.response.model" (FStr model);
           ESpan "vaultplane.provider.attempts" (FInt 0);
           ESpan "http.response.status_code" (FInt (CachedResponse.status cached));
           ESpan "vaultplane.cache.hit" (FBool true)];;
  match CachedResponse.usage cached with
  | Some usage =>
      g_emits [ESpan "gen_ai.usage.input_tokens" (FInt (Usage.prompt_tokens usage));
               ESpan "gen_ai.usage.output_tokens" (FInt (Usage.completion_tokens usage))];;
      match compute_cost pricing provider model usage with
      | Some cost => span "vaultplane.cost_usd" (FF64 cost)
      | None => mret ()
      end
  | None => mret ()
  end;;
  ms ← elapsed_ms start;
  span "duration_ms" (FInt ms);;
  secs ← elapsed_secs start;
  g_emits (record_completion provider model (CachedResponse.status cached) label_values.CACHE_HIT
             secs None);;
  mret (build_response (CachedResponse.status cached) (CachedResponse.content_type cached)
          (BFull (CachedResponse.body cached)) "HIT").

(** The cache lookup of a cacheable request. *)
Definition look_up (cache : option nat) (cache_key : option string) : G (option CachedResponse) :=
  match cache, cache_key with
  | Some h, Some key => cache_get h key
  | _, _ => mret None
  end.

(** The accounting of an upstream answer: the span's fields, the spend recorded
    when the key has a limit and the model a price, and the completion metrics.
    [tokens] gives the span fields of the usage. *)
Definition charge (key : VirtualKey) (cost : f64) : G () :=
  now ← g_now;
  match VirtualKey.spend_limit key with
  | Some limit =>
      modify (λ g, set_spend (SpendTracker.record (VirtualKey.identifier key) (period limit) cost
                                now (g_spend g)) g)
  | None => mret ()
  end.
Definition account (pricing : Pricing) (key : VirtualKey) (tokens : Usage → list Effect)
    (upstream : ChatResponse) (duration_ms start : Z) : G () :=
  let provider := ChatResponse.provider upstream in
  let model := ChatResponse.model upstream in
  let cost_for_metrics := ChatResponse.usage upstream ≫= compute_cost pricing provider model in
  g_emits [ESpan "gen_ai.system" (FStr provider); ESpan "gen_ai.response.model" (FStr model);
           ESpan "vaultplane.provider.attempts" (FInt (ChatResponse.attempts upstream));
           ESpan "http.response.status_code" (FInt (ChatResponse.status upstream));
           ESpan "vaultplane.cache.hit" (FBool false)];;
  match ChatResponse.usage upstream with
  | Some usage => g_emits (tokens usage)
  | None => mret ()
  end;;
  match cost_for_metrics with
  | Some cost => span "vaultplane.cost_usd" (FF64 cost);; charge key cost
  | None => mret ()
  end;;
  span "duration_ms" (FInt duration_ms);;
  secs ← elapsed_secs start;
  g_emits (record_completion provider model (ChatResponse.status upstream)
             label_values.CACHE_MISS secs cost_for_metrics).

(** A cacheable answer is drained, stored and sent. *)
Definition store_and_respond (h : nat) (key_str : string) (upstream : ChatResponse) : G Response :=
  match collect_body (ChatResponse.body upstream) with
  | Ok bytes =>
      cache_insert h key_str
        (CachedResponse.mk (ChatResponse.status upstream) (ChatResponse.content_type upstream) bytes
           (ChatResponse.provider upstream) (ChatResponse.model upstream)
           (ChatResponse.usage upstream));;
      mret (build_response (ChatResponse.status upstream) (ChatResponse.content_type upstream)
              (BFull bytes) "MISS")
  | Err _ => mret (error 502 "failed to read upstream response")
  end.

Definition upstream_failed (err : Error.Error) (duration_ms : Z) : G Response :=
  let response := upstream_error_response err in
  span "vaultplane.cache.hit" (FBool false);;
  span "http.response.status_code" (FInt (Response.status response));;
  span "duration_ms" (FInt duration_ms);;
  record_rejection label_values.REASON_UPSTREAM_ERROR;;
  mret response.

(** The upstream's answer, accounted and sent; [relay] is the body of an answer
    that is not stored. *)
Definition answer (runtime : Runtime) (key : VirtualKey) (tokens : Usage → list Effect)
    (relay : ChatResponse → Body) (cache_key : option string) (start duration_ms : Z)
    (result : result Error.Error ChatResponse) : G Response :=
  match result with
  | Ok upstream =>
      account (Runtime.pricing runtime) key tokens upstream duration_ms start;;
      let passed :=
        build_response (ChatResponse.status upstream) (ChatResponse.content_type upstream)
          (relay upstream) "MISS" in
      match cache_key, Runtime.cache runtime with
      | Some key_str, Some h =>
          if (ChatResponse.status upstream =? 200)%Z then store_and_respond h key_str upstream
          else mret passed
      | _, _ => mret passed
      end
  | Err err => upstream_failed err duration_ms
  end.

(** From the body the plugins left to the response: the cache, or the upstream. *)
Definition dispatch (runtime : Runtime) (key : VirtualKey) (tokens : Usage → list Effect)
    (relay : ChatResponse → Body) (cache_key : option string) (start : Z)
    (call : W (option (result Error.Error ChatResponse))) : G (option Response) :=
  cached ← look_up (Runtime.cache runtime) cache_key;
  match cached with
  | Some cached => Some <$> serve_from_cache (Runtime.pricing runtime) cached start
  | None =>
      result ← in_world call;
      duration_ms ← elapsed_ms start;
      match result with
      | Some result =>
          Some <$> answer runtime key tokens relay cache_key start duration_ms result
      | None => mret None
      end
  end.

Definition chat_tokens (usage : Usage) : list Effect :=
  [ESpan "gen_ai.usage.input_tokens" (FInt (Usage.prompt_tokens usage));
   ESpan "gen_ai.usage.output_tokens" (FInt (Usage.completion_tokens usage))].
Definition chat_relay (pricing : Pricing) (key : VirtualKey) (stream : bool)
    (upstream : ChatResponse) : Body :=
  if stream then
    BObserved (UsageObservingStream.new (ChatResponse.body upstream) pricing
                 (VirtualKey.identifier key) (VirtualKey.spend_limit key)
                 (ChatResponse.provider upstream) (ChatResponse.model upstream))
  else BStream (ChatResponse.body upstream).

Definition chat_meta (body : bytes) : ChatMeta.ChatMeta :=
  match chat_meta_from_slice body with Ok meta => meta | Err _ => ChatMeta.default end.
Definition chat_model (body : bytes) : string := default "" (ChatMeta.model (chat_meta body)).
Definition chat_forward (runtime : Runtime) (key : VirtualKey) (stream : bool)
    (virtual_model : string) (idempotency_key : option string) (start : Z) (body : bytes)
    : G (option Response) :=
  let cache_key :=
    if stream then None
    else Some (cache_key_for (VirtualKey.identifier key) virtual_model idempotency_key body) in
  dispatch runtime key chat_tokens (chat_relay (Runtime.pricing runtime) key stream) cache_key
    start (c_chat (Runtime.connector runtime) (ChatRequest.mk virtual_model stream body)).
Definition chat_completions (key : VirtualKey) (headers : HeaderMap) (body : bytes)
    : G (option Response) :=
  start ← g_now;
  let stream := ChatMeta.stream (chat_meta body) in
  let virtual_model := chat_model body in
  let idempotency_key := header_str headers IDEMPOTENCY_HEADER in
  runtime ← gets g_runtime;
  guarded (Runtime.plugins runtime) key "/v1/chat/completions" virtual_model headers body start
    (chat_forward runtime key stream virtual_model idempotency_key start).

Definition embeddings_tokens (usage : Usage) : list Effect :=
  [ESpan "gen_ai.usage.input_tokens" (FInt (Usage.prompt_tokens usage))].
Definition embeddings_relay (upstream : ChatResponse) : Body := BStream (ChatResponse.body upstream).
Definition embeddings_model (body : bytes) : string :=
  match embeddings_meta_from_slice body with
  | Ok meta => default "" (EmbeddingsMeta.model meta)
  | Err _ => default "" (EmbeddingsMeta.model EmbeddingsMeta.default)
  end.
Definition embeddings_forward (runtime : Runtime) (key : VirtualKey) (virtual_model : string)
    (idempotency_key : option string) (start : Z) (body : bytes) : G (option Response) :=
  let cache_key :=
    Some (cache_key_for (VirtualKey.identifier key) virtual_model idempotency_key body) in
  dispatch runtime key embeddings_tokens embeddings_relay cache_key start
    (c_embeddings (Runtime.connector runtime) (EmbeddingsRequest.mk virtual_model body)).
Definition embeddings (key : VirtualKey) (headers : HeaderMap) (body : bytes)
    : G (option Response) :=
  start ← g_now;
  let virtual_model := embeddings_model body in
  let idempotency_key := header_str headers IDEMPOTENCY_HEADER in
  runtime ← gets g_runtime;
  guarded (Runtime.plugins runtime) key "/v1/embeddings" virtual_model headers body start
    (embeddings_forward runtime key virtual_model idempotency_key start).

Definition fallback : Response := error 404 "not found".

(** The router: the middleware runs for every path; a known path under another
    method is [axum]'s empty 405. *)
Record Request := mkRequest {
  rq_method : string;
  rq_path : string;
  rq_headers : HeaderMap;
  rq_body : bytes
}.
Definition method_not_allowed : Response := Response.mk 405 [] (BFull []).
Definition route (rq : Request) (key : VirtualKey) : G (option Response) :=
  if decide (rq_path rq = "/v1/chat/completions") then
    if decide (rq_method rq = "POST") then chat_completions key (rq_headers rq) (rq_body rq)
    else mret (Some method_not_allowed)
  else if decide (rq_path rq = "/v1/embeddings") then
    if decide (rq_method rq = "POST") then embeddings key (rq_headers rq) (rq_body rq)
    else mret (Some method_not_allowed)
  else if decide (rq_path rq = "/v1/models") then
    if decide (rq_method rq = "GET" ∨ rq_method rq = "HEAD") then Some <$> list_models
    else mret (Some method_not_allowed)
  else mret (Some fallback).
Definition handle (rq : Request) : G (option Response) :=
  authenticated ← authenticate (rq_headers rq);
  match authenticated with
  | Err response => mret (Some response)
  | Ok key => route rq key
  end.
End proxy.

(** ** Lemmas: what a handler leaves alone *)

Section still.
Context `{Reqwest} `{Moka} `{Rustls}.

(** Only the trace and the rate limiter may differ. *)
Record still (g g' : Gateway) : Prop := {
  still_keys : g_keys g' = g_keys g;
  still_spend : g_spend g' = g_spend g;
  still_runtime : g_runtime g' = g_runtime g;
  still_tls : g_tls g' = g_tls g;
  still_caches : g_caches g' = g_caches g;
  still_net : w_net (g_world g') = w_net (g_world g);
  still_now : w_now (g_world g') = w_now (g_world g)
}.
#[export] Instance still_preorder : PreOrder still.
Proof.
  split.
  - intros g. by constructor.
  - intros a b c [] []. constructor; by etrans.
Qed.
Definition Still {A} (c : G A) : Prop := ∀ g, still g (c g).2.

Lemma Still_ret {A} (a : A) : Still (mret a).
Proof. intros g. reflexivity. Qed.
Lemma Still_gets {A} (f : Gateway → A) : Still (gets f).
Proof. intros g. reflexivity. Qed.
Lemma Still_emit e : Still (g_emit e).
Proof. intros g. by constructor. Qed.
Lemma Still_bind {A B} (c : G A) (k : A → G B) :
  Still c → (∀ a, Still (k a)) → Still (c ≫= k).
Proof. intros Hc Hk g. rewrite M_bind_eq. unfold eval, exec. etrans; [apply Hc|apply Hk]. Qed.
Lemma Still_emits es : Still (g_emits es).
Proof.
  induction es as [|e es IH]; [apply Still_ret|]. apply Still_bind; [apply Still_emit|done].
Qed.
Lemma Still_fmap {A B} (f : A → B) (c : G A) : Still c → Still (f <$> c).
Proof. intros Hc g. specialize (Hc g). unfold fmap, M_fmap. by destruct (c g). Qed.
End still.

(** How often a trace counts a request: a refusal or a completion. *)
Definition counts (e : Effect) : bool :=
  match e with
  | ECounter name _ _ =>
      bool_decide (name = names.REJECTIONS_TOTAL) || bool_decide (name = names.REQUESTS_TOTAL)
  | _ => false
  end.
Definition tally (t : list Effect) : nat := length (filter (λ e, counts e = true) t).
Lemma tally_app t u : tally (t ++ u) = tally t + tally u.
Proof. unfold tally. by rewrite filter_app, length_app. Qed.

Lemma tally_audits evs : tally (map EAudit evs) = 0.
Proof. by induction evs. Qed.

Section adds.
Context `{Reqwest} `{Moka} `{Rustls}.
Definition gw_tally (g : Gateway) : nat := tally (w_trace (g_world g)).
(** A computation counts [n] requests. *)
Definition Adds {A} (n : nat) (c : G A) : Prop := ∀ g, gw_tally (c g).2 = gw_tally g + n.

Lemma Adds_ret {A} (a : A) : Adds 0 (mret a).
Proof. intros g. cbn. lia. Qed.
Lemma Adds_gets {A} (f : Gateway → A) : Adds 0 (gets f).
Proof. intros g. cbn. lia. Qed.
Lemma Adds_emit e : Adds (tally [e]) (g_emit e).
Proof. intros g. unfold gw_tally. rewrite <-tally_app. done. Qed.
Lemma Adds_bind {A B} n m (c : G A) (k : A → G B) :
  Adds n c → (∀ a, Adds m (k a)) → Adds (n + m) (c ≫= k).
Proof. intros Hc Hk g. rewrite M_bind_eq. unfold eval, exec. rewrite Hk, Hc. lia. Qed.
Lemma Adds_bind_l {A B} n (c : G A) (k : A → G B) :
  Adds 0 c → (∀ a, Adds n (k a)) → Adds n (c ≫= k).
Proof. intros Hc Hk. apply (Adds_bind 0 n); done. Qed.
Lemma Adds_emits es : Adds (tally es) (g_emits es).
Proof.
  induction es as [|e es IH]; [apply Adds_ret|].
  assert (tally (e :: es) = tally [e] + tally es) as -> by apply (tally_app [e] es).
  apply Adds_bind; [apply Adds_emit|done].
Qed.
Lemma Adds_bind_r {A B} n (c : G A) (k : A → G B) :
  Adds n c → (∀ a, Adds 0 (k a)) → Adds n (c ≫= k).
Proof. intros Hc Hk. rewrite <-(Nat.add_0_r n). by apply Adds_bind. Qed.
Lemma Adds_fmap {A B} n (f : A → B) (c : G A) : Adds n c → Adds n (f <$> c).
Proof. intros Hc g. specialize (Hc g). unfold fmap, M_fmap. by destruct (c g). Qed.
End adds.

Lemma Adds_emits_eq `{Reqwest} `{Moka} `{Rustls} n es : tally es = n → Adds n (g_emits es).
Proof. intros <-. apply Adds_emits. Qed.
Lemma Adds_emit_eq `{Reqwest} `{Moka} `{Rustls} n e : tally [e] = n → Adds n (g_emit e).
Proof. intros <-. apply Adds_emit. Qed.

Create HintDb still discriminated.
#[export] Hint Resolve Still_ret Still_gets Still_emit Still_emits : still.
#[export] Hint Resolve Adds_ret Adds_gets : still.

(** Splits a computation into its steps; [adds] looks for the one that counts. *)
Ltac still :=
  repeat (intros; first [progress eauto with still | apply Still_bind | apply Still_fmap | case_match]).

(** Finds the one step of a computation that counts. *)
Ltac adds :=
  intros;
  lazymatch goal with
  | |- Adds _ (mret _) => apply Adds_ret
  | |- Adds _ (gets _) => apply Adds_gets
  | |- Adds _ (g_emit _) => apply Adds_emit_eq; reflexivity
  | |- Adds _ (g_emits _) => first [solve [auto with still] | apply Adds_emits_eq; first [assumption|reflexivity]]
  | |- Adds _ (_ <$> _) => apply Adds_fmap; adds
  | |- Adds _ (_ ≫= _) =>
      first [apply Adds_bind_l; [solve [adds]|adds] | apply Adds_bind_r; [solve [adds]|adds]]
  | |- Adds _ (match _ with _ => _ end) => case_match; adds
  | |- Adds _ (if _ then _ else _) => case_match; adds
  | |- _ => solve [auto with still]
  end.

Section handler_frames.
Context `{Reqwest} `{Moka} `{Rustls} `{SerdeJson} `{Crypto} `{TimeCrate} `{HashOrder} `{MetaSerde}.

Lemma elapsed_ms_still start : Still (elapsed_ms start).
Proof. unfold elapsed_ms, g_now. still. Qed.
Lemma elapsed_secs_still start : Still (elapsed_secs start).
Proof. unfold elapsed_secs, g_now. still. Qed.
Lemma refuse_still {A} reason status start es r : Still (refuse (A:=A) reason status start es r).
Proof. unfold refuse, record_rejection, span. still; apply elapsed_ms_still. Qed.
Lemma within_rate_still key : Still (within_rate key).
Proof.
  intros g. unfold within_rate. case_match; [|reflexivity]. case_match. by constructor.
Qed.
Lemma authenticate_still headers : Still (authenticate headers).
Proof.
  unfold authenticate, present_key, record_rejection, g_now. still; apply within_rate_still.
Qed.
Lemma open_span_still key vm headers : Still (open_span key vm headers).
Proof. apply Still_emits. Qed.
Lemma guards_still plugins key path vm body start : Still (guards plugins key path vm body start).
Proof.
  unfold guards, try_m, try_, check_model, check_budget, inspect, g_now. still; apply refuse_still.
Qed.
Lemma serve_from_cache_still pricing cached start : Still (serve_from_cache pricing cached start).
Proof.
  unfold serve_from_cache, span. still; first [apply elapsed_ms_still|apply elapsed_secs_still].
Qed.
Lemma list_models_still : Still list_models.
Proof. unfold list_models. still. Qed.
End handler_frames.

(** ** Lemmas: who is admitted *)
Section admission.
Context `{Reqwest} `{Moka} `{Rustls} `{SerdeJson} `{Crypto} `{TimeCrate} `{HashOrder} `{MetaSerde}.

(** The handlers never touch the key store, the runtime or the TLS material. *)
Definition keeps (g g' : Gateway) : Prop :=
  g_keys g' = g_keys g ∧ g_runtime g' = g_runtime g ∧ g_tls g' = g_tls g.
Definition Keeps {A} (c : G A) : Prop := ∀ g, keeps g (c g).2.
Lemma Keeps_still {A} (c : G A) : Still c → Keeps c.
Proof. intros Hc g. by destruct (Hc g). Qed.
Lemma Keeps_bind {A B} (c : G A) (k : A → G B) : Keeps c → (∀ a, Keeps (k a)) → Keeps (c ≫= k).
Proof.
  intros Hc Hk g. rewrite M_bind_eq. unfold eval, exec.
  destruct (Hc g) as (E1 & E2 & E3). unfold keeps. rewrite <-E1, <-E2, <-E3. apply Hk.
Qed.
Lemma Keeps_fmap {A B} (f : A → B) (c : G A) : Keeps c → Keeps (f <$> c).
Proof. intros Hc g. specialize (Hc g). unfold fmap, M_fmap. by destruct (c g). Qed.
Lemma Keeps_in_world {A} (c : W A) : Keeps (in_world c).
Proof. intros g. unfold in_world, zoom. by destruct (c _). Qed.
Lemma Keeps_cache_get h k : Keeps (cache_get h k).
Proof. intros g. unfold cache_get. case_match; [|done]. by destruct (ResponseCache.get _ _ _). Qed.
Lemma Keeps_cache_insert h k v : Keeps (cache_insert h k v).
Proof. intros g. unfold cache_insert. by case_match. Qed.

Lemma charge_keeps key cost : Keeps (charge key cost).
Proof.
  unfold charge. apply Keeps_bind; [apply Keeps_still, Still_gets|]. intros now. by case_match.
Qed.
Lemma upstream_failed_still err ms : Still (upstream_failed err ms).
Proof. unfold upstream_failed, span, record_rejection. still. Qed.

Ltac keeps :=
  repeat (intros; first
    [ apply Keeps_still; solve [eauto using elapsed_ms_still, elapsed_secs_still,
        upstream_failed_still, serve_from_cache_still with still]
    | apply Keeps_cache_get | apply Keeps_cache_insert | apply Keeps_in_world | apply charge_keeps
    | apply Keeps_bind | apply Keeps_fmap | case_match ]).

Lemma account_keeps pricing key tokens up ms start : Keeps (account pricing key tokens up ms start).
Proof. unfold account, span. keeps. Qed.
Lemma dispatch_keeps rt key tokens relay ck start call : Keeps (dispatch rt key tokens relay ck start call).
Proof.
  unfold dispatch, look_up, answer, store_and_respond. keeps; try apply account_keeps; keeps.
Qed.

Lemma refuse_eval {A} reason status start es r g :
  (refuse (A:=A) reason status start es r g).1 = Err r.
Proof. unfold refuse. by rewrite !M_bind_eq. Qed.

(** What passing the guards means. *)
Definition passes (plugins : PluginChain) (key : VirtualKey) (path vm : string) (body : bytes)
    (g : Gateway) (body' : bytes) : Prop :=
  VirtualKey.allows_model key vm = true ∧
  (∀ limit, VirtualKey.spend_limit key = Some limit →
     SpendTracker.pre_check (g_spend g) (VirtualKey.identifier key) limit (w_now (g_world g)) = true) ∧
  run_plugins plugins path vm body = Ok body'.

Lemma try_m_ok {S E A B} (c : M S (result E A)) (k : A → M S (result E B)) s a s' :
  c s = (Ok a, s') → try_m c k s = k a s'.
Proof. intros E1. unfold try_m. by rewrite M_bind_eq; unfold eval, exec; rewrite E1. Qed.
Lemma try_m_err {S E A B} (c : M S (result E A)) (k : A → M S (result E B)) s e :
  (c s).1 = Err e → try_m c k s = (Err e, (c s).2).
Proof. intros E1. unfold try_m. by rewrite M_bind_eq; unfold eval, exec; rewrite E1. Qed.

Lemma try_m_refuse {A B} (c : G (result Response A)) (k : A → G (result Response B))
    reason status start es r g :
  c g = refuse reason status start es r g → try_m c k g = refuse reason status start es r g.
Proof.
  intros E1. rewrite (try_m_err c k g r) by (by rewrite E1, refuse_eval).
  rewrite E1, (surjective_pairing (refuse (A:=B) _ _ _ _ _ g)), refuse_eval. f_equal.
  unfold refuse. by rewrite !M_bind_eq.
Qed.

(** A refusal writes an error body and counts nothing of its own. *)
Definition refusal (es : list Effect) (r : Response) : Prop :=
  tally es = 0 ∧ ∃ status message, r = error status message.

(** Each guard lets the request through untouched, or refuses it. *)
Definition budget_left (key : VirtualKey) (g : Gateway) : bool :=
  match VirtualKey.spend_limit key with
  | Some limit =>
      SpendTracker.pre_check (g_spend g) (VirtualKey.identifier key) limit (w_now (g_world g))
  | None => true
  end.
Lemma check_model_spec key vm start g :
  if VirtualKey.allows_model key vm then check_model key vm start g = (Ok (), g)
  else ∃ reason status es r, refusal es r ∧ check_model key vm start g = refuse reason status start es r g.
Proof.
  unfold check_model. destruct (VirtualKey.allows_model key vm); cbn [negb]; [done|].
  eexists _, _, _, _. split; [|reflexivity]. split; [done|by eexists _, _].
Qed.
Lemma check_budget_spec key start g :
  if budget_left key g then check_budget key start g = (Ok (), g)
  else ∃ reason status es r, refusal es r ∧ check_budget key start g = refuse reason status start es r g.
Proof.
  unfold check_budget, budget_left, g_now, gets. steps.
  destruct (VirtualKey.spend_limit key) as [limit|]; [|done].
  destruct (SpendTracker.pre_check _ _ _ _); cbn [negb]; [done|].
  eexists _, _, _, _. split; [|reflexivity]. split; [done|by eexists _, _].
Qed.
Lemma inspect_spec plugins key path vm body start g :
  match run_plugins plugins path vm body with
  | Ok body' => inspect plugins key path vm body start g = (Ok body', g)
  | Err _ => ∃ reason status es r, refusal es r ∧
      inspect plugins key path vm body start g = refuse reason status start es r g
  end.
Proof.
  unfold inspect. destruct (run_plugins plugins path vm body); [done|].
  eexists _, _, _, _. split; [|reflexivity]. split; [done|by eexists _, _].
Qed.

Lemma guards_spec plugins key path vm body start g :
  (∃ body', guards plugins key path vm body start g = (Ok body', g) ∧
     passes plugins key path vm body g body') ∨
  (∃ reason status es r, refusal es r ∧
     guards plugins key path vm body start g = refuse reason status start es r g).
Proof.
  unfold guards, passes. pose proof (check_model_spec key vm start g) as H1'.
  destruct (VirtualKey.allows_model key vm).
  2:{ right. destruct H1' as (re & st & es & r & Ht & E). exists re, st, es, r.
      split; [done|]. by apply try_m_refuse. }
  erewrite try_m_ok by exact H1'. pose proof (check_budget_spec key start g) as H2'.
  unfold budget_left in H2'. destruct (VirtualKey.spend_limit key) as [limit|] eqn:El.
  1: destruct (SpendTracker.pre_check _ _ _ _) eqn:Ep.
  2:{ right. destruct H2' as (re & st & es & r & Ht & E). exists re, st, es, r.
      split; [done|]. by apply try_m_refuse. }
  all: erewrite try_m_ok by exact H2'; pose proof (inspect_spec plugins key path vm body start g) as H3';
    destruct (run_plugins plugins path vm body) as [body'|rej];
    [left; exists body'; split; [done|]; split_and!; [done| |done]; intros ? [= <-]; done
    |right; exact H3'].
Qed.

(** The key of a request, by its bearer token; anyone's when there are no keys. *)
Definition bears (keys : KeyStore) (headers : HeaderMap) (key : VirtualKey) : Prop :=
  (keys = ∅ ∧ key = VirtualKey.anonymous) ∨
  (keys ≠ ∅ ∧ ∃ token, bearer_token headers = Some token ∧ KeyStore.authenticate keys token = Some key).
Lemma authenticate_spec headers g :
  match (authenticate headers g).1 with
  | Ok key =>
      bears (g_keys g) headers key ∧ VirtualKey.is_expired (w_now (g_world g)) key = false ∧
      (within_rate key g).1 = true ∧ (authenticate headers g).2 = (within_rate key g).2
  | Err _ => ∀ key, bears (g_keys g) headers key →
      VirtualKey.is_expired (w_now (g_world g)) key = true ∨ (within_rate key g).1 = false
  end.
Proof.
  assert (∀ key, bears (g_keys g) headers key ↔
    (if KeyStore.is_empty (g_keys g) then Some VirtualKey.anonymous
     else bearer_token headers ≫= KeyStore.authenticate (g_keys g)) = Some key) as Hb.
  { intros key. unfold bears, KeyStore.is_empty. case_bool_decide as Hk.
    - split; [by intros [[_ ->]|[? _]]|]. intros [= <-]. by left.
    - rewrite bind_Some. split; [intros [[? _]|[_ ?]]; done|]. intros ?. by right. }
  unfold authenticate, present_key, g_now, gets, mret, M_ret. steps.
  set (p := if KeyStore.is_empty (g_keys g) then Some VirtualKey.anonymous
    else bearer_token headers ≫= KeyStore.authenticate (g_keys g)) in *.
  clearbody p. destruct p as [key|].
  2:{ rewrite M_bind_eq. cbn. intros key ?%Hb. done. }
  steps. destruct (VirtualKey.is_expired _ key) eqn:Ee.
  { rewrite M_bind_eq. cbn. intros key' Hk%Hb. simplify_eq. by left. }
  rewrite M_bind_eq. unfold eval, exec. destruct (within_rate key g) as [ok g1] eqn:Ew.
  cbn [fst snd]. destruct ok.
  - cbn [fst snd]. rewrite Ew. split_and!; [by apply Hb|done..].
  - rewrite M_bind_eq. cbn. intros key' Hk%Hb. simplify_eq. right. by rewrite Ew.
Qed.
End admission.

(** ** Lemmas: every request is counted *)
Section counting.
Context `{Reqwest} `{Moka} `{Rustls} `{SerdeJson} `{Crypto} `{TimeCrate} `{HashOrder} `{MetaSerde}.

Lemma completion_tally p m st cache secs cost : tally (record_completion p m st cache secs cost) = 1.
Proof. unfold record_completion, cost_cents. rewrite tally_app. by repeat case_match. Qed.
Lemma completion_adds p m st cache secs cost : Adds 1 (g_emits (record_completion p m st cache secs cost)).
Proof. apply Adds_emits_eq, completion_tally. Qed.
Lemma elapsed_ms_adds start : Adds 0 (elapsed_ms start).
Proof. unfold elapsed_ms, g_now. adds. Qed.
Lemma elapsed_secs_adds start : Adds 0 (elapsed_secs start).
Proof. unfold elapsed_secs, g_now. adds. Qed.
Lemma charge_adds key cost : Adds 0 (charge key cost).
Proof. intros g. unfold charge, g_now, gets, modify. steps. case_match; by rewrite Nat.add_0_r. Qed.
Lemma within_rate_adds key : Adds 0 (within_rate key).
Proof. intros g. unfold within_rate. case_match; [case_match|]; by rewrite Nat.add_0_r. Qed.
Lemma cache_get_adds h k : Adds 0 (cache_get h k).
Proof.
  intros g. unfold cache_get. case_match; [|by rewrite Nat.add_0_r].
  destruct (ResponseCache.get _ _ _). by rewrite Nat.add_0_r.
Qed.
Lemma cache_insert_adds h k v : Adds 0 (cache_insert h k v).
Proof. intros g. unfold cache_insert. case_match; by rewrite Nat.add_0_r. Qed.
#[local] Opaque record_completion.
#[local] Hint Resolve completion_adds elapsed_ms_adds elapsed_secs_adds charge_adds within_rate_adds
  cache_get_adds cache_insert_adds : still.

Lemma refuse_adds {A} reason status start es r :
  tally es = 0 → Adds 1 (refuse (A:=A) reason status start es r).
Proof. intros. unfold refuse, record_rejection, span. adds. Qed.
Lemma serve_from_cache_adds pricing cached start : Adds 1 (serve_from_cache pricing cached start).
Proof. unfold serve_from_cache, span. adds. Qed.
Lemma account_adds pricing key tokens up ms start :
  (∀ u, tally (tokens u) = 0) → Adds 1 (account pricing key tokens up ms start).
Proof.
  intros Ht. unfold account, span. apply Adds_bind_l; [adds|]. intros _.
  apply Adds_bind_l; [case_match; [apply Adds_emits_eq, Ht|adds]|]. adds.
Qed.
Lemma store_and_respond_adds h k up : Adds 0 (store_and_respond h k up).
Proof. unfold store_and_respond. adds. Qed.
Lemma upstream_failed_adds err ms : Adds 1 (upstream_failed err ms).
Proof. unfold upstream_failed, span, record_rejection. adds. Qed.
#[local] Hint Resolve store_and_respond_adds upstream_failed_adds serve_from_cache_adds : still.
Lemma answer_adds rt key tokens relay ck start ms r :
  (∀ u, tally (tokens u) = 0) → Adds 1 (answer rt key tokens relay ck start ms r).
Proof.
  intros Ht. unfold answer. destruct r as [up|e]; [|adds].
  apply Adds_bind_r; [by apply account_adds|]. adds.
Qed.

(** Calls that count no request themselves. *)
Definition unmetered {A} (c : W A) : Prop := ∀ w, tally (w_trace (c w).2) = tally (w_trace w).
Lemma in_world_adds {A} (c : W A) : unmetered c → Adds 0 (in_world c).
Proof.
  intros Hc g. specialize (Hc (g_world g)). unfold in_world, zoom, gw_tally in *.
  destruct (c _) as [a w]. cbn in *. lia.
Qed.

(** A computation that counts once when it answers. *)
Definition Counted {A} (c : G (option A)) : Prop :=
  ∀ g, (c g).1 ≠ None → gw_tally (c g).2 = gw_tally g + 1.
Lemma Counted_Adds {A} (c : G (option A)) : Adds 1 c → Counted c.
Proof. intros Hc g _. apply Hc. Qed.
Lemma Counted_bind {A B} (c : G A) (k : A → G (option B)) :
  Adds 0 c → (∀ a, Counted (k a)) → Counted (c ≫= k).
Proof.
  intros Hc Hk g. rewrite M_bind_eq. unfold eval, exec. intros Hn.
  rewrite Hk by done. rewrite Hc. lia.
Qed.
Lemma dispatch_counted rt key tokens relay ck start call :
  (∀ u, tally (tokens u) = 0) → unmetered call →
  Counted (dispatch rt key tokens relay ck start call).
Proof.
  intros Ht Hc. unfold dispatch, look_up. apply Counted_bind; [adds|].
  intros [cached|]; [apply Counted_Adds; adds|].
  apply Counted_bind; [by apply in_world_adds|]. intros r.
  apply Counted_bind; [adds|]. intros ms. destruct r as [r|]; [|by intros g].
  by apply Counted_Adds, Adds_fmap, answer_adds.
Qed.
Lemma guarded_counted plugins key path vm headers body start forward :
  (∀ b, Counted (forward b)) → Counted (guarded plugins key path vm headers body start forward).
Proof.
  intros Hf. unfold guarded. apply Counted_bind.
  { apply Adds_emits_eq. destruct (header_str headers TRACE_ID_HEADER); reflexivity. }
  intros _ g. steps.
  destruct (guards_spec plugins key path vm body start g)
    as [(b & E & _)|(re & st & es & r & [Ht _] & E)]; rewrite E; [apply Hf|].
  intros _. rewrite refuse_eval. unfold mret, M_ret. cbn [snd]. by apply refuse_adds.
Qed.
(** A computation that counts once when it fails. *)
Definition CountsErr {E A} (c : G (result E A)) : Prop :=
  ∀ g, gw_tally (c g).2 = gw_tally g + match (c g).1 with Ok _ => 0 | Err _ => 1 end.
Lemma CountsErr_bind {E A B} (c : G A) (k : A → G (result E B)) :
  Adds 0 c → (∀ a, CountsErr (k a)) → CountsErr (c ≫= k).
Proof.
  intros Hc Hk g. rewrite M_bind_eq. unfold eval, exec. rewrite Hk, Hc. lia.
Qed.
Lemma CountsErr_refuse {E A} reason (e : E) :
  CountsErr (record_rejection reason;; mret (Err e) : G (result E A)).
Proof.
  intros g. unfold record_rejection. rewrite M_bind_eq. unfold eval, exec.
  apply (Adds_emit_eq 1). reflexivity.
Qed.
Lemma authenticate_counted headers : CountsErr (authenticate headers).
Proof.
  unfold authenticate, present_key, g_now. apply CountsErr_bind; [adds|].
  intros [key|]; [|apply CountsErr_refuse].
  apply CountsErr_bind; [adds|]. intros now. case_match; [apply CountsErr_refuse|].
  apply CountsErr_bind; [adds|]. intros ok. case_match; [|apply CountsErr_refuse].
  intros g. cbn. lia.
Qed.
End counting.
(** ** Properties *)
Section properties.
Context `{Reqwest} `{Moka} `{Rustls} `{SerdeJson} `{Crypto} `{TimeCrate} `{HashOrder} `{MetaSerde}.

(** The virtual model a request asks for, when it is one the gateway forwards. *)
Definition requested (rq : Request) : option string :=
  if decide (rq_method rq = "POST") then
    if decide (rq_path rq = "/v1/chat/completions") then Some (chat_model (rq_body rq))
    else if decide (rq_path rq = "/v1/embeddings") then Some (embeddings_model (rq_body rq))
    else None
  else None.
(** Everything that must hold before a request may reach the cache or a provider. *)
Definition admitted (rq : Request) (g : Gateway) : Prop :=
  ∃ key vm body,
    bears (g_keys g) (rq_headers rq) key ∧
    VirtualKey.is_expired (w_now (g_world g)) key = false ∧
    (within_rate key g).1 = true ∧
    requested rq = Some vm ∧
    passes (Runtime.plugins (g_runtime g)) key (rq_path rq) vm (rq_body rq) g body.

(** The guards let a request through untouched, or answer it with an error. *)
Lemma guarded_cases plugins key path vm headers body start (forward : bytes → G (option Response)) g :
  let out := guarded plugins key path vm headers body start forward g in
  (still g out.2 ∧ ∃ status message, out.1 = Some (error status message)) ∨
  (∃ body' g1, still g g1 ∧ passes plugins key path vm body g body' ∧ out = forward body' g1).
Proof.
  cbn zeta. unfold guarded. steps. pose proof (open_span_still key vm headers g) as Hs.
  destruct (open_span key vm headers g) as [u g1]. cbn [fst snd] in *.
  destruct (guards_spec plugins key path vm body start g1)
    as [(b & E & Hp)|(re & st & es & r & [_ (st' & m & ->)] & E)]; rewrite E.
  - right. exists b, g1. destruct Hp as (? & Hb & ?), Hs. unfold passes.
    split_and!; [done|done| |done|done]. intros limit Hl. rewrite <-still_spend0, <-still_now0. by apply Hb.
  - left. rewrite refuse_eval. split; [|by eexists _, _]. etrans; [exact Hs|].
    unfold mret, M_ret. cbn [snd]. apply refuse_still.
Qed.
Lemma guarded_frame plugins key path vm headers body start (forward : bytes → G (option Response)) g :
  (∀ b, Keeps (forward b)) →
  let g' := (guarded plugins key path vm headers body start forward g).2 in
  keeps g g' ∧ (still g g' ∨ ∃ body', passes plugins key path vm body g body').
Proof.
  intros Hk. cbn zeta.
  destruct (guarded_cases plugins key path vm headers body start forward g)
    as [[Hs _]|(b & g1 & Hs & Hp & ->)].
  - split; [by destruct Hs|by left].
  - split; [|right; by exists b]. destruct (Hk b g1) as (K1 & K2 & K3), Hs. unfold keeps. by rewrite K1, K2, K3.
Qed.

Lemma chat_frame key headers body g :
  let g' := (chat_completions key headers body g).2 in
  keeps g g' ∧ (still g g' ∨ ∃ body',
    passes (Runtime.plugins (g_runtime g)) key "/v1/chat/completions" (chat_model body) body g body').
Proof.
  unfold chat_completions, g_now, gets. cbv zeta. steps. apply guarded_frame. intros b.
  apply dispatch_keeps.
Qed.
Lemma embeddings_frame key headers body g :
  let g' := (embeddings key headers body g).2 in
  keeps g g' ∧ (still g g' ∨ ∃ body',
    passes (Runtime.plugins (g_runtime g)) key "/v1/embeddings" (embeddings_model body) body g body').
Proof.
  unfold embeddings, g_now, gets. cbv zeta. steps. apply guarded_frame. intros b.
  apply dispatch_keeps.
Qed.
Lemma route_frame rq key g :
  keeps g (route rq key g).2 ∧
  (still g (route rq key g).2 ∨
   ∃ vm body, requested rq = Some vm ∧
     passes (Runtime.plugins (g_runtime g)) key (rq_path rq) vm (rq_body rq) g body).
Proof.
  assert (∀ (c : G (option Response)) P, Still c → keeps g (c g).2 ∧ (still g (c g).2 ∨ P)) as Hr.
  { intros c P Hc. split; [by apply Keeps_still|]. left. apply Hc. }
  unfold route, requested.
  destruct (decide (rq_method rq = "POST")) as [Hm|Hm]; 
    destruct (decide (rq_path rq = "/v1/chat/completions")) as [Hc|Hc],
      (decide (rq_path rq = "/v1/embeddings")) as [He|He]; try (by rewrite Hc in He);
    repeat destruct (decide (rq_path rq = _)); repeat destruct (decide (_ ∨ _));
    try (apply Hr; first [apply Still_ret|apply Still_fmap, list_models_still]).
  - destruct (chat_frame key (rq_headers rq) (rq_body rq) g) as [Hk [Hs|[b Hb]]];
      (split; [exact Hk|]); [by left|right]. rewrite Hc. by eexists _, _.
  - destruct (embeddings_frame key (rq_headers rq) (rq_body rq) g) as [Hk [Hs|[b Hb]]];
      (split; [exact Hk|]); [by left|right]. rewrite He. by eexists _, _.
Qed.

Lemma handle_frame rq g :
  let g' := (handle rq g).2 in
  keeps g g' ∧ (still g g' ∨ admitted rq g).
Proof.
  unfold handle. cbv zeta. steps. pose proof (authenticate_still (rq_headers rq) g) as Hs.
  pose proof (authenticate_spec (rq_headers rq) g) as Ha.
  destruct (authenticate (rq_headers rq) g) as [[key|r] g1]; cbn [fst snd] in *.
  - destruct (route_frame rq key g1) as [(K1 & K2 & K3) Hr]. destruct Hs as [E1 E2 E3 E4 E5 E6 E7].
    split; [unfold keeps; by rewrite K1, K2, K3, E1, E3, E4|].
    destruct Hr as [Hr|(vm & body & Hq & Hp & Hb & Hi)].
    + left. etrans; [|exact Hr]. by constructor.
    + right. exists key, vm, body. destruct Ha as (? & ? & ? & _). unfold passes. rewrite <-E3.
      split_and!; try done. intros limit Hl. rewrite <-E2, <-E7. by apply Hb.
  - split; [|by left]. destruct Hs. done.
Qed.
Lemma handle_keeps rq g : keeps g (handle rq g).2.
Proof. by destruct (handle_frame rq g). Qed.

(** Complete mediation. Whatever a request is, the key store, the runtime and
    the TLS material are left as they were, and unless the request was admitted
    nothing but the trace and the rate limiter changes: no provider is called, no
    cache is read or written, no spend is recorded. Admitted means: the bearer
    token is that of a key in the store (or the store is empty), the key has not
    expired and is within its rate, the request posts to chat completions or
    embeddings, the key allows the model, its budget for the period is not spent,
    and no plugin rejected the body. *)
Theorem upstream_only_if_admitted rq g :
  let g' := (handle rq g).2 in
  keeps g g' ∧ (still g g' ∨ admitted rq g).
Proof. apply handle_frame. Qed.

(** A connector whose calls count no request. *)
Definition unmetered_connector (c : Connector) : Prop :=
  (∀ q, unmetered (c_chat c q)) ∧ (∀ q, unmetered (c_embeddings c q)).

(** Every chat or embeddings request that is answered is counted exactly once. *)
Lemma handle_counted rq g vm :
  requested rq = Some vm → unmetered_connector (Runtime.connector (g_runtime g)) →
  (handle rq g).1 ≠ None →
  gw_tally (handle rq g).2 = gw_tally g + 1.
Proof.
  intros Hq [Hc He]. unfold handle. steps.
  pose proof (authenticate_counted (rq_headers rq) g) as Ha.
  pose proof (authenticate_still (rq_headers rq) g) as Hs.
  destruct (authenticate (rq_headers rq) g) as [[key|r] g1]; cbn [fst snd] in *.
  2:{ intros _. exact Ha. }
  rewrite Nat.add_0_r in Ha. rewrite <-Ha. rewrite <-(still_runtime _ _ Hs) in Hc, He.
  unfold requested in Hq. destruct (decide (rq_method rq = "POST")) as [Hm|]; [|done].
  unfold route. destruct (decide (rq_path rq = "/v1/chat/completions")).
  - rewrite decide_True by done. unfold chat_completions, g_now, gets. steps.
    apply guarded_counted. intros b. by apply dispatch_counted.
  - destruct (decide (rq_path rq = "/v1/embeddings")); [|done]. rewrite decide_True by done.
    unfold embeddings, g_now, gets. steps.
    apply guarded_counted. intros b. by apply dispatch_counted.
Qed.
End properties.

(** ** A concrete gateway for the witnesses *)
Definition sample_meta : MetaSerde :=
  {| chat_meta_from_slice _ := Ok (ChatMeta.mk (Some "gpt-4o") false);
     embeddings_meta_from_slice _ := Ok (EmbeddingsMeta.mk (Some "gpt-4o"));
     header_value_ok _ := true |}.
#[local] Existing Instances sample_reqwest sample_moka sample_rustls sample_meta sample_crypto
  sample_time some_hash_order.
Definition sample_runtime : Runtime :=
  Runtime.mk (sample_connector "openai" 200) Pricing.default (Some 0) [] [].
(** A gateway without keys and with an empty cache. *)
Definition sample_gateway : Gateway :=
  mkGateway sample_world [(∅ : gmap string CachedResponse)] ∅ ∅ ∅ sample_runtime None.
Definition sample_rq : Request := mkRequest "POST" "/v1/chat/completions" [] [Byte.x01].

