(* ===== verification/Billing.v ===== *)
(** * Billing: what a request is charged, from the handler to the end of its stream

    The handler charges the usage an answer reports ([proxy.rs]); the stream that
    passes through the response charges the usage it carries ([stream_observer.rs]).
    Together, for a runtime built from any configuration, they charge one usage once. *)

From S2P Require Import Prelude Text Float64 Json Events Auth Limits Plugin Config Provider.
From S2P Require Import OpenAi Anthropic Sse StreamObserver Bedrock Registry Cache Tls Wasm Runtime.
From S2P Require Import Connectors Proxy.
Import Json.

(** ** What a computation does to the spend tracker *)
Section settles.
Context `{Reqwest} `{Moka} `{Rustls} `{TimeCrate}.

(** The tracker becomes [f] of the clock and the tracker; the clock, the network and
    the runtime stay. *)
Record settled (f : Z → SpendTracker → SpendTracker) (g g' : Gateway) : Prop := {
  settled_spend : g_spend g' = f (w_now (g_world g)) (g_spend g);
  settled_runtime : g_runtime g' = g_runtime g;
  settled_net : w_net (g_world g') = w_net (g_world g);
  settled_now : w_now (g_world g') = w_now (g_world g)
}.
Definition Settles {A} (f : Z → SpendTracker → SpendTracker) (c : G A) : Prop :=
  ∀ g, settled f g (c g).2.
Definition free : Z → SpendTracker → SpendTracker := λ _ tracker, tracker.

Lemma Settles_still {A} (c : G A) : Still c → Settles free c.
Proof. intros Hc g. by destruct (Hc g). Qed.
Lemma settled_trans f g1 g2 g3 : settled free g1 g2 → settled f g2 g3 → settled f g1 g3.
Proof. intros [E1 E2 E3 E4] [? ? ? ?]. unfold free in E1. split; congruence. Qed.
Lemma Settles_l {A B} f (c : G A) (k : A → G B) :
  Settles free c → (∀ a, Settles f (k a)) → Settles f (c ≫= k).
Proof.
  intros Hc Hk g. rewrite M_bind_eq. unfold eval, exec. eapply settled_trans; [apply Hc|apply Hk].
Qed.
Lemma Settles_r {A B} f (c : G A) (k : A → G B) :
  Settles f c → (∀ a, Settles free (k a)) → Settles f (c ≫= k).
Proof.
  intros Hc Hk g. rewrite M_bind_eq. unfold eval, exec.
  destruct (Hc g) as [E1 E2 E3 E4], (Hk (c g).1 (c g).2) as [F1 ? ? ?]. unfold free in F1.
  split; congruence.
Qed.
Lemma Settles_fmap {A B} f (h : A → B) (c : G A) : Settles f c → Settles f (h <$> c).
Proof. intros Hc g. specialize (Hc g). unfold fmap, M_fmap. by destruct (c g). Qed.
Lemma Settles_cache_get h k : Settles free (cache_get h k).
Proof. intros g. unfold cache_get. case_match; [|done]. by destruct (ResponseCache.get _ _ _). Qed.
Lemma Settles_cache_insert h k v : Settles free (cache_insert h k v).
Proof. intros g. unfold cache_insert. by case_match. Qed.

(** The charge of a usage: its price, against the key's limit; nothing without a
    usage, a price or a limit. *)
Definition bill (rt : Runtime) (key : VirtualKey) (up : ChatResponse) (usage : option Usage)
    (now : Z) (tracker : SpendTracker) : SpendTracker :=
  match usage ≫= cost.compute (Runtime.pricing rt) (ChatResponse.provider up) (ChatResponse.model up),
        VirtualKey.spend_limit key with
  | Some c, Some limit => SpendTracker.record (VirtualKey.identifier key) (period limit) c now tracker
  | _, _ => tracker
  end.
Lemma bill_nothing rt key up now tracker : bill rt key up None now tracker = tracker.
Proof. done. Qed.
End settles.

(** ** What polling the body of a response does *)
Section polling.
Context `{SerdeJson} `{TimeCrate}.
Import UsageObservingStream.

(** The tracker after the client polled the body at the instants [nows]. *)
Definition polled (resp : Response) (nows : list Z) (tracker : SpendTracker) : SpendTracker :=
  match Response.body resp with
  | BObserved st => (run st nows tracker).1.2
  | _ => tracker
  end.
(** The usage the bytes carry that these polls let through. *)
Definition passed_usage (resp : Response) (n : nat) : option Usage :=
  match Response.body resp with
  | BObserved st => first_usage (SseParser.drain (bytes_of (run_inner (inner st) n))).1
  | _ => None
  end.
(** The usage of an answer: what it reports, or what its stream carries. *)
Definition reported (up : ChatResponse) (resp : Response) (n : nat) : option Usage :=
  match ChatResponse.usage up with Some u => Some u | None => passed_usage resp n end.

Definition unobserved (resp : Response) : Prop := ∀ st, Response.body resp ≠ BObserved st.
Lemma unobserved_polled resp nows tracker : unobserved resp → polled resp nows tracker = tracker.
Proof. intros Hu. unfold polled. destruct (Response.body resp) eqn:E; try done. by destruct (Hu s). Qed.
Lemma unobserved_usage up resp n : unobserved resp → reported up resp n = ChatResponse.usage up.
Proof.
  intros Hu. unfold reported, passed_usage. destruct (ChatResponse.usage up); [done|].
  destruct (Response.body resp) eqn:E; try done. by destruct (Hu s).
Qed.

(** A new observer charges what [bill] says, at one of the polls. *)
Lemma observed_bill `{Reqwest} (rt : Runtime) key up resp nows tracker :
  Response.body resp = chat_relay (Runtime.pricing rt) key true up → ChatResponse.usage up = None →
  ∃ t, (t ∈ nows ∨ reported up resp (length nows) = None) ∧
    polled resp nows tracker = bill rt key up (reported up resp (length nows)) t tracker.
Proof.
  intros Eb Eu. unfold reported, passed_usage, polled. rewrite Eu, Eb. unfold chat_relay.
  set (self := new _ _ _ _ _ _).
  pose proof (run_outputs self nows tracker) as Ho.
  pose proof (run_search self nows tracker eq_refl eq_refl) as Hs.
  destruct (run self nows tracker) as [[[rs st] tr] eff]. cbn [fst snd] in *. rewrite <-Ho.
  change (parser self ++ bytes_of rs) with (bytes_of rs) in Hs.
  destruct (first_usage _) as [u|]; [|exists 0%Z; split; [by right|by destruct Hs]].
  destruct Hs as (t & Hin & E). exists t. split; [by left|]. unfold observe, self in E. cbn in E.
  unfold bill. cbn. destruct (cost.compute _ _ _ u); [destruct (VirtualKey.spend_limit key)|];
    by injection E as -> _.
Qed.
End polling.

(** ** The handlers *)
Section handlers.
Context `{Reqwest} `{Moka} `{Rustls} `{SerdeJson} `{Crypto} `{TimeCrate} `{HashOrder} `{MetaSerde}.

Ltac spares :=
  repeat (intros; first
    [ apply Settles_still; solve [eauto using elapsed_ms_still, elapsed_secs_still,
        upstream_failed_still, serve_from_cache_still with still]
    | apply Settles_cache_get | apply Settles_cache_insert | apply Settles_l | apply Settles_fmap
    | case_match ]).

Lemma charge_settles rt key up usage c :
  usage ≫= cost.compute (Runtime.pricing rt) (ChatResponse.provider up) (ChatResponse.model up) = Some c →
  Settles (bill rt key up usage) (charge key c).
Proof.
  intros E g. unfold charge, bill, g_now, gets, modify. steps. rewrite E.
  by destruct (VirtualKey.spend_limit key).
Qed.
Lemma account_settles rt key tokens up ms start :
  Settles (bill rt key up (ChatResponse.usage up)) (account (Runtime.pricing rt) key tokens up ms start).
Proof.
  unfold account. apply Settles_l; [spares|]. intros _. apply Settles_l; [spares|]. intros _.
  apply Settles_r; [|unfold span; spares].
  change (@compute_cost) with (@cost.compute).
  destruct (ChatResponse.usage up ≫= _) as [c|] eqn:E.
  - unfold span. apply Settles_l; [spares|]. intros _. by apply charge_settles.
  - intros g. unfold bill. by rewrite E.
Qed.

Lemma error_unobserved status message : unobserved (error status message).
Proof. by intros st. Qed.
Lemma refusal_unobserved es r : refusal es r → unobserved r.
Proof. intros (_ & st & m & ->). apply error_unobserved. Qed.
Lemma build_response_body status ct body cache :
  unobserved (build_response status ct body cache) ∨
  Response.body (build_response status ct body cache) = body.
Proof.
  unfold build_response. destruct (status_from_u16 status); [|by left].
  destruct ct as [ct|]; [destruct (header_value_ok ct)|]; by (left; by intros ?) || by right.
Qed.

Lemma store_unobserved h key_str up g : unobserved (store_and_respond h key_str up g).1.
Proof.
  unfold store_and_respond. destruct (collect_body _) as [b|e]; [|apply error_unobserved]. steps.
  destruct (build_response_body (ChatResponse.status up) (ChatResponse.content_type up) (BFull b) "MISS")
    as [Hu|E]; [exact Hu|]. intros st. cbn. by rewrite E.
Qed.

(** What a computation answers, whatever its earlier steps do. *)
Definition Replies {A} (P : A → Prop) (c : G A) : Prop := ∀ g, P (c g).1.
Lemma Replies_bind {A B} (P : B → Prop) (c : G A) (k : A → G B) :
  (∀ a, Replies P (k a)) → Replies P (c ≫= k).
Proof. intros Hk g. rewrite M_bind_eq. apply Hk. Qed.
Lemma serve_unobserved pricing cached start : Replies unobserved (serve_from_cache pricing cached start).
Proof.
  unfold serve_from_cache. repeat (apply Replies_bind; intros ?). intros g. cbn [fst mret M_ret].
  destruct (build_response_body (CachedResponse.status cached) (CachedResponse.content_type cached)
    (BFull (CachedResponse.body cached)) "HIT") as [Hu|E]; [exact Hu|]. intros st. by rewrite E.
Qed.

(** What [answer] does with the upstream's answer. *)
Lemma answer_bills rt key tokens relay ck start ms up g :
  let out := answer rt key tokens relay ck start ms (Ok up) g in
  settled (bill rt key up (ChatResponse.usage up)) g out.2 ∧
  (unobserved out.1 ∨ Response.body out.1 = relay up).
Proof.
  cbn zeta. unfold answer. split.
  - apply (Settles_r (bill rt key up (ChatResponse.usage up)) _ _ (account_settles _ _ _ _ _ _)).
    intros _. unfold store_and_respond. spares.
  - steps. repeat case_match; try apply build_response_body. left. apply store_unobserved.
Qed.
Lemma failed_answer rt key tokens relay ck start ms err g :
  let out := answer rt key tokens relay ck start ms (Err err) g in
  settled free g out.2 ∧ unobserved out.1.
Proof.
  cbn zeta. unfold answer. split; [apply Settles_still, upstream_failed_still|].
  unfold upstream_failed, upstream_error_response. steps. intros st. by destruct err.
Qed.

(** How a forwarded request is charged: its call is made once, on the network and at
    the clock of the gateway it came to; an error answer costs nothing, and of an
    answer the usage reported is charged, at the answer or at one of the polls. *)
Definition Call : Type := W (option (result Error.Error ChatResponse)).
Definition billed (rt : Runtime) (key : VirtualKey) (call : Call) (nows : list Z)
    (g g' : Gateway) (resp : Response) : Prop :=
  ∃ w, w_net w = w_net (g_world g) ∧ w_now w = w_now (g_world g) ∧
    w_net (g_world g') = w_net (call w).2 ∧
    match (call w).1 with
    | Some (Ok up) =>
        ∃ t, t ∈ w_now (call w).2 :: nows ∧
          polled resp nows (g_spend g')
          = bill rt key up (reported up resp (length nows)) t (g_spend g)
    | Some (Err _) => polled resp nows (g_spend g') = g_spend g
    | None => False
    end.
(** And a request that was not forwarded: refused, answered locally or from the cache. *)
Definition unbilled (nows : list Z) (g g' : Gateway) (resp : Response) : Prop :=
  w_net (g_world g') = w_net (g_world g) ∧ polled resp nows (g_spend g') = g_spend g.

(** A relay that observes only answers which report no usage, to charge them. *)
Definition once (rt : Runtime) (key : VirtualKey) (relay : ChatResponse → Body) (up : ChatResponse) : Prop :=
  (∀ st, relay up ≠ BObserved st) ∨
  relay up = chat_relay (Runtime.pricing rt) key true up ∧ ChatResponse.usage up = None.
Definition relay_once (rt : Runtime) (key : VirtualKey) (relay : ChatResponse → Body) (call : Call) : Prop :=
  Always (once rt key relay) call.

Lemma settled_unbilled nows g g' resp : settled free g g' → unobserved resp → unbilled nows g g' resp.
Proof. intros [Es _ ? _] Hu. split; [done|]. by rewrite unobserved_polled. Qed.
Lemma answered_bill rt key relay up resp nows tracker t0 :
  once rt key relay up → unobserved resp ∨ Response.body resp = relay up →
  ∃ t, t ∈ t0 :: nows ∧
    polled resp nows (bill rt key up (ChatResponse.usage up) t0 tracker)
    = bill rt key up (reported up resp (length nows)) t tracker.
Proof.
  intros Hr Hb.
  assert (unobserved resp ∨
    (Response.body resp = chat_relay (Runtime.pricing rt) key true up ∧ ChatResponse.usage up = None))
    as [Hu|[Eb Eu]].
  { destruct Hb as [?|Eb]; [by left|]. destruct Hr as [Hn|[Er Eu]]; [left|right].
    - intros st. rewrite Eb. apply Hn.
    - by rewrite Eb. }
  - exists t0. split; [left|]. by rewrite unobserved_polled, unobserved_usage.
  - rewrite Eu, bill_nothing. destruct (observed_bill rt key up resp nows tracker Eb Eu)
      as (t & [Ht|En] & E); [exists t; split; [by right|done]|].
    exists t0. split; [left|]. by rewrite E, En.
Qed.

Lemma dispatch_bills rt key tokens relay ck start call nows g :
  relay_once rt key relay call →
  match dispatch rt key tokens relay ck start call g with
  | (Some resp, g') => unbilled nows g g' resp ∨ billed rt key call nows g g' resp
  | (None, _) => True
  end.
Proof.
  intros Hr. unfold dispatch. steps.
  assert (settled free g (look_up (Runtime.cache rt) ck g).2) as Hl.
  { revert g. change (Settles free (look_up (Runtime.cache rt) ck)). unfold look_up. spares. }
  destruct (look_up _ _ g) as [[cached|] g1]; cbn [fst snd] in *.
  - unfold fmap, M_fmap. pose proof (serve_from_cache_still (Runtime.pricing rt) cached start g1) as Hs.
    pose proof (serve_unobserved (Runtime.pricing rt) cached start g1) as Hu.
    destruct (serve_from_cache _ _ _ g1) as [resp g2]. left. apply settled_unbilled; [|done].
    eapply settled_trans; [exact Hl|]. by destruct Hs.
  - destruct Hl as [Es _ En Et]. unfold free in Es.
    steps. assert (in_world call g1 = ((call (g_world g1)).1, set_world (call (g_world g1)).2 g1)) as ->
      by (unfold in_world, zoom; by destruct (call _)).
    destruct (call (g_world g1)) as [r w'] eqn:Ec. cbn [fst snd].
    pose proof (elapsed_ms_still start (set_world w' g1)) as He.
    destruct (elapsed_ms start _) as [ms g2]. cbn [fst snd] in *. destruct He as [_ Es2 _ _ _ En2 Et2].
    destruct r as [[up|err]|]; [..|exact I]; unfold fmap, M_fmap.
    + pose proof (answer_bills rt key tokens relay ck start ms up g2) as [Ha Hb].
      destruct (answer _ _ _ _ _ _ _ _ g2) as [resp g3]. cbn [fst snd] in *. destruct Ha as [Es3 _ En3 _].
      right. exists (g_world g1). split_and!; [done..| |]; rewrite Ec; cbn [fst snd].
      { by rewrite En3, En2. }
      rewrite Es3, Es2, Et2. cbn. rewrite <-Es. apply (answered_bill rt key relay up); [|done].
      apply (Hr (g_world g1)). by rewrite Ec.
    + pose proof (failed_answer rt key tokens relay ck start ms err g2) as [[Es3 _ En3 _] Hu].
      destruct (answer _ _ _ _ _ _ _ _ g2) as [resp g3]. cbn [fst snd] in *.
      right. exists (g_world g1). split_and!; [done..| |]; rewrite Ec; cbn [fst snd].
      { by rewrite En3, En2. }
      rewrite unobserved_polled by done. rewrite Es3. unfold free. by rewrite Es2, <-Es.
Qed.
Lemma authenticate_refuses headers :
  Replies (λ x, ∀ r, x = Err r → unobserved r) (authenticate headers).
Proof.
  unfold authenticate. apply Replies_bind. intros [key|].
  2:{ apply Replies_bind. intros _ g r [= <-]. apply error_unobserved. }
  apply Replies_bind. intros now. destruct (VirtualKey.is_expired now key).
  { apply Replies_bind. intros _ g r [= <-]. apply error_unobserved. }
  apply Replies_bind. intros [|]; [by intros g r|].
  apply Replies_bind. intros _ g r [= <-]. apply error_unobserved.
Qed.
End handlers.

(** ** Properties *)
Section properties.
Context `{Reqwest} `{Moka} `{Rustls} `{SerdeJson} `{AnthropicSerde} `{BedrockSerde} `{Crypto}
  `{Entropy} `{RegexCrate} `{Wasmtime} `{Env} `{HashOrder} `{TimeCrate} `{MetaSerde}.

(** The call a request makes of the connector, with the body the plugins left. *)
Definition upstream_of (rt : Runtime) (rq : Request) (body : bytes) : Call :=
  if decide (rq_path rq = "/v1/chat/completions") then
    c_chat (Runtime.connector rt)
      (ChatRequest.mk (chat_model (rq_body rq)) (ChatMeta.stream (chat_meta (rq_body rq))) body)
  else c_embeddings (Runtime.connector rt) (EmbeddingsRequest.mk (embeddings_model (rq_body rq)) body).

Lemma chat_relays_once rt key stream vm body :
  StreamConnector (Runtime.connector rt) →
  relay_once rt key (chat_relay (Runtime.pricing rt) key stream)
    (c_chat (Runtime.connector rt) (ChatRequest.mk vm stream body)).
Proof.
  intros [Hs] w up E. destruct stream; [right|left; intros st; discriminate]. split; [done|]. exact (Hs (ChatRequest.mk vm true body) eq_refl w up E).
Qed.

Lemma unbilled_still nows g g1 g' resp :
  still g g1 → unbilled nows g1 g' resp → unbilled nows g g' resp.
Proof. intros [] [E1 E2]. split; congruence. Qed.
Lemma billed_still rt key call nows g g1 g' resp :
  still g g1 → billed rt key call nows g1 g' resp → billed rt key call nows g g' resp.
Proof.
  intros [_ Es _ _ _ En Et] (w & E1 & E2 & E3 & E4). exists w.
  rewrite Es in E4. split_and!; congruence || done.
Qed.
Lemma guarded_bills plugins rt key path vm headers body start nows g call forward :
  (∀ b g, match forward b g with
          | (Some resp, g') => unbilled nows g g' resp ∨ billed rt key (call b) nows g g' resp
          | (None, _) => True
          end) →
  match guarded plugins key path vm headers body start forward g with
  | (Some resp, g') => unbilled nows g g' resp ∨
      ∃ b, passes plugins key path vm body g b ∧ billed rt key (call b) nows g g' resp
  | (None, _) => True
  end.
Proof.
  intros Hf. destruct (guarded_cases plugins key path vm headers body start forward g)
    as [[Hs (st & m & E)]|(b & g1 & Hs & Hp & ->)].
  - destruct (guarded _ _ _ _ _ _ _ _ g) as [r g']. cbn in *. subst r. left.
    apply settled_unbilled; [by destruct Hs|apply error_unobserved].
  - specialize (Hf b g1). destruct (forward b g1) as [[resp|] g']; [|done].
    destruct Hf as [Hu|Hb]; [left; by eapply unbilled_still|].
    right. exists b. split; [done|]. by eapply billed_still.
Qed.
(** A request that is answered locally, or forwarded with its key. *)
Definition settled_up (rq : Request) (key : VirtualKey) (nows : list Z) (g g' : Gateway) (resp : Response) : Prop :=
  unbilled nows g g' resp ∨
  ∃ vm body, requested rq = Some vm ∧
    passes (Runtime.plugins (g_runtime g)) key (rq_path rq) vm (rq_body rq) g body ∧
    billed (g_runtime g) key (upstream_of (g_runtime g) rq body) nows g g' resp.
Lemma chat_bills rq key nows g :
  StreamConnector (Runtime.connector (g_runtime g)) →
  rq_method rq = "POST" → rq_path rq = "/v1/chat/completions" →
  match chat_completions key (rq_headers rq) (rq_body rq) g with
  | (Some resp, g') => settled_up rq key nows g g' resp
  | (None, _) => True
  end.
Proof.
  intros Hc Hm Hp. unfold settled_up, chat_completions, g_now, gets. cbv zeta. steps.
  pose proof (guarded_bills (Runtime.plugins (g_runtime g)) (g_runtime g) key (rq_path rq)
    (chat_model (rq_body rq)) (rq_headers rq) (rq_body rq) (w_now (g_world g)) nows g
    (upstream_of (g_runtime g) rq)) as Hg.
  rewrite <-Hp. edestruct guarded as [[resp|] g'] eqn:E; [|done].
  match type of E with guarded _ _ _ _ _ _ _ ?f _ = _ => specialize (Hg f) end. rewrite E in Hg.
  destruct Hg as [Hu|(b & ? & ?)]; [|by left|right].
  - intros b g1. unfold upstream_of. rewrite decide_True by done. apply dispatch_bills.
    by apply chat_relays_once.
  - exists (chat_model (rq_body rq)), b. split; [|done]. unfold requested. by rewrite !decide_True.
Qed.
Lemma embeddings_bills rq key nows g :
  rq_method rq = "POST" → rq_path rq = "/v1/embeddings" →
  match embeddings key (rq_headers rq) (rq_body rq) g with
  | (Some resp, g') => settled_up rq key nows g g' resp
  | (None, _) => True
  end.
Proof.
  intros Hm Hp. unfold settled_up, embeddings, g_now, gets. cbv zeta. steps.
  pose proof (guarded_bills (Runtime.plugins (g_runtime g)) (g_runtime g) key (rq_path rq)
    (embeddings_model (rq_body rq)) (rq_headers rq) (rq_body rq) (w_now (g_world g)) nows g
    (upstream_of (g_runtime g) rq)) as Hg.
  assert (rq_path rq ≠ "/v1/chat/completions") as Hn by (by rewrite Hp).
  rewrite <-Hp. edestruct guarded as [[resp|] g'] eqn:E; [|done].
  match type of E with guarded _ _ _ _ _ _ _ ?f _ = _ => specialize (Hg f) end. rewrite E in Hg.
  destruct Hg as [Hu|(b & ? & ?)]; [|by left|right].
  - intros b g1. unfold upstream_of. rewrite decide_False by done. apply dispatch_bills.
    intros w up _. left. intros st. discriminate.
  - exists (embeddings_model (rq_body rq)), b. split; [|done].
    unfold requested. by rewrite decide_True, decide_False, decide_True.
Qed.
Lemma local_settles rq key nows g (c : G (option Response)) :
  Still c → (∀ r, (c g).1 = Some r → unobserved r) →
  match c g with
  | (Some resp, g') => settled_up rq key nows g g' resp
  | (None, _) => True
  end.
Proof.
  intros Hc Hu. specialize (Hc g). destruct (c g) as [[resp|] g']; [|done]. left.
  apply settled_unbilled; [by destruct Hc|by apply Hu].
Qed.
Lemma route_bills rq key nows g :
  StreamConnector (Runtime.connector (g_runtime g)) →
  match route rq key g with
  | (Some resp, g') => settled_up rq key nows g g' resp
  | (None, _) => True
  end.
Proof.
  intros Hc. unfold route.
  assert (∀ r, unobserved r → match (mret (Some r) : G (option Response)) g with
    | (Some resp, g') => settled_up rq key nows g g' resp | (None, _) => True end) as Hl.
  { intros r Hr. apply local_settles; [apply Still_ret|]. by intros ? [= <-]. }
  destruct (decide (rq_path rq = "/v1/chat/completions")).
  { destruct (decide (rq_method rq = "POST")); [by apply chat_bills|apply Hl; by intros st]. }
  destruct (decide (rq_path rq = "/v1/embeddings")).
  { destruct (decide (rq_method rq = "POST")); [by apply embeddings_bills|apply Hl; by intros st]. }
  destruct (decide (rq_path rq = "/v1/models")); [|apply Hl; by intros st].
  destruct (decide _); [|apply Hl; by intros st].
  apply local_settles; [apply Still_fmap, list_models_still|]. by intros r [= <-] st.
Qed.

(** C8: A request is charged once, for what it used. Whatever configuration the
    runtime was built from, once a request was handled and its response's body
    polled any number of times, either no provider was called and the tracker is
    what it was; or the request passed the guards with a key it bears, one call
    was made of the connector, and the tracker is charged, at the answer or at one
    of the polls, exactly the price of the usage of that answer, the one it reports
    or else the first its stream carries, and nothing if the call failed, the usage
    is unknown, the model has no price or the key no limit. *)
Theorem charged_once cfg rq nows g resp g' :
  built_from cfg (g_runtime g) → handle rq g = (Some resp, g') →
  unbilled nows g g' resp ∨
  ∃ key vm body, bears (g_keys g) (rq_headers rq) key ∧ requested rq = Some vm ∧
    passes (Runtime.plugins (g_runtime g)) key (rq_path rq) vm (rq_body rq) g body ∧
    billed (g_runtime g) key (upstream_of (g_runtime g) rq body) nows g g' resp.
Proof.
  intros Hb%built_stream. unfold handle. steps.
  pose proof (authenticate_still (rq_headers rq) g) as Hs.
  pose proof (authenticate_spec (rq_headers rq) g) as Ha.
  pose proof (authenticate_refuses (rq_headers rq) g) as Hr.
  destruct (authenticate (rq_headers rq) g) as [[key|r] g1]; cbn [fst snd] in *.
  - destruct Ha as (Hk & _). pose proof (still_runtime _ _ Hs) as Er. rewrite <-Er in Hb.
    pose proof (route_bills rq key nows g1 Hb) as Hg. intros E. rewrite E in Hg.
    destruct Hg as [Hu|(vm & body & Hq & Hp & Hg)]; [left; by eapply unbilled_still|].
    right. exists key, vm, body. rewrite Er in Hp, Hg. split_and!; [done|done| |by eapply billed_still].
    destruct Hp as (? & Hl & ?). split_and!; [done| |done].
    intros limit E'. rewrite <-(still_spend _ _ Hs), <-(still_now _ _ Hs). by apply Hl.
  - intros [= <- <-]. left. apply settled_unbilled; [by destruct Hs|by apply Hr].
Qed.
End properties.

(** ** Witness: a request of a key with a dollar a day, on the default configuration *)
Definition json_reqwest : Reqwest :=
  {| Net := (); client_build := Ok ();
     send _ n := (Ok (Http.mkResponse 200 [] [Ok [Byte.x7b]] 0), n, 1000000%Z);
     status_error _ _ := "HTTP status error"; header_to_str b := Some (of_bytes b) |}.
#[local] Existing Instances json_reqwest sample_moka sample_rustls no_usage_serde sample_bedrock_serde
  sample_crypto sample_entropy sample_regex sample_wasmtime sample_env some_hash_order sample_time
  sample_meta.
#[local] Instance usage_json : SerdeJson :=
  one_document (obj [("usage", obj [("prompt_tokens", uint 1000); ("completion_tokens", uint 0)])]).
Definition limited_key : VirtualKey :=
  VirtualKey.mk "vp_1" "tok" "team" "app" "prod" [] None (Some (mkSpendLimit F64.one Day)) None.
Definition limited_gateway (caches : list MokaCache) (rt : Runtime) : Gateway :=
  mkGateway (mkWorld (tt : @Net json_reqwest) 0 []) caches {["tok" := limited_key]} ∅ ∅ rt None.
Definition built : result anyhow Runtime * Gateway :=
  runtime.build_runtime Config.default
    (limited_gateway [] (Runtime.mk (mkConnector "none" (λ _, mret None) (λ _, mret None) (mret true))
                           Pricing.default None [] [])).
Definition limited_rq : Request :=
  mkRequest "POST" "/v1/chat/completions" [("authorization", as_bytes "Bearer tok")] [].
(** A thousand tokens are paid for. *)
Definition spent (g : Gateway) : bool :=
  F64.lt F64.zero (SpendTracker.current_usd (g_spend g) "vp_1" Day 0).
Lemma charged_once_witness :
  ∃ rt resp g', built.1 = Ok rt ∧
    let g := limited_gateway (g_caches built.2) rt in
    handle limited_rq g = (Some resp, g') ∧ spent g' = true ∧
    (unbilled [] g g' resp ∨
     ∃ key vm body, bears (g_keys g) (rq_headers limited_rq) key ∧ requested limited_rq = Some vm ∧
       passes (Runtime.plugins (g_runtime g)) key (rq_path limited_rq) vm (rq_body limited_rq) g body ∧
       billed (g_runtime g) key (upstream_of (g_runtime g) limited_rq body) [] g g' resp).
Proof.
  assert (match built.1 with
          | Ok rt => match handle limited_rq (limited_gateway (g_caches built.2) rt) with
                     | (Some _, g') => spent g'
                     | (None, _) => false
                     end
          | Err _ => false
          end = true) as Hs by (vm_compute; reflexivity).
  destruct built as [[rt|e] g0] eqn:Eb; [|done]. cbn [fst snd] in *.
  destruct (handle limited_rq _) as [[resp|] g'] eqn:Eh; [|done].
  exists rt, resp, g'. split; [done|]. split; [exact Eh|]. split; [exact Hs|].
  eapply (charged_once Config.default limited_rq [] (limited_gateway (g_caches g0) rt) resp g'); [|exact Eh].
  eapply build_runtime_built. exact Eb.
Defined.
