(* ===== verification/Replay.v ===== *)
(** * Replay: what the proxy answers from the cache ([proxy.rs])

    The theorems that connect the proxy's pipeline with the laws of the response
    cache: a stored answer is replayed as it was, and the cache key decides whose
    answer that is. *)

From S2P Require Import Prelude Text Float64 Json Events Auth Limits Plugin Config Provider.
From S2P Require Import Sse StreamObserver Registry Cache Tls Runtime Proxy.
Import Json.

(** How a response says where it came from. *)
Definition cache_says (tag : string) (r : Response) : Prop :=
  (CACHE_HEADER, tag) ∈ Response.headers r.

Section responses.
Context `{MetaSerde}.

Lemma error_says tag st m : ¬ cache_says tag (error st m).
Proof. unfold cache_says. cbn. rewrite list_elem_of_singleton. by intros [= ? _]. Qed.
Lemma upstream_error_says tag e : ¬ cache_says tag (upstream_error_response e).
Proof. unfold cache_says. destruct e; cbn; rewrite list_elem_of_singleton; by intros [= ? _]. Qed.

Lemma build_response_says tag st ct body tag' :
  cache_says tag (build_response st ct body tag') →
  tag' = tag ∧
  build_response st ct body tag' =
    Response.mk st ((CACHE_HEADER, tag) :: match ct with Some ct => [("content-type", ct)] | None => [] end) body.
Proof.
  unfold build_response, status_from_u16. set (ok := match ct with Some ct => _ | None => true end).
  destruct ((100 <=? st) && (st <=? 999))%Z; [|by intros ?%error_says].
  destruct ok; [|by intros ?%error_says]. unfold cache_says. cbn [Response.headers].
  rewrite elem_of_cons. intros [[= ->]|Hin]; [done|].
  destruct ct; [|by apply not_elem_of_nil in Hin].
  apply list_elem_of_singleton in Hin. by injection Hin.
Qed.
End responses.

Section replay.
Context `{Reqwest} `{Moka} `{!MokaLaws} `{Rustls} `{SerdeJson} `{Crypto} `{TimeCrate} `{HashOrder}
  `{MetaSerde}.

(** What the cache of handle [h] can answer for [k]. *)
Definition cached_as (g : Gateway) (h : nat) (k : string) (v : CachedResponse) : Prop :=
  ∃ c, g_caches g !! h = Some c ∧ holds c k v.

Lemma fmap_M {S A B} (f : A → B) (c : M S A) s : (f <$> c) s = (f (c s).1, (c s).2).
Proof. unfold fmap, M_fmap. by destruct (c s). Qed.

Lemma serve_from_cache_eval pricing v start g :
  (serve_from_cache pricing v start g).1
  = build_response (CachedResponse.status v) (CachedResponse.content_type v)
      (BFull (CachedResponse.body v)) "HIT".
Proof. unfold serve_from_cache. by steps. Qed.

Lemma look_up_spec cache ck g :
  match (look_up cache ck g).1 with
  | Some v => ∃ h k, cache = Some h ∧ ck = Some k ∧ cached_as g h k v
  | None => True
  end ∧ g_spend (look_up cache ck g).2 = g_spend g ∧
  g_world (look_up cache ck g).2 = g_world g.
Proof.
  unfold look_up. destruct cache as [h|]; [|done]. destruct ck as [k|]; [|done].
  unfold cache_get. destruct (g_caches g !! h) as [c|] eqn:E; [|done].
  destruct (ResponseCache.get k (w_now (g_world g)) c) as [[v|] c'] eqn:Eg; [|done].
  split; [|done]. exists h, k. split_and!; [done..|]. exists c. split; [done|].
  by eapply get_holds.
Qed.

(** What a provider's answer becomes: a MISS, and the cache then holds what was
    sent; or an error. *)
Lemma answer_spec rt key tokens relay ck start ms res g :
  (∀ up b, relay up ≠ BFull b) →
  let '(r, g') := answer rt key tokens relay ck start ms res g in
  ¬ cache_says "HIT" r ∧
  ∀ b, cache_says "MISS" r → Response.body r = BFull b →
    ∃ h k v, Runtime.cache rt = Some h ∧ ck = Some k ∧ CachedResponse.body v = b ∧
      r = build_response (CachedResponse.status v) (CachedResponse.content_type v) (BFull b) "MISS" ∧
      ∀ v', cached_as g' h k v' → v' = v.
Proof.
  intros Hrel. unfold answer. destruct res as [up|e].
  2:{ unfold upstream_failed. steps. split; [apply upstream_error_says|].
      by intros b ?%upstream_error_says. }
  steps. destruct (account _ key tokens up ms start g) as [u g1]. cbn [fst snd].
  set (passed := build_response _ _ (relay up) "MISS").
  assert (let '(r, g') := (passed, g1) in ¬ cache_says "HIT" r ∧
    ∀ b, cache_says "MISS" r → Response.body r = BFull b → False) as Hp.
  { split; [by intros [? _]%build_response_says|]. intros b Hs. subst passed.
    apply build_response_says in Hs as [_ ->]. cbn. by intros ?%Hrel. }
  destruct ck as [k|]; [|naive_solver]. destruct (Runtime.cache rt) as [h|]; [|naive_solver].
  destruct (ChatResponse.status up =? 200)%Z; [|naive_solver].
  unfold store_and_respond. destruct (collect_body _) as [bs|e].
  2:{ split; [apply error_says|]. by intros b ?%error_says. }
  steps. split; [by intros [? _]%build_response_says|]. intros b Hs Hb.
  set (v := CachedResponse.mk _ _ _ _ _ _). exists h, k, v.
  apply build_response_says in Hs as [_ Hs]. unfold mret, M_ret in *. cbn [fst snd] in *.
  rewrite Hs in Hb. injection Hb as <-. split_and!; try done.
  intros v' (c & Hc & Hh). unfold cache_insert in Hc.
  destruct (g_caches g1 !! h) as [c0|] eqn:Ec; cbn in Hc; [|by pose proof (eq_trans (eq_sym Hc) Ec)].
  rewrite list_lookup_insert_eq in Hc by by eapply lookup_lt_Some.
  injection Hc as <-. apply insert_holds in Hh as [[_ ->]|[? _]]; done.
Qed.

(** A response that says HIT comes from the cache and costs nothing. *)
Lemma dispatch_hit rt key tokens relay ck start call g r g' :
  (∀ up b, relay up ≠ BFull b) →
  dispatch rt key tokens relay ck start call g = (Some r, g') → cache_says "HIT" r →
  ∃ h k v, Runtime.cache rt = Some h ∧ ck = Some k ∧ cached_as g h k v ∧
    r = build_response (CachedResponse.status v) (CachedResponse.content_type v)
          (BFull (CachedResponse.body v)) "HIT" ∧
    g_spend g' = g_spend g ∧ w_net (g_world g') = w_net (g_world g).
Proof.
  intros Hrel. unfold dispatch. steps. pose proof (look_up_spec (Runtime.cache rt) ck g) as Hl.
  destruct (look_up _ ck g) as [[v|] g1]; cbn [fst snd] in *.
  - destruct Hl as ((h & k & Hh & Hk & Hc) & Hsp & Hw).
    rewrite fmap_M, serve_from_cache_eval. intros [= <- <-] _. exists h, k, v.
    destruct (serve_from_cache_still (Runtime.pricing rt) v start g1).
    split_and!; try done; congruence.
  - steps. destruct (in_world call g1) as [[res|] g2]; cbn [fst snd]; [|done].
    rewrite fmap_M. intros [= <- _] Hs. exfalso.
    pose proof (answer_spec rt key tokens relay ck start (elapsed_ms start g2).1 res (elapsed_ms start g2).2 Hrel) as Ha.
    destruct (answer _ _ _ _ _ _ _ _ _) as [r g3]. by apply Ha.
Qed.

(** A buffered response that says MISS is the one the cache holds from then on. *)
Lemma dispatch_miss rt key tokens relay ck start call g r g' b :
  (∀ up b, relay up ≠ BFull b) →
  dispatch rt key tokens relay ck start call g = (Some r, g') →
  cache_says "MISS" r → Response.body r = BFull b →
  ∃ h k v, Runtime.cache rt = Some h ∧ ck = Some k ∧ CachedResponse.body v = b ∧
    r = build_response (CachedResponse.status v) (CachedResponse.content_type v) (BFull b) "MISS" ∧
    ∀ v', cached_as g' h k v' → v' = v.
Proof.
  intros Hrel. unfold dispatch. steps.
  destruct (look_up _ ck g) as [[v|] g1]; cbn [fst snd] in *.
  - rewrite fmap_M, serve_from_cache_eval. intros [= <- _] Hs.
    by apply build_response_says in Hs as [? _].
  - steps. destruct (in_world call g1) as [[res|] g2]; cbn [fst snd]; [|done].
    rewrite fmap_M. intros [= <- <-].
    pose proof (answer_spec rt key tokens relay ck start (elapsed_ms start g2).1 res
      (elapsed_ms start g2).2 Hrel) as Ha.
    destruct (answer _ _ _ _ _ _ _ _ _) as [r g3]. apply Ha.
Qed.

Lemma guarded_says plugins key path vm headers body start forward g r g' tag :
  guarded plugins key path vm headers body start forward g = (Some r, g') → cache_says tag r →
  ∃ body' g1, run_plugins plugins path vm body = Ok body' ∧ still g g1 ∧
    forward body' g1 = (Some r, g').
Proof.
  unfold guarded. steps. pose proof (open_span_still key vm headers g) as Hs.
  destruct (open_span key vm headers g) as [u g1]. cbn [fst snd] in *.
  destruct (guards_spec plugins key path vm body start g1)
    as [(b & E & _ & _ & Hp)|(re & st & es & e & [_ (s & m & ->)] & E)]; rewrite E.
  - intros Hf _. by exists b, g1.
  - rewrite refuse_eval. by intros [= <- _] ?%error_says.
Qed.

(** The two answers of one stored response. *)
Definition replays (r1 r2 : Response) : Prop :=
  Response.status r2 = Response.status r1 ∧ Response.body r2 = Response.body r1 ∧
  tl (Response.headers r2) = tl (Response.headers r1).
Lemma replay_responses v r1 r2 b :
  CachedResponse.body v = b → cache_says "MISS" r1 → cache_says "HIT" r2 →
  r1 = build_response (CachedResponse.status v) (CachedResponse.content_type v) (BFull b) "MISS" →
  r2 = build_response (CachedResponse.status v) (CachedResponse.content_type v)
         (BFull (CachedResponse.body v)) "HIT" →
  replays r1 r2.
Proof.
  intros Hb Hm Hh -> ->. apply build_response_says in Hm as [_ ->].
  apply build_response_says in Hh as [_ ->]. by rewrite Hb.
Qed.

(** A buffered MISS, then a HIT under the same key on the caches it left. *)
Lemma dispatch_replay rt key tokens relay k start call g r1 g1 b rt' key' tokens' relay' start' call' g2 r2 g3 :
  (∀ up b, relay up ≠ BFull b) → (∀ up b, relay' up ≠ BFull b) →
  dispatch rt key tokens relay (Some k) start call g = (Some r1, g1) →
  cache_says "MISS" r1 → Response.body r1 = BFull b →
  g_caches g2 = g_caches g1 → Runtime.cache rt' = Runtime.cache rt →
  dispatch rt' key' tokens' relay' (Some k) start' call' g2 = (Some r2, g3) →
  cache_says "HIT" r2 →
  replays r1 r2 ∧ g_spend g3 = g_spend g2 ∧ w_net (g_world g3) = w_net (g_world g2).
Proof.
  intros Hr Hr' H1' Hm Hb Hc Hrt H2' Hh.
  apply dispatch_miss with (b := b) in H1' as (h & k' & v & Eh & [= <-] & Ev & E1 & Hu); [|done..].
  apply dispatch_hit in H2' as (h' & k' & v' & Eh' & [= <-] & (c & Ec & Hold) & E2 & Hs & Hn); [|done..].
  assert (h' = h) as -> by (rewrite Hrt, Eh in Eh'; by injection Eh').
  assert (v' = v) as -> by (apply Hu; exists c; by rewrite <-Hc).
  split_and!; [|done..]. by eapply replay_responses.
Qed.

Lemma chat_relay_not_full pricing key stream up b : chat_relay pricing key stream up ≠ BFull b.
Proof. unfold chat_relay. by destruct stream. Qed.

(** What a marked answer of either handler went through. *)
Lemma chat_says key headers body g r g' tag :
  chat_completions key headers body g = (Some r, g') → cache_says tag r →
  ∃ body' g1, run_plugins (Runtime.plugins (g_runtime g)) "/v1/chat/completions" (chat_model body) body = Ok body' ∧
    still g g1 ∧
    chat_forward (g_runtime g) key (ChatMeta.stream (chat_meta body)) (chat_model body)
      (header_str headers IDEMPOTENCY_HEADER) (w_now (g_world g)) body' g1 = (Some r, g').
Proof. unfold chat_completions, g_now, gets. steps. apply guarded_says. Qed.
Lemma embeddings_says key headers body g r g' tag :
  embeddings key headers body g = (Some r, g') → cache_says tag r →
  ∃ body' g1, run_plugins (Runtime.plugins (g_runtime g)) "/v1/embeddings" (embeddings_model body) body = Ok body' ∧
    still g g1 ∧
    embeddings_forward (g_runtime g) key (embeddings_model body)
      (header_str headers IDEMPOTENCY_HEADER) (w_now (g_world g)) body' g1 = (Some r, g').
Proof. unfold embeddings, g_now, gets. steps. apply guarded_says. Qed.
Lemma chat_runtime key headers body g r g' :
  chat_completions key headers body g = (r, g') → g_runtime g' = g_runtime g.
Proof. intros E. destruct (chat_frame key headers body g) as [(_ & Hr & _) _]. by rewrite E in Hr. Qed.

(** A buffered MISS was not a streaming request. *)
Lemma chat_miss_key rt key stream vm idem start body g r g' b :
  chat_forward rt key stream vm idem start body g = (Some r, g') →
  cache_says "MISS" r → Response.body r = BFull b →
  stream = false ∧
  dispatch rt key chat_tokens (chat_relay (Runtime.pricing rt) key stream)
    (Some (cache_key_for (VirtualKey.identifier key) vm idem body)) start
    (c_chat (Runtime.connector rt) (ChatRequest.mk vm stream body)) g = (Some r, g').
Proof.
  unfold chat_forward. destruct stream; [|done]. intros Hd Hm Hb.
  eapply dispatch_miss in Hd as (? & ? & ? & ? & ? & _); [done|apply chat_relay_not_full|done..].
Qed.

(** C10: A stored answer is replayed as it was. After a chat request was answered
    by a provider with a buffered body, an answer marked HIT to the same request,
    whatever happened meanwhile to the world, the keys, the limits and the spend,
    has the same status, body and content type, calls no provider and records no
    spend. *)
Theorem cached_chat_replayed key headers body g r1 g1 b g2 r2 g3 :
  chat_completions key headers body g = (Some r1, g1) →
  cache_says "MISS" r1 → Response.body r1 = BFull b →
  g_runtime g2 = g_runtime g1 → g_caches g2 = g_caches g1 →
  chat_completions key headers body g2 = (Some r2, g3) → cache_says "HIT" r2 →
  replays r1 r2 ∧ g_spend g3 = g_spend g2 ∧ w_net (g_world g3) = w_net (g_world g2).
Proof.
  intros Hc1 Hm Hb Hrt Hca Hc2 Hh. rewrite (chat_runtime _ _ _ _ _ _ Hc1) in Hrt.
  destruct (chat_says _ _ _ _ _ _ _ Hc1 Hm) as (body1 & ga & Hp1 & Hs1 & Hf1).
  destruct (chat_says _ _ _ _ _ _ _ Hc2 Hh) as (body2 & gb & Hp2 & Hs2 & Hf2).
  rewrite Hrt in Hp2, Hf2. assert (body2 = body1) as -> by congruence.
  eapply chat_miss_key in Hf1 as [Hst Hf1]; [|done..].
  unfold chat_forward in Hf2. rewrite Hst in *.
  rewrite <-(still_spend _ _ Hs2), <-(still_net _ _ Hs2).
  eapply dispatch_replay; try done; try apply chat_relay_not_full.
  by rewrite (still_caches _ _ Hs2).
Qed.

(** C37: The two endpoints share one key space: with an idempotency key, an
    embeddings request of the same virtual key and model that is answered HIT
    after a chat request was stored gets the chat completion, whatever its own
    body is. *)
Theorem idempotency_key_crosses_endpoints key headers idem body ebody g r1 g1 b g2 r2 g3 :
  header_str headers IDEMPOTENCY_HEADER = Some idem →
  embeddings_model ebody = chat_model body →
  chat_completions key headers body g = (Some r1, g1) →
  cache_says "MISS" r1 → Response.body r1 = BFull b →
  g_runtime g2 = g_runtime g1 → g_caches g2 = g_caches g1 →
  embeddings key headers ebody g2 = (Some r2, g3) → cache_says "HIT" r2 →
  replays r1 r2.
Proof.
  intros Hi Hmo Hc1 Hm Hb Hrt Hca Hc2 Hh. rewrite (chat_runtime _ _ _ _ _ _ Hc1) in Hrt.
  destruct (chat_says _ _ _ _ _ _ _ Hc1 Hm) as (body1 & ga & Hp1 & Hs1 & Hf1).
  destruct (embeddings_says _ _ _ _ _ _ _ Hc2 Hh) as (body2 & gb & Hp2 & Hs2 & Hf2).
  rewrite Hrt, Hmo in *. eapply chat_miss_key in Hf1 as [Hst Hf1]; [|done..].
  unfold embeddings_forward in Hf2. rewrite Hi in *. unfold cache_key_for in *.
  eapply dispatch_replay in Hf2 as [? _]; try done; try apply chat_relay_not_full.
  by rewrite (still_caches _ _ Hs2).
Qed.
End replay.

(** ** Witnesses: the same request twice, and then an embeddings request *)
#[local] Existing Instances sample_reqwest sample_moka sample_moka_laws sample_rustls sample_meta
  sample_crypto sample_time some_hash_order.
Definition sample_headers : HeaderMap := [("x-vaultplane-idempotency-key", as_bytes "k1")].
Definition sample_stored : Gateway :=
  (chat_completions VirtualKey.anonymous sample_headers [Byte.x01] sample_gateway).2.
Definition sample_answer (tag : string) : Response := build_response 200 None (BFull []) tag.

Lemma sample_miss :
  (chat_completions VirtualKey.anonymous sample_headers [Byte.x01] sample_gateway).1
  = Some (sample_answer "MISS").
Proof. vm_compute. reflexivity. Qed.
Lemma sample_hit :
  (chat_completions VirtualKey.anonymous sample_headers [Byte.x01] sample_stored).1
  = Some (sample_answer "HIT").
Proof. vm_compute. reflexivity. Qed.
Lemma sample_crossed :
  (embeddings VirtualKey.anonymous sample_headers [Byte.x02] sample_stored).1
  = Some (sample_answer "HIT").
Proof. vm_compute. reflexivity. Qed.

Lemma cached_chat_replayed_witness :
  w_net (g_world (chat_completions VirtualKey.anonymous sample_headers [Byte.x01] sample_stored).2)
  = w_net (g_world sample_stored).
Proof.
  apply (cached_chat_replayed VirtualKey.anonymous sample_headers [Byte.x01] sample_gateway
    (sample_answer "MISS") sample_stored [] sample_stored (sample_answer "HIT")).
  - exact (run_pair _ _ _ sample_miss).
  - left.
  - reflexivity.
  - reflexivity.
  - reflexivity.
  - exact (run_pair _ _ _ sample_hit).
  - left.
Defined.
Lemma idempotency_key_crosses_endpoints_witness :
  replays (sample_answer "MISS") (sample_answer "HIT").
Proof.
  apply (idempotency_key_crosses_endpoints VirtualKey.anonymous sample_headers "k1" [Byte.x01]
    [Byte.x02] sample_gateway (sample_answer "MISS") sample_stored [] sample_stored
    (sample_answer "HIT")
    (embeddings VirtualKey.anonymous sample_headers [Byte.x02] sample_stored).2).
  - reflexivity.
  - reflexivity.
  - exact (run_pair _ _ _ sample_miss).
  - left.
  - reflexivity.
  - reflexivity.
  - reflexivity.
  - exact (run_pair _ _ _ sample_crossed).
  - left.
Defined.
