(* ===== verification/ControlMap.v ===== *)
(** * ControlMap: Control Node bundles ([control_plane/dto.rs], [control_plane/map.rs])

    The wire records of the Gateway Control API and their overlay onto the
    gateway's own configuration and keys. *)

From S2P Require Import Prelude Float64 Auth Plugin Config.

Module dto.
Module Route.
Record Route := mk { provider : string; model : string }.
End Route.
Module ModelConfig.
(** [retry_on]: an omitted field and an empty array are different. *)
Record ModelConfig := mk {
  name : string;
  primary : Route.Route;
  fallbacks : list Route.Route;
  retry_on : option (list Z);
  timeout_ms : option Z
}.
End ModelConfig.
Module ProviderConfig.
Record ProviderConfig := mk { base_url : option string; api_key_env : option string }.
End ProviderConfig.
Module AzureProviderConfig.
Record AzureProviderConfig := mk {
  base_url : option string;
  api_key_env : option string;
  api_version : option string
}.
End AzureProviderConfig.
Module BedrockProviderConfig.
Record BedrockProviderConfig := mk {
  region : option string;
  access_key_env : option string;
  secret_key_env : option string;
  session_token_env : option string
}.
End BedrockProviderConfig.
Module Providers.
Record Providers := mk {
  openai : option ProviderConfig.ProviderConfig;
  anthropic : option ProviderConfig.ProviderConfig;
  azure : option AzureProviderConfig.AzureProviderConfig;
  bedrock : option BedrockProviderConfig.BedrockProviderConfig
}.
End Providers.
Record ModelPricing := mkPrice { input_per1k : f64; output_per1k : f64 }.
Module Pricing.
Record Pricing := mk { providers : gmap string (gmap string ModelPricing) }.
End Pricing.
Module PiiRedactionPlugin.
Record PiiRedactionPlugin := mk { patterns : option (list PiiPattern); replacement : option string }.
End PiiRedactionPlugin.
Module WasmPlugin.
Record WasmPlugin := mk {
  name : string;
  path : string;
  hook : string;
  latency_budget_ms : option Z;
  on_timeout : option FailMode;
  bind_routes : list string
}.
End WasmPlugin.
Inductive Plugin :=
| PiiRedaction (p : PiiRedactionPlugin.PiiRedactionPlugin)
| Wasm (p : WasmPlugin.WasmPlugin).
Module CacheConfig.
Record CacheConfig := mk { enabled : option bool; size_mb : option Z; ttl_seconds : option Z }.
End CacheConfig.
Module GatewayConfig.
Record GatewayConfig := mk {
  version : string;
  models : list ModelConfig.ModelConfig;
  providers : Providers.Providers;
  pricing : option Pricing.Pricing;
  plugins : list Plugin;
  cache : option CacheConfig.CacheConfig
}.
End GatewayConfig.

Inductive SpendPeriod := Day | Week | Month.
Record SpendLimit := mkSpendLimit { amount_usd : f64; period : SpendPeriod }.
Module KeyLimits.
Record KeyLimits := mk { requests_per_second : option Z; spend_limit : option SpendLimit }.
End KeyLimits.
Module KeyScope.
Record KeyScope := mk { team : string; app : string; env : string; allowed_models : list string }.
End KeyScope.
Module VirtualKey.
Record VirtualKey := mk {
  id : string;
  hashed_key : string;
  scope : KeyScope.KeyScope;
  limits : option KeyLimits.KeyLimits;
  expires_at : option string
}.
End VirtualKey.
Module KeySet.
Record KeySet := mk { version : string; keys : list VirtualKey.VirtualKey }.
End KeySet.
Module GatewayIdentity.
Record GatewayIdentity := mk {
  gateway_id : string;
  org_id : string;
  group : option string;
  environment : string;
  config_version : option string;
  keys_version : option string
}.
End GatewayIdentity.
End dto.

Module map.
Definition DEFAULT_RETRY_ON : list Z := [429; 500; 502; 503; 504]%Z.
Definition DEFAULT_TIMEOUT_MS : Z := 30000.
Definition DEFAULT_WASM_LATENCY_BUDGET_MS : Z := 5.
Definition DEFAULT_PII_REPLACEMENT : string := "[REDACTED]".

Definition map_route (r : dto.Route.Route) : Route :=
  Route.mk (dto.Route.provider r) (dto.Route.model r).
Definition map_model (m : dto.ModelConfig.ModelConfig) : ModelConfig :=
  ModelConfig.mk (dto.ModelConfig.name m) (map_route (dto.ModelConfig.primary m))
    (map_route <$> dto.ModelConfig.fallbacks m)
    (default DEFAULT_RETRY_ON (dto.ModelConfig.retry_on m))
    (default DEFAULT_TIMEOUT_MS (dto.ModelConfig.timeout_ms m)).

(** A provider block the bundle has overlays the base's, field by field. *)
Definition apply_openai (b : OpenAiProvider.OpenAiProvider)
    (p : option dto.ProviderConfig.ProviderConfig) : OpenAiProvider.OpenAiProvider :=
  match p with
  | Some p =>
      OpenAiProvider.mk (default (OpenAiProvider.base_url b) (dto.ProviderConfig.base_url p))
        (default (OpenAiProvider.api_key_env b) (dto.ProviderConfig.api_key_env p))
  | None => b
  end.
Definition apply_anthropic (b : AnthropicProvider.AnthropicProvider)
    (p : option dto.ProviderConfig.ProviderConfig) : AnthropicProvider.AnthropicProvider :=
  match p with
  | Some p =>
      AnthropicProvider.mk (default (AnthropicProvider.base_url b) (dto.ProviderConfig.base_url p))
        (default (AnthropicProvider.api_key_env b) (dto.ProviderConfig.api_key_env p))
  | None => b
  end.
Definition apply_azure (b : AzureProvider.AzureProvider)
    (p : option dto.AzureProviderConfig.AzureProviderConfig) : AzureProvider.AzureProvider :=
  match p with
  | Some p =>
      AzureProvider.mk (default (AzureProvider.base_url b) (dto.AzureProviderConfig.base_url p))
        (default (AzureProvider.api_key_env b) (dto.AzureProviderConfig.api_key_env p))
        (default (AzureProvider.api_version b) (dto.AzureProviderConfig.api_version p))
  | None => b
  end.
Definition apply_bedrock (b : BedrockProvider.BedrockProvider)
    (p : option dto.BedrockProviderConfig.BedrockProviderConfig) : BedrockProvider.BedrockProvider :=
  match p with
  | Some p =>
      BedrockProvider.mk (default (BedrockProvider.region b) (dto.BedrockProviderConfig.region p))
        (default (BedrockProvider.access_key_env b) (dto.BedrockProviderConfig.access_key_env p))
        (default (BedrockProvider.secret_key_env b) (dto.BedrockProviderConfig.secret_key_env p))
        (default (BedrockProvider.session_token_env b) (dto.BedrockProviderConfig.session_token_env p))
  | None => b
  end.
Definition apply_providers (b : Providers.Providers) (p : dto.Providers.Providers)
    : Providers.Providers :=
  Providers.mk (apply_openai (Providers.openai b) (dto.Providers.openai p))
    (apply_anthropic (Providers.anthropic b) (dto.Providers.anthropic p))
    (apply_azure (Providers.azure b) (dto.Providers.azure p))
    (apply_bedrock (Providers.bedrock b) (dto.Providers.bedrock p)).

Definition map_price (r : dto.ModelPricing) : ModelPricing :=
  mkPrice (dto.input_per1k r) (dto.output_per1k r).
Definition map_pricing (p : dto.Pricing.Pricing) : Pricing :=
  Pricing.mk ((λ models : gmap string dto.ModelPricing, map_price <$> models) <$> dto.Pricing.providers p).

Definition apply_cache (b : CacheConfig.CacheConfig) (c : dto.CacheConfig.CacheConfig)
    : CacheConfig.CacheConfig :=
  CacheConfig.mk (default (CacheConfig.enabled b) (dto.CacheConfig.enabled c))
    (default (CacheConfig.size_mb b) (dto.CacheConfig.size_mb c))
    (default (CacheConfig.ttl_seconds b) (dto.CacheConfig.ttl_seconds c)).

Definition map_plugin (p : dto.Plugin) : PluginConfig :=
  match p with
  | dto.PiiRedaction pii =>
      PiiRedaction (PiiRedactionConfig.mk
        (default PiiPattern.ALL (dto.PiiRedactionPlugin.patterns pii))
        (default DEFAULT_PII_REPLACEMENT (dto.PiiRedactionPlugin.replacement pii)))
  | dto.Wasm w =>
      Wasm (WasmPluginConfig.mk (dto.WasmPlugin.name w) (dto.WasmPlugin.path w)
        (dto.WasmPlugin.hook w)
        (default DEFAULT_WASM_LATENCY_BUDGET_MS (dto.WasmPlugin.latency_budget_ms w))
        (default FailOpen (dto.WasmPlugin.on_timeout w)) (dto.WasmPlugin.bind_routes w))
  end.

Definition apply_config (base : Config) (bundle : dto.GatewayConfig.GatewayConfig) : Config :=
  Config.mk (Config.listen base)
    (apply_providers (Config.providers base) (dto.GatewayConfig.providers bundle))
    (Config.auth base)
    (map_model <$> dto.GatewayConfig.models bundle)
    (match dto.GatewayConfig.pricing bundle with
     | Some pricing => map_pricing pricing
     | None => Config.pricing base
     end)
    (match dto.GatewayConfig.cache bundle with
     | Some cache => apply_cache (Config.cache base) cache
     | None => Config.cache base
     end)
    (map_plugin <$> dto.GatewayConfig.plugins bundle)
    (Config.control_plane base) (Config.shutdown base).

Definition map_spend (s : dto.SpendLimit) : SpendLimit :=
  mkSpendLimit (dto.amount_usd s)
    match dto.period s with
    | dto.Day => Auth.Day
    | dto.Week => Auth.Week
    | dto.Month => Auth.Month
    end.
Definition map_key (k : dto.VirtualKey.VirtualKey) : VirtualKey :=
  let '(rate_limit_rps, spend_limit) :=
    match dto.VirtualKey.limits k with
    | Some limits =>
        (dto.KeyLimits.requests_per_second limits,
         map_spend <$> dto.KeyLimits.spend_limit limits)
    | None => (None, None)
    end in
  let scope := dto.VirtualKey.scope k in
  VirtualKey.mk (dto.VirtualKey.id k) (dto.VirtualKey.hashed_key k) (dto.KeyScope.team scope)
    (dto.KeyScope.app scope) (dto.KeyScope.env scope) (dto.KeyScope.allowed_models scope)
    rate_limit_rps spend_limit (dto.VirtualKey.expires_at k).
Definition to_virtual_keys (keys : list dto.VirtualKey.VirtualKey) : list VirtualKey :=
  map_key <$> keys.
End map.

(** ** Properties *)
Import map.

(** The node-local part of a configuration, which no bundle carries. *)
Definition node_local (c : Config) :=
  (Config.listen c, Config.auth c, Config.control_plane c, Config.shutdown c).

Lemma apply_openai_idem b p : apply_openai (apply_openai b p) p = apply_openai b p.
Proof. by destruct p as [[[] []]|], b. Qed.
Lemma apply_anthropic_idem b p : apply_anthropic (apply_anthropic b p) p = apply_anthropic b p.
Proof. by destruct p as [[[] []]|], b. Qed.
Lemma apply_azure_idem b p : apply_azure (apply_azure b p) p = apply_azure b p.
Proof. by destruct p as [[[] [] []]|], b. Qed.
Lemma apply_bedrock_idem b p : apply_bedrock (apply_bedrock b p) p = apply_bedrock b p.
Proof. by destruct p as [[[] [] [] []]|], b. Qed.
Lemma apply_providers_idem b p : apply_providers (apply_providers b p) p = apply_providers b p.
Proof.
  unfold apply_providers. cbn.
  by rewrite apply_openai_idem, apply_anthropic_idem, apply_azure_idem, apply_bedrock_idem.
Qed.
Lemma apply_cache_idem b c : apply_cache (apply_cache b c) c = apply_cache b c.
Proof. by destruct c as [[] [] []], b. Qed.

(** The rate of a model in a bundle's pricing. *)
Definition bundle_rate (p : dto.Pricing.Pricing) (provider model : string) : option dto.ModelPricing :=
  dto.Pricing.providers p !! provider ≫= λ models, models !! model.

(** A field of the base under one that the bundle may have sent. *)
Definition overlays {A} (base : A) (sent : option A) (result : A) : Prop :=
  match sent with Some x => result = x | None => result = base end.
(** Field by field; a block that was not sent leaves the base's block alone. *)
Definition openai_overlaid (b : OpenAiProvider.OpenAiProvider) (p : option dto.ProviderConfig.ProviderConfig)
    (r : OpenAiProvider.OpenAiProvider) : Prop :=
  overlays (OpenAiProvider.base_url b) (p ≫= dto.ProviderConfig.base_url) (OpenAiProvider.base_url r) ∧
  overlays (OpenAiProvider.api_key_env b) (p ≫= dto.ProviderConfig.api_key_env) (OpenAiProvider.api_key_env r).
Definition anthropic_overlaid (b : AnthropicProvider.AnthropicProvider)
    (p : option dto.ProviderConfig.ProviderConfig) (r : AnthropicProvider.AnthropicProvider) : Prop :=
  overlays (AnthropicProvider.base_url b) (p ≫= dto.ProviderConfig.base_url) (AnthropicProvider.base_url r) ∧
  overlays (AnthropicProvider.api_key_env b) (p ≫= dto.ProviderConfig.api_key_env)
    (AnthropicProvider.api_key_env r).
Definition azure_overlaid (b : AzureProvider.AzureProvider)
    (p : option dto.AzureProviderConfig.AzureProviderConfig) (r : AzureProvider.AzureProvider) : Prop :=
  overlays (AzureProvider.base_url b) (p ≫= dto.AzureProviderConfig.base_url) (AzureProvider.base_url r) ∧
  overlays (AzureProvider.api_key_env b) (p ≫= dto.AzureProviderConfig.api_key_env) (AzureProvider.api_key_env r) ∧
  overlays (AzureProvider.api_version b) (p ≫= dto.AzureProviderConfig.api_version) (AzureProvider.api_version r).
Definition bedrock_overlaid (b : BedrockProvider.BedrockProvider)
    (p : option dto.BedrockProviderConfig.BedrockProviderConfig) (r : BedrockProvider.BedrockProvider) : Prop :=
  overlays (BedrockProvider.region b) (p ≫= dto.BedrockProviderConfig.region) (BedrockProvider.region r) ∧
  overlays (BedrockProvider.access_key_env b) (p ≫= dto.BedrockProviderConfig.access_key_env)
    (BedrockProvider.access_key_env r) ∧
  overlays (BedrockProvider.secret_key_env b) (p ≫= dto.BedrockProviderConfig.secret_key_env)
    (BedrockProvider.secret_key_env r) ∧
  overlays (BedrockProvider.session_token_env b) (p ≫= dto.BedrockProviderConfig.session_token_env)
    (BedrockProvider.session_token_env r).
Definition providers_overlaid (b : Providers.Providers) (p : dto.Providers.Providers) (r : Providers.Providers)
    : Prop :=
  openai_overlaid (Providers.openai b) (dto.Providers.openai p) (Providers.openai r) ∧
  anthropic_overlaid (Providers.anthropic b) (dto.Providers.anthropic p) (Providers.anthropic r) ∧
  azure_overlaid (Providers.azure b) (dto.Providers.azure p) (Providers.azure r) ∧
  bedrock_overlaid (Providers.bedrock b) (dto.Providers.bedrock p) (Providers.bedrock r).
Definition cache_overlaid (b : CacheConfig.CacheConfig) (c : option dto.CacheConfig.CacheConfig)
    (r : CacheConfig.CacheConfig) : Prop :=
  overlays (CacheConfig.enabled b) (c ≫= dto.CacheConfig.enabled) (CacheConfig.enabled r) ∧
  overlays (CacheConfig.size_mb b) (c ≫= dto.CacheConfig.size_mb) (CacheConfig.size_mb r) ∧
  overlays (CacheConfig.ttl_seconds b) (c ≫= dto.CacheConfig.ttl_seconds) (CacheConfig.ttl_seconds r).
(** A model, and a plugin, of the bundle in the configuration: what it omits takes the
    default of the local file ([config.rs]). *)
Definition model_read (m : dto.ModelConfig.ModelConfig) (r : ModelConfig) : Prop :=
  ModelConfig.name r = dto.ModelConfig.name m ∧
  Forall2 (λ q x, Route.provider x = dto.Route.provider q ∧ Route.model x = dto.Route.model q)
    (dto.ModelConfig.primary m :: dto.ModelConfig.fallbacks m)
    (ModelConfig.primary r :: ModelConfig.fallbacks r) ∧
  overlays ModelConfig.default_retry_on (dto.ModelConfig.retry_on m) (ModelConfig.retry_on r) ∧
  overlays ModelConfig.default_timeout_ms (dto.ModelConfig.timeout_ms m) (ModelConfig.timeout_ms r).
Inductive plugin_read : dto.Plugin → PluginConfig → Prop :=
| pii_read p c :
    overlays PiiRedactionConfig.default_pii_patterns (dto.PiiRedactionPlugin.patterns p)
      (PiiRedactionConfig.patterns c) →
    overlays PiiRedactionConfig.default_redaction_replacement (dto.PiiRedactionPlugin.replacement p)
      (PiiRedactionConfig.replacement c) →
    plugin_read (dto.PiiRedaction p) (PiiRedaction c)
| wasm_read w c :
    WasmPluginConfig.name c = dto.WasmPlugin.name w → WasmPluginConfig.path c = dto.WasmPlugin.path w →
    WasmPluginConfig.hook c = dto.WasmPlugin.hook w →
    WasmPluginConfig.bind_routes c = dto.WasmPlugin.bind_routes w →
    overlays WasmPluginConfig.default_latency_budget_ms (dto.WasmPlugin.latency_budget_ms w)
      (WasmPluginConfig.latency_budget_ms c) →
    overlays WasmPluginConfig.default_on_timeout (dto.WasmPlugin.on_timeout w) (WasmPluginConfig.on_timeout c) →
    plugin_read (dto.Wasm w) (Wasm c).

Lemma map_model_read m : model_read m (map_model m).
Proof.
  destruct m as [n p fs [ro|] [t|]]; (split; [done|]); (split; [|done]); cbn; (constructor; [done|]);
    induction fs; cbn; by constructor.
Qed.
Lemma map_plugin_read p : plugin_read p (map_plugin p).
Proof.
  destruct p as [[ps r]|[n pa h l t b]]; cbn; [|constructor; try done; by destruct l, t].
  constructor; cbn; [by destruct ps|by destruct r].
Qed.
Lemma apply_providers_overlaid b p : providers_overlaid b p (apply_providers b p).
Proof.
  destruct p as [o a z k]. split_and!; cbn.
  - by destruct o as [[[] []]|].
  - by destruct a as [[[] []]|].
  - by destruct z as [[[] [] []]|].
  - by destruct k as [[[] [] [] []]|].
Qed.

(** C26: A bundle overlays the local configuration and nothing else. The listeners, the
    admin token's variable, the local keys, the control-plane block and the shutdown are
    the base's. The models and the plugins are the bundle's, one for one and in order,
    whatever a model or a plugin omits taking the default of a local file, while an
    explicit empty list stays empty. Of the providers and of the cache, each field is the
    one sent, or else the base's. The prices are the bundle's when it sends any, and
    else the base's. And applying the same bundle twice is applying it once. *)
Theorem apply_config_overlay base bundle :
  let c := apply_config base bundle in
  node_local c = node_local base ∧
  Forall2 model_read (dto.GatewayConfig.models bundle) (Config.models c) ∧
  Forall2 plugin_read (dto.GatewayConfig.plugins bundle) (Config.plugins c) ∧
  providers_overlaid (Config.providers base) (dto.GatewayConfig.providers bundle) (Config.providers c) ∧
  cache_overlaid (Config.cache base) (dto.GatewayConfig.cache bundle) (Config.cache c) ∧
  match dto.GatewayConfig.pricing bundle with
  | None => Config.pricing c = Config.pricing base
  | Some p => ∀ provider model,
      (Pricing.providers (Config.pricing c) !! provider ≫= λ t, t !! model)
      = (λ r, mkPrice (dto.input_per1k r) (dto.output_per1k r)) <$> bundle_rate p provider model
  end ∧
  apply_config c bundle = c.
Proof.
  cbv zeta. split_and!; [done| | |apply apply_providers_overlaid| | |].
  - cbn. apply Forall2_fmap_r, Forall_Forall2_diag, Forall_true, map_model_read.
  - cbn. apply Forall2_fmap_r, Forall_Forall2_diag, Forall_true, map_plugin_read.
  - cbn. by destruct (dto.GatewayConfig.cache bundle) as [[[] [] []]|].
  - cbn. destruct (dto.GatewayConfig.pricing bundle) as [p|]; [|done]. intros pr m.
    unfold map_pricing, bundle_rate. cbn. rewrite lookup_fmap.
    destruct (dto.Pricing.providers p !! pr) as [t|]; [|done]. cbn. by rewrite lookup_fmap.
  - unfold apply_config. cbn. rewrite apply_providers_idem.
    destruct (dto.GatewayConfig.pricing bundle), (dto.GatewayConfig.cache bundle) as [c|];
      rewrite ?apply_cache_idem; done.
Qed.
