(* ===== verification/LinkStatus.v ===== *)
(** * LinkStatus: the state of the Control Node link ([control_plane/status.rs])

    The state machine behind [GET /admin/status]; readings of [Instant::now] are
    arguments, in nanoseconds. *)

From S2P Require Import Prelude.

Inductive LinkState := File | Pending | Synced | Degraded.
#[export] Instance LinkState_eq_dec : EqDecision LinkState.
Proof. solve_decision. Defined.

Module Resource.
Inductive Resource := Config | Keys.
Definition as_str (r : Resource) : string := match r with Config => "config" | Keys => "keys" end.
#[global] Instance eq_dec : EqDecision Resource.
Proof. solve_decision. Defined.
End Resource.
Abbreviation Resource := Resource.Resource.

Module Reason.
Inductive Reason := NotStarted | Unauthorized | Transport | UnexpectedStatus | InvalidBody | BuildFailed.
Definition as_str (r : Reason) : string :=
  match r with
  | NotStarted => "not_started"
  | Unauthorized => "unauthorized"
  | Transport => "transport"
  | UnexpectedStatus => "unexpected_status"
  | InvalidBody => "invalid_body"
  | BuildFailed => "build_failed"
  end.
#[global] Instance eq_dec : EqDecision Reason.
Proof. solve_decision. Defined.
End Reason.
Abbreviation Reason := Reason.Reason.

Module SyncFailure.
Record SyncFailure := mk { resource : Resource; reason : Reason; detail : string }.
(** [Display]. *)
Definition fmt (f : SyncFailure) : string :=
  Resource.as_str (resource f) +:+ " " +:+ Reason.as_str (reason f) +:+ ": " +:+ detail f.
End SyncFailure.
Abbreviation SyncFailure := SyncFailure.SyncFailure.

Module Identity.
Record Identity := mk {
  gateway_id : string;
  org_id : string;
  group : option string;
  environment : string
}.
End Identity.
Abbreviation Identity := Identity.Identity.

Module Transition.
Inductive Transition := None_ | Degraded (f : SyncFailure) | Recovered.
End Transition.
Abbreviation Transition := Transition.Transition.

Record Inner := mkInner {
  state : LinkState;
  endpoint : option string;
  config_version : option string;
  keys_version : option string;
  identity : option Identity;
  last_success : option Z;
  last_failure : option (Z * SyncFailure);
  consecutive_failures : Z
}.

Record LastError := mkLastError {
  le_resource : Resource;
  le_reason : Reason;
  le_detail : string;
  le_seconds_ago : Z
}.
Record Snapshot := mkSnapshot {
  sn_state : LinkState;
  sn_endpoint : option string;
  sn_config_version : option string;
  sn_keys_version : option string;
  sn_identity : option Identity;
  sn_last_success_seconds_ago : option Z;
  sn_consecutive_failures : Z;
  sn_last_error : option LastError
}.

Module StatusHandle.
Definition new (state : LinkState) (endpoint : option string) : Inner :=
  mkInner state endpoint None None None None None 0.
Definition file : Inner := new File None.
Definition api (endpoint : string) : Inner := new Pending (Some endpoint).

Definition not_started (detail : string) (now : Z) (i : Inner) : Inner :=
  mkInner Degraded (endpoint i) (config_version i) (keys_version i) (identity i) (last_success i)
    (Some (now, SyncFailure.mk Resource.Config Reason.NotStarted detail))
    (consecutive_failures i).
Definition set_identity (id : Identity) (i : Inner) : Inner :=
  mkInner (state i) (endpoint i) (config_version i) (keys_version i) (Some id) (last_success i)
    (last_failure i) (consecutive_failures i).

(** A newly applied version replaces the recorded one. *)
Definition applied (r : result SyncFailure (option string)) (v : option string) : option string :=
  match r with Ok (Some version) => Some version | _ => v end.
Definition failure_of (config keys : result SyncFailure (option string)) : option SyncFailure :=
  match config, keys with
  | Err f, _ => Some f
  | Ok _, Err f => Some f
  | Ok _, Ok _ => None
  end.
Definition changed_shape (previous : option (Z * SyncFailure)) (failure : SyncFailure) : bool :=
  match previous with
  | Some (_, previous) =>
      negb (bool_decide (SyncFailure.resource previous = SyncFailure.resource failure))
      || negb (bool_decide (SyncFailure.reason previous = SyncFailure.reason failure))
  | None => true
  end.
Definition record_tick (config keys : result SyncFailure (option string)) (now : Z) (i : Inner)
    : Transition * Inner :=
  let was := state i in
  let cv := applied config (config_version i) in
  let kv := applied keys (keys_version i) in
  match failure_of config keys with
  | Some failure =>
      (if negb (bool_decide (was = Degraded)) || changed_shape (last_failure i) failure
       then Transition.Degraded failure else Transition.None_,
       mkInner Degraded (endpoint i) cv kv (identity i) (last_success i) (Some (now, failure))
         (sat_succ_u32 (consecutive_failures i)))
  | None =>
      (if bool_decide (was = Degraded) then Transition.Recovered else Transition.None_,
       mkInner Synced (endpoint i) cv kv (identity i) (Some now) (last_failure i) 0)
  end.

(** Whole seconds since an instant. *)
Definition seconds_since (now t : Z) : Z := Z.max 0 (now - t) / 1000000000.
Definition snapshot (now : Z) (i : Inner) : Snapshot :=
  mkSnapshot (state i) (endpoint i) (config_version i) (keys_version i) (identity i)
    (seconds_since now <$> last_success i) (consecutive_failures i)
    ((λ af, mkLastError (SyncFailure.resource af.2) (SyncFailure.reason af.2)
              (SyncFailure.detail af.2) (seconds_since now af.1)) <$> last_failure i).
End StatusHandle.

(** ** Specification: a history of ticks *)
Module Tick.
Record Tick := mk {
  config : result SyncFailure (option string);
  keys : result SyncFailure (option string);
  at_ : Z
}.
End Tick.
Abbreviation Tick := Tick.Tick.
Definition failed (t : Tick) : option SyncFailure :=
  StatusHandle.failure_of (Tick.config t) (Tick.keys t).
(** The shape of a failure is what alerts match on. *)
Definition shape (t : Tick) : option (Resource * Reason) :=
  (λ f, (SyncFailure.resource f, SyncFailure.reason f)) <$> failed t.

Definition step (i : Inner) (t : Tick) : Transition * Inner :=
  StatusHandle.record_tick (Tick.config t) (Tick.keys t) (Tick.at_ t) i.
Fixpoint ticks (i : Inner) (ts : list Tick) : list Transition * Inner :=
  match ts with
  | [] => ([], i)
  | t :: ts =>
      let '(tr, i) := step i t in
      let '(trs, i) := ticks i ts in (tr :: trs, i)
  end.

(** What is audited is a change of shape: [prev] is the shape of the tick before. *)
Fixpoint audited (prev : option (Resource * Reason)) (ts : list Tick) : list Transition :=
  match ts with
  | [] => []
  | t :: ts =>
      (if decide (shape t = prev) then Transition.None_
       else match failed t with
            | Some f => Transition.Degraded f
            | None => Transition.Recovered
            end) :: audited (shape t) ts
  end.
(** How many ticks at the end of a history failed. *)
Definition trailing_failures (ts : list Tick) : nat :=
  foldl (λ n t, match failed t with Some _ => S n | None => O end) O ts.
Definition last_applied (sel : Tick → result SyncFailure (option string)) (ts : list Tick) : option string :=
  foldl (λ v t, StatusHandle.applied (sel t) v) None ts.
Definition last_state (ts : list Tick) : LinkState :=
  match last ts with
  | None => Pending
  | Some t => match failed t with Some _ => Degraded | None => Synced end
  end.

(** ** Lemmas *)

(** The state agrees with the shape of the last tick. *)
Definition tracks (i : Inner) (prev : option (Resource * Reason)) : Prop :=
  match prev with
  | Some p => state i = Degraded ∧
      ∃ at_ f, last_failure i = Some (at_, f) ∧ p = (SyncFailure.resource f, SyncFailure.reason f)
  | None => state i ≠ Degraded
  end.

Lemma changed_shape_spec at_ f g :
  StatusHandle.changed_shape (Some (at_, f)) g = false ↔
  (SyncFailure.resource g, SyncFailure.reason g) = (SyncFailure.resource f, SyncFailure.reason f).
Proof.
  cbn. rewrite orb_false_iff, !negb_false_iff, !bool_decide_eq_true.
  split; [by intros [-> ->]|by intros [= -> ->]].
Qed.

Lemma step_tracks i prev t :
  tracks i prev →
  (step i t).1 = (if decide (shape t = prev) then Transition.None_
                  else match failed t with
                       | Some f => Transition.Degraded f
                       | None => Transition.Recovered
                       end) ∧
  tracks (step i t).2 (shape t).
Proof.
  unfold step, StatusHandle.record_tick, shape, failed. intros Ht.
  destruct (StatusHandle.failure_of _ _) as [f|]; cbn.
  - split; [|by eauto]. destruct prev as [p|]; cbn in Ht.
    + destruct Ht as (-> & at_ & f' & -> & ->). rewrite bool_decide_true by done. cbn [negb orb].
      destruct (StatusHandle.changed_shape (Some (at_, f')) f) eqn:Ec.
      * rewrite decide_False; [done|]. intros [= E1 E2]. apply not_false_iff_true in Ec.
        apply Ec, changed_shape_spec. by rewrite E1, E2.
      * rewrite decide_True; [done|]. f_equal. by apply changed_shape_spec in Ec.
    + by rewrite bool_decide_false.
  - split; [|done]. destruct prev as [p|]; cbn in Ht.
    + destruct Ht as (-> & _). by rewrite bool_decide_true.
    + by rewrite bool_decide_false.
Qed.

Lemma ticks_audited i prev ts : tracks i prev → (ticks i ts).1 = audited prev ts.
Proof.
  revert i prev. induction ts as [|t ts IH]; intros i prev Ht; [done|]. cbn [ticks audited].
  destruct (step_tracks i prev t Ht) as [E Ht']. destruct (step i t) as [tr i']. cbn in E, Ht'.
  specialize (IH _ _ Ht'). destruct (ticks i' ts) as [trs i'']. cbn in *. by rewrite E, IH.
Qed.
Lemma ticks_snoc i ts t : (ticks i (ts ++ [t])).2 = (step (ticks i ts).2 t).2.
Proof.
  revert i. induction ts as [|t' ts IH]; intros i; cbn.
  - by destruct (step i t).
  - destruct (step i t') as [tr i']. specialize (IH i').
    destruct (ticks i' (ts ++ [t])), (ticks i' ts). exact IH.
Qed.

(** C25: The link's state machine, over any history of polls of a freshly started
    link: the state is that of the last poll, synced exactly when both resources
    succeeded; the versions are the last ones applied, each resource on its own;
    the failure count is the length of the failing tail, saturating; and what is
    audited is exactly the changes of shape: a failure of a new resource or reason,
    and the first success after a failure. *)
Theorem link_history ep ts :
  let '(trs, i) := ticks (StatusHandle.api ep) ts in
  trs = audited None ts ∧
  state i = last_state ts ∧
  config_version i = last_applied Tick.config ts ∧
  keys_version i = last_applied Tick.keys ts ∧
  consecutive_failures i = Z.min (Z.of_nat (trailing_failures ts)) u32_max ∧
  endpoint i = Some ep.
Proof.
  pose proof (ticks_audited (StatusHandle.api ep) None ts ltac:(done)) as Ha.
  assert (let i := (ticks (StatusHandle.api ep) ts).2 in
    state i = last_state ts ∧ config_version i = last_applied Tick.config ts ∧
    keys_version i = last_applied Tick.keys ts ∧
    consecutive_failures i = Z.min (Z.of_nat (trailing_failures ts)) u32_max ∧
    endpoint i = Some ep) as Hi.
  { clear Ha. induction ts as [|t ts IH] using rev_ind; [done|].
    cbv zeta in *. rewrite ticks_snoc. destruct IH as (I1 & I2 & I3 & I4 & I5).
    unfold last_state, last_applied, trailing_failures. rewrite last_snoc, !foldl_app. cbn [foldl].
    fold (last_applied Tick.config ts) (last_applied Tick.keys ts) (trailing_failures ts).
    unfold step, StatusHandle.record_tick, failed.
    destruct (StatusHandle.failure_of _ _) as [f|]; cbn; rewrite I2, I3; split_and!; try done.
    rewrite I4. unfold sat_succ_u32, u32_max. lia. }
  destruct (ticks (StatusHandle.api ep) ts) as [trs i]. by split.
Qed.
