(* ===== verification/ControlNode.v ===== *)
(** * ControlNode: the Control Node client ([control_plane/client.rs],
    [control_plane.rs])

    One poll is a computation over a [Node]: the gateway, the client with its
    ETags, and the link state it shares with the admin API. *)

From S2P Require Import Prelude Text Float64 Json Events Auth Limits Plugin Config Provider.
From S2P Require Import OpenAi Anthropic Bedrock Registry Cache Tls Wasm Runtime.
From S2P Require Import ControlMap LinkStatus.
Import Json.

(** The derived deserialisers of the wire records, and [StatusCode]'s display. *)
Class ControlCrates := {
  de_config : bytes → result string dto.GatewayConfig.GatewayConfig;
  de_keys : bytes → result string dto.KeySet.KeySet;
  de_identity : bytes → result string dto.GatewayIdentity.GatewayIdentity;
  status_display : Z → string
}.

Definition ACTOR : string := "control-plane".
Definition REQUEST_TIMEOUT : Z := 10000000000.

Inductive Fetch (T : Type) :=
| Modified (body : T) (etag : option string)
| NotModified.
Arguments Modified {T} body etag.
Arguments NotModified {T}.

Module ControlNodeClient.
Record ControlNodeClient := mk {
  config_url : string;
  keys_url : string;
  identity_url : string;
  token : string;
  config_etag : option string;
  keys_etag : option string
}.
Definition set_config_etag (e : option string) (c : ControlNodeClient) : ControlNodeClient :=
  mk (config_url c) (keys_url c) (identity_url c) (token c) e (keys_etag c).
Definition set_keys_etag (e : option string) (c : ControlNodeClient) : ControlNodeClient :=
  mk (config_url c) (keys_url c) (identity_url c) (token c) (config_etag c) e.
Definition new `{Reqwest} (endpoint token : string) : result anyhow ControlNodeClient :=
  let base := trim_slashes endpoint in
  _ ← foreign client_build;
  Ok (mk (base +:+ "/config") (base +:+ "/keys") (base +:+ "/identity") token None None).
End ControlNodeClient.
Abbreviation ControlNodeClient := ControlNodeClient.ControlNodeClient.

Record Node `{Reqwest} `{Moka} `{Rustls} := mkNode {
  n_gateway : Gateway;
  n_client : ControlNodeClient;
  n_status : Inner
}.
Arguments mkNode {_ _ _}.
Arguments n_gateway {_ _ _}.
Arguments n_client {_ _ _}.
Arguments n_status {_ _ _}.
Abbreviation N := (M Node).
Abbreviation node_net n := (w_net (g_world (n_gateway n))).

Section client.
Context `{Reqwest} `{Moka} `{Rustls} `{SerdeJson} `{AnthropicSerde} `{BedrockSerde} `{Crypto}
  `{Entropy} `{RegexCrate} `{Wasmtime} `{Env} `{HashOrder} `{ControlCrates}.
Import ControlNodeClient.

Definition on_gateway {A} (c : G A) : N A :=
  zoom n_gateway (λ g n, mkNode g (n_client n) (n_status n)) c.
Definition on_world {A} (c : W A) : N A := on_gateway (in_world c).
Definition set_client (f : ControlNodeClient → ControlNodeClient) : N () :=
  modify (λ n, mkNode (n_gateway n) (f (n_client n)) (n_status n)).
Definition set_status (f : Inner → Inner) : N () :=
  modify (λ n, mkNode (n_gateway n) (n_client n) (f (n_status n))).

(** A GET with the token, the timeout and, when there is one, the ETag. *)
Definition get_request (token url : string) (etag : option string) : Http.Request :=
  Http.mkRequest "GET" url
    (("authorization", "Bearer " +:+ token)
     :: match etag with Some e => [("if-none-match", e)] | None => [] end)
    [] (Some REQUEST_TIMEOUT).
(** [Response::json]. *)
Definition response_json {T} (de : bytes → result string T) (r : Http.Response)
    : W (result string T) :=
  body ← http_bytes r; mret (b ← body; de b).

Definition fetch {T} (resource : Resource) (de : bytes → result string T)
    : N (result SyncFailure (Fetch T)) :=
  client ← gets n_client;
  let '(url, etag) :=
    match resource with
    | Resource.Config => (config_url client, config_etag client)
    | Resource.Keys => (keys_url client, keys_etag client)
    end in
  resp ← on_world (http_send (get_request (token client) url etag));
  match resp with
  | Err e => mret (Err (SyncFailure.mk resource Reason.Transport e))
  | Ok resp =>
      if (Http.status resp =? 200)%Z then
        let etag := header "etag" resp ≫= header_to_str in
        body ← on_world (response_json de resp);
        mret (match body with
              | Ok body => Ok (Modified body etag)
              | Err e => Err (SyncFailure.mk resource Reason.InvalidBody e)
              end)
      else if (Http.status resp =? 304)%Z then mret (Ok NotModified)
      else if (Http.status resp =? 401)%Z then
        mret (Err (SyncFailure.mk resource Reason.Unauthorized
          "401 Unauthorized (check control_plane.token_env / token rotation)"))
      else
        mret (Err (SyncFailure.mk resource Reason.UnexpectedStatus
          ("control node returned unexpected status " +:+ status_display (Http.status resp)
           +:+ " for " +:+ url)))
  end.

(** A fetched bundle: built, swapped in and only then committed; or refused. *)
Definition apply_bundle (base : Config) (bundle : dto.GatewayConfig.GatewayConfig)
    (etag : option string) : N (result SyncFailure (option string)) :=
  let version := dto.GatewayConfig.version bundle in
  let config := map.apply_config base bundle in
  built ← on_gateway (runtime.build_runtime config);
  match built with
  | Ok new_runtime =>
      on_gateway (modify (set_runtime new_runtime));;
      set_client (set_config_etag etag);;
      on_gateway (g_audit (audit.config_reloaded ACTOR Success ("config " +:+ version)));;
      mret (Ok (Some version))
  | Err err =>
      on_gateway (g_audit (audit.config_reloaded ACTOR Failure (anyhow_chain err)));;
      mret (Err (SyncFailure.mk Resource.Config Reason.BuildFailed
                   ("config " +:+ version +:+ ": " +:+ anyhow_chain err)))
  end.
Definition poll_config (base : Config) : N (result SyncFailure (option string)) :=
  try_m (fetch Resource.Config de_config) (λ fetched,
    match fetched with
    | Modified bundle etag => apply_bundle base bundle etag
    | NotModified => mret (Ok None)
    end).

Definition poll_keys : N (result SyncFailure (option string)) :=
  try_m (fetch Resource.Keys de_keys) (λ fetched,
    match fetched with
    | Modified set etag =>
        let version := dto.KeySet.version set in
        let mapped := map.to_virtual_keys (dto.KeySet.keys set) in
        on_gateway (modify (λ g, set_keys (KeyStore.replace_all mapped (g_keys g)) g));;
        set_client (set_keys_etag etag);;
        mret (Ok (Some version))
    | NotModified => mret (Ok None)
    end).

Definition audit_transition (t : Transition) : N () :=
  match t with
  | Transition.None_ => mret ()
  | Transition.Degraded failure =>
      on_gateway (g_audit (audit.control_plane_sync Failure
        (Resource.as_str (SyncFailure.resource failure))
        (Reason.as_str (SyncFailure.reason failure)) (SyncFailure.detail failure)))
  | Transition.Recovered => on_gateway (g_audit (audit.control_plane_sync Success "" "" ""))
  end.
(** [StatusHandle::record_tick] on the shared state. *)
Definition record_tick (config keys : result SyncFailure (option string)) : N Transition := λ n,
  let '(t, i) :=
    StatusHandle.record_tick config keys (w_now (g_world (n_gateway n))) (n_status n) in
  (t, mkNode (n_gateway n) (n_client n) i).
Definition tick (base : Config) : N () :=
  config ← poll_config base;
  keys ← poll_keys;
  t ← record_tick config keys;
  audit_transition t.

Definition log_identity : N () :=
  client ← gets n_client;
  result ← on_world (http_send (get_request (token client) (identity_url client) None));
  match result with
  | Ok resp =>
      if (Http.status resp =? 200)%Z then
        id ← on_world (response_json de_identity resp);
        match id with
        | Ok id =>
            set_status (StatusHandle.set_identity
              (Identity.mk (dto.GatewayIdentity.gateway_id id) (dto.GatewayIdentity.org_id id)
                 (dto.GatewayIdentity.group id) (dto.GatewayIdentity.environment id)))
        | Err _ => mret ()
        end
      else mret ()
  | Err _ => mret ()
  end.

(** The first [n] rounds of the loop. *)
Fixpoint rounds (n : nat) (base : Config) (interval : Z) : N () :=
  match n with
  | O => mret ()
  | S n => tick base;; on_world (elapse interval);; rounds n base interval
  end.
Definition run (n : nat) (base : Config) (interval : Z) : N () :=
  log_identity;; rounds n base interval.
End client.

(** [start]: the link state, and the poll loop when one is spawned (client, base
    configuration, interval in nanoseconds). *)
Section start.
Context `{Reqwest} `{Env}.
Definition start (config : Config) (now : Z)
    : Inner * option (ControlNodeClient * Config * Z) :=
  let cp := Config.control_plane config in
  match ControlPlane.mode cp with
  | ControlPlane.File => (StatusHandle.file, None)
  | ControlPlane.Api =>
      let status := StatusHandle.api (default "" (ControlPlane.endpoint cp)) in
      let not_started detail := (StatusHandle.not_started detail now status, None) in
      match ControlPlane.endpoint cp with
      | None => not_started "control_plane.endpoint is unset"
      | Some endpoint =>
          match ControlPlane.token_env cp with
          | None => not_started "control_plane.token_env is unset"
          | Some token_env =>
              let token := runtime.env_or_empty token_env in
              if decide (token = "") then
                not_started ("token env var " +:+ token_env +:+ " is empty")
              else
                match ControlNodeClient.new endpoint token with
                | Err err => not_started ("failed to build api-mode client: " +:+ anyhow_chain err)
                | Ok client =>
                    (status, Some (client, config,
                       Z.max (ControlPlane.poll_interval_seconds cp) 1 * 1000000000))%Z
                end
          end
      end
  end.
End start.

(** ** Lemmas: what a poll leaves alone *)
Section frames.
Context `{Reqwest} `{Moka} `{Rustls}.

(** Only the world may differ. *)
Record quiet_node (n n' : Node) : Prop := {
  q_client : n_client n' = n_client n;
  q_status : n_status n' = n_status n;
  q_keys : g_keys (n_gateway n') = g_keys (n_gateway n);
  q_limiter : g_limiter (n_gateway n') = g_limiter (n_gateway n);
  q_spend : g_spend (n_gateway n') = g_spend (n_gateway n);
  q_runtime : g_runtime (n_gateway n') = g_runtime (n_gateway n);
  q_tls : g_tls (n_gateway n') = g_tls (n_gateway n);
  q_caches : g_caches (n_gateway n) `prefix_of` g_caches (n_gateway n')
}.
#[export] Instance quiet_node_preorder : PreOrder quiet_node.
Proof.
  split.
  - intros n. by constructor.
  - intros a b c [] []. constructor; by etrans.
Qed.
Definition Quiet {A} (c : N A) : Prop := ∀ n, quiet_node n (c n).2.
Lemma Quiet_ret {A} (a : A) : Quiet (mret a).
Proof. intros n. reflexivity. Qed.
Lemma Quiet_gets {A} (f : Node → A) : Quiet (gets f).
Proof. intros n. reflexivity. Qed.
Lemma Quiet_bind {A B} (c : N A) (k : A → N B) : Quiet c → (∀ a, Quiet (k a)) → Quiet (c ≫= k).
Proof. intros Hc Hk n. rewrite M_bind_eq. unfold eval, exec. etrans; [apply Hc|apply Hk]. Qed.
Lemma on_gateway_eq {A} (c : G A) n :
  on_gateway c n = ((c (n_gateway n)).1, mkNode (c (n_gateway n)).2 (n_client n) (n_status n)).
Proof. unfold on_gateway, zoom. by destruct (c (n_gateway n)). Qed.
Lemma Quiet_on_world {A} (c : W A) : Quiet (on_world c).
Proof.
  intros n. unfold on_world, on_gateway, in_world, zoom.
  destruct (c (g_world (n_gateway n))) as [a w]. by constructor.
Qed.
Lemma Quiet_audit e : Quiet (on_gateway (g_audit e)).
Proof. intros n. by constructor. Qed.
Lemma Quiet_on_gateway {A} (c : G A) : (∀ g, frame g (c g).2) → Quiet (on_gateway c).
Proof.
  intros Hc n. specialize (Hc (n_gateway n)). unfold on_gateway, zoom.
  destruct (c (n_gateway n)) as [a g]. destruct Hc. by constructor.
Qed.
End frames.

Section polls.
Context `{Reqwest} `{Moka} `{Rustls} `{SerdeJson} `{AnthropicSerde} `{BedrockSerde} `{Crypto}
  `{Entropy} `{RegexCrate} `{Wasmtime} `{Env} `{HashOrder} `{ControlCrates}.
Import ControlNodeClient.

Ltac quiet :=
  repeat (intros; first [apply Quiet_ret | apply Quiet_gets | apply Quiet_on_world | apply Quiet_audit
                        | apply Quiet_bind | case_match]).

Lemma fetch_quiet {T} resource (de : bytes → result string T) : Quiet (fetch resource de).
Proof. unfold fetch. quiet. Qed.

(** The URL and the ETag a resource is fetched with. *)
Definition res_url (resource : Resource) (c : ControlNodeClient) : string :=
  match resource with Resource.Config => config_url c | Resource.Keys => keys_url c end.
Definition res_etag (resource : Resource) (c : ControlNodeClient) : option string :=
  match resource with Resource.Config => config_etag c | Resource.Keys => keys_etag c end.
(** [resp] is a 200 with this body and this ETag. *)
Definition carries {T} (de : bytes → result string T) (body : T) (etag : option string)
    (resp : Http.Response) : Prop :=
  Http.status resp = 200%Z ∧ header "etag" resp ≫= header_to_str = etag ∧
  (b ← concat_chunks (Http.chunks resp); de b) = Ok body.
(** A modified resource is the body of a 200 the URL answered with, with the ETag
    of its header. *)
Definition served {T} (url : string) (de : bytes → result string T) (body : T)
    (etag : option string) : Prop :=
  ∃ r net resp net' t, Http.url r = url ∧ send r net = (Ok resp, net', t) ∧
    carries de body etag resp.

(** What one fetch answers, and the network it leaves. *)
Definition fetched {T} (resource : Resource) (de : bytes → result string T) (url : string)
    (resp : result string Http.Response) : result SyncFailure (Fetch T) :=
  match resp with
  | Err e => Err (SyncFailure.mk resource Reason.Transport e)
  | Ok resp =>
      if (Http.status resp =? 200)%Z then
        match (b ← concat_chunks (Http.chunks resp); de b) with
        | Ok body => Ok (Modified body (header "etag" resp ≫= header_to_str))
        | Err e => Err (SyncFailure.mk resource Reason.InvalidBody e)
        end
      else if (Http.status resp =? 304)%Z then Ok NotModified
      else if (Http.status resp =? 401)%Z then
        Err (SyncFailure.mk resource Reason.Unauthorized
          "401 Unauthorized (check control_plane.token_env / token rotation)")
      else
        Err (SyncFailure.mk resource Reason.UnexpectedStatus
          ("control node returned unexpected status " +:+ status_display (Http.status resp)
           +:+ " for " +:+ url))
  end.
Lemma http_send_node r n :
  on_world (http_send r) n = ((send r (node_net n)).1.1, (on_world (http_send r) n).2) ∧
  node_net (on_world (http_send r) n).2 = (send r (node_net n)).1.2.
Proof.
  unfold on_world, on_gateway, in_world, zoom, http_send.
  by destruct (send r (node_net n)) as [[resp net] t].
Qed.
Lemma response_json_node {T} (de : bytes → result string T) resp n :
  on_world (response_json de resp) n
    = (b ← concat_chunks (Http.chunks resp); de b, (on_world (response_json de resp) n).2) ∧
  node_net (on_world (response_json de resp) n).2 = node_net n.
Proof. done. Qed.
Lemma fetch_eq {T} resource (de : bytes → result string T) n :
  let c := n_client n in
  let r := get_request (token c) (res_url resource c) (res_etag resource c) in
  ∃ n', fetch resource de n
    = (fetched resource de (res_url resource c) (send r (node_net n)).1.1, n') ∧
    node_net n' = (send r (node_net n)).1.2.
Proof.
  cbv zeta. unfold fetch, gets. destruct resource; steps;
    set (r := get_request _ _ _); destruct (http_send_node r n) as [-> <-]; cbn [fst snd];
    set (n1 := (on_world (http_send r) n).2); clearbody n1;
    destruct (send r (node_net n)) as [[[resp|e] net] t]; cbn [fst snd fetched];
    try by eexists.
    all: destruct (Http.status resp =? 200)%Z; [|by repeat case_match; eexists].
    all: steps; destruct (response_json_node de resp n1) as [-> <-]; cbn [fst snd];
      by destruct (b ← concat_chunks (Http.chunks resp); de b); eexists.
Qed.
Lemma fetch_modified {T} resource (de : bytes → result string T) n body etag n' :
  fetch resource de n = (Ok (Modified body etag), n') →
  served (res_url resource (n_client n)) de body etag.
Proof.
  destruct (fetch_eq resource de n) as (n1 & -> & _). cbv zeta.
  set (r := get_request _ _ _). intros [= E ->].
  destruct (send r (node_net n)) as [[[resp|e] net] t] eqn:Es; cbn [fst snd fetched] in E; [|done].
  exists r, (node_net n), resp, net, t. split; [done|]. split; [done|].
  destruct (Z.eqb_spec (Http.status resp) 200) as [H200|]; [|by repeat case_match].
  unfold carries. destruct (b ← concat_chunks (Http.chunks resp); de b); [|done].
  by simplify_eq.
Qed.

(** What the outcome of a config poll says about the gateway and the client. *)
Definition config_outcome (base : Config) (r : result SyncFailure (option string)) (n n' : Node) : Prop :=
  keys_etag (n_client n') = keys_etag (n_client n) ∧
  match r with
  | Ok (Some version) => ∃ bundle etag,
      served (config_url (n_client n)) de_config bundle etag ∧ dto.GatewayConfig.version bundle = version ∧
      built_from (map.apply_config base bundle) (g_runtime (n_gateway n')) ∧
      config_etag (n_client n') = etag
  | Ok None | Err _ =>
      g_runtime (n_gateway n') = g_runtime (n_gateway n) ∧
      config_etag (n_client n') = config_etag (n_client n)
  end.
Definition keys_outcome (r : result SyncFailure (option string)) (n n' : Node) : Prop :=
  config_etag (n_client n') = config_etag (n_client n) ∧
  match r with
  | Ok (Some version) => ∃ set etag,
      served (keys_url (n_client n)) de_keys set etag ∧ dto.KeySet.version set = version ∧
      g_keys (n_gateway n') = KeyStore.new (map.to_virtual_keys (dto.KeySet.keys set)) ∧
      keys_etag (n_client n') = etag
  | Ok None | Err _ =>
      g_keys (n_gateway n') = g_keys (n_gateway n) ∧
      keys_etag (n_client n') = keys_etag (n_client n)
  end.

(** What a poll never touches. *)
Definition address (c : ControlNodeClient) : string * string * string * string :=
  (config_url c, keys_url c, identity_url c, token c).
Definition untouched (n n' : Node) : Prop :=
  address (n_client n') = address (n_client n) ∧
  g_limiter (n_gateway n') = g_limiter (n_gateway n) ∧
  g_spend (n_gateway n') = g_spend (n_gateway n) ∧
  g_tls (n_gateway n') = g_tls (n_gateway n) ∧
  g_caches (n_gateway n) `prefix_of` g_caches (n_gateway n').
Lemma quiet_untouched n n' : quiet_node n n' → untouched n n'.
Proof. intros []. unfold untouched, address. by rewrite q_client0. Qed.
Lemma untouched_trans a b c : untouched a b → untouched b c → untouched a c.
Proof.
  intros (A0 & A1 & A2 & A3 & A4) (B0 & B1 & B2 & B3 & B4). unfold untouched.
  rewrite B0, B1, B2, B3.
  split_and!; try done. by etrans.
Qed.

Lemma apply_bundle_spec base bundle etag n :
  let '(r, n') := apply_bundle base bundle etag n in
  untouched n n' ∧ n_status n' = n_status n ∧ g_keys (n_gateway n') = g_keys (n_gateway n) ∧
  keys_etag (n_client n') = keys_etag (n_client n) ∧
  match r with
  | Ok v => v = Some (dto.GatewayConfig.version bundle) ∧ config_etag (n_client n') = etag ∧
      built_from (map.apply_config base bundle) (g_runtime (n_gateway n'))
  | Err f => SyncFailure.reason f = Reason.BuildFailed ∧
      g_runtime (n_gateway n') = g_runtime (n_gateway n) ∧
      config_etag (n_client n') = config_etag (n_client n)
  end.
Proof.
  unfold apply_bundle. steps. rewrite !on_gateway_eq.
  pose proof (build_runtime_frame (map.apply_config base bundle) (n_gateway n)) as Hf.
  destruct (runtime.build_runtime (map.apply_config base bundle) (n_gateway n)) as [[rt|err] g1] eqn:Eb;
    cbn [fst snd] in *; destruct Hf.
  - apply build_runtime_built in Eb. steps. unfold untouched. cbn. by split_and!.
  - steps. unfold untouched. cbn. by split_and!.
Qed.

Lemma poll_config_spec base n :
  let '(r, n') := poll_config base n in
  untouched n n' ∧ n_status n' = n_status n ∧ g_keys (n_gateway n') = g_keys (n_gateway n) ∧
  config_outcome base r n n'.
Proof.
  unfold poll_config, try_m, config_outcome. steps.
  pose proof (fetch_quiet Resource.Config de_config n) as Hq.
  destruct (fetch Resource.Config de_config n) as [[[bundle etag|]|f] n1] eqn:Ef; cbn [fst snd try_] in *.
  - apply fetch_modified in Ef. pose proof (apply_bundle_spec base bundle etag n1) as Ha.
    destruct (apply_bundle base bundle etag n1) as [[v|f] n2]; destruct Ha as (A1 & A2 & A3 & A4 & A5).
    + destruct A5 as (-> & A5 & A6). pose proof (quiet_untouched _ _ Hq) as Hu. destruct Hq.
      split; [exact (untouched_trans _ _ _ Hu A1)|]. do 2 (split; [congruence|]).
      split; [congruence|]. by exists bundle, etag.
    + destruct A5 as (_ & A5 & A6). pose proof (quiet_untouched _ _ Hq) as Hu. destruct Hq.
      split; [exact (untouched_trans _ _ _ Hu A1)|]. by split_and!; congruence.
  - pose proof (quiet_untouched _ _ Hq). destruct Hq. cbn. by split_and!; congruence.
  - pose proof (quiet_untouched _ _ Hq). destruct Hq. cbn. by split_and!; congruence.
Qed.

Lemma poll_keys_spec n :
  let '(r, n') := poll_keys n in
  untouched n n' ∧ n_status n' = n_status n ∧ g_runtime (n_gateway n') = g_runtime (n_gateway n) ∧
  keys_outcome r n n'.
Proof.
  unfold poll_keys, try_m, keys_outcome. steps.
  pose proof (fetch_quiet Resource.Keys de_keys n) as Hq.
  destruct (fetch Resource.Keys de_keys n) as [[[set etag|]|f] n1] eqn:Ef; cbn [fst snd try_] in *;
    pose proof (quiet_untouched _ _ Hq) as Hu; destruct Hq.
  - apply fetch_modified in Ef. steps. cbn. split_and!; try congruence.
    + destruct Hu as (? & ? & ? & ? & ?). by split_and!.
    + by exists set, etag.
  - cbn. by split_and!; congruence.
  - cbn. by split_and!; congruence.
Qed.

Lemma audit_transition_quiet t : Quiet (audit_transition t).
Proof. unfold audit_transition. quiet. Qed.
(** One poll as its two halves, the record of both and the audit of the transition. *)
Lemma tick_spec base n :
  let '(rc, n1) := poll_config base n in
  let '(rk, n2) := poll_keys n1 in
  let n' := (tick base n).2 in
  untouched n n' ∧ config_outcome base rc n n1 ∧ keys_outcome rk n1 n2 ∧
  g_runtime (n_gateway n') = g_runtime (n_gateway n1) ∧
  g_keys (n_gateway n1) = g_keys (n_gateway n) ∧
  g_keys (n_gateway n') = g_keys (n_gateway n2) ∧
  n_client n' = n_client n2 ∧
  n_status n' = (StatusHandle.record_tick rc rk (w_now (g_world (n_gateway n2))) (n_status n)).2.
Proof.
  pose proof (poll_config_spec base n) as Hc. unfold tick. cbv zeta. steps.
  destruct (poll_config base n) as [rc n1]. destruct Hc as (C1 & C2 & C3 & C4). cbn [fst snd].
  pose proof (poll_keys_spec n1) as Hk. steps.
  destruct (poll_keys n1) as [rk n2]. destruct Hk as (K1 & K2 & K3 & K4). cbn [fst snd].
  assert (record_tick rc rk n2 =
    let '(t, i) := StatusHandle.record_tick rc rk (w_now (g_world (n_gateway n2))) (n_status n) in
    (t, mkNode (n_gateway n2) (n_client n2) i)) as -> by (unfold record_tick; by rewrite K2, C2).
  destruct (StatusHandle.record_tick rc rk _ _) as [t i]. cbn [fst snd].
  pose proof (audit_transition_quiet t (mkNode (n_gateway n2) (n_client n2) i)) as Hq.
  pose proof (quiet_untouched _ _ Hq) as Hu. destruct Hq. cbn in *.
  split; [exact (untouched_trans _ _ _ C1 (untouched_trans _ _ _ K1 Hu))|].
  split; [exact C4|]. split; [exact K4|]. by split_and!; congruence.
Qed.
End polls.

(** ** Properties *)
Section properties.
Context `{Reqwest} `{Moka} `{Rustls} `{SerdeJson} `{AnthropicSerde} `{BedrockSerde} `{Crypto}
  `{Entropy} `{RegexCrate} `{Wasmtime} `{Env} `{HashOrder} `{ControlCrates}.

(** C12: Data-plane survival. One poll of the Control Node, whatever it answers,
    leaves the rate limiter, the recorded spend, the TLS material and every cache
    in use alone. A configuration that fails (transport, 401, another status, a
    body that does not parse, a bundle that does not build) or is unchanged leaves
    the running runtime and its ETag as they were, and likewise the keys; a bundle
    that applied is a 200 body laid over the local base, its ETag committed only
    then; new keys are exactly the served set. The link state records precisely
    these two outcomes. *)
Theorem tick_survives base n :
  let '(rc, n1) := poll_config base n in
  let '(rk, n2) := poll_keys n1 in
  let n' := (tick base n).2 in
  untouched n n' ∧ config_outcome base rc n n1 ∧ keys_outcome rk n1 n2 ∧
  g_runtime (n_gateway n') = g_runtime (n_gateway n1) ∧
  g_keys (n_gateway n1) = g_keys (n_gateway n) ∧
  g_keys (n_gateway n') = g_keys (n_gateway n2) ∧
  n_client n' = n_client n2 ∧
  n_status n' = (StatusHandle.record_tick rc rk (w_now (g_world (n_gateway n2))) (n_status n)).2.
Proof. apply tick_spec. Qed.
End properties.
