(* ===== verification/ControlSync.v ===== *)
(** * ControlSync: what the Control Node loop converges to

    Recovery of the poll loop of [ControlNode] after any outage, and what a local
    reload does to a node that follows the Control Node. *)

From S2P Require Import Prelude Text Float64 Json Events Auth Limits Plugin Config Provider.
From S2P Require Import OpenAi Anthropic Bedrock Registry Cache Tls Wasm Runtime.
From S2P Require Import ControlMap LinkStatus ControlNode.
Import Json ControlNodeClient.

Section sync.
Context `{Reqwest} `{Moka} `{Rustls} `{SerdeJson} `{AnthropicSerde} `{BedrockSerde} `{Crypto}
  `{Entropy} `{RegexCrate} `{Wasmtime} `{Env} `{HashOrder} `{ControlCrates}.

(** While the network is [healthy] the URL answers with a 304 to a request that
    names the resource's tag and with the resource to any other; the tag never
    names another resource. *)
Record answering {T} (healthy : Net → Prop) (url : string) (de : bytes → result string T)
    (body : T) (tag : string) : Prop := {
  healthy_answers : ∀ r net, healthy net → Http.url r = url →
    ∃ resp net' t, send r net = (Ok resp, net', t) ∧ healthy net' ∧
      if decide (("if-none-match", tag) ∈ Http.headers r) then Http.status resp = 304%Z
      else carries de body (Some tag) resp;
  tag_names : ∀ body', served url de body' (Some tag) → body' = body
}.

Context (healthy : Net → Prop) (base : Config) (config_at keys_at : string).
Context (bundle : dto.GatewayConfig.GatewayConfig) (bundle_tag : string).
Context (set : dto.KeySet.KeySet) (set_tag : string).
Context (Hconfig : answering healthy config_at de_config bundle bundle_tag).
Context (Hkeys : answering healthy keys_at de_keys set set_tag).
(** Downloading plugins does not take the Control Node down, and while it is up the
    bundle builds. *)
Context (Hdownload : ∀ url net, healthy net → healthy (send (download_request url) net).1.2).
Context (Hbuild : ∀ g, healthy (w_net (g_world g)) →
  is_ok (runtime.build_runtime (map.apply_config base bundle) g).1 = true).

Lemma downloads_healthy net net' : downloads net net' → healthy net → healthy net'.
Proof. induction 1 as [|x y z [url ->] _ IH]; [done|]. intros ?. by apply IH, Hdownload. Qed.

(** The node follows this bundle, or this key set. *)
Definition follows_bundle (n : Node) : Prop :=
  built_from (map.apply_config base bundle) (g_runtime (n_gateway n)) ∧
  config_version (n_status n) = Some (dto.GatewayConfig.version bundle).
Definition follows_set (n : Node) : Prop :=
  g_keys (n_gateway n) = KeyStore.new (map.to_virtual_keys (dto.KeySet.keys set)) ∧
  keys_version (n_status n) = Some (dto.KeySet.version set).

(** A committed tag is the tag of what the node runs. *)
Record committed (n : Node) : Prop := {
  com_config_url : config_url (n_client n) = config_at;
  com_keys_url : keys_url (n_client n) = keys_at;
  com_bundle : config_etag (n_client n) = Some bundle_tag → follows_bundle n;
  com_set : keys_etag (n_client n) = Some set_tag → follows_set n
}.
Record converged (n : Node) : Prop := {
  conv_state : LinkStatus.state (n_status n) = Synced;
  conv_failures : consecutive_failures (n_status n) = 0%Z;
  conv_bundle : follows_bundle n;
  conv_set : follows_set n
}.

Lemma tick_committed n : committed n → committed (tick base n).2.
Proof.
  intros [Ec Ek Hb Hs]. pose proof (tick_spec base n) as Ht.
  pose proof (poll_config_spec base n) as Hpc.
  destruct (poll_config base n) as [rc n1]. destruct Hpc as ((Ea & _) & _).
  destruct (poll_keys n1) as [rk n2]. cbv zeta in Ht.
  destruct Ht as ((Ea' & _) & (Kk & Oc) & (Kc & Ok_) & Er & Eg & Eg' & En & Es).
  unfold address in *. split.
  - congruence.
  - congruence.
  - rewrite En, Kc. intros Htag. unfold follows_bundle. rewrite Er, Es.
    unfold StatusHandle.record_tick. destruct rc as [[v|]|f].
    + destruct Oc as (b & e & Hsv & Hv & Hbf & He). rewrite Ec in Hsv.
      assert (b = bundle) as -> by (apply (tag_names _ _ _ _ _ Hconfig); congruence).
      split; [done|]. case_match; cbn; congruence.
    + destruct Oc as [-> Oe]. rewrite Oe in Htag. destruct (Hb Htag) as [Hbf Hv].
      split; [done|]. case_match; cbn; congruence.
    + destruct Oc as [-> Oe]. rewrite Oe in Htag. destruct (Hb Htag) as [Hbf Hv].
      split; [done|]. case_match; cbn; congruence.
  - rewrite En. intros Htag. unfold follows_set. rewrite Eg', Es.
    unfold StatusHandle.record_tick. destruct rk as [[v|]|f].
    + destruct Ok_ as (b & e & Hsv & Hv & Hbf & He).
      assert (keys_url (n_client n1) = keys_at) as Eu by congruence. rewrite Eu in Hsv.
      assert (b = set) as -> by (apply (tag_names _ _ _ _ _ Hkeys); congruence).
      split; [done|]. case_match; cbn; congruence.
    + destruct Ok_ as [-> Oe]. rewrite Oe, Kk in Htag. destruct (Hs Htag) as [Hbf Hv].
      rewrite Eg. split; [done|]. case_match; cbn; congruence.
    + destruct Ok_ as [-> Oe]. rewrite Oe, Kk in Htag. destruct (Hs Htag) as [Hbf Hv].
      rewrite Eg. split; [done|]. case_match; cbn; congruence.
Qed.
Lemma rounds_committed k interval n : committed n → committed (rounds k base interval n).2.
Proof.
  revert n. induction k as [|k IH]; intros n Hn; cbn [rounds]; [done|]. steps.
  apply IH. destruct (tick_committed n Hn) as [? ? Hb Hs]. split; done.
Qed.

(** A fetch while the network is healthy. *)
Lemma fetch_healthy {T} resource (de : bytes → result string T) body tag n :
  answering healthy (res_url resource (n_client n)) de body tag → healthy (node_net n) →
  ∃ f n', fetch resource de n = (Ok f, n') ∧ quiet_node n n' ∧ healthy (node_net n') ∧
    f = if decide (res_etag resource (n_client n) = Some tag) then NotModified
        else Modified body (Some tag).
Proof.
  intros Ha Hn. pose proof (fetch_quiet resource de n) as Hq.
  destruct (fetch_eq resource de n) as (n' & E & En). rewrite E in Hq.
  set (r := get_request _ _ _) in *.
  destruct (healthy_answers _ _ _ _ _ Ha r _ Hn) as (resp & net' & t & Es & Hh & Hr); [done|].
  rewrite E, Es in *. cbn [fst snd fetched] in *.
  assert (("if-none-match", tag) ∈ Http.headers r ↔ res_etag resource (n_client n) = Some tag) as Hin.
  { subst r. cbn. destruct (res_etag resource (n_client n)) as [e|]; rewrite !elem_of_cons, elem_of_nil;
      naive_solver. }
  destruct (decide (_ ∈ _)) as [Hi|Hi]; rewrite Hin in Hi.
  - rewrite decide_True by done. exists NotModified, n'. rewrite Hr. split_and!; [done|done|congruence|done].
  - rewrite decide_False by done. destruct Hr as (-> & Et & Eb). rewrite Et, Eb.
    exists (Modified body (Some tag)), n'. split_and!; [done..|congruence|done].
Qed.

(** A node that follows what its committed tags name is brought in step by one
    poll of a healthy Control Node. *)
Lemma poll_config_healthy n :
  committed n → healthy (node_net n) →
  ∃ r n', poll_config base n = (Ok r, n') ∧ healthy (node_net n') ∧
    config_etag (n_client n') = Some bundle_tag ∧
    match r with
    | Some v => v = dto.GatewayConfig.version bundle
    | None => config_etag (n_client n) = Some bundle_tag
    end.
Proof.
  intros [Ec _ _ _] Hn. unfold poll_config, try_m. steps.
  destruct (fetch_healthy Resource.Config de_config bundle bundle_tag n)
    as (f & n1 & -> & Hq & Hh & Hf); [by cbn; rewrite Ec|done|].
  cbn [fst snd try_ res_etag] in *. case_decide as Htag; subst f; cbn [try_].
  { exists None, n1. split_and!; [done..| |done]. destruct Hq. by rewrite q_client. }
  unfold apply_bundle. steps. rewrite !on_gateway_eq. specialize (Hbuild (n_gateway n1) Hh).
  pose proof (build_runtime_frame (map.apply_config base bundle) (n_gateway n1)) as Hfr.
  destruct (runtime.build_runtime _ (n_gateway n1)) as [[rt|e] g1]; cbn [fst snd] in *; [|done].
  steps. eexists _, _. split; [done|]. cbn. split_and!; [|done..]. destruct Hfr.
  by eapply downloads_healthy.
Qed.
Lemma poll_keys_healthy n :
  keys_url (n_client n) = keys_at → healthy (node_net n) →
  ∃ r n', poll_keys n = (Ok r, n') ∧ healthy (node_net n') ∧
    keys_etag (n_client n') = Some set_tag ∧
    match r with
    | Some v => v = dto.KeySet.version set
    | None => keys_etag (n_client n) = Some set_tag
    end.
Proof.
  intros Ek Hn. unfold poll_keys, try_m. steps.
  destruct (fetch_healthy Resource.Keys de_keys set set_tag n)
    as (f & n1 & -> & Hq & Hh & Hf); [by cbn; rewrite Ek|done|].
  cbn [fst snd try_ res_etag] in *. case_decide as Htag; subst f; cbn [try_].
  - exists None, n1. split_and!; [done..| |done]. destruct Hq. by rewrite q_client.
  - steps. by eexists _, _.
Qed.

Lemma tick_net n :
  node_net (tick base n).2 = node_net (poll_keys (poll_config base n).2).2.
Proof.
  unfold tick. steps. destruct (poll_config base n) as [rc n1]. cbn [fst snd].
  destruct (poll_keys n1) as [rk n2]. cbn [fst snd]. unfold record_tick.
  destruct (StatusHandle.record_tick _ _ _ _) as [t i]. cbn [fst snd]. by destruct t.
Qed.
Lemma tick_healthy n :
  committed n → healthy (node_net n) → converged (tick base n).2 ∧ healthy (node_net (tick base n).2).
Proof.
  intros Hcom Hn. pose proof (tick_committed n Hcom) as [_ _ Hb Hs].
  destruct (poll_config_healthy n Hcom Hn) as (rc & n1 & Ec & Hh & Htag & _).
  pose proof (poll_config_spec base n) as Hpc. rewrite Ec in Hpc. destruct Hpc as ((Ea & _) & _).
  destruct (poll_keys_healthy n1) as (rk & n2 & Ek & Hh' & Htag' & _);
    [destruct Hcom; unfold address in Ea; congruence|done|].
  pose proof (tick_spec base n) as Ht. rewrite tick_net, Ec in *. cbn [snd] in *.
  pose proof (poll_keys_spec n1) as Hk. rewrite Ek in *. cbv zeta in Ht.
  destruct Ht as (_ & _ & (Kk & _) & _ & _ & _ & En & Es).
  split; [|done]. rewrite En in Hb, Hs. split.
  - by rewrite Es.
  - by rewrite Es.
  - apply Hb. congruence.
  - by apply Hs.
Qed.
Lemma rounds_S k interval n :
  rounds (S k) base interval n
    = rounds k base interval (on_world (elapse interval) (tick base n).2).2.
Proof. cbn [rounds]. by steps. Qed.
Lemma rounds_healthy k interval n :
  committed n → healthy (node_net n) →
  converged (rounds (S k) base interval n).2 ∧ healthy (node_net (rounds (S k) base interval n).2).
Proof.
  revert n. induction k as [|k IH]; intros n Hcom Hn; rewrite rounds_S;
    destruct (tick_healthy n Hcom Hn) as [Hv Hh].
  - split; [by destruct Hv|done].
  - apply IH; [|done]. by destruct (tick_committed n Hcom).
Qed.
Lemma rounds_app j k interval n :
  (rounds (j + k) base interval n).2 = (rounds k base interval (rounds j base interval n).2).2.
Proof.
  revert n. induction j as [|j IH]; intros n; [done|]. by rewrite Nat.add_succ_l, !rounds_S, IH.
Qed.

(** C13: Recovery. Take a node whose committed tags name what it runs ([committed]: a
    client that has just started has no tags, and every poll keeps it so), whose
    gateway is changed by nothing but the client's own polls, following a Control Node
    whose tags never name another body than the one they were sent with, and whose
    outages a plugin download does not cause. However long the Control Node was
    unreachable, refused the token, answered nonsense or served bundles that do not
    build, once it answers again for a bundle that builds, every later poll leaves the
    gateway synced with no failure counted, running a runtime built from that bundle
    over the local base and the keys of exactly that set, with their versions on
    record: in one poll, and for good while the answers stay the same. A local reload
    in between takes a node out of these conditions: [reload_masks_bundle]. *)
Theorem link_converges j k interval n :
  committed n → healthy (node_net (rounds j base interval n).2) →
  converged (rounds (j + S k) base interval n).2.
Proof.
  intros Hn Hh. rewrite rounds_app. apply rounds_healthy; [|done]. by apply rounds_committed.
Qed.

(** Polls that find nothing new leave the runtime alone. *)
Lemma tick_unmodified n :
  config_url (n_client n) = config_at → keys_url (n_client n) = keys_at →
  config_etag (n_client n) = Some bundle_tag → healthy (node_net n) →
  g_runtime (n_gateway (tick base n).2) = g_runtime (n_gateway n) ∧
  config_etag (n_client (tick base n).2) = Some bundle_tag ∧
  LinkStatus.state (n_status (tick base n).2) = Synced ∧
  config_version (n_status (tick base n).2) = config_version (n_status n) ∧
  healthy (node_net (tick base n).2) ∧ address (n_client (tick base n).2) = address (n_client n).
Proof.
  intros Eu Ek Et Hn. pose proof (tick_spec base n) as Ht. rewrite tick_net.
  destruct (fetch_healthy Resource.Config de_config bundle bundle_tag n)
    as (f & n1 & Ef & Hq & Hh & Hf); [by cbn; rewrite Eu|done|]. cbn [res_etag] in Hf.
  rewrite decide_True in Hf by done. subst f.
  assert (poll_config base n = (Ok None, n1)) as Ec
    by (unfold poll_config, try_m; steps; by rewrite Ef).
  rewrite Ec in *. cbn [snd] in *.
  destruct (poll_keys_healthy n1) as (rk & n2 & Epk & Hh' & _ & _);
    [destruct Hq; by rewrite q_client|done|].
  rewrite Epk in *. cbv zeta in Ht. destruct Ht as ((Ha & _) & (_ & Oc & Oe) & (Kc & _) & Er & _ & _ & En & Es).
  rewrite Er, En, Es, Kc, Oe, <-En. by split_and!.
Qed.
Lemma rounds_unmodified k interval n :
  config_url (n_client n) = config_at → keys_url (n_client n) = keys_at →
  config_etag (n_client n) = Some bundle_tag → healthy (node_net n) →
  let n' := (rounds (S k) base interval n).2 in
  g_runtime (n_gateway n') = g_runtime (n_gateway n) ∧
  LinkStatus.state (n_status n') = Synced ∧
  config_version (n_status n') = config_version (n_status n).
Proof.
  cbv zeta. revert n. induction k as [|k IH]; intros n Eu Ek Et Hn; rewrite rounds_S;
    destruct (tick_unmodified n Eu Ek Et Hn) as (T1 & T2 & T3 & T4 & T5 & T6); [done|].
  destruct (IH (on_world (elapse interval) (tick base n).2).2) as (I1 & I2 & I3);
    [cbn; unfold address in T6; congruence..|done|done|].
  rewrite I1, I3. by split_and!.
Qed.

(** C34: A reload masks the bundle. On a node that follows the Control Node, a
    successful local reload (SIGHUP, or the admin endpoint) swaps in a runtime
    built from the local configuration alone; every later poll that finds the
    bundle unchanged keeps that runtime, and the link still reports [synced] with
    the version of the bundle the gateway no longer runs. *)
Theorem reload_masks_bundle `{Config.Figment} path k interval n g' :
  committed n → converged n → config_etag (n_client n) = Some bundle_tag →
  healthy (node_net n) → runtime.reload path (n_gateway n) = (Ok (), g') →
  let n' := (rounds (S k) base interval (mkNode g' (n_client n) (n_status n))).2 in
  (∃ c, Config.load path (w_now (g_world (n_gateway n))) = Ok c ∧
     built_from c (g_runtime (n_gateway n'))) ∧
  LinkStatus.state (n_status n') = Synced ∧
  config_version (n_status n') = Some (dto.GatewayConfig.version bundle).
Proof.
  intros [Eu Ek _ _] [_ _ [_ Hv] _] Et Hn Hr.
  pose proof (reload_spec path (n_gateway n)) as Hs. rewrite Hr in Hs.
  destruct Hs as (_ & _ & _ & _ & Hnet & _ & c & Hc & Hb).
  destruct (rounds_unmodified k interval (mkNode g' (n_client n) (n_status n)))
    as (R1 & R2 & R3); [done|done|done|by eapply downloads_healthy|].
  cbv zeta. rewrite R1, R3. split_and!; [by exists c|done|done].
Qed.
End sync.

(** ** Witnesses: a Control Node that is down for two requests *)
Definition node_answer (r : Http.Request) (n : nat) : result string Http.Response :=
  let tag := if decide (Http.url r = "https://cn/v1/config") then "b1" else "k1" in
  if (n <? 2)%nat then Err "connection refused"
  else if decide (("if-none-match", tag) ∈ Http.headers r) then Ok (Http.mkResponse 304 [] [] 0)
  else Ok (Http.mkResponse 200 [("etag", as_bytes tag)] [Ok [Byte.x7b]] 0).
Definition node_reqwest : Reqwest :=
  {| Net := nat; client_build := Ok (); send r n := (node_answer r n, S n, 1000000%Z);
     status_error _ _ := "HTTP status error"; header_to_str b := Some (of_bytes b) |}.
Definition sample_bundle : dto.GatewayConfig.GatewayConfig :=
  dto.GatewayConfig.mk "v7" [] (dto.Providers.mk None None None None) None [] None.
Definition sample_set : dto.KeySet.KeySet :=
  dto.KeySet.mk "k3"
    [dto.VirtualKey.mk "vp_1" "tok" (dto.KeyScope.mk "team" "app" "prod" []) None None].
Definition sample_control : ControlCrates :=
  {| de_config _ := Ok sample_bundle; de_keys _ := Ok sample_set;
     de_identity _ := Err "unused"; status_display _ := "" |}.
#[local] Existing Instances node_reqwest sample_moka sample_rustls sample_anthropic_serde
  sample_bedrock_serde sample_crypto sample_entropy sample_regex sample_wasmtime sample_env
  some_hash_order sample_control sample_figment.
#[local] Instance sample_json : SerdeJson := one_document Null.

Definition quiet_connector : Connector :=
  mkConnector "openai" (λ _, mret None) (λ _, mret None) (mret true).
Definition fresh_node : Node :=
  mkNode
    (mkGateway (mkWorld (0 : @Net node_reqwest) 0 []) [] ∅ ∅ ∅
       (Runtime.mk quiet_connector Pricing.default None [] []) None)
    (ControlNodeClient.mk "https://cn/v1/config" "https://cn/v1/keys" "https://cn/v1/identity"
       "secret" None None)
    (StatusHandle.api "https://cn/v1").
Definition up (n : @Net node_reqwest) : Prop := 2 ≤ n.

(** Both URLs are answered alike. *)
Lemma sample_answering {T} url (de : bytes → result string T) body tag :
  (∀ b, de b = Ok body) → tag = (if decide (url = "https://cn/v1/config") then "b1" else "k1") →
  answering up url de body tag.
Proof.
  intros Hde Ht. split.
  - intros r net Hn Hu. exists (match node_answer r net with Ok x => x | Err _ => Http.mkResponse 0 [] [] 0 end), (S net), 1000000%Z.
    unfold send, node_reqwest, node_answer, up in *. rewrite Hu, <-Ht.
    destruct (Nat.ltb_spec net 2); [lia|].
    destruct (decide (("if-none-match", tag) ∈ Http.headers r)); (split; [done|]); (split; [lia|]); [done|].
    split; [done|]. split; [|by cbn; rewrite Hde].
    change (Some (of_bytes (as_bytes tag)) = Some tag). by rewrite of_as_bytes.
  - intros b (? & ? & resp & ? & ? & _ & _ & _ & _ & E).
    destruct (concat_chunks (Http.chunks resp)); cbn in E; [rewrite Hde in E|]; by simplify_eq.
Qed.
Lemma sample_downloads url net : up net → up (send (download_request url) net).1.2.
Proof. unfold up. cbn. lia. Qed.
Lemma sample_builds g : up (w_net (g_world g)) →
  is_ok (runtime.build_runtime (map.apply_config Config.default sample_bundle) g).1 = true.
Proof. intros _. vm_compute. reflexivity. Qed.
Lemma sample_config : answering up "https://cn/v1/config" de_config sample_bundle "b1".
Proof. by apply sample_answering. Qed.
Lemma sample_keys : answering up "https://cn/v1/keys" de_keys sample_set "k1".
Proof. by apply sample_answering. Qed.

Lemma fresh_committed :
  committed Config.default "https://cn/v1/config" "https://cn/v1/keys" sample_bundle "b1"
    sample_set "k1" fresh_node.
Proof. by split. Qed.
Lemma sample_up : up (node_net (rounds 1 Config.default 30000000000 fresh_node).2).
Proof. vm_compute. lia. Qed.
Lemma link_converges_witness :
  converged Config.default sample_bundle sample_set
    (rounds 3 Config.default 30000000000 fresh_node).2.
Proof.
  exact (link_converges up Config.default _ _ sample_bundle "b1" sample_set "k1"
    sample_config sample_keys sample_downloads sample_builds 1 1 30000000000 fresh_node
    fresh_committed sample_up).
Defined.

(** A node that has followed the bundle for a poll. *)
Definition following : Node := (rounds 2 Config.default 30000000000 fresh_node).2.
Lemma following_committed :
  committed Config.default "https://cn/v1/config" "https://cn/v1/keys" sample_bundle "b1"
    sample_set "k1" following.
Proof.
  apply (rounds_committed up); [exact sample_config|exact sample_keys|exact fresh_committed].
Qed.
Lemma following_up : up (node_net following).
Proof. vm_compute. lia. Qed.
Lemma following_tag : config_etag (n_client following) = Some "b1".
Proof. vm_compute. reflexivity. Qed.
Lemma following_converged : converged Config.default sample_bundle sample_set following.
Proof.
  unfold following. change 2 with (1 + 1). rewrite rounds_app.
  apply (rounds_healthy up Config.default "https://cn/v1/config" "https://cn/v1/keys" sample_bundle "b1"
    sample_set "k1"); [exact sample_config|exact sample_keys|exact sample_downloads|exact sample_builds| |exact sample_up].
  apply (rounds_committed up); [exact sample_config|exact sample_keys|exact fresh_committed].
Qed.
Lemma following_reload : (runtime.reload None (n_gateway following)).1 = Ok ().
Proof. vm_compute. reflexivity. Qed.
Lemma reload_masks_bundle_witness :
  config_version (n_status (rounds 5 Config.default 30000000000
    (mkNode (runtime.reload None (n_gateway following)).2 (n_client following)
       (n_status following))).2) = Some "v7".
Proof.
  exact (proj2 (proj2 (reload_masks_bundle up Config.default _ _ sample_bundle "b1" sample_set "k1"
    sample_config sample_keys sample_downloads None 4 30000000000 following _
    following_committed following_converged following_tag following_up
    (run_pair _ _ _ following_reload)))).
Defined.
