(* ===== verification/Admin.v ===== *)
(** * Admin: the admin API ([admin.rs])

    Probes, status, metrics, key management, the model list and the reload
    endpoint, behind the static admin token. A handler is a computation over
    [AppState]; [None] is a panic of the handler. *)

From S2P Require Import Prelude Text Float64 Json Events Auth Limits Plugin Config Provider.
From S2P Require Import OpenAi Anthropic Bedrock Registry Cache Tls Wasm Runtime Proxy.
From S2P Require Import LinkStatus.
Import Json.

Definition ADMIN_ACTOR : string := "admin-api".
Definition PROMETHEUS_CONTENT_TYPE : string := "text/plain; version=0.0.4; charset=utf-8".
(** [vaultplane_core::VERSION]. *)
Definition VERSION : string := "1.0.0".

Module CreateKeyRequest.
Record CreateKeyRequest := mk {
  team : string;
  app : string;
  env : string;
  models : list string;
  rate_limit_rps : option Z;
  spend_limit : option SpendLimit;
  expires_at : option string
}.
Definition default : CreateKeyRequest := mk "" "" "" [] None None None.
End CreateKeyRequest.
Abbreviation CreateKeyRequest := CreateKeyRequest.CreateKeyRequest.

Module KeySummary.
Record KeySummary := mk {
  id : string;
  team : string;
  app : string;
  env : string;
  models : list string;
  rate_limit_rps : option Z;
  spend_limit : option SpendLimit;
  expires_at : option string
}.
Definition from (k : VirtualKey) : KeySummary :=
  mk (VirtualKey.id k) (VirtualKey.team k) (VirtualKey.app k) (VirtualKey.env k)
    (VirtualKey.models k) (VirtualKey.rate_limit_rps k) (VirtualKey.spend_limit k)
    (VirtualKey.expires_at k).
End KeySummary.
Abbreviation KeySummary := KeySummary.KeySummary.

(** The extractors of [axum] (the [Json] body of a creation, with its rejection;
    a percent-decoded path segment) and the recorder's text exposition. *)
Class AdminCrates := {
  json_create_key : HeaderMap → bytes → result Response CreateKeyRequest;
  path_segment : string → result Response string;
  metrics_render : list Effect → string
}.

(** ** Serialised bodies *)
Definition period_str (p : Period) : string :=
  match p with Day => "day" | Week => "week" | Month => "month" end.
Definition spend_limit_json (l : SpendLimit) : Value :=
  obj [("amount_usd", Num (Float (amount_usd l))); ("period", Str (period_str (period l)))].
(** A field skipped when it is [None]. *)
Definition opt_field {A} (name : string) (f : A → Value) (o : option A) : list (string * Value) :=
  match o with Some a => [(name, f a)] | None => [] end.
Definition key_summary_json (k : KeySummary) : Value :=
  obj ([("id", Str (KeySummary.id k)); ("team", Str (KeySummary.team k));
        ("app", Str (KeySummary.app k)); ("env", Str (KeySummary.env k));
        ("models", Array (map Str (KeySummary.models k)))]
       ++ opt_field "rate_limit_rps" uint (KeySummary.rate_limit_rps k)
       ++ opt_field "spend_limit" spend_limit_json (KeySummary.spend_limit k)
       ++ opt_field "expires_at" Str (KeySummary.expires_at k)).

Definition link_state_str (s : LinkState) : string :=
  match s with
  | File => "file" | LinkStatus.Pending => "pending" | Synced => "synced" | Degraded => "degraded"
  end.
Definition identity_json (i : Identity) : Value :=
  obj [("gateway_id", Str (Identity.gateway_id i)); ("org_id", Str (Identity.org_id i));
       ("group", opt_str (Identity.group i)); ("environment", Str (Identity.environment i))].
Definition last_error_json (e : LastError) : Value :=
  obj [("resource", Str (Resource.as_str (le_resource e)));
       ("reason", Str (Reason.as_str (le_reason e)));
       ("detail", Str (le_detail e)); ("seconds_ago", uint (le_seconds_ago e))].
Definition snapshot_json (s : Snapshot) : Value :=
  obj ([("state", Str (link_state_str (sn_state s)))]
       ++ opt_field "endpoint" Str (sn_endpoint s)
       ++ opt_field "config_version" Str (sn_config_version s)
       ++ opt_field "keys_version" Str (sn_keys_version s)
       ++ opt_field "identity" identity_json (sn_identity s)
       ++ opt_field "last_success_seconds_ago" uint (sn_last_success_seconds_ago s)
       ++ [("consecutive_failures", uint (sn_consecutive_failures s))]
       ++ opt_field "last_error" last_error_json (sn_last_error s)).

(** [(StatusCode, &str)] and [Json] as responses. *)
Definition text (status : Z) (s : string) : Response :=
  Response.mk status [("content-type", "text/plain; charset=utf-8")] (BFull (as_bytes s)).
Definition no_body (status : Z) : Response := Response.mk status [] (BFull []).

(** ** The state: what the two APIs share is the gateway and the link status. *)
Record AppState `{Reqwest} `{Moka} `{Rustls} := mkAppState {
  started_at : Z;
  ready : bool;
  admin_token : option string;
  config : Config;
  config_path : option string;
  gateway : Gateway;
  control_plane : Inner
}.
Arguments mkAppState {_ _ _}.
Arguments started_at {_ _ _}.
Arguments ready {_ _ _}.
Arguments admin_token {_ _ _}.
Arguments config {_ _ _}.
Arguments config_path {_ _ _}.
Arguments gateway {_ _ _}.
Arguments control_plane {_ _ _}.
Abbreviation App := (M AppState).

Section admin.
Context `{Reqwest} `{Moka} `{Rustls} `{SerdeJson} `{AnthropicSerde} `{BedrockSerde} `{Crypto}
  `{Entropy} `{RegexCrate} `{Wasmtime} `{Env} `{HashOrder} `{TimeCrate} `{Config.Figment}
  `{AdminCrates}.

Definition set_gateway (g : Gateway) (s : AppState) : AppState :=
  mkAppState (started_at s) (ready s) (admin_token s) (config s) (config_path s) g (control_plane s).
Definition set_ready (r : bool) (s : AppState) : AppState :=
  mkAppState (started_at s) r (admin_token s) (config s) (config_path s) (gateway s)
    (control_plane s).
Definition on_gw {A} (c : G A) : App A := zoom gateway set_gateway c.

Definition healthz : App Response := mret (text 200 "ok").
Definition readyz : App Response :=
  r ← gets ready;
  mret (if (r : bool) then text 200 "ready" else text 503 "not ready").

Definition status : App Response :=
  s ← get_state;
  let now := w_now (g_world (gateway s)) in
  mret (json_response 200 (obj
    [("version", Str VERSION);
     ("uptime_seconds", uint (StatusHandle.seconds_since now (started_at s)));
     ("ready", Bool (ready s));
     ("proxy_address", Str (Listen.address (Config.listen (config s))));
     ("admin_address", Str (Listen.admin_address (Config.listen (config s))));
     ("key_count", uint (Z.of_nat (KeyStore.len (g_keys (gateway s)))));
     ("control_plane", snapshot_json (StatusHandle.snapshot now (control_plane s)))])).
Definition metrics : App Response :=
  s ← get_state;
  mret (Response.mk 200 [("content-type", PROMETHEUS_CONTENT_TYPE)]
          (BFull (as_bytes (metrics_render (w_trace (g_world (gateway s))))))).

Definition list_keys : App Response :=
  s ← get_state;
  let data := map (λ k, key_summary_json (KeySummary.from k)) (KeyStore.list (g_keys (gateway s))) in
  mret (json_response 200 (obj [("data", Array data)])).

(** The record a creation stores. *)
Definition new_key (generated : GeneratedKey) (body : CreateKeyRequest) : VirtualKey :=
  VirtualKey.mk (gk_id generated) (gk_hash generated) (CreateKeyRequest.team body)
    (CreateKeyRequest.app body) (CreateKeyRequest.env body) (CreateKeyRequest.models body)
    (CreateKeyRequest.rate_limit_rps body) (CreateKeyRequest.spend_limit body)
    (CreateKeyRequest.expires_at body).
Definition create_key (body : CreateKeyRequest) : App (option Response) :=
  buf ← on_gw (in_world (random_bytes TOKEN_BYTES));
  match generate_key buf with
  | None => mret None
  | Some generated =>
      let key := new_key generated body in
      on_gw (modify (λ g, set_keys (KeyStore.insert key (g_keys g)) g));;
      on_gw (g_audit (audit.key_created ADMIN_ACTOR (VirtualKey.id key) (VirtualKey.team key)
                        (VirtualKey.app key) (VirtualKey.env key)));;
      mret (Some (json_response 201
        (obj [("token", Str (gk_token generated));
              ("key", key_summary_json (KeySummary.from key))])))
  end.

Definition delete_key (id : string) : App Response :=
  s ← get_state;
  let '(removed, keys) := KeyStore.remove_by_id id (g_keys (gateway s)) in
  on_gw (modify (set_keys keys));;
  if (removed : bool) then
    on_gw (modify (λ g, set_limiter (RateLimiter.forget id (g_limiter g)) g));;
    on_gw (modify (λ g, set_spend (SpendTracker.forget id (g_spend g)) g));;
    on_gw (g_audit (audit.key_revoked ADMIN_ACTOR id true));;
    mret (no_body 204)
  else
    on_gw (g_audit (audit.key_revoked ADMIN_ACTOR id false));;
    mret (text 404 "key not found").

Definition list_models : App Response :=
  s ← get_state;
  let data := map (λ m, obj [("id", Str (RegisteredModel.id m));
                             ("provider", Str (RegisteredModel.provider m))])
                (Runtime.models (g_runtime (gateway s))) in
  mret (json_response 200 (obj [("data", Array data)])).

(** The spend and the budget of a key with a limit. *)
Definition spend_fields (tracker : SpendTracker) (now : Z) (key : VirtualKey)
    : list (string * Value) :=
  match VirtualKey.spend_limit key with
  | Some limit =>
      let current := SpendTracker.current_usd tracker (VirtualKey.id key) (period limit) now in
      let remaining := F64.max (F64.sub (amount_usd limit) current) F64.zero in
      [("spend", obj [("usd", Num (Float current)); ("period", Str (period_str (period limit)))]);
       ("limit", obj [("usd", Num (Float (amount_usd limit)));
                      ("period", Str (period_str (period limit)));
                      ("remaining_usd", Num (Float remaining))])]
  | None => []
  end.
Definition key_spend (id : string) : App Response :=
  s ← get_state;
  let g := gateway s in
  mret match KeyStore.find_by_id (g_keys g) id with
       | None => text 404 "key not found"
       | Some key =>
           json_response 200
             (obj ([("key_id", Str (VirtualKey.id key)); ("team", Str (VirtualKey.team key));
                    ("app", Str (VirtualKey.app key)); ("env", Str (VirtualKey.env key))]
                   ++ spend_fields (g_spend g) (w_now (g_world g)) key))
       end.

Definition reload_config : App Response :=
  s ← get_state;
  match config_path s with
  | None =>
      mret (text 503 "config reload requires the gateway to have been started with --config")
  | Some path =>
      r ← on_gw (runtime.reload (Some path));
      match r with
      | Ok _ =>
          on_gw (g_audit (audit.config_reloaded ADMIN_ACTOR Success path));;
          mret (json_response 200 (obj [("status", Str "reloaded"); ("config_path", Str path)]))
      | Err err =>
          on_gw (g_audit (audit.config_reloaded ADMIN_ACTOR Failure (anyhow_chain err)));;
          mret (text 400 (anyhow_chain err))
      end
  end.

(** ** The router *)
Inductive Endpoint :=
| Healthz | Readyz | Status | Metrics | Keys | Key (raw_id : string) | KeySpend (raw_id : string)
| Models | Reload.
(** The [{id}] routes: one non-empty segment, then nothing or [/spend]. *)
Definition key_endpoint (rest : string) : option Endpoint :=
  match split_once "/"%char rest with
  | None => if decide (rest = "") then None else Some (Key rest)
  | Some (id, tail) =>
      if decide (id = "") then None
      else if decide (tail = "spend") then Some (KeySpend id) else None
  end.
Definition endpoint (path : string) : option Endpoint :=
  if decide (path = "/admin/healthz") then Some Healthz
  else if decide (path = "/admin/readyz") then Some Readyz
  else if decide (path = "/admin/status") then Some Status
  else if decide (path = "/admin/metrics") then Some Metrics
  else if decide (path = "/admin/keys") then Some Keys
  else if decide (path = "/admin/models") then Some Models
  else if decide (path = "/admin/config/reload") then Some Reload
  else strip_prefix "/admin/keys/" path ≫= key_endpoint.
Definition is_probe (e : Endpoint) : bool :=
  match e with Healthz | Readyz => true | _ => false end.

(** A [GET] route also answers [HEAD]. *)
Definition is_get (method : string) : bool :=
  bool_decide (method = "GET") || bool_decide (method = "HEAD").
Definition with_segment (raw : string) (k : string → App Response) : App (option Response) :=
  match path_segment raw with
  | Ok id => Some <$> k id
  | Err rejection => mret (Some rejection)
  end.
Definition serve (rq : Request) (e : Endpoint) : App (option Response) :=
  let refused := mret (Some (no_body 405)) in
  let get (h : App Response) := if is_get (rq_method rq) then Some <$> h else refused in
  match e with
  | Healthz => get healthz
  | Readyz => get readyz
  | Status => get status
  | Metrics => get metrics
  | Models => get list_models
  | Keys =>
      if bool_decide (rq_method rq = "POST") then
        match json_create_key (rq_headers rq) (rq_body rq) with
        | Ok body => create_key body
        | Err rejection => mret (Some rejection)
        end
      else get list_keys
  | Key raw =>
      if bool_decide (rq_method rq = "DELETE") then with_segment raw delete_key else refused
  | KeySpend raw => if is_get (rq_method rq) then with_segment raw key_spend else refused
  | Reload => if bool_decide (rq_method rq = "POST") then Some <$> reload_config else refused
  end.

Definition authorized (expected : string) (headers : HeaderMap) : bool :=
  match bearer_token headers with
  | Some token => constant_time_eq (as_bytes token) (as_bytes expected)
  | None => false
  end.
Definition require_admin_token (headers : HeaderMap) (next : App (option Response))
    : App (option Response) :=
  token ← gets admin_token;
  match token with
  | None => next
  | Some expected =>
      if authorized expected headers then next else mret (Some (text 401 "unauthorized"))
  end.
Definition handle (rq : Request) : App (option Response) :=
  match endpoint (rq_path rq) with
  | None => mret (Some (no_body 404))
  | Some e =>
      if is_probe e then serve rq e else require_admin_token (rq_headers rq) (serve rq e)
  end.
End admin.

(** ** Lemmas *)
Section lemmas.
Context `{Reqwest} `{Moka} `{Rustls} `{SerdeJson} `{AnthropicSerde} `{BedrockSerde} `{Crypto}
  `{Entropy} `{RegexCrate} `{Wasmtime} `{Env} `{HashOrder} `{TimeCrate} `{Config.Figment}
  `{AdminCrates}.

Lemma on_gw_eq {A} (c : G A) s : on_gw c s = ((c (gateway s)).1, set_gateway (c (gateway s)).2 s).
Proof. unfold on_gw, zoom. by destruct (c (gateway s)). Qed.

Lemma authorized_spec expected headers :
  authorized expected headers = bool_decide (bearer_token headers = Some expected).
Proof.
  unfold authorized. destruct (bearer_token headers) as [t|]; [|done].
  destruct (constant_time_eq (as_bytes t) (as_bytes expected)) eqn:E; symmetry.
  - apply constant_time_eq_spec in E. apply bool_decide_eq_true. f_equal.
    by apply (inj as_bytes).
  - apply bool_decide_eq_false. intros [= ->].
    assert (constant_time_eq (as_bytes expected) (as_bytes expected) = true)
      by by apply constant_time_eq_spec. congruence.
Qed.

(** Reading endpoints leave everything as it was. *)
Lemma serve_reads rq e s :
  rq_method rq ≠ "POST" → rq_method rq ≠ "DELETE" → (serve rq e s).2 = s.
Proof.
  intros Hp Hd. unfold serve, with_segment. rewrite !bool_decide_eq_false_2 by done.
  destruct e; try (destruct (is_get (rq_method rq)); [|done]); try done.
  unfold key_spend. destruct (path_segment raw_id); done.
Qed.

(** A creation, on the key it draws. *)
Definition drawn (s : AppState) : bytes := getrandom TOKEN_BYTES (w_now (g_world (gateway s))).
Definition audited (e : AuditEvent) (g : Gateway) : Gateway :=
  set_world (mkWorld (w_net (g_world g)) (w_now (g_world g)) (w_trace (g_world g) ++ [EAudit e])) g.
Lemma create_key_eq body s :
  create_key body s =
  match generate_key (drawn s) with
  | None => (None, s)
  | Some gen =>
      let k := new_key gen body in
      (Some (json_response 201 (obj [("token", Str (gk_token gen));
                                     ("key", key_summary_json (KeySummary.from k))])),
       set_gateway
         (audited (audit.key_created ADMIN_ACTOR (gk_id gen) (CreateKeyRequest.team body)
                     (CreateKeyRequest.app body) (CreateKeyRequest.env body))
            (set_keys (KeyStore.insert k (g_keys (gateway s))) (gateway s))) s)
  end.
Proof.
  unfold create_key, random_bytes. steps. rewrite on_gw_eq. unfold in_world, zoom, gets. cbn [fst snd].
  change (getrandom TOKEN_BYTES (w_now (g_world (gateway s)))) with (drawn s).
  assert (set_gateway (set_world (g_world (gateway s)) (gateway s)) s = s) as ->
    by by destruct s as [? ? ? ? ? []].
  by destruct (generate_key (drawn s)).
Qed.

(** A revocation, on the entry it finds. *)
Definition forgotten (id : string) (g : Gateway) : Gateway :=
  set_spend (SpendTracker.forget id (g_spend g))
    (set_limiter (RateLimiter.forget id (g_limiter g)) g).
Lemma delete_key_eq id s :
  delete_key id s =
  match KeyStore.remove_by_id id (g_keys (gateway s)) with
  | (true, keys) =>
      (no_body 204, set_gateway (audited (audit.key_revoked ADMIN_ACTOR id true)
                                   (forgotten id (set_keys keys (gateway s)))) s)
  | (false, keys) =>
      (text 404 "key not found",
       set_gateway (audited (audit.key_revoked ADMIN_ACTOR id false) (set_keys keys (gateway s))) s)
  end.
Proof.
  unfold delete_key, get_state. steps. by destruct (KeyStore.remove_by_id _ _) as [[] ?].
Qed.
End lemmas.

(** ** Properties *)
Section properties.
Context `{Reqwest} `{Moka} `{Rustls} `{SerdeJson} `{AnthropicSerde} `{BedrockSerde} `{Crypto}
  `{Entropy} `{RegexCrate} `{Wasmtime} `{Env} `{HashOrder} `{TimeCrate} `{Config.Figment}
  `{AdminCrates}.

(** C16: The admin token gates the admin API. With a token configured, whatever the
    method, the path and the body are, a request for anything but the two probes
    that does not carry exactly that token is answered 401 with nothing changed,
    not even the audit trail, and one that carries it reaches its handler; an
    unknown path is a 404. The probes answer without a token and change nothing,
    and neither does any request that is not a [POST] or a [DELETE]. *)
Theorem admin_gate rq s expected :
  admin_token s = Some expected →
  match endpoint (rq_path rq) with
  | None => handle rq s = (Some (no_body 404), s)
  | Some e =>
      if is_probe e then (handle rq s).2 = s
      else if decide (bearer_token (rq_headers rq) = Some expected)
      then handle rq s = serve rq e s
      else handle rq s = (Some (text 401 "unauthorized"), s)
  end ∧
  (rq_method rq ≠ "POST" → rq_method rq ≠ "DELETE" → (handle rq s).2 = s).
Proof.
  intros Ht. unfold handle. destruct (endpoint (rq_path rq)) as [e|]; [|done].
  destruct (is_probe e) eqn:Ep.
  { assert ((serve rq e s).2 = s) as Hs; [|done].
    unfold serve. by destruct e, (is_get (rq_method rq)). }
  unfold require_admin_token, gets. rewrite M_bind_eq. unfold eval, exec. cbn [fst snd].
  rewrite Ht, authorized_spec. case_bool_decide as Hb.
  - rewrite decide_True by done. split; [done|]. apply serve_reads.
  - by rewrite decide_False.
Qed.

(** C17: The life of a key. A creation answers 201 with a token that from then on
    authenticates to exactly the record asked for, changes what no other token
    authenticates to, and is audited; revoking it by the identifier answers 204,
    leaves the key store as it was before the creation, forgets the key's rate
    bucket and its recorded spend, and is audited. Neither touches the runtime,
    the caches, the network or the TLS material. *)
Theorem key_lifecycle `{!Base64Laws} body s :
  length (drawn s) = TOKEN_BYTES →
  (∀ gen, generate_key (drawn s) = Some gen →
     g_keys (gateway s) !! gk_hash gen = None ∧
     ∀ h k, g_keys (gateway s) !! h = Some k → VirtualKey.id k ≠ gk_id gen) →
  ∃ gen s1 s2,
    create_key body s =
      (Some (json_response 201 (obj [("token", Str (gk_token gen));
         ("key", key_summary_json (KeySummary.from (new_key gen body)))])), s1) ∧
    KeyStore.authenticate (g_keys (gateway s1)) (gk_token gen) = Some (new_key gen body) ∧
    (∀ t, hash_token t ≠ gk_hash gen →
       KeyStore.authenticate (g_keys (gateway s1)) t = KeyStore.authenticate (g_keys (gateway s)) t) ∧
    delete_key (gk_id gen) s1 = (no_body 204, s2) ∧
    g_keys (gateway s2) = g_keys (gateway s) ∧
    g_limiter (gateway s2) = delete (gk_id gen) (g_limiter (gateway s)) ∧
    g_spend (gateway s2) = delete (gk_id gen) (g_spend (gateway s)) ∧
    g_runtime (gateway s2) = g_runtime (gateway s) ∧ g_caches (gateway s2) = g_caches (gateway s) ∧
    g_tls (gateway s2) = g_tls (gateway s) ∧
    w_trace (g_world (gateway s2)) = w_trace (g_world (gateway s)) ++
      [EAudit (audit.key_created ADMIN_ACTOR (gk_id gen) (CreateKeyRequest.team body)
                 (CreateKeyRequest.app body) (CreateKeyRequest.env body));
       EAudit (audit.key_revoked ADMIN_ACTOR (gk_id gen) true)].
Proof.
  intros Hlen Hfresh. destruct (generate_key_total (drawn s) Hlen) as (gen & Eg & Eh).
  destruct (Hfresh gen Eg) as [Hh Hid]. exists gen. rewrite create_key_eq, Eg. cbv zeta.
  eexists _, _. split; [done|]. rewrite delete_key_eq. cbn [gateway set_gateway audited set_world g_keys set_keys].
  set (k := new_key gen body). set (keys := g_keys (gateway s)) in *.
  assert (KeyStore.remove_by_id (gk_id gen) (KeyStore.insert k keys) = (true, keys)) as ->.
  { apply KeyStore.remove_by_id_sole; [done..|]. intros h' k' Hk. by apply Hid in Hk. }
  split; [unfold KeyStore.authenticate, KeyStore.insert; rewrite Eh; apply lookup_insert_eq|].
  split. { intros t Ht. unfold KeyStore.authenticate, KeyStore.insert. by rewrite lookup_insert_ne. }
  split; [done|]. cbn. rewrite <-app_assoc. by split_and!.
Qed.

(** C36: Revoking the last key opens the proxy. While one key is left, a request
    without its token is refused; the revocation of that key, which the operator
    is told succeeded, turns authentication off: the same request is then let
    through as the anonymous key, which may call every model, at any rate, on no
    budget. *)
Theorem last_key_revoked_opens h k headers s :
  g_keys (gateway s) = {[h := k]} → bearer_token headers = None →
  let '(r, s') := delete_key (VirtualKey.id k) s in
  Response.status r = 204%Z ∧
  (authenticate headers (gateway s)).1 = Err (error 401 "missing or invalid virtual key") ∧
  authenticate headers (gateway s') = (Ok VirtualKey.anonymous, gateway s') ∧
  (∀ model, VirtualKey.allows_model VirtualKey.anonymous model = true) ∧
  VirtualKey.rate_limit_rps VirtualKey.anonymous = None ∧
  VirtualKey.spend_limit VirtualKey.anonymous = None.
Proof.
  intros Hk Hb. rewrite delete_key_eq, Hk.
  assert (KeyStore.remove_by_id (VirtualKey.id k) {[h := k]} = (true, ∅)) as ->.
  { unfold KeyStore.remove_by_id. destruct (find_first _ _) as [[h' k']|] eqn:E.
    - apply find_first_Some in E as [Hin _]. apply elem_of_hm_iter, lookup_singleton_Some in Hin as [<- _].
      f_equal. apply delete_singleton_eq.
    - rewrite find_first_None in E. specialize (E (h, k)).
      rewrite elem_of_hm_iter, lookup_singleton_eq in E. specialize (E eq_refl).
      by apply bool_decide_eq_false in E. }
  split; [done|]. split_and!; [|done..].
  unfold authenticate, present_key, gets. steps. unfold KeyStore.is_empty.
  rewrite Hk, Hb, bool_decide_eq_false_2 by apply insert_non_empty. by steps.
Qed.
End properties.

(** ** Witnesses *)
#[local] Existing Instances sample_reqwest sample_moka sample_rustls sample_anthropic_serde
  sample_crypto sample_wasmtime some_hash_order sample_time.
Definition sample_admin_crates : AdminCrates :=
  {| json_create_key _ _ := Ok CreateKeyRequest.default; path_segment s := Ok s;
     metrics_render _ := "" |}.
#[local] Existing Instances sample_bedrock_serde sample_entropy sample_regex sample_env
  sample_figment sample_admin_crates.
#[local] Instance sample_json : SerdeJson := one_document Null.

(** A state with one key and the admin token [adm]. *)
Definition sample_state : AppState :=
  mkAppState 0 true (Some "adm") Config.default None
    (set_keys {["tok" := sample_key "vp_1" "tok"]} sample_gateway) StatusHandle.file.
Definition rq_delete : Request := mkRequest "DELETE" "/admin/keys/vp_1" [] [].
Lemma admin_gate_witness : handle rq_delete sample_state = (Some (text 401 "unauthorized"), sample_state).
Proof. exact (proj1 (admin_gate rq_delete sample_state "adm" eq_refl)). Defined.

Lemma sample_fresh gen :
  generate_key (drawn sample_state) = Some gen →
  g_keys (gateway sample_state) !! gk_hash gen = None ∧
  ∀ h k, g_keys (gateway sample_state) !! h = Some k → VirtualKey.id k ≠ gk_id gen.
Proof.
  intros Hg. vm_compute in Hg. injection Hg as <-. split; [reflexivity|].
  intros h k Hk. change (({["tok" := sample_key "vp_1" "tok"]} : KeyStore) !! h = Some k) in Hk.
  apply lookup_singleton_Some in Hk as [_ <-]. discriminate.
Qed.
Lemma key_lifecycle_witness :
  ∃ gen s1, create_key CreateKeyRequest.default sample_state =
      (Some (json_response 201 (obj [("token", Str (gk_token gen));
         ("key", key_summary_json (KeySummary.from (new_key gen CreateKeyRequest.default)))])), s1) ∧
    KeyStore.authenticate (g_keys (gateway s1)) (gk_token gen)
      = Some (new_key gen CreateKeyRequest.default).
Proof.
  destruct (@key_lifecycle _ _ _ sample_crypto sample_entropy _ sample_base64_laws
    CreateKeyRequest.default sample_state eq_refl sample_fresh) as (gen & s1 & s2 & E & Ha & _).
  exact (ex_intro _ gen (ex_intro _ s1 (conj E Ha))).
Defined.
Lemma last_key_revoked_opens_witness :
  (authenticate [] (gateway (delete_key "vp_1" sample_state).2)).1 = Ok VirtualKey.anonymous.
Proof.
  exact (f_equal fst (proj1 (proj2 (proj2
    (last_key_revoked_opens "tok" (sample_key "vp_1" "tok") [] sample_state eq_refl eq_refl))))).
Defined.
