(* ===== verification/System.v ===== *)
(** * System: the running gateway ([main.rs])

    Start-up, and the step relation of the process: requests to the two APIs, polls
    of streamed answers, the Control Node loop, the readiness prober, SIGHUP and the
    passing of time, over one shared state. *)

From S2P Require Import Prelude Text Float64 Json Events Auth Limits Plugin Config Provider.
From S2P Require Import OpenAi Anthropic Sse StreamObserver Bedrock Registry Cache Tls Wasm Runtime.
From S2P Require Import Proxy ControlMap LinkStatus ControlNode Admin.
Import Json.

(** [str::parse::<SocketAddr>]. *)
Class Addresses := { parse_addr : string → result string () }.

(** The admin API's state, which holds the gateway and the link status, and the
    Control Node client when one was started: with its base configuration and its
    interval. *)
Record System `{Reqwest} `{Moka} `{Rustls} := mkSystem {
  app : AppState;
  poller : option (ControlNodeClient * Config * Z)
}.
Arguments mkSystem {_ _ _}.
Arguments app {_ _ _}.
Arguments poller {_ _ _}.

Section system.
Context `{Reqwest} `{Moka} `{Rustls} `{SerdeJson} `{AnthropicSerde} `{BedrockSerde} `{Crypto}
  `{Entropy} `{RegexCrate} `{Wasmtime} `{Env} `{HashOrder} `{TimeCrate} `{MetaSerde}
  `{ControlCrates} `{Config.Figment} `{AdminCrates} `{Addresses}.

Definition read_admin_token (config : Config) : option string :=
  let token := runtime.env_or_empty (AuthConfig.admin_token_env (Config.auth config)) in
  if decide (token = "") then None else Some token.

(** ** Start-up *)
(** Nothing reads the runtime before the first one is stored. *)
Definition no_runtime : Runtime :=
  Runtime.mk (mkConnector "" (λ _, mret None) (λ _, mret None) (mret false)) Pricing.default None [] [].
Definition fresh_gateway (config : Config) (w : World) : Gateway :=
  mkGateway w [] (KeyStore.new (AuthConfig.keys (Config.auth config))) ∅ ∅ no_runtime None.
Definition load_tls (config : Config) (now : Z) : result anyhow (option ServerConfig) :=
  match Listen.tls (Config.listen config) with
  | Some t =>
      c ← with_context "failed to load TLS material for the proxy listener"
            (tls.build_rustls_config t now);
      Ok (Some c)
  | None => Ok None
  end.
(** Everything up to serving, which is [Lifecycle]'s. *)
Definition run (config : Config) (config_path : option string) (w : World) : result anyhow System :=
  let listen := Config.listen config in
  _ ← with_context ("invalid proxy listen address: " +:+ Listen.address listen)
        (foreign (parse_addr (Listen.address listen)));
  _ ← with_context ("invalid admin listen address: " +:+ Listen.admin_address listen)
        (foreign (parse_addr (Listen.admin_address listen)));
  let admin_token := read_admin_token config in
  let '(built, g) := runtime.build_runtime config (fresh_gateway config w) in
  initial_runtime ← with_context "failed to build runtime" built;
  let '(link, poller) := start config (w_now (g_world g)) in
  tls ← load_tls config (w_now (g_world g));
  Ok (mkSystem
        (mkAppState (w_now (g_world g)) false admin_token config config_path
           (Runtime.set_tls tls (set_runtime initial_runtime g)) link)
        poller).
Definition main (config_path : option string) (w : World) : result anyhow System :=
  config ← with_context "failed to load configuration"
             (runtime.core (Config.load config_path (w_now w)));
  run config config_path w.

(** ** The background tasks *)
Definition READINESS_PROBE_INTERVAL : Z := 10000000000.
Definition probe_readiness : App () :=
  s ← get_state;
  reachable ← on_gw (in_world (c_reachable (Runtime.connector (g_runtime (gateway s)))));
  modify (Admin.set_ready reachable).

Definition sighup_source (config_path : option string) : string :=
  match config_path with Some p => p | None => "defaults" end.
Definition reload_signal : App () :=
  s ← get_state;
  r ← on_gw (runtime.reload (config_path s));
  on_gw (g_audit match r with
                 | Ok _ => audit.config_reloaded "sighup" Success (sighup_source (config_path s))
                 | Err err => audit.config_reloaded "sighup" Failure (anyhow_chain err)
                 end).

(** One computation of the Control Node client on the shared state. *)
Definition as_node (s : AppState) (c : ControlNodeClient) : Node :=
  mkNode (gateway s) c (control_plane s).
Definition of_node (n : Node) (s : AppState) : AppState :=
  mkAppState (started_at s) (ready s) (admin_token s) (config s) (config_path s)
    (n_gateway n) (n_status n).
Definition on_node (c : Config → N ()) (s : System) : System :=
  match poller s with
  | Some (client, base, interval) =>
      let n := (c base (as_node (app s) client)).2 in
      mkSystem (of_node n (app s)) (Some (n_client n, base, interval))
  | None => s
  end.
Definition on_app {A} (c : App A) (s : System) : System := mkSystem (c (app s)).2 (poller s).

(** A client reads on from a streamed answer. *)
Definition poll_stream (st : UsageObservingStream.UsageObservingStream)
    : G (Poll (option (result string bytes)) * UsageObservingStream.UsageObservingStream) := λ g,
  let '(polled, st, tracker, effects) :=
    UsageObservingStream.poll_next st (w_now (g_world g)) (g_spend g) in
  ((polled, st), (g_emits effects (set_spend tracker g)).2).

(** ** The steps *)
Inductive action :=
| AProxy (rq : Request)
| AStream (st : UsageObservingStream.UsageObservingStream)
| AAdmin (rq : Request)
| AIdentity
| ATick
| AProbe
| ASighup
| AElapse (nanos : Z).
Definition act (a : action) (s : System) : System :=
  match a with
  | AProxy rq => on_app (on_gw (Proxy.handle rq)) s
  | AStream st => on_app (on_gw (poll_stream st)) s
  | AAdmin rq => on_app (Admin.handle rq) s
  | AIdentity => on_node (λ _, log_identity) s
  | ATick => on_node tick s
  | AProbe => on_app probe_readiness s
  | ASighup => on_app reload_signal s
  | AElapse nanos => on_app (on_gw (in_world (elapse nanos))) s
  end.
Inductive step : System → System → Prop :=
| step_act a s : step s (act a s).
End system.
