(* ===== verification/SystemInvariants.v ===== *)
(** * SystemInvariants: what holds of the gateway in every reachable state *)

From S2P Require Import Prelude Text Float64 Json Events Auth Limits Plugin Config Provider.
From S2P Require Import OpenAi Anthropic Sse StreamObserver Bedrock Registry Cache Tls Wasm Runtime.
From S2P Require Import Connectors Proxy ControlMap LinkStatus ControlNode Admin System.
Import Json.

(** ** Lemmas: the trace, the cache heap and the TLS slot only grow *)
Section grows.
Context `{Reqwest} `{Moka} `{Rustls}.

Record grows (g g' : Gateway) : Prop := {
  grows_caches : length (g_caches g) ≤ length (g_caches g');
  grows_trace : w_trace (g_world g) `prefix_of` w_trace (g_world g');
  grows_tls : is_Some (g_tls g') ↔ is_Some (g_tls g);
  grows_now : (w_now (g_world g) ≤ w_now (g_world g'))%Z
}.
#[export] Instance grows_preorder : PreOrder grows.
Proof.
  split.
  - by intros g.
  - intros a b c [] []. constructor; by etrans.
Qed.
Definition Grows {A} (c : G A) : Prop := ∀ g, grows g (c g).2.

Lemma Grows_ret {A} (a : A) : Grows (mret a).
Proof. intros g. reflexivity. Qed.
Lemma Grows_gets {A} (f : Gateway → A) : Grows (gets f).
Proof. intros g. reflexivity. Qed.
Lemma Grows_bind {A B} (c : G A) (k : A → G B) : Grows c → (∀ a, Grows (k a)) → Grows (c ≫= k).
Proof. intros Hc Hk g. rewrite M_bind_eq. unfold eval, exec. etrans; [apply Hc|apply Hk]. Qed.
Lemma Grows_fmap {A B} (f : A → B) (c : G A) : Grows c → Grows (f <$> c).
Proof. intros Hc g. specialize (Hc g). unfold fmap, M_fmap. by destruct (c g). Qed.
Lemma Grows_world {A} (c : W A) : OnlyFailovers c → Grows (in_world c).
Proof.
  intros Hc g. destruct (Hc (g_world g)) as (L & evs & E & _). unfold in_world, zoom.
  destruct (c (g_world g)) as [a w]. constructor; cbn in *; [done|rewrite E; by apply prefix_app_r|done|done].
Qed.
Lemma Grows_emit e : Grows (g_emit e).
Proof. intros g. constructor; cbn; [done|by apply prefix_app_r|done|done]. Qed.
Lemma Grows_emits es : Grows (g_emits es).
Proof. induction es as [|e es IH]; [apply Grows_ret|]. apply Grows_bind; [apply Grows_emit|done]. Qed.
(** Storing keys, spend, buckets or a runtime. *)
Lemma Grows_modify (f : Gateway → Gateway) :
  (∀ g, g_caches (f g) = g_caches g ∧ g_world (f g) = g_world g ∧ g_tls (f g) = g_tls g) →
  Grows (modify f).
Proof. intros Hf g. destruct (Hf g) as (E1 & E2 & E3). constructor; cbn; by rewrite ?E1, ?E2, ?E3. Qed.
Lemma Grows_cache_get h k : Grows (cache_get h k).
Proof.
  intros g. unfold cache_get. case_match; [|reflexivity]. destruct (ResponseCache.get _ _ _).
  constructor; cbn; [by rewrite length_insert|done..].
Qed.
Lemma Grows_cache_insert h k v : Grows (cache_insert h k v).
Proof.
  intros g. unfold cache_insert. case_match; [|reflexivity].
  constructor; cbn; [by rewrite length_insert|done..].
Qed.
Lemma Grows_new_cache m t : Grows (new_cache m t).
Proof. intros g. constructor; cbn; [rewrite length_app; lia|done..]. Qed.
Lemma Grows_try {E A B} (r : result E A) (k : A → G (result E B)) : (∀ a, Grows (k a)) → Grows (try_ r k).
Proof. destruct r; cbn; [auto|]. intros _. apply Grows_ret. Qed.
Lemma Grows_try_m {E A B} (c : G (result E A)) (k : A → G (result E B)) :
  Grows c → (∀ a, Grows (k a)) → Grows (try_m c k).
Proof. intros Hc Hk. apply Grows_bind; [done|]. intros r. by apply Grows_try. Qed.
End grows.

Create HintDb grows discriminated.
#[export] Hint Resolve Grows_ret Grows_gets Grows_emit Grows_emits Grows_cache_get
  Grows_cache_insert Grows_new_cache : grows.
Ltac grows :=
  repeat (intros; first
    [ progress eauto with grows | apply Grows_try_m | apply Grows_try | apply Grows_bind
    | apply Grows_fmap | (apply Grows_modify; by intros) | case_match ]).

Section handlers.
Context `{Reqwest} `{Moka} `{Rustls} `{SerdeJson} `{Crypto} `{TimeCrate} `{HashOrder} `{MetaSerde}.

Lemma within_rate_grows key : Grows (within_rate key).
Proof. intros g. unfold within_rate. case_match; [|reflexivity]. case_match. by constructor. Qed.
#[local] Hint Resolve within_rate_grows : grows.
Lemma authenticate_grows headers : Grows (authenticate headers).
Proof. unfold authenticate, present_key, record_rejection, g_now. grows. Qed.
Lemma elapsed_ms_grows start : Grows (elapsed_ms start).
Proof. unfold elapsed_ms, g_now. grows. Qed.
Lemma elapsed_secs_grows start : Grows (elapsed_secs start).
Proof. unfold elapsed_secs, g_now. grows. Qed.
#[local] Hint Resolve elapsed_ms_grows elapsed_secs_grows : grows.
Lemma refuse_grows {A} reason status start es r : Grows (refuse (A:=A) reason status start es r).
Proof. unfold refuse, record_rejection, span. grows. Qed.
#[local] Hint Resolve refuse_grows : grows.
Lemma guards_grows plugins key path vm body start : Grows (guards plugins key path vm body start).
Proof. unfold guards, check_model, check_budget, inspect, g_now. grows. Qed.
#[local] Hint Resolve guards_grows : grows.
Lemma guarded_grows plugins key path vm headers body start forward :
  (∀ b, Grows (forward b)) → Grows (guarded plugins key path vm headers body start forward).
Proof. unfold guarded, open_span. grows. Qed.
Lemma serve_from_cache_grows pricing cached start : Grows (serve_from_cache pricing cached start).
Proof. unfold serve_from_cache, span. grows. Qed.
Lemma charge_grows key cost : Grows (charge key cost).
Proof. unfold charge, g_now. grows. Qed.
#[local] Hint Resolve serve_from_cache_grows charge_grows : grows.
Lemma account_grows pricing key tokens up ms start : Grows (account pricing key tokens up ms start).
Proof. unfold account, span. grows. Qed.
#[local] Hint Resolve account_grows : grows.
Lemma answer_grows rt key tokens relay ck start ms r : Grows (answer rt key tokens relay ck start ms r).
Proof. unfold answer, store_and_respond, upstream_failed, span, record_rejection. grows. Qed.
#[local] Hint Resolve answer_grows : grows.
Lemma dispatch_grows rt key tokens relay ck start call :
  OnlyFailovers call → Grows (dispatch rt key tokens relay ck start call).
Proof. intros Hc. unfold dispatch, look_up. pose proof (Grows_world _ Hc). grows. Qed.

Lemma route_grows rq key g :
  LawfulConnector (Runtime.connector (g_runtime g)) → grows g (route rq key g).2.
Proof.
  intros [Hc He _].
  assert (∀ (c : G (option Response)), Grows c → grows g (c g).2) as Hr by (intros c Hc'; apply Hc').
  unfold route. repeat case_decide; try (apply Hr; unfold list_models; by grows).
  - unfold chat_completions, g_now, gets. cbv zeta. steps. apply guarded_grows. intros b.
    by apply dispatch_grows.
  - unfold embeddings, g_now, gets. cbv zeta. steps. apply guarded_grows. intros b.
    by apply dispatch_grows.
Qed.
Lemma handle_grows rq g :
  LawfulConnector (Runtime.connector (g_runtime g)) → grows g (Proxy.handle rq g).2.
Proof.
  intros Hl. unfold Proxy.handle. steps. pose proof (authenticate_grows (rq_headers rq) g) as Ha.
  pose proof (authenticate_still (rq_headers rq) g) as Hs.
  destruct (authenticate (rq_headers rq) g) as [[key|r] g1]; cbn [fst snd] in *; [|done].
  etrans; [exact Ha|]. apply route_grows. by rewrite (still_runtime _ _ Hs).
Qed.
End handlers.

Section runtime.
Context `{Reqwest} `{Moka} `{Rustls} `{SerdeJson} `{AnthropicSerde} `{BedrockSerde} `{Crypto}
  `{Entropy} `{RegexCrate} `{Wasmtime} `{Env} `{HashOrder}.
Import runtime.

Lemma load_grows n src budget mode : Grows (in_world (WasmPlugin.load n src budget mode)).
Proof.
  intros g. pose proof (load_world n src budget mode (g_world g)) as (_ & L & E). unfold in_world, zoom.
  destruct (WasmPlugin.load n src budget mode (g_world g)) as [r w]. constructor; cbn in *; by rewrite ?E.
Qed.
#[local] Hint Resolve load_grows : grows.
Lemma build_plugins_grows ps : Grows (build_plugins ps).
Proof.
  induction ps as [|p ps IH]; cbn [build_plugins]; [apply Grows_ret|].
  apply Grows_try_m; [|grows]. unfold build_plugin, g_audit. grows.
Qed.
Lemma build_runtime_grows config : Grows (build_runtime config).
Proof. unfold build_runtime, build_cache. pose proof build_plugins_grows. grows. Qed.

(** The handle of a built runtime's cache is on the heap. *)
Lemma build_runtime_cache config g r g' h :
  build_runtime config g = (Ok r, g') → Runtime.cache r = Some h → h < length (g_caches g').
Proof.
  unfold build_runtime. destruct (build_registry config) as [reg|]; cbn [try_]; [|done].
  rewrite M_bind_eq. unfold eval, exec.
  assert (∀ x, (build_cache (Config.cache config) g).1 = Some x →
    x < length (g_caches (build_cache (Config.cache config) g).2)) as Hc.
  { unfold build_cache. destruct (CacheConfig.enabled _); [|done].
    unfold fmap, M_fmap, new_cache. cbn [fst snd g_caches set_caches]. intros x [= <-].
    rewrite length_app. cbn. lia. }
  destruct (build_cache _ g) as [c g1]. cbn [fst snd] in *. unfold try_m.
  rewrite M_bind_eq. unfold eval, exec. pose proof (build_plugins_grows (Config.plugins config) g1) as Hg.
  destruct (build_plugins _ g1) as [[es|e] g2]; cbn [fst snd try_] in *; [|done].
  intros [= <- <-]. cbn. intros ->. destruct Hg as [Hl _ _ _]. specialize (Hc _ eq_refl). lia.
Qed.

Context `{Config.Figment}.
(** What a reload leaves in the gateway: the old runtime, or a new one whose cache
    is on the heap. *)
Lemma reload_runtime path g :
  let g' := (reload path g).2 in
  grows g g' ∧
  (g_runtime g' = g_runtime g ∨
   ((∃ cfg, built_from cfg (g_runtime g')) ∧
    ∀ h, Runtime.cache (g_runtime g') = Some h → h < length (g_caches g'))).
Proof.
  unfold reload. cbv zeta. rewrite M_bind_eq. unfold g_now, gets, eval, exec. cbn [fst snd].
  destruct (Config.load path _) as [config|e]; cbn [core map_err with_context try_]; [|by split; [|left]].
  rewrite M_bind_eq. unfold eval, exec.
  pose proof (build_runtime_grows config g) as Hg. pose proof (build_runtime_frame config g) as Hf.
  destruct (build_runtime config g) as [[rt|e] g1] eqn:Eb; cbn [fst snd with_context map_err try_] in *;
    [|split; [done|left; by destruct Hf]].
  pose proof (λ h, build_runtime_cache _ _ _ _ h Eb) as Hc. apply build_runtime_built in Eb.
  unfold try_m. rewrite M_bind_eq. unfold eval, exec.
  destruct (reload_tls config g1) as [r2 g2] eqn:Et.
  apply reload_tls_frame in Et as (_ & _ & _ & E4 & E5 & E6 & E8 & _). cbn [fst snd].
  assert (grows g g2) as Hg2.
  { etrans; [exact Hg|]. constructor; [by rewrite E5|by rewrite E6|done|by rewrite E6]. }
  destruct r2 as [u|e]; cbn [try_].
  - steps. split; [by destruct Hg2|]. right. cbn. rewrite E5. split; [by exists config|]. apply Hc.
  - split; [done|]. left. cbn. rewrite E4. by destruct Hf.
Qed.
End runtime.

(** ** The invariant *)
Section invariant.
Context `{Reqwest} `{Moka} `{Rustls} `{SerdeJson} `{AnthropicSerde} `{BedrockSerde} `{Crypto}
  `{Entropy} `{RegexCrate} `{Wasmtime} `{Env} `{HashOrder} `{TimeCrate} `{MetaSerde}
  `{ControlCrates} `{Config.Figment} `{AdminCrates} `{Addresses}.

(** A runtime the gateway can serve from: built from some configuration, with its
    cache on the heap. *)
Record runtime_ok (g : Gateway) : Prop := {
  ok_built : ∃ cfg, built_from cfg (g_runtime g);
  ok_cache h : Runtime.cache (g_runtime g) = Some h → h < length (g_caches g)
}.
Record gateway_ok (g : Gateway) : Prop := {
  ok_runtime : runtime_ok g;
  ok_keys : KeyStore.wf (g_keys g)
}.
(** What holds of a running gateway, relative to how it was started: its static
    settings are those of the start, TLS is on exactly when the configuration says
    so, a Control Node client runs only in api mode, and file mode never reports
    anything else. *)
Record system_ok (config0 : Config) (path : option string) (s : System) : Prop := {
  ok_gateway : gateway_ok (gateway (app s));
  ok_config : Admin.config (app s) = config0;
  ok_path : config_path (app s) = path;
  ok_token : admin_token (app s) = read_admin_token config0;
  ok_tls : is_Some (g_tls (gateway (app s))) ↔ is_Some (Listen.tls (Config.listen config0));
  ok_client : is_Some (poller s) → ControlPlane.mode (Config.control_plane config0) = ControlPlane.Api;
  ok_link : LinkStatus.state (control_plane (app s)) = File ↔
    ControlPlane.mode (Config.control_plane config0) = ControlPlane.File
}.

(** A step of the gateway alone: it grows, keeps the store well-formed, and keeps
    the runtime or stores a good one. *)
Record advances (g g' : Gateway) : Prop := {
  adv_grows : grows g g';
  adv_runtime : g_runtime g' = g_runtime g ∨ runtime_ok g';
  adv_keys : KeyStore.wf (g_keys g) → KeyStore.wf (g_keys g')
}.
Lemma advances_ok g g' : advances g g' → gateway_ok g → gateway_ok g'.
Proof.
  intros [[Hc _ _ _] Hr Hk] [[Hb Hh] Hwf]. split; [|by apply Hk].
  destruct Hr as [Hr|Hr]; [|done]. split; rewrite Hr; [done|]. intros h Hl. specialize (Hh h Hl). lia.
Qed.
Lemma advances_same g g' :
  grows g g' → g_runtime g' = g_runtime g → g_keys g' = g_keys g → advances g g'.
Proof. intros Hg Hr Hk. split; [done|by left|by rewrite Hk]. Qed.

Lemma ok_lawful g : gateway_ok g → LawfulConnector (Runtime.connector (g_runtime g)).
Proof. intros [[[cfg Hb] _] _]. by eapply built_lawful. Qed.

Lemma proxy_advances rq g : gateway_ok g → advances g (Proxy.handle rq g).2.
Proof.
  intros Hok. destruct (handle_keeps rq g) as (E1 & E2 & _).
  apply advances_same; [apply handle_grows; by apply ok_lawful|done|done].
Qed.
Lemma emits_keeps es (g : Gateway) :
  g_keys (g_emits es g).2 = g_keys g ∧ g_runtime (g_emits es g).2 = g_runtime g ∧
  g_tls (g_emits es g).2 = g_tls g.
Proof. by destruct (Still_emits es g). Qed.
Lemma stream_keeps st g : keeps g (poll_stream st g).2.
Proof.
  unfold poll_stream. destruct (UsageObservingStream.poll_next _ _ _) as [[[r st'] tracker] es].
  exact (emits_keeps es (set_spend tracker g)).
Qed.
Lemma stream_grows st g : grows g (poll_stream st g).2.
Proof.
  unfold poll_stream. destruct (UsageObservingStream.poll_next _ _ _) as [[[r st'] tracker] es].
  etrans; [|apply Grows_emits]. by constructor.
Qed.
Lemma stream_advances st g : advances g (poll_stream st g).2.
Proof. destruct (stream_keeps st g) as (? & ? & ?). apply advances_same; [apply stream_grows|done..]. Qed.
Lemma reload_advances path g : advances g (runtime.reload path g).2.
Proof.
  destruct (reload_runtime path g) as [Hg Hr]. pose proof (reload_spec path g) as Hs.
  destruct (runtime.reload path g) as [r g']. destruct Hs as (Hk & _). cbn [snd] in *.
  split; [done| |by rewrite Hk]. destruct Hr as [?|[? ?]]; [by left|right]. by split.
Qed.
Lemma advances_trans a b c : gateway_ok a → advances a b → (gateway_ok b → advances b c) → advances a c.
Proof.
  intros Hok Hab Hbc. specialize (Hbc (advances_ok _ _ Hab Hok)).
  destruct (advances_ok _ _ Hab Hok) as [Hrb _]. destruct Hab as [G1 R1 K1], Hbc as [G2 R2 K2].
  split; [by etrans| |auto]. destruct R2 as [R2|R2]; [|by right].
  destruct R1 as [R1|R1]; [left; congruence|]. right. destruct G2 as [Gl _ _ _], R1 as [Rb Rc].
  split; rewrite R2; [done|]. intros h Hl. specialize (Rc h Hl). lia.
Qed.
Lemma audit_advances e (g : Gateway) : advances g (g_audit e g).2.
Proof. apply advances_same; [apply Grows_emit|done|done]. Qed.

(** The Control Node client on the shared gateway. *)
Definition NAdvances {A} (c : N A) : Prop := ∀ n,
  gateway_ok (n_gateway n) → advances (n_gateway n) (n_gateway (c n).2).
Lemma advances_refl g : advances g g.
Proof. by apply advances_same. Qed.
Lemma NAdvances_ret {A} (a : A) : NAdvances (mret a).
Proof. intros n _. apply advances_refl. Qed.
Lemma NAdvances_gets {A} (f : Node → A) : NAdvances (gets f).
Proof. intros n _. apply advances_refl. Qed.
Lemma NAdvances_bind {A B} (c : N A) (k : A → N B) :
  NAdvances c → (∀ a, NAdvances (k a)) → NAdvances (c ≫= k).
Proof.
  intros Hc Hk n Hok. rewrite M_bind_eq. unfold eval, exec.
  eapply advances_trans; [done|by apply Hc|]. intros Hok'. by apply Hk.
Qed.
Lemma NAdvances_on_gateway {A} (c : G A) :
  (∀ g, gateway_ok g → advances g (c g).2) → NAdvances (on_gateway c).
Proof. intros Hc n Hok. rewrite on_gateway_eq. by apply Hc. Qed.
Lemma NAdvances_on_world {A} (c : W A) : Silent c → NAdvances (on_world c).
Proof.
  intros Hc. apply NAdvances_on_gateway. intros g _.
  apply advances_same; [by apply Grows_world, Silent_failovers| |];
    unfold in_world, zoom; by destruct (c (g_world g)).
Qed.
Lemma NAdvances_audit e : NAdvances (on_gateway (g_audit e)).
Proof. apply NAdvances_on_gateway. intros g _. apply audit_advances. Qed.
Lemma NAdvances_client f : NAdvances (set_client f).
Proof. intros n _. apply advances_refl. Qed.
Lemma NAdvances_status f : NAdvances (set_status f).
Proof. intros n _. apply advances_refl. Qed.
Lemma NAdvances_try_m {A E B} (c : N (result E A)) (k : A → N (result E B)) :
  NAdvances c → (∀ a, NAdvances (k a)) → NAdvances (try_m c k).
Proof.
  intros Hc Hk. apply NAdvances_bind; [done|]. intros [a|e]; [apply Hk|apply NAdvances_ret].
Qed.
Lemma response_json_silent {T} (de : bytes → result string T) r : Silent (response_json de r).
Proof. unfold response_json. silent. Qed.
Ltac nadvances :=
  repeat (intros; first
    [ apply NAdvances_ret | apply NAdvances_gets | apply NAdvances_audit | apply NAdvances_client
    | apply NAdvances_status | (apply NAdvances_on_world; first [apply Silent_send | apply response_json_silent])
    | apply NAdvances_try_m | apply NAdvances_bind | case_match ]).

Lemma fetch_advances {T} r (de : bytes → result string T) : NAdvances (fetch r de).
Proof. unfold fetch. nadvances. Qed.
Lemma apply_bundle_advances base bundle etag : NAdvances (apply_bundle base bundle etag).
Proof.
  intros n Hok. unfold apply_bundle. steps. rewrite on_gateway_eq.
  set (cfg := map.apply_config base bundle).
  pose proof (build_runtime_frame cfg (n_gateway n)) as Hf.
  pose proof (build_runtime_grows cfg (n_gateway n)) as Hg.
  destruct (runtime.build_runtime cfg (n_gateway n)) as [[rt|e] g1] eqn:Eb; cbn [fst snd] in *; steps.
  - pose proof (λ h, build_runtime_cache _ _ _ _ h Eb) as Hc. apply build_runtime_built in Eb.
    eapply (advances_trans _ (set_runtime rt g1)); [done| |intros _; apply audit_advances].
    destruct Hf as [frame_keys], Hg. split; [by split|right|cbn; by rewrite frame_keys]. split; [by exists cfg|]. exact Hc.
  - eapply (advances_trans _ g1); [done| |intros _; apply audit_advances]. destruct Hf.
    by apply advances_same.
Qed.
Lemma poll_keys_advances : NAdvances poll_keys.
Proof.
  unfold poll_keys. apply NAdvances_try_m; [apply fetch_advances|]. intros [set etag|]; [|nadvances].
  apply NAdvances_bind; [|nadvances]. apply NAdvances_on_gateway. intros g Hok.
  split; [by split|by left|]. intros _. apply KeyStore.new_wf.
Qed.
Lemma tick_advances base : NAdvances (tick base).
Proof.
  unfold tick. apply NAdvances_bind.
  { apply NAdvances_try_m; [apply fetch_advances|]. intros [b e|]; [apply apply_bundle_advances|nadvances]. }
  intros rc. apply NAdvances_bind; [apply poll_keys_advances|]. intros rk.
  apply NAdvances_bind; [|intros t; unfold audit_transition; nadvances].
  intros n _. unfold record_tick. destruct (StatusHandle.record_tick _ _ _ _). apply advances_refl.
Qed.
Lemma log_identity_advances : NAdvances log_identity.
Proof. unfold log_identity. nadvances. Qed.

(** The admin API changes the gateway alone. *)
Lemma admin_advances rq s :
  gateway_ok (gateway s) →
  ∃ g', (Admin.handle rq s).2 = set_gateway g' s ∧ advances (gateway s) g'.
Proof.
  intros Hok.
  assert (∃ g', s = set_gateway g' s ∧ advances (gateway s) g') as Hsame
    by (exists (gateway s); split; [by destruct s|apply advances_refl]).
  assert (∀ e, ∃ g', (serve rq e s).2 = set_gateway g' s ∧ advances (gateway s) g') as Hserve.
  2:{ unfold Admin.handle. destruct (endpoint _) as [e|]; [|done]. destruct (is_probe e); [done|].
      unfold require_admin_token, gets. steps. repeat case_match; done. }
  intros e. unfold serve, with_segment. destruct e; try (by case_match); repeat case_match; try done.
  - (* create_key *)
    rewrite create_key_eq. case_match; [|done]. eexists. split; [done|].
    split; [constructor; cbn; [done|by apply prefix_app_r|done|done]|by left|].
    cbn. intros Hwf. by apply (KeyStore.step_wf (g_keys (gateway s))), Hwf; constructor.
  - (* delete_key *)
    rename a into id. unfold fmap, M_fmap. rewrite delete_key_eq.
    pose proof (KeyStore.step_wf _ _ (KeyStore.step_remove id (g_keys (gateway s)))) as Hk.
    destruct (KeyStore.remove_by_id id (g_keys (gateway s))) as [[] keys]; cbn [fst snd] in *;
      (eexists; split; [done|]); (split; [|by left|done]);
      (constructor; cbn; [done|by apply prefix_app_r|done|done]).
  - (* reload *) 
    unfold fmap, M_fmap, reload_config, get_state. steps.
    destruct (config_path s) as [path|]; [|done]. steps. rewrite on_gw_eq. cbn [fst snd].
    pose proof (reload_advances (Some path) (gateway s)) as Hr.
    destruct (runtime.reload (Some path) (gateway s)) as [[u|e] g1]; cbn [fst snd] in *; steps;
      rewrite on_gw_eq; cbn [fst snd]; (eexists; split; [done|]);
      (eapply advances_trans; [done|exact Hr|intros _; apply audit_advances]).
Qed.

(** ** Every action keeps the invariant *)
Lemma on_gw_ok cfg path {A} (c : G A) s :
  advances (gateway (app s)) (c (gateway (app s))).2 →
  system_ok cfg path s → system_ok cfg path (on_app (on_gw c) s).
Proof.
  intros Ha [Hg H1' H2' H3' Ht H4' H5']. unfold on_app. rewrite on_gw_eq. cbn [snd].
  split; cbn; try done; [by eapply advances_ok|]. destruct Ha as [[_ _ -> _] _ _]. done.
Qed.
(** The link of a client is never in file mode. *)
Definition NLink (c : N ()) : Prop := ∀ n,
  LinkStatus.state (n_status n) ≠ File → LinkStatus.state (n_status (c n).2) ≠ File.
Lemma on_node_ok cfg path (c : Config → N ()) s :
  (∀ base, NAdvances (c base)) → (∀ base, NLink (c base)) →
  system_ok cfg path s → system_ok cfg path (on_node c s).
Proof.
  intros Ha Hl Hs. unfold on_node. destruct (poller s) as [[[client base] interval]|] eqn:Ep; [|done].
  destruct Hs as [Hg H1' H2' H3' Ht H4' H5'].
  assert (ControlPlane.mode (Config.control_plane cfg) = ControlPlane.Api) as Hm by (apply H4'; by rewrite Ep).
  specialize (Ha base (as_node (app s) client) Hg).
  split; cbn; try done.
  - by eapply advances_ok.
  - destruct Ha as [[_ _ -> _] _ _]. done.
  - rewrite Hm in *. split; [|done]. intros Hf. exfalso. revert Hf. apply (Hl base). cbn.
    intros Hf. by apply H5' in Hf.
Qed.
Lemma tick_link base : NLink (tick base).
Proof.
  intros n _. pose proof (tick_spec base n) as Ht. destruct (poll_config base n) as [rc n1].
  destruct (poll_keys n1) as [rk n2]. destruct Ht as (_ & _ & _ & _ & _ & _ & _ & ->).
  unfold StatusHandle.record_tick. by case_match.
Qed.
Lemma log_identity_spec n :
  let n' := (log_identity n).2 in
  LinkStatus.state (n_status n') = LinkStatus.state (n_status n) ∧
  g_spend (n_gateway n') = g_spend (n_gateway n) ∧
  g_limiter (n_gateway n') = g_limiter (n_gateway n) ∧ keeps (n_gateway n) (n_gateway n').
Proof.
  cbv zeta. unfold log_identity, gets. steps.
  set (c := on_world _). pose proof (Quiet_on_world (http_send
    (get_request (ControlNodeClient.token (n_client n)) (ControlNodeClient.identity_url (n_client n)) None)) n) as Hq.
  fold c in Hq. destruct (c n) as [[resp|e] n1]; cbn [fst snd] in *;
    [|destruct Hq; unfold keeps; split_and!; cbn; congruence].
  case_match; [|destruct Hq; unfold keeps; split_and!; cbn; congruence]. steps.
  pose proof (Quiet_on_world (response_json de_identity resp) n1) as Hq2.
  destruct (on_world (response_json de_identity resp) n1) as [[id|e] n2]; cbn [fst snd] in *;
    destruct Hq, Hq2; unfold keeps; split_and!; cbn; congruence.
Qed.
Lemma log_identity_link : NLink log_identity.
Proof. intros n Hn. by destruct (log_identity_spec n) as [-> _]. Qed.
Lemma probe_eq s :
  probe_readiness s = ((), Admin.set_ready
    (in_world (c_reachable (Runtime.connector (g_runtime (gateway s)))) (gateway s)).1
    (set_gateway (in_world (c_reachable (Runtime.connector (g_runtime (gateway s)))) (gateway s)).2 s)).
Proof. unfold probe_readiness, get_state. steps. by rewrite on_gw_eq. Qed.
Lemma in_world_advances {A} (c : W A) g : OnlyFailovers c → advances g (in_world c g).2.
Proof.
  intros Hc. apply advances_same; [by apply Grows_world| |]; unfold in_world, zoom; by destruct (c _).
Qed.
Lemma reload_signal_eq s :
  reload_signal s = ((), set_gateway (g_audit
    match (runtime.reload (config_path s) (gateway s)).1 with
    | Ok _ => audit.config_reloaded "sighup" Success (sighup_source (config_path s))
    | Err err => audit.config_reloaded "sighup" Failure (anyhow_chain err)
    end (runtime.reload (config_path s) (gateway s)).2).2 s).
Proof. unfold reload_signal, get_state. steps. by rewrite !on_gw_eq. Qed.

Lemma act_ok cfg path a s : system_ok cfg path s → system_ok cfg path (act a s).
Proof.
  intros Hs. pose proof (ok_gateway _ _ _ Hs) as Hg. destruct a as [rq|st|rq| | | | |nanos]; cbn [act].
  - by apply on_gw_ok; [apply proxy_advances|].
  - by apply on_gw_ok; [apply stream_advances|].
  - destruct (admin_advances rq (app s) Hg) as (g' & E & Ha).
    destruct Hs as [_ H1' H2' H3' Ht H4' H5']. unfold on_app. rewrite E.
    split; cbn; try done; [by eapply advances_ok|]. by destruct Ha as [[_ _ -> _] _ _].
  - by apply on_node_ok; [intros; apply log_identity_advances|intros; apply log_identity_link|].
  - by apply on_node_ok; [intros; apply tick_advances|intros; apply tick_link|].
  - unfold on_app. rewrite probe_eq. destruct Hs as [_ H1' H2' H3' Ht H4' H5'].
    pose proof (in_world_advances (c_reachable (Runtime.connector (g_runtime (gateway (app s))))) (gateway (app s))) as Ha.
    destruct Ha as [Ha1 Ha2 Ha3]; [by apply Silent_failovers, ok_lawful|].
    split; cbn; try done; [eapply advances_ok; [by split|done]|]. by destruct Ha1 as [_ _ -> _].
  - unfold on_app. rewrite reload_signal_eq. destruct Hs as [_ H1' H2' H3' Ht H4' H5'].
    set (e := match _ with Ok _ => _ | Err _ => _ end).
    assert (advances (gateway (app s)) (g_audit e (runtime.reload (config_path (app s)) (gateway (app s))).2).2)
      as Ha by (eapply advances_trans; [done|apply reload_advances|intros _; apply audit_advances]).
    split; cbn [snd app gateway set_gateway Admin.config config_path admin_token control_plane poller];
      try done; [by eapply advances_ok|]. by destruct Ha as [[_ _ -> _] _ _].
  - apply on_gw_ok; [|done]. by apply in_world_advances, Silent_failovers, Silent_elapse.
Qed.

(** ** The start *)
Lemma start_ok config now link p :
  start config now = (link, p) →
  (is_Some p → ControlPlane.mode (Config.control_plane config) = ControlPlane.Api) ∧
  (LinkStatus.state link = File ↔ ControlPlane.mode (Config.control_plane config) = ControlPlane.File).
Proof.
  unfold start. destruct (ControlPlane.mode _); [intros [= <- <-]; split; [by intros []|done]|].
  repeat case_match; intros [= <- <-]; (split; [done|]); done.
Qed.
(** What a successful start went through. *)
Lemma run_inv config path w s :
  run config path w = Ok s →
  ∃ rt g link p tls, runtime.build_runtime config (fresh_gateway config w) = (Ok rt, g) ∧
    start config (w_now (g_world g)) = (link, p) ∧ load_tls config (w_now (g_world g)) = Ok tls ∧
    s = mkSystem (mkAppState (w_now (g_world g)) false (read_admin_token config) config path
                    (Runtime.set_tls tls (set_runtime rt g)) link) p.
Proof.
  unfold run. destruct (with_context _ (foreign (parse_addr (Listen.address _)))); cbn [mbind result_bind]; [|done].
  destruct (with_context _ (foreign (parse_addr (Listen.admin_address _)))); cbn [mbind result_bind]; [|done].
  destruct (runtime.build_runtime config (fresh_gateway config w)) as [[rt|e] g];
    cbn [with_context map_err mbind result_bind]; [|done].
  destruct (start config _) as [link p] eqn:Es. destruct (load_tls config _) as [tls|] eqn:Et; cbn [mbind result_bind]; [|done].
  intros [= <-]. by exists rt, g, link, p, tls.
Qed.
Lemma run_frame config path w s :
  run config path w = Ok s → ∃ rt g tls, frame (fresh_gateway config w) g ∧
    gateway (app s) = Runtime.set_tls tls (set_runtime rt g).
Proof.
  intros (rt & g & link & p & tls & Hb & _ & _ & ->)%run_inv. exists rt, g, tls. split; [|done].
  pose proof (build_runtime_frame config (fresh_gateway config w)) as Hf. by rewrite Hb in Hf.
Qed.
Lemma run_ok config path w s : run config path w = Ok s → system_ok config path s.
Proof.
  intros (rt & g & link & p & tls & Eb & Es & Et & ->)%run_inv.
  pose proof (build_runtime_frame config (fresh_gateway config w)) as Hf. rewrite Eb in Hf.
  pose proof (λ h, build_runtime_cache _ _ _ _ h Eb) as Hc. apply build_runtime_built in Eb.
  apply start_ok in Es as [Hp Hl]. destruct Hf as [Ek _ _ _ _ _ _]. cbn [snd] in *. revert Et. unfold load_tls.
  destruct (Listen.tls (Config.listen config)) as [t|] eqn:Et.
  - destruct (with_context _ (tls.build_rustls_config t _)); cbn [mbind result_bind]; [|done].
    intros [= <-]. split; cbn; try done. split; [split; [by exists config|exact Hc]|].
    cbn. rewrite Ek. apply KeyStore.new_wf.
  - intros [= <-]. split; cbn; try done; [|by rewrite Et].
    split; [split; [by exists config|exact Hc]|]. cbn. rewrite Ek. apply KeyStore.new_wf.
Qed.
Lemma reachable_ok config path w s s' :
  run config path w = Ok s → rtc step s s' → system_ok config path s'.
Proof.
  intros Hs%run_ok. apply rtc_invariant; [|done]. intros s1 s2 []. apply act_ok.
Qed.
End invariant.

(** ** Every action extends the audit trail *)
Section trail.
Context `{Reqwest} `{Moka} `{Rustls} `{SerdeJson} `{AnthropicSerde} `{BedrockSerde} `{Crypto}
  `{Entropy} `{RegexCrate} `{Wasmtime} `{Env} `{HashOrder} `{TimeCrate} `{MetaSerde}
  `{ControlCrates} `{Config.Figment} `{AdminCrates} `{Addresses}.

Definition system_trace (s : System) : list Effect := w_trace (g_world (gateway (app s))).
Lemma act_advances cfg path a s :
  system_ok cfg path s → advances (gateway (app s)) (gateway (app (act a s))).
Proof.
  intros Hs. pose proof (ok_gateway _ _ _ Hs) as Hg.
  assert (∀ (c : Config → N ()), (∀ base, NAdvances (c base)) →
    advances (gateway (app s)) (gateway (app (on_node c s)))) as Hn.
  { intros c Hc. unfold on_node. destruct (poller s) as [[[client base] interval]|]; [|apply advances_refl].
    apply (Hc base (as_node (app s) client) Hg). }
  destruct a as [rq|st|rq| | | | |nanos]; cbn [act]; unfold on_app.
  - rewrite on_gw_eq. by apply proxy_advances.
  - rewrite on_gw_eq. by apply stream_advances.
  - destruct (admin_advances rq (app s) Hg) as (g' & -> & Ha). exact Ha.
  - apply Hn. intros. apply log_identity_advances.
  - apply Hn. apply tick_advances.
  - rewrite probe_eq. by apply in_world_advances, Silent_failovers, ok_lawful.
  - rewrite reload_signal_eq.
    eapply advances_trans; [done|apply reload_advances|intros _; apply audit_advances].
  - rewrite on_gw_eq. by apply in_world_advances, Silent_failovers, Silent_elapse.
Qed.
End trail.

(** ** Lemmas: who may change the policy *)
Section authority.
Context `{Reqwest} `{Moka} `{Rustls} `{SerdeJson} `{AnthropicSerde} `{BedrockSerde} `{Crypto}
  `{Entropy} `{RegexCrate} `{Wasmtime} `{Env} `{HashOrder} `{TimeCrate} `{MetaSerde}
  `{ControlCrates} `{Config.Figment} `{AdminCrates} `{Addresses}.

(** The request carries the admin token, when there is one. *)
Definition operator (rq : Request) (s : AppState) : Prop :=
  ∀ t, admin_token s = Some t → bearer_token (rq_headers rq) = Some t.
Definition manages_keys (rq : Request) : Prop :=
  (rq_method rq = "POST" ∧ endpoint (rq_path rq) = Some Keys) ∨
  (rq_method rq = "DELETE" ∧ ∃ id, endpoint (rq_path rq) = Some (Key id)).
Definition asks_reload (rq : Request) : Prop :=
  rq_method rq = "POST" ∧ endpoint (rq_path rq) = Some Reload.
(** What a request to the admin API may change in the gateway. *)
Inductive admin_change (rq : Request) (s : AppState) (g' : Gateway) : Prop :=
| change_none : keeps (gateway s) g' → admin_change rq s g'
| change_keys : operator rq s → manages_keys rq → g_runtime g' = g_runtime (gateway s) →
    g_tls g' = g_tls (gateway s) → admin_change rq s g'
| change_runtime : operator rq s → asks_reload rq → g_keys g' = g_keys (gateway s) →
    admin_change rq s g'.

Lemma reload_config_keys s : g_keys (gateway (reload_config s).2) = g_keys (gateway s).
Proof.
  unfold reload_config, get_state. steps. destruct (config_path s) as [path|]; [|done].
  steps. rewrite on_gw_eq. cbn [fst snd]. pose proof (reload_spec (Some path) (gateway s)) as Hr.
  destruct (runtime.reload (Some path) (gateway s)) as [[u|e] g1]; destruct Hr as (Hk & _);
    cbn [fst snd]; steps; by rewrite on_gw_eq.
Qed.
Lemma admin_handle_change rq s : admin_change rq s (gateway (Admin.handle rq s).2).
Proof.
  unfold Admin.handle. destruct (endpoint (rq_path rq)) as [e|] eqn:Ee; [|by apply change_none].
  destruct (is_probe e) eqn:Ep.
  { apply change_none. unfold serve. by destruct e, (is_get (rq_method rq)). }
  unfold require_admin_token, gets. steps.
  destruct (admin_token s) as [t|] eqn:Et; [rewrite authorized_spec; case_bool_decide as Hb|];
    [| by apply change_none|].
  all: assert (operator rq s) as Ho by (unfold operator; congruence).
  all: unfold serve, with_segment; destruct e; try done; repeat case_match; try by apply change_none.
  all: repeat match goal with E : bool_decide _ = true |- _ => apply bool_decide_eq_true in E end.
  all: try (apply change_keys; [done|by left| |]; rewrite create_key_eq; by case_match).
  all: try (apply change_keys; [done|right; by eauto| |]; unfold fmap, M_fmap; rewrite delete_key_eq;
    by destruct (KeyStore.remove_by_id _ _) as [[] ?]).
  all: apply change_runtime; [done|done|]; unfold fmap, M_fmap;
    pose proof (reload_config_keys s) as Hk; by destruct (reload_config s).
Qed.
End authority.

(** ** Properties *)
Section properties.
Context `{Reqwest} `{Moka} `{Rustls} `{SerdeJson} `{AnthropicSerde} `{BedrockSerde} `{Crypto}
  `{Entropy} `{RegexCrate} `{Wasmtime} `{Env} `{HashOrder} `{TimeCrate} `{MetaSerde}
  `{ControlCrates} `{Config.Figment} `{AdminCrates} `{Addresses}.

(** The invariant of the process. From a successful start, after any sequence
    of proxy requests, admin requests, polls of streamed answers, Control Node
    polls, readiness probes, SIGHUPs and delays: the runtime is one built from some
    configuration in full, and the cache it names exists; every virtual key is
    filed under its own hash; TLS is on exactly when the start configured it; the
    admin token, the configuration and the reload path are those of the start; and
    the link is in file mode exactly when the configuration is, with no Control
    Node client. *)
Theorem process_invariant config path w s s' :
  run config path w = Ok s → rtc step s s' → system_ok config path s'.
Proof. apply reachable_ok. Qed.

(** The audit trail is append-only: whatever a running gateway does, every
    event it has emitted, audit events and metrics alike, stays in the trace, in
    place and in order. *)
Theorem audit_trail_append_only config path w s s1 s2 :
  run config path w = Ok s → rtc step s s1 → rtc step s1 s2 →
  system_trace s1 `prefix_of` system_trace s2.
Proof.
  intros Hr Hs1 Hs2. pose proof (reachable_ok _ _ _ _ _ Hr Hs1) as Hok. clear Hr Hs1.
  induction Hs2 as [s1|s1 s2 s3 [a] _ IH]; [done|].
  etrans; [|apply IH; by apply act_ok]. by destruct (act_advances _ _ a _ Hok) as [[_ ? _ _] _ _].
Qed.

(** Every chat or embeddings request a running gateway answers is counted
    exactly once, in one of the two request metrics, as a rejection or as a
    completed request, whatever configuration it runs and whatever happened before:
    refused by the middleware, the model scope, the budget or a plugin, served from
    the cache, answered or failed by a provider, with or without failovers. *)
Theorem every_request_counted_once config path w s s' rq vm :
  run config path w = Ok s → rtc step s s' → requested rq = Some vm →
  (Proxy.handle rq (gateway (app s'))).1 ≠ None →
  tally (system_trace (act (AProxy rq) s')) = tally (system_trace s') + 1.
Proof.
  intros Hr Hs Hq Hn. pose proof (reachable_ok _ _ _ _ _ Hr Hs) as Hok.
  cbn [act]. unfold on_app, system_trace. rewrite on_gw_eq. cbn [snd app gateway set_gateway].
  apply (handle_counted _ _ vm); [done| |done].
  destruct (ok_lawful _ (ok_gateway _ _ _ Hok)) as [Hc He _].
  split; intros q w'; [destruct (Hc q w') as (_ & evs & E & _)|destruct (He q w') as (_ & evs & E & _)];
    rewrite E, tally_app, tally_audits; lia.
Qed.

(** What one action of the process may change of the policy, and on whose authority. *)
Lemma act_changes a s :
  let g := gateway (app s) in
  let g' := gateway (app (act a s)) in
  (g_keys g' = g_keys g ∨ (a = ATick ∧ is_Some (poller s)) ∨
   ∃ rq, a = AAdmin rq ∧ operator rq (app s) ∧ manages_keys rq) ∧
  (g_runtime g' = g_runtime g ∨ (a = ATick ∧ is_Some (poller s)) ∨ a = ASighup ∨
   ∃ rq, a = AAdmin rq ∧ operator rq (app s) ∧ asks_reload rq) ∧
  (g_tls g' = g_tls g ∨ a = ASighup ∨ ∃ rq, a = AAdmin rq ∧ operator rq (app s) ∧ asks_reload rq).
Proof.
  cbv zeta. destruct a as [rq|st|rq| | | | |nanos]; cbn [act]; unfold on_app; rewrite ?on_gw_eq.
  - cbn. destruct (handle_keeps rq (gateway (app s))) as (-> & -> & ->). by split_and!; left.
  - destruct (stream_keeps st (gateway (app s))) as (E1 & E2 & E3). by split_and!; left.
  - destruct (admin_handle_change rq (app s)) as [(? & ? & ?)|? ? ? ?|? ? ?]; cbn [app];
      split_and!; first [by left | by right; right; eauto | by right; right; right; eauto | by right; right; eauto].
  - unfold on_node. destruct (poller s) as [[[client base] interval]|]; [|by split_and!; left].
    cbn. destruct (log_identity_spec (as_node (app s) client)) as (_ & _ & _ & -> & -> & ->). by split_and!; left.
  - unfold on_node. destruct (poller s) as [[[client base] interval]|]; [|by split_and!; left].
    cbn. pose proof (tick_spec base (as_node (app s) client)) as Ht.
    destruct (poll_config base _) as [rc n1], (poll_keys n1) as [rk n2].
    destruct Ht as ((_ & _ & _ & Ht & _) & _).
    split_and!; [right; left; by eauto|right; left; by eauto|by left].
  - rewrite probe_eq. cbn. unfold in_world, zoom. destruct (c_reachable _ _). by split_and!; left.
  - rewrite reload_signal_eq. cbn.
    pose proof (reload_spec (config_path (app s)) (gateway (app s))) as Hr.
    destruct (runtime.reload _ _) as [r g1]. destruct Hr as (Hk & _).
    split_and!; [by left|right; right; by left|right; by left].
  - cbn. by split_and!; left.
Qed.
End properties.

(** ** Witnesses: a gateway started on the default configuration *)
#[local] Existing Instances ok_reqwest sample_moka sample_rustls no_usage_serde sample_bedrock_serde
  sample_crypto sample_entropy sample_regex sample_wasmtime sample_env some_hash_order sample_time
  sample_meta sample_figment sample_admin_crates.
#[local] Instance no_json : SerdeJson := one_document Null.
Definition offline_control : ControlCrates :=
  {| de_config _ := Err "offline"; de_keys _ := Err "offline"; de_identity _ := Err "offline";
     status_display _ := "" |}.
Definition any_address : Addresses := {| parse_addr _ := Ok () |}.
#[local] Existing Instances offline_control any_address.
Definition first_world : World := mkWorld (tt : @Net ok_reqwest) 0 [].
Lemma started :
  ∃ s, run Config.default None first_world = Ok s ∧
    (Proxy.handle sample_rq (gateway (app s))).1 ≠ None.
Proof.
  assert (match run Config.default None first_world with
          | Ok s => match (Proxy.handle sample_rq (gateway (app s))).1 with Some _ => true | None => false end
          | Err _ => false
          end = true) as Hr by (vm_compute; reflexivity).
  destruct (run Config.default None first_world) as [s|e]; [|done]. exists s. split; [done|].
  by destruct (Proxy.handle sample_rq (gateway (app s))) as [[r|] g].
Qed.

Lemma process_invariant_witness :
  ∃ s, run Config.default None first_world = Ok s ∧
    system_ok Config.default None (act ASighup (act (AProxy sample_rq) s)).
Proof.
  destruct started as (s & Hs & _). exists s. split; [exact Hs|].
  apply (process_invariant Config.default None first_world s); [exact Hs|].
  eapply rtc_l; [constructor|]. apply rtc_once. constructor.
Defined.
Lemma audit_trail_append_only_witness :
  ∃ s, run Config.default None first_world = Ok s ∧
    system_trace s `prefix_of` system_trace (act ASighup (act (AProxy sample_rq) s)).
Proof.
  destruct started as (s & Hs & _). exists s. split; [exact Hs|].
  apply (audit_trail_append_only Config.default None first_world s); [exact Hs|apply rtc_refl|].
  eapply rtc_l; [constructor|]. apply rtc_once. constructor.
Defined.
Lemma every_request_counted_once_witness :
  ∃ s, run Config.default None first_world = Ok s ∧
    tally (system_trace (act (AProxy sample_rq) s)) = tally (system_trace s) + 1.
Proof.
  destruct started as (s & Hs & Hn). exists s. split; [exact Hs|].
  apply (every_request_counted_once Config.default None first_world s s sample_rq "gpt-4o");
    [exact Hs|apply rtc_refl|reflexivity|exact Hn].
Defined.
