(* ===== verification/Metering.v ===== *)
(** * Metering: nothing but a request to the proxy is counted as one

    The background tasks, the admin API and the polls of streamed answers leave the
    two request metrics alone. *)

From S2P Require Import Prelude Text Float64 Json Events Auth Limits Plugin Config Provider.
From S2P Require Import OpenAi Anthropic Sse StreamObserver Bedrock Registry Cache Tls Wasm Runtime.
From S2P Require Import Connectors Proxy ControlMap LinkStatus ControlNode Admin System.
From S2P Require Import SystemInvariants.
Import Json.

Section metering.
Context `{Reqwest} `{Moka} `{Rustls} `{SerdeJson} `{AnthropicSerde} `{BedrockSerde} `{Crypto}
  `{Entropy} `{RegexCrate} `{Wasmtime} `{Env} `{HashOrder} `{TimeCrate} `{MetaSerde}
  `{ControlCrates} `{Config.Figment} `{AdminCrates} `{Addresses}.

Lemma failovers_unmetered {A} (c : W A) : OnlyFailovers c → unmetered c.
Proof. intros Hc w. destruct (Hc w) as (_ & evs & E & _). rewrite E, tally_app, tally_audits. lia. Qed.
Lemma load_adds n src budget mode : Adds 0 (in_world (WasmPlugin.load n src budget mode)).
Proof.
  apply in_world_adds. intros w. by destruct (load_world n src budget mode w) as (_ & _ & ->).
Qed.
Lemma modify_adds (f : Gateway → Gateway) : (∀ g, g_world (f g) = g_world g) → Adds 0 (modify f).
Proof. intros Hf g. unfold modify, gw_tally. cbn. rewrite Hf. lia. Qed.
Lemma new_cache_adds m t : Adds 0 (new_cache m t).
Proof. intros g. unfold new_cache, gw_tally. cbn. lia. Qed.
Lemma reload_tls_adds config : Adds 0 (runtime.reload_tls config).
Proof.
  intros g. unfold runtime.reload_tls, gw_tally. repeat case_match; cbn; try lia.
Qed.
Lemma audit_adds e : Adds 0 (g_audit e).
Proof. apply Adds_emit_eq. by destruct e. Qed.
#[local] Hint Resolve load_adds new_cache_adds reload_tls_adds audit_adds : still.
Lemma try_adds {E A B} (r : result E A) (k : A → G (result E B)) :
  (∀ a, Adds 0 (k a)) → Adds 0 (try_ r k).
Proof. destruct r; cbn; [auto|]. intros _. apply Adds_ret. Qed.
Lemma try_m_adds {E A B} (c : G (result E A)) (k : A → G (result E B)) :
  Adds 0 c → (∀ a, Adds 0 (k a)) → Adds 0 (try_m c k).
Proof. intros Hc Hk. apply Adds_bind_l; [done|]. intros r. by apply try_adds. Qed.
(** Computations that count nothing, piece by piece. *)
Ltac uncounted :=
  repeat (intros; first
    [ progress eauto with still | apply try_adds | apply try_m_adds | apply Adds_bind_l
    | apply Adds_fmap | (apply modify_adds; done) | case_match ]).
Lemma build_plugins_adds ps : Adds 0 (runtime.build_plugins ps).
Proof.
  induction ps as [|p ps IH]; cbn [runtime.build_plugins]; [apply Adds_ret|].
  apply try_m_adds; [|uncounted]. unfold runtime.build_plugin. uncounted.
Qed.
#[local] Hint Resolve build_plugins_adds : still.
Lemma build_runtime_adds config : Adds 0 (runtime.build_runtime config).
Proof. unfold runtime.build_runtime, runtime.build_cache. uncounted. Qed.
#[local] Hint Resolve build_runtime_adds : still.
Lemma reload_adds path : Adds 0 (runtime.reload path).
Proof. unfold runtime.reload, g_now. uncounted. Qed.

(** The Control Node client. *)
Definition Uncounted {A} (c : N A) : Prop :=
  ∀ n, gw_tally (n_gateway (c n).2) = gw_tally (n_gateway n).
Lemma Uncounted_ret {A} (a : A) : Uncounted (mret a).
Proof. done. Qed.
Lemma Uncounted_gets {A} (f : Node → A) : Uncounted (gets f).
Proof. done. Qed.
Lemma Uncounted_bind {A B} (c : N A) (k : A → N B) :
  Uncounted c → (∀ a, Uncounted (k a)) → Uncounted (c ≫= k).
Proof. intros Hc Hk n. rewrite M_bind_eq. unfold eval, exec. by rewrite Hk, Hc. Qed.
Lemma Uncounted_on_gateway {A} (c : G A) : Adds 0 c → Uncounted (on_gateway c).
Proof. intros Hc n. rewrite on_gateway_eq. cbn. by rewrite Hc, Nat.add_0_r. Qed.
Lemma Uncounted_on_world {A} (c : W A) : Silent c → Uncounted (on_world c).
Proof. intros Hc. by apply Uncounted_on_gateway, in_world_adds, failovers_unmetered, Silent_failovers. Qed.
Lemma Uncounted_client f : Uncounted (set_client f).
Proof. done. Qed.
Lemma Uncounted_status f : Uncounted (set_status f).
Proof. done. Qed.
Lemma Uncounted_record rc rk : Uncounted (record_tick rc rk).
Proof. intros n. unfold record_tick. by destruct (StatusHandle.record_tick _ _ _ _). Qed.
Ltac nuncounted :=
  repeat (intros; first
    [ apply Uncounted_ret | apply Uncounted_gets | apply Uncounted_client | apply Uncounted_status
    | apply Uncounted_record
    | (apply Uncounted_on_world; first [apply Silent_send | apply response_json_silent])
    | (apply Uncounted_on_gateway; solve [auto with still | by apply modify_adds])
    | apply Uncounted_bind | case_match ]).
Lemma fetch_uncounted {T} r (de : bytes → result string T) : Uncounted (fetch r de).
Proof. unfold fetch. nuncounted. Qed.
Lemma tick_uncounted base : Uncounted (tick base).
Proof.
  pose proof (@fetch_uncounted) as Hf.
  unfold tick, poll_config, poll_keys, try_m, try_, apply_bundle, audit_transition.
  apply Uncounted_bind; [apply Uncounted_bind; [apply Hf|nuncounted]|]. intros rc.
  apply Uncounted_bind; [apply Uncounted_bind; [apply Hf|nuncounted]|]. nuncounted.
Qed.
Lemma log_identity_uncounted : Uncounted log_identity.
Proof. unfold log_identity. nuncounted. Qed.

(** The admin API, and the polls of a stream. *)
Lemma audited_tally e g : gw_tally (audited e g) = gw_tally g.
Proof. unfold gw_tally, audited. cbn [g_world set_world w_trace]. rewrite tally_app. by rewrite Nat.add_0_r. Qed.
Lemma admin_tally rq s : gw_tally (gateway (Admin.handle rq s).2) = gw_tally (gateway s).
Proof.
  assert (∀ e, gw_tally (gateway (serve rq e s).2) = gw_tally (gateway s)) as Hs.
  2:{ unfold Admin.handle. destruct (endpoint _) as [e|]; [|done]. destruct (is_probe e); [done|].
      unfold require_admin_token, gets. steps. repeat case_match; done. }
  intros e. unfold serve, with_segment. destruct e; try (by case_match); repeat case_match; try done.
  - rewrite create_key_eq. case_match; [|done]. cbn [snd gateway set_gateway]. by rewrite audited_tally.
  - unfold fmap, M_fmap. rewrite delete_key_eq.
    destruct (KeyStore.remove_by_id _ _) as [[] keys]; cbn [snd gateway set_gateway]; by rewrite audited_tally.
  - unfold fmap, M_fmap, reload_config, get_state. steps.
    destruct (config_path s) as [path|]; [|done]. steps. rewrite on_gw_eq. cbn [fst snd].
    pose proof (reload_adds (Some path) (gateway s)) as Hr. rewrite Nat.add_0_r in Hr.
    destruct (runtime.reload (Some path) (gateway s)) as [[u|e] g1]; cbn [fst snd] in *; steps;
      rewrite on_gw_eq; cbn [mret M_ret fst snd gateway set_gateway]; by rewrite audit_adds, Nat.add_0_r.
Qed.
Lemma poll_stream_adds st : Adds 0 (poll_stream st).
Proof.
  intros g. unfold poll_stream, UsageObservingStream.poll_next.
  destruct (poll_body _) as [polled i].
  assert (∀ tr es, tally es = 0 → gw_tally (g_emits es (set_spend tr g)).2 = gw_tally g + 0) as He.
  { intros tr es Ht. by rewrite (Adds_emits_eq 0 es Ht). }
  repeat case_match; simplify_eq; try (by apply He).
  apply He. unfold UsageObservingStream.observe in *. repeat case_match; by simplify_eq.
Qed.

(** Whatever the process does but answer the proxy's requests. *)
Lemma act_tally cfg path a s :
  system_ok cfg path s → (∀ rq, a ≠ AProxy rq) → tally (system_trace (act a s)) = tally (system_trace s).
Proof.
  intros Hs Ha. pose proof (ok_gateway _ _ _ Hs) as Hg. unfold system_trace.
  change (gw_tally (gateway (app (act a s))) = gw_tally (gateway (app s))).
  assert (∀ (c : Config → N ()), (∀ base, Uncounted (c base)) →
    gw_tally (gateway (app (on_node c s))) = gw_tally (gateway (app s))) as Hn.
  { intros c Hc. unfold on_node. destruct (poller s) as [[[client base] interval]|]; [|done].
    apply (Hc base (as_node (app s) client)). }
  assert (∀ {A} (c : G A), Adds 0 c →
    gw_tally (gateway (app (on_app (on_gw c) s))) = gw_tally (gateway (app s))) as Hga.
  { intros A c Hc. unfold on_app. rewrite on_gw_eq. cbn. by rewrite Hc, Nat.add_0_r. }
  destruct a as [rq|st|rq| | | | |nanos]; cbn [act].
  - by destruct (Ha rq).
  - apply Hga, poll_stream_adds.
  - unfold on_app. cbn. apply admin_tally.
  - apply Hn. intros _. apply log_identity_uncounted.
  - apply Hn, tick_uncounted.
  - unfold on_app. rewrite probe_eq. cbn. rewrite in_world_adds; [lia|].
    by apply failovers_unmetered, Silent_failovers, ok_lawful.
  - unfold on_app. rewrite reload_signal_eq. cbn [snd app gateway set_gateway].
    rewrite audit_adds, reload_adds. lia.
  - apply Hga, in_world_adds. by intros w.
Qed.
End metering.
