(* ===== verification/Inflight.v ===== *)
(** * Inflight: a request between its awaits ([proxy.rs])

    The proxy's handlers cut where they yield: after the middleware, before the
    cache, around the upstream call, and before a drained body is stored. The
    segments run one after another are [Proxy.handle]; what others do in between is
    the subject of [Concurrency]. *)

From S2P Require Import Prelude Text Float64 Json Events Auth Limits Plugin Config Provider.
From S2P Require Import Anthropic Sse StreamObserver Cache Tls Runtime Proxy.
Import Json.

(** What an admitted request holds on to: the runtime it loaded at its start, its
    key, and the call it will make. *)
Record Pending `{Reqwest} := mkPending {
  p_runtime : Runtime;
  p_key : VirtualKey;
  p_tokens : Usage → list Effect;
  p_relay : ChatResponse → Body;
  p_cache_key : option string;
  p_start : Z;
  p_call : W (option (result Error.Error ChatResponse))
}.
Arguments mkPending {_}.
Arguments p_runtime {_}.
Arguments p_key {_}.
Arguments p_tokens {_}.
Arguments p_relay {_}.
Arguments p_cache_key {_}.
Arguments p_start {_}.
Arguments p_call {_}.

(** Where a request is: arrived; authenticated, its body still to come; cleared by
    the guards; missed in the cache; answered by the upstream; drained, its answer
    to be stored. *)
Inductive Stage `{Reqwest} :=
| Arrived (rq : Request)
| Authenticated (rq : Request) (key : VirtualKey)
| Cleared (p : Pending)
| Missed (p : Pending)
| Answered (p : Pending) (answer : result Error.Error ChatResponse)
| Drained (h : nat) (key_str : string) (upstream : ChatResponse).

Section inflight.
Context `{Reqwest} `{Moka} `{Rustls} `{SerdeJson} `{Crypto} `{TimeCrate} `{HashOrder} `{MetaSerde}.

(** A segment ends with the response ([None] is a panic) or at the next await. *)
Abbreviation Next := (option Response + Stage)%type.
Definition reply (r : Response) : G Next := mret (inl (Some r)).
Definition stay (st : Stage) : G Next := mret (inr st).

Definition chat_pending (runtime : Runtime) (key : VirtualKey) (stream : bool)
    (virtual_model : string) (idempotency_key : option string) (start : Z) (body : bytes) : Pending :=
  mkPending runtime key chat_tokens (chat_relay (Runtime.pricing runtime) key stream)
    (if stream then None
     else Some (cache_key_for (VirtualKey.identifier key) virtual_model idempotency_key body))
    start (c_chat (Runtime.connector runtime) (ChatRequest.mk virtual_model stream body)).
Definition embeddings_pending (runtime : Runtime) (key : VirtualKey) (virtual_model : string)
    (idempotency_key : option string) (start : Z) (body : bytes) : Pending :=
  mkPending runtime key embeddings_tokens embeddings_relay
    (Some (cache_key_for (VirtualKey.identifier key) virtual_model idempotency_key body))
    start (c_embeddings (Runtime.connector runtime) (EmbeddingsRequest.mk virtual_model body)).

(** From the top of a handler to the cache. *)
Definition clear (plugins : PluginChain) (key : VirtualKey) (path virtual_model : string)
    (headers : HeaderMap) (body : bytes) (start : Z) (pending : bytes → Pending) : G Next :=
  open_span key virtual_model headers;;
  passed ← guards plugins key path virtual_model body start;
  match passed with
  | Err response => reply response
  | Ok body => stay (Cleared (pending body))
  end.
Definition begin_chat (key : VirtualKey) (headers : HeaderMap) (body : bytes) : G Next :=
  start ← g_now;
  let stream := ChatMeta.stream (chat_meta body) in
  let virtual_model := chat_model body in
  let idempotency_key := header_str headers IDEMPOTENCY_HEADER in
  runtime ← gets g_runtime;
  clear (Runtime.plugins runtime) key "/v1/chat/completions" virtual_model headers body start
    (chat_pending runtime key stream virtual_model idempotency_key start).
Definition begin_embeddings (key : VirtualKey) (headers : HeaderMap) (body : bytes) : G Next :=
  start ← g_now;
  let virtual_model := embeddings_model body in
  let idempotency_key := header_str headers IDEMPOTENCY_HEADER in
  runtime ← gets g_runtime;
  clear (Runtime.plugins runtime) key "/v1/embeddings" virtual_model headers body start
    (embeddings_pending runtime key virtual_model idempotency_key start).
Definition begin (rq : Request) (key : VirtualKey) : G Next :=
  if decide (rq_path rq = "/v1/chat/completions" ∧ rq_method rq = "POST") then
    begin_chat key (rq_headers rq) (rq_body rq)
  else if decide (rq_path rq = "/v1/embeddings" ∧ rq_method rq = "POST") then
    begin_embeddings key (rq_headers rq) (rq_body rq)
  else inl <$> route rq key.

(** From the upstream's answer to the response, or to the cache. *)
Definition settle (p : Pending) (answer : result Error.Error ChatResponse) (duration_ms : Z) : G Next :=
  match answer with
  | Ok upstream =>
      account (Runtime.pricing (p_runtime p)) (p_key p) (p_tokens p) upstream duration_ms (p_start p);;
      let passed :=
        build_response (ChatResponse.status upstream) (ChatResponse.content_type upstream)
          (p_relay p upstream) "MISS" in
      match p_cache_key p, Runtime.cache (p_runtime p) with
      | Some key_str, Some h =>
          if (ChatResponse.status upstream =? 200)%Z then stay (Drained h key_str upstream)
          else reply passed
      | _, _ => reply passed
      end
  | Err err => response ← upstream_failed err duration_ms; reply response
  end.

(** One segment. *)
Definition resume (st : Stage) : G Next :=
  match st with
  | Arrived rq =>
      authenticated ← authenticate (rq_headers rq);
      match authenticated with
      | Err response => reply response
      | Ok key => stay (Authenticated rq key)
      end
  | Authenticated rq key => begin rq key
  | Cleared p =>
      cached ← look_up (Runtime.cache (p_runtime p)) (p_cache_key p);
      match cached with
      | Some cached =>
          response ← serve_from_cache (Runtime.pricing (p_runtime p)) cached (p_start p);
          reply response
      | None => stay (Missed p)
      end
  | Missed p =>
      answer ← in_world (p_call p);
      match answer with
      | Some answer => stay (Answered p answer)
      | None => mret (inl None)
      end
  | Answered p answer =>
      duration_ms ← elapsed_ms (p_start p);
      settle p answer duration_ms
  | Drained h key_str upstream =>
      response ← store_and_respond h key_str upstream;
      reply response
  end.

(** Segments in a row, with what others do to the gateway before each. *)
Fixpoint resumes (others : list (Gateway → Gateway)) (st : Stage) : G Next :=
  match others with
  | [] => stay st
  | other :: others =>
      modify other;;
      next ← resume st;
      match next with
      | inl response => mret (inl response)
      | inr st => resumes others st
      end
  end.

(** How many segments a request has left at most. *)
Definition left (st : Stage) : nat :=
  match st with
  | Arrived _ => 6 | Authenticated _ _ => 5 | Cleared _ => 4 | Missed _ => 3
  | Answered _ _ => 2 | Drained _ _ _ => 1
  end.
Definition MAX_SEGMENTS : nat := 6.
End inflight.
Abbreviation Next := (option Response + Stage)%type.

(** ** Lemmas: what a segment leaves alone *)

(** A part of the gateway that neither the trace nor the caches belong to. *)
Class Unlogged `{Reqwest} `{Moka} `{Rustls} {X} (part : Gateway → X) : Prop := {
  unlogged_emit e : Fixes part (g_emit e);
  unlogged_caches c g : part (set_caches c g) = part g
}.
#[export] Instance unlogged_spend `{Reqwest} `{Moka} `{Rustls} : Unlogged g_spend.
Proof. by split. Qed.
#[export] Instance unlogged_limiter `{Reqwest} `{Moka} `{Rustls} : Unlogged g_limiter.
Proof. by split. Qed.
Definition g_net `{Reqwest} `{Moka} `{Rustls} (g : Gateway) : Net := w_net (g_world g).
#[export] Instance unlogged_net `{Reqwest} `{Moka} `{Rustls} : Unlogged g_net.
Proof. by split. Qed.

Section unlogged.
Context `{Reqwest} `{Moka} `{Rustls} `{SerdeJson} `{Crypto} `{TimeCrate} `{HashOrder} `{MetaSerde}
  {X : Type} (part : Gateway → X) `{!Unlogged part}.

Lemma Fixes_emit e : Fixes part (g_emit e).
Proof. apply unlogged_emit. Qed.
Lemma Fixes_emits es : Fixes part (g_emits es).
Proof. induction es as [|e es IH]; [done|]. by apply Fixes_bind; [apply Fixes_emit|]. Qed.
Lemma Fixes_cache_get h k : Fixes part (cache_get h k).
Proof.
  intros g. unfold cache_get. case_match; [|done]. destruct (ResponseCache.get _ _ _). apply unlogged_caches.
Qed.
Lemma Fixes_cache_insert h k v : Fixes part (cache_insert h k v).
Proof. intros g. unfold cache_insert. case_match; [|done]. apply unlogged_caches. Qed.
(** The world may change in any way but for the part. *)
Lemma Fixes_in_world {A} (c : W A) : (∀ w g, part (set_world w g) = part g) → Fixes part (in_world c).
Proof. intros Hw g. unfold in_world, zoom. destruct (c _). apply Hw. Qed.
#[local] Hint Resolve Fixes_emit Fixes_emits Fixes_cache_get Fixes_cache_insert : fixes.
Ltac fixes :=
  repeat (intros; first
    [ solve [eauto 2 with fixes] | apply Fixes_try_m | apply Fixes_bind | apply Fixes_fmap | case_match ]).

Lemma clear_fixes plugins key path vm headers body start pending :
  Fixes part (clear plugins key path vm headers body start pending).
Proof.
  unfold clear, open_span, guards, check_model, check_budget, inspect, refuse, record_rejection, span,
    elapsed_ms, g_now, reply, stay. fixes.
Qed.
Lemma begin_fixes rq key : Fixes part (begin rq key).
Proof.
  unfold begin, begin_chat, begin_embeddings, g_now. repeat case_decide.
  1,2: apply Fixes_bind; [fixes|intros start]; apply Fixes_bind; [fixes|intros rt]; apply clear_fixes.
  unfold route. repeat case_decide; try tauto; unfold Proxy.list_models; fixes.
Qed.
Lemma account_fixes pricing key tokens up ms start :
  (∀ t g, part (set_spend t g) = part g) → Fixes part (account pricing key tokens up ms start).
Proof.
  intros Hs. unfold account, charge, span, elapsed_secs, g_now.
  assert (∀ f : Gateway → Gateway, (∀ g, ∃ t, f g = set_spend t g) → Fixes part (modify f)) as Hm.
  { intros f Hf. apply Fixes_modify. intros g. destruct (Hf g) as [t ->]. apply Hs. }
  fixes. apply Hm. intros g. by eexists.
Qed.
(** The middleware, the upstream call and the accounting apart, a segment only
    writes to the trace and the caches. *)
Lemma segment_fixes st :
  match st with Arrived _ | Missed _ | Answered _ (Ok _) => True | _ => Fixes part (resume st) end.
Proof.
  destruct st as [rq|rq key|p|p|p [up|err]|h k up]; cbn [resume]; try done.
  - apply begin_fixes.
  - unfold look_up, serve_from_cache, span, elapsed_ms, elapsed_secs, g_now, reply, stay. fixes.
  - unfold settle, upstream_failed, record_rejection, span, elapsed_ms, g_now, reply. fixes.
  - unfold store_and_respond, reply. fixes.
Qed.
Lemma answered_fixes p a :
  (∀ t g, part (set_spend t g) = part g) → Fixes part (resume (Answered p a)).
Proof.
  intros Hs. destruct a as [up|err]; [|exact (segment_fixes (Answered p (Err err)))].
  cbn [resume]. unfold settle, elapsed_ms, g_now, reply, stay. pose proof account_fixes. fixes.
Qed.
End unlogged.

(** ** Lemmas: the segments in a row are the handler *)
Section refinement.
Context `{Reqwest} `{Moka} `{Rustls} `{SerdeJson} `{Crypto} `{TimeCrate} `{HashOrder} `{MetaSerde}.

Definition finish (n : nat) (st : Stage) : G Next := resumes (repeat id n) st.
Lemma finish_S n st g :
  finish (S n) st g = match resume st g with
                      | (inl r, g') => (inl r, g')
                      | (inr st', g') => finish n st' g'
                      end.
Proof.
  unfold finish. cbn [repeat resumes]. unfold modify, id. steps.
  by destruct (resume st g) as [[r|st'] g'].
Qed.
Lemma finish_drained n h k up g :
  finish (S n) (Drained h k up) g
  = (inl (Some (store_and_respond h k up g).1), (store_and_respond h k up g).2).
Proof. rewrite finish_S. cbn [resume]. by steps. Qed.
Lemma finish_answered n p a g :
  finish (S (S n)) (Answered p a) g
  = let '(ms, g) := elapsed_ms (p_start p) g in
    let '(r, g) := answer (p_runtime p) (p_key p) (p_tokens p) (p_relay p) (p_cache_key p)
                     (p_start p) ms a g in
    (inl (Some r), g).
Proof.
  rewrite finish_S. cbn [resume]. steps. destruct (elapsed_ms (p_start p) g) as [ms g1].
  cbn [fst snd]. unfold settle, answer. destruct a as [up|err]; steps.
  - destruct (account _ _ _ _ _ _ g1) as [u g2]. cbn [fst snd].
    destruct (p_cache_key p) as [k|], (Runtime.cache (p_runtime p)) as [h|]; try done.
    destruct (_ =? 200)%Z; [|done]. unfold stay, mret, M_ret. rewrite finish_drained.
    by destruct (store_and_respond h k up g2).
  - unfold reply, mret, M_ret. by destruct (upstream_failed err ms g1).
Qed.
Lemma finish_cleared n p g :
  finish (S (S (S (S n)))) (Cleared p) g
  = let '(r, g) := dispatch (p_runtime p) (p_key p) (p_tokens p) (p_relay p) (p_cache_key p)
                     (p_start p) (p_call p) g in
    (inl r, g).
Proof.
  rewrite finish_S. cbn [resume]. unfold dispatch. steps.
  destruct (look_up _ _ g) as [[c|] g1]; cbn [fst snd].
  - steps. unfold reply, mret, M_ret, fmap, M_fmap. by destruct (serve_from_cache _ _ _ g1).
  - unfold stay, mret, M_ret. rewrite finish_S. cbn [resume]. steps.
    destruct (in_world (p_call p) g1) as [[a|] g2]; cbn [fst snd].
    + unfold stay, mret, M_ret. rewrite finish_answered.
      destruct (elapsed_ms (p_start p) g2) as [ms g3]. cbn [fst snd]. unfold fmap, M_fmap.
      by destruct (answer _ _ _ _ _ _ _ _ g3).
    + unfold mret, M_ret. unfold elapsed_ms, g_now, gets. by steps.
Qed.
Lemma finish_clear n plugins key path vm headers body start pending forward g :
  (∀ b g, finish n (Cleared (pending b)) g = let '(r, g) := forward b g in (inl r, g)) →
  match clear plugins key path vm headers body start pending g with
  | (inl r, g') => (inl r, g')
  | (inr st, g') => finish n st g'
  end = let '(r, g) := guarded plugins key path vm headers body start forward g in (inl r, g).
Proof.
  intros Hf. unfold clear, guarded. steps. destruct (open_span key vm headers g) as [u g1].
  cbn [fst snd]. destruct (guards plugins key path vm body start g1) as [[b|r] g2]; cbn [fst snd]; [|done].
  unfold stay, mret, M_ret. apply Hf.
Qed.
Lemma finish_authenticated n rq key g :
  finish (5 + n) (Authenticated rq key) g = let '(r, g) := route rq key g in (inl r, g).
Proof.
  change (5 + n) with (S (4 + n)). rewrite finish_S. cbn [resume]. unfold begin, route.
  destruct (decide (rq_path rq = "/v1/chat/completions")) as [Hc|Hc],
    (decide (rq_path rq = "/v1/embeddings")) as [He|He]; try (by rewrite Hc in He).
  1: destruct (decide (rq_method rq = "POST")) as [Hm|Hm].
  3: destruct (decide (rq_method rq = "POST")) as [Hm|Hm].
  all: repeat first [rewrite decide_True by done | rewrite decide_False by naive_solver].
  - unfold begin_chat, chat_completions, g_now, gets. cbv zeta. steps.
    apply finish_clear. intros b g'. apply (finish_cleared n).
  - unfold fmap, M_fmap. done.
  - unfold begin_embeddings, embeddings, g_now, gets. cbv zeta. steps.
    apply finish_clear. intros b g'. apply (finish_cleared n).
  - done.
  - unfold fmap, M_fmap. by repeat case_match.
Qed.
Lemma finish_arrived n rq g :
  finish (6 + n) (Arrived rq) g = let '(r, g) := handle rq g in (inl r, g).
Proof.
  change (6 + n) with (S (5 + n)). rewrite finish_S. cbn [resume]. unfold handle. steps.
  destruct (authenticate (rq_headers rq) g) as [[key|r] g1]; cbn [fst snd]; [|done].
  unfold stay, mret, M_ret. apply finish_authenticated.
Qed.
End refinement.

(** ** Lemmas: a request ends *)
Section ends.
Context `{Reqwest} `{Moka} `{Rustls} `{SerdeJson} `{Crypto} `{TimeCrate} `{HashOrder} `{MetaSerde}.

(** [c] either replies, or stays at a stage with fewer segments left than [n]. *)
Definition Descends (n : nat) (c : G Next) : Prop :=
  ∀ g, match (c g).1 with inl _ => True | inr st => left st < n end.
Lemma Descends_reply n r : Descends n (reply r).
Proof. done. Qed.
Lemma Descends_stay n st : left st < n → Descends n (stay st).
Proof. by intros ? ?. Qed.
Lemma Descends_bind {A} n (c : G A) (k : A → G Next) : (∀ a, Descends n (k a)) → Descends n (c ≫= k).
Proof. intros Hk g. rewrite M_bind_eq. apply Hk. Qed.
Lemma Descends_inl {A} n (f : A → option Response) (c : G A) : Descends n ((λ a, inl (f a)) <$> c).
Proof. intros g. unfold fmap, M_fmap. by destruct (c g). Qed.
Ltac descends :=
  repeat (intros; first
    [ apply Descends_reply | (apply Descends_stay; cbn; lia) | apply Descends_bind
    | apply (Descends_inl _ id) | done | case_match ]).
Lemma resume_descends st : Descends (left st) (resume st).
Proof.
  destruct st; cbn [resume left]; unfold begin, begin_chat, begin_embeddings, clear, settle; descends.
Qed.
Lemma resumes_end others st g : left st ≤ length others → ∃ r, (resumes others st g).1 = inl r.
Proof.
  revert st g. induction others as [|other others IH]; intros st g Hl; [destruct st; cbn in Hl; lia|].
  cbn [resumes]. unfold modify. steps. pose proof (resume_descends st (other g)) as Hd.
  destruct (resume st (other g)) as [[r|st'] g']; cbn [fst snd] in *; [by exists r|].
  apply IH. cbn in Hl. lia.
Qed.
End ends.

(** ** Lemmas: what a request under way does not look at *)
Create HintDb blind discriminated.
Section blind.
Context `{Reqwest} `{Moka} `{Rustls} `{SerdeJson} `{Crypto} `{TimeCrate} `{HashOrder} `{MetaSerde}.

(** A change of policy: of the keys, the runtime or the TLS material, and of
    nothing else. *)
Record policy (f : Gateway → Gateway) : Prop := {
  pol_world g : g_world (f g) = g_world g;
  pol_caches g : g_caches (f g) = g_caches g;
  pol_limiter g : g_limiter (f g) = g_limiter g;
  pol_spend g : g_spend (f g) = g_spend g;
  pol_set_world w g : f (set_world w g) = set_world w (f g);
  pol_set_caches c g : f (set_caches c g) = set_caches c (f g);
  pol_set_spend s g : f (set_spend s g) = set_spend s (f g)
}.
Lemma policy_runtime rt : policy (set_runtime rt).
Proof. by split. Qed.
Lemma policy_keys k : policy (set_keys k).
Proof. by split. Qed.
Lemma policy_tls t : policy (set_tls t).
Proof. by split. Qed.

Context (f : Gateway → Gateway) (Hf : policy f).
Definition Blind {A} (c : G A) : Prop := ∀ g, c (f g) = ((c g).1, f (c g).2).
Lemma Blind_ret {A} (a : A) : Blind (mret a).
Proof. done. Qed.
Lemma Blind_gets {A} (r : Gateway → A) : (∀ g, r (f g) = r g) → Blind (gets r).
Proof. intros Hr g. unfold gets. by rewrite Hr. Qed.
Lemma Blind_bind {A B} (c : G A) (k : A → G B) : Blind c → (∀ a, Blind (k a)) → Blind (c ≫= k).
Proof. intros Hc Hk g. rewrite !M_bind_eq. unfold eval, exec. rewrite Hc. cbn [fst snd]. apply Hk. Qed.
Lemma Blind_fmap {A B} (h : A → B) (c : G A) : Blind c → Blind (h <$> c).
Proof. intros Hc g. unfold fmap, M_fmap. rewrite Hc. by destruct (c g). Qed.
Lemma Blind_in_world {A} (c : W A) : Blind (in_world c).
Proof.
  intros g. unfold in_world, zoom. rewrite pol_world by done. destruct (c (g_world g)).
  cbn [fst snd]. by rewrite (pol_set_world f Hf).
Qed.
Lemma Blind_emit e : Blind (g_emit e).
Proof. apply Blind_in_world. Qed.
Lemma Blind_emits es : Blind (g_emits es).
Proof. induction es as [|e es IH]; [apply Blind_ret|]. by apply Blind_bind; [apply Blind_emit|]. Qed.
Lemma Blind_now : Blind g_now.
Proof. apply Blind_gets. intros g. by rewrite pol_world. Qed.
Lemma Blind_cache_get h k : Blind (cache_get h k).
Proof.
  intros g. unfold cache_get. rewrite pol_world, pol_caches by done. case_match; [|done].
  destruct (ResponseCache.get _ _ _). cbn [fst snd]. by rewrite (pol_set_caches f Hf).
Qed.
Lemma Blind_cache_insert h k v : Blind (cache_insert h k v).
Proof.
  intros g. unfold cache_insert. rewrite pol_world, pol_caches by done. case_match; [|done].
  cbn [fst snd]. by rewrite (pol_set_caches f Hf).
Qed.
Lemma Blind_charge key cost : Blind (charge key cost).
Proof.
  apply Blind_bind; [apply Blind_now|]. intros now. case_match; [|apply Blind_ret].
  intros g. unfold modify. rewrite pol_spend by done. cbn [fst snd]. by rewrite (pol_set_spend f Hf).
Qed.

#[local] Hint Resolve Blind_ret Blind_in_world Blind_emit Blind_emits Blind_now Blind_cache_get
  Blind_cache_insert Blind_charge : blind.
Ltac blind :=
  repeat (intros; first [progress auto with blind | apply Blind_bind | apply Blind_fmap | case_match]).

Lemma Blind_elapsed_ms start : Blind (elapsed_ms start).
Proof. unfold elapsed_ms. blind. Qed.
Lemma Blind_elapsed_secs start : Blind (elapsed_secs start).
Proof. unfold elapsed_secs. blind. Qed.
#[local] Hint Resolve Blind_elapsed_ms Blind_elapsed_secs : blind.
Lemma Blind_account pricing key tokens up ms start : Blind (account pricing key tokens up ms start).
Proof. unfold account, span. blind. Qed.
#[local] Hint Resolve Blind_account : blind.
Lemma Blind_settle p a ms : Blind (settle p a ms).
Proof. unfold settle, upstream_failed, record_rejection, span, reply, stay. blind. Qed.
#[local] Hint Resolve Blind_settle : blind.

(** A change the request does not hear: once it holds its runtime any change of
    policy, and once it is authenticated any that keeps the runtime. *)
Definition unheard (st : Stage) (f : Gateway → Gateway) : Prop :=
  policy f ∧
  match st with
  | Arrived _ => False
  | Authenticated _ _ => ∀ g, g_runtime (f g) = g_runtime g
  | _ => True
  end.
End blind.

Section isolation.
Context `{Reqwest} `{Moka} `{Rustls} `{SerdeJson} `{Crypto} `{TimeCrate} `{HashOrder} `{MetaSerde}.

Lemma policy_compose f1 f2 : policy f1 → policy f2 → policy (λ g, f2 (f1 g)).
Proof. intros [] []. split; intros; congruence. Qed.
Lemma unheard_compose st f1 f2 : unheard st f1 → unheard st f2 → unheard st (λ g, f2 (f1 g)).
Proof.
  intros [H1' K1] [H2' K2]. split; [by apply policy_compose|]. destruct st; try done.
  intros g. by rewrite K2, K1.
Qed.
Lemma unheard_later st st' f : unheard st f → left st' < left st → unheard st' f.
Proof.
  intros [Hp Hs] Hl. split; [done|]. destruct st; try done; destruct st'; try done; cbn in Hl; lia.
Qed.

#[local] Hint Resolve Blind_ret Blind_in_world Blind_emit Blind_emits Blind_now Blind_cache_get
  Blind_cache_insert Blind_elapsed_ms Blind_elapsed_secs Blind_settle : blind.
Ltac blind :=
  repeat (intros; first [progress eauto with blind | apply Blind_bind | apply Blind_fmap | case_match]).
Lemma Blind_begin f rq key :
  policy f → (∀ g, g_runtime (f g) = g_runtime g) → Blind f (begin rq key).
Proof.
  intros Hf Hr. pose proof (Blind_gets f g_runtime Hr) as Hg.
  pose proof (Blind_gets f g_spend (pol_spend f Hf)) as Hs.
  assert (∀ A reason status start es r, Blind f (refuse (A:=A) reason status start es r)) as Hre
    by (unfold refuse, record_rejection, span; blind).
  assert (∀ plugins path vm headers body start pending,
    Blind f (clear plugins key path vm headers body start pending)) as Hc.
  { intros. unfold clear, open_span, guards, try_m, try_, check_model, check_budget, inspect, reply, stay.
    blind. }
  unfold begin. case_decide as Hc1; [unfold begin_chat; blind|].
  case_decide as Hc2; [unfold begin_embeddings; blind|].
  apply Blind_fmap. unfold route. repeat case_decide; try (exfalso; tauto); try apply Blind_ret.
  apply Blind_fmap. unfold list_models. blind.
Qed.
Lemma resume_blind st f : unheard st f → Blind f (resume st).
Proof.
  intros [Hp Hs]. destruct st; try done; cbn [resume]; [by apply Blind_begin|..];
    unfold look_up, serve_from_cache, store_and_respond, span, reply, stay; blind.
Qed.

(** What a request leaves behind. *)
Definition same_effects (g g' : Gateway) : Prop :=
  g_world g = g_world g' ∧ g_caches g = g_caches g' ∧ g_limiter g = g_limiter g' ∧ g_spend g = g_spend g'.
Lemma policy_effects f g : policy f → same_effects (f g) g.
Proof. by intros []. Qed.
Lemma resumes_unheard others st f g :
  Forall (unheard st) others → unheard st f →
  let '(r, g1) := resumes others st (f g) in
  let '(r', g2) := resumes (repeat id (length others)) st g in
  r = r' ∧ same_effects g1 g2.
Proof.
  revert st f g. induction others as [|other others IH]; intros st f g Ho Hf.
  - cbn. split; [done|]. apply policy_effects, Hf.
  - apply Forall_cons in Ho as [Ho Hos]. cbn [length repeat resumes]. unfold modify, id. steps.
    pose proof (unheard_compose _ _ _ Hf Ho) as Hc. cbv beta in Hc.
    rewrite (resume_blind st _ Hc). pose proof (resume_descends st g) as Hd.
    destruct (resume st g) as [[r|st'] g']; cbn [fst snd] in *.
    + split; [done|]. exact (policy_effects _ g' (proj1 Hc)).
    + apply (IH st' (λ g, other (f g))).
      * eapply Forall_impl; [exact Hos|]. intros h Hh. by eapply unheard_later.
      * by eapply unheard_later.
Qed.
End isolation.

(** ** Lemmas: the guards of concurrent requests *)
Section headroom.
Context `{Reqwest} `{Moka} `{Rustls} `{SerdeJson} `{Crypto} `{TimeCrate} `{HashOrder} `{MetaSerde}.

Lemma still_sym g g' : still g g' → still g' g.
Proof. intros []. by split. Qed.
(** A computation that leaves the gateway still, and decides the same on gateways
    that differ in the trace and the rate limiter only. *)
Definition Steady {A} (c : G A) : Prop := Still c ∧ ∀ g g', still g g' → (c g).1 = (c g').1.
Lemma Steady_ret {A} (a : A) : Steady (mret a).
Proof. split; [apply Still_ret|done]. Qed.
Lemma Steady_bind {A B} (c : G A) (k : A → G B) : Steady c → (∀ a, Steady (k a)) → Steady (c ≫= k).
Proof.
  intros [Hs Hc] Hk. split; [apply Still_bind; [done|]; intros a; apply Hk|].
  intros g g' Hg. rewrite !M_bind_eq. unfold eval, exec. rewrite (Hc g g' Hg).
  apply (proj2 (Hk (c g').1)). etrans; [apply still_sym, Hs|]. etrans; [exact Hg|apply Hs].
Qed.
Lemma Steady_fmap {A B} (h : A → B) (c : G A) : Steady c → Steady (h <$> c).
Proof.
  intros [Hs Hc]. split; [by apply Still_fmap|]. intros g g' Hg. specialize (Hc g g' Hg).
  unfold fmap, M_fmap. destruct (c g), (c g'). cbn in *. by f_equal.
Qed.
Lemma Steady_gets {A} (r : Gateway → A) : (∀ g g', still g g' → r g = r g') → Steady (gets r).
Proof. intros Hr. split; [apply Still_gets|done]. Qed.
Lemma Steady_emit e : Steady (g_emit e).
Proof. split; [apply Still_emit|done]. Qed.
Lemma Steady_emits es : Steady (g_emits es).
Proof. induction es as [|e es IH]; [apply Steady_ret|]. by apply Steady_bind; [apply Steady_emit|]. Qed.
Lemma Steady_now : Steady g_now.
Proof. apply Steady_gets. by intros g g' []. Qed.
Lemma Steady_spend : Steady (gets g_spend).
Proof. apply Steady_gets. by intros g g' []. Qed.
Lemma Steady_runtime : Steady (gets g_runtime).
Proof. apply Steady_gets. by intros g g' []. Qed.
Create HintDb steady discriminated.
#[local] Hint Resolve Steady_ret Steady_emit Steady_emits Steady_now Steady_spend Steady_runtime : steady.
Ltac steady :=
  repeat (intros; first [progress auto with steady | apply Steady_bind | apply Steady_fmap | case_match]).

Lemma Steady_elapsed_ms start : Steady (elapsed_ms start).
Proof. unfold elapsed_ms. steady. Qed.
#[local] Hint Resolve Steady_elapsed_ms : steady.
Lemma Steady_refuse {A} reason status start es r : Steady (refuse (A:=A) reason status start es r).
Proof. unfold refuse, record_rejection, span. steady. Qed.
#[local] Hint Resolve Steady_refuse : steady.
Lemma Steady_clear plugins key path vm headers body start pending :
  Steady (clear plugins key path vm headers body start pending).
Proof.
  unfold clear, open_span, guards, try_m, try_, check_model, check_budget, inspect, reply, stay. steady.
Qed.
#[local] Hint Resolve Steady_clear : steady.
Lemma Steady_begin rq key : Steady (begin rq key).
Proof.
  unfold begin. case_decide as Hc1; [unfold begin_chat; steady|].
  case_decide as Hc2; [unfold begin_embeddings; steady|].
  apply Steady_fmap. unfold route. repeat case_decide; try (exfalso; tauto); try apply Steady_ret.
  apply Steady_fmap. unfold list_models. steady.
Qed.

(** Several requests, authenticated at the same time, each pass the guards (or do
    not) before any of them is answered. *)
Fixpoint begin_each (rqs : list (Request * VirtualKey)) : G (list Next) :=
  match rqs with
  | [] => mret []
  | (rq, key) :: rqs => next ← begin rq key; rest ← begin_each rqs; mret (next :: rest)
  end.
Lemma begin_each_spec rqs g :
  (begin_each rqs g).1 = map (λ rk, (begin rk.1 rk.2 g).1) rqs ∧ still g (begin_each rqs g).2.
Proof.
  assert (∀ g', still g g' → (begin_each rqs g').1 = map (λ rk, (begin rk.1 rk.2 g).1) rqs ∧
    still g (begin_each rqs g').2) as Hr.
  { induction rqs as [|[rq key] rqs IH]; intros g' Hg; [done|]. cbn [begin_each map]. steps.
    destruct (Steady_begin rq key) as [Hs Hc]. destruct (IH (begin rq key g').2) as [E1 E2].
    { etrans; [exact Hg|apply Hs]. }
    split; [|exact E2]. cbn [mret M_ret fst]. by rewrite E1, (Hc g g' Hg). }
  by apply Hr.
Qed.
End headroom.

(** ** Properties *)
Section properties.
Context `{Reqwest} `{Moka} `{Rustls} `{SerdeJson} `{Crypto} `{TimeCrate} `{HashOrder} `{MetaSerde}.

(** The cut is faithful, and a request always ends. Its segments run in a row
    are the handler: the same response, the same gateway afterwards; and whatever
    others do to the gateway before each segment, the request has ended, with a
    response or a panic of its connector, after at most six of them. *)
Theorem segments_refine_handler rq :
  (∀ g, resumes (repeat id MAX_SEGMENTS) (Arrived rq) g = (inl (handle rq g).1, (handle rq g).2)) ∧
  (∀ others g, length others = MAX_SEGMENTS → ∃ r, (resumes others (Arrived rq) g).1 = inl r).
Proof.
  split.
  - intros g. pose proof (finish_arrived 0 rq g) as E. unfold finish in E. cbn [plus] in E.
    unfold MAX_SEGMENTS. rewrite E. by destruct (handle rq g).
  - intros others g Hl. apply resumes_end. by rewrite Hl.
Qed.

(** C6: A request under way is isolated from changes of policy. Once it has loaded
    its runtime, any swap of the runtime, of the virtual keys or of the TLS
    material between any two of its segments leaves its response, and the charges,
    cache entries, metrics and events it produces, exactly as if nothing had
    happened; and from the moment it is authenticated so does any change of the
    keys: a revocation does not stop a request already let in. *)
Theorem in_flight_isolated others st g :
  Forall (unheard st) others →
  let '(r, g1) := resumes others st g in
  let '(r', g2) := resumes (repeat id (length others)) st g in
  r = r' ∧ same_effects g1 g2.
Proof.
  intros Ho. destruct others as [|other others]; [by cbn|].
  assert (unheard st id) as Hid.
  { apply Forall_cons in Ho as [[_ Hs] _]. split; [by split|]. by destruct st. }
  exact (resumes_unheard (other :: others) st id g Ho Hid).
Qed.

(** The budget is checked on shared headroom. However many requests are let in
    before the first of them is answered, each passes or fails the guards exactly
    as it would alone, since none has been charged yet: any number of concurrent
    requests of a key with a cent of budget left reach the provider. *)
Theorem headroom_shared rqs g :
  (begin_each rqs g).1 = map (λ rk, (begin rk.1 rk.2 g).1) rqs ∧
  g_spend (begin_each rqs g).2 = g_spend g ∧
  ∀ key, budget_left key (begin_each rqs g).2 = budget_left key g.
Proof.
  destruct (begin_each_spec rqs g) as [E Hs]. split; [done|]. destruct Hs as [_ Hs _ _ _ _ Hn].
  split; [done|]. intros key. unfold budget_left. by rewrite Hs, Hn.
Qed.
End properties.

(** ** Witness, and an overshoot *)
#[local] Existing Instances sample_reqwest sample_moka sample_rustls sample_meta sample_crypto
  sample_time some_hash_order.
#[local] Instance quiet_json : SerdeJson := one_document Null.
Definition dollar_connector : Connector :=
  mkConnector "openai"
    (λ q, mret (Some (Ok (ChatResponse.mk 200 None (single_chunk []) "openai" (ChatRequest.model q)
                            (Some (Usage.mk 1000 0)) 1))))
    (λ q, mret None) (mret true).
Definition dollar_key : VirtualKey :=
  VirtualKey.mk "vp_1" "h" "team" "app" "prod" [] None (Some (mkSpendLimit F64.one Day)) None.
Definition dollar_gateway : Gateway :=
  mkGateway sample_world [] {["h" := dollar_key]} ∅ ∅
    (Runtime.mk dollar_connector
       (Pricing.mk {["openai" := {["gpt-4o" := Pricing.price 1 0 1 0]}]}) None [] []) None.
Definition sample_pending : Pending :=
  chat_pending (g_runtime dollar_gateway) dollar_key false "gpt-4o" None 0 [].

Lemma in_flight_isolated_witness :
  (resumes [set_keys ∅; set_runtime sample_runtime; id; id] (Cleared sample_pending) dollar_gateway).1
  = (resumes (repeat id 4) (Cleared sample_pending) dollar_gateway).1.
Proof.
  pose proof (in_flight_isolated [set_keys ∅; set_runtime sample_runtime; id; id] (Cleared sample_pending)
    dollar_gateway) as Hi.
  destruct (resumes [_; _; _; _] _ _) as [r g1], (resumes (repeat id _) _ _) as [r' g2].
  apply Hi. repeat (apply Forall_cons; split); try done; split; try done;
    first [apply policy_keys|apply policy_runtime|by split].
Defined.

(** Three requests of a key with one dollar a day, a dollar each. *)
Definition finish_each (nexts : list Next) (g : Gateway) : Gateway :=
  foldl (λ g next, match next with inr st => (finish MAX_SEGMENTS st g).2 | inl _ => g end) g nexts.
Example three_dollars_on_a_dollar :
  let '(nexts, g) := begin_each (repeat (sample_rq, dollar_key) 3) dollar_gateway in
  SpendTracker.current_usd (g_spend (finish_each nexts g)) "vp_1" Day 0 = F64.of_int 3.
Proof. vm_compute. reflexivity. Qed.
