(* ===== verification/Concurrency.v ===== *)
(** * Concurrency: the gateway with requests in flight ([main.rs], [proxy.rs])

    The process of [System] with any number of proxy requests between their awaits,
    and of streamed answers on their way to their clients: a step starts a request,
    runs one segment of one, polls a body, drops a connection whose client went away,
    or is any other action of the process. *)

From S2P Require Import Prelude Text Float64 Json Events Auth Limits Plugin Config Provider.
From S2P Require Import OpenAi Anthropic Sse StreamObserver Bedrock Registry Cache Tls Wasm Runtime.
From S2P Require Import Connectors Proxy Billing ControlMap LinkStatus ControlNode Admin System.
From S2P Require Import SystemInvariants Metering Inflight.
Import Json.

Record Flight `{Reqwest} := mkFlight { f_request : Request; f_stage : Stage }.
Arguments mkFlight {_}.
Arguments f_request {_}.
Arguments f_stage {_}.

(** How a request left: at which stage, and with which response, or dropped. *)
Inductive Exit := Replied (response : option Response) | Dropped.
Record Departure `{Reqwest} := mkDeparture { d_flight : Flight; d_exit : Exit }.
Arguments mkDeparture {_}.
Arguments d_flight {_}.
Arguments d_exit {_}.

Record Process `{Reqwest} `{Moka} `{Rustls} := mkProcess {
  system : System;
  flights : gmap nat Flight;
  streams : gmap nat UsageObservingStream.UsageObservingStream;
  departed : list Departure
}.
Arguments mkProcess {_ _ _}.
Arguments system {_ _ _}.
Arguments flights {_ _ _}.
Arguments streams {_ _ _}.
Arguments departed {_ _ _}.

Section process.
Context `{Reqwest} `{Moka} `{Rustls} `{SerdeJson} `{AnthropicSerde} `{BedrockSerde} `{Crypto}
  `{Entropy} `{RegexCrate} `{Wasmtime} `{Env} `{HashOrder} `{TimeCrate} `{MetaSerde}
  `{ControlCrates} `{Config.Figment} `{AdminCrates} `{Addresses}.

(** A response whose body is under observation leaves it to its connection, which
    polls it until it ends, fails, or the client goes away. *)
Definition observed (response : option Response) : option UsageObservingStream.UsageObservingStream :=
  match Response.body <$> response with Some (BObserved st) => Some st | _ => None end.
Definition ended (polled : Poll (option (result string bytes))) : bool :=
  match polled with Ready None | Ready (Some (Err _)) => true | _ => false end.

(** One segment of a request, on the gateway of the process. *)
Definition fly (i : nat) (f : Flight) (p : Process) : Process :=
  let '(next, app') := on_gw (resume (f_stage f)) (app (system p)) in
  let s := mkSystem app' (poller (system p)) in
  match next with
  | inl response =>
      mkProcess s (delete i (flights p)) (partial_alter (λ _, observed response) i (streams p))
        (departed p ++ [mkDeparture f (Replied response)])
  | inr st => mkProcess s (<[i := mkFlight (f_request f) st]> (flights p)) (streams p) (departed p)
  end.
(** One poll of a body. *)
Definition flow (i : nat) (st : UsageObservingStream.UsageObservingStream) (p : Process) : Process :=
  let '((polled, st), app') := on_gw (poll_stream st) (app (system p)) in
  mkProcess (mkSystem app' (poller (system p))) (flights p)
    (if ended polled then delete i (streams p) else <[i := st]> (streams p)) (departed p).

(** A connection carries one request at a time, and then the body of its answer. *)
Inductive event :=
| Arrive (i : nat) (rq : Request)
| Resume (i : nat)
| Flow (i : nat)
| Drop (i : nat)
| Other (a : action).
Definition idle (i : nat) (p : Process) : bool :=
  match flights p !! i, streams p !! i with None, None => true | _, _ => false end.
(** A request to the proxy arrives as a flight, and a body is polled where it went:
    neither is an action by itself. *)
Definition happen (e : event) (p : Process) : Process :=
  match e with
  | Arrive i rq =>
      if idle i p
      then mkProcess (system p) (<[i := mkFlight rq (Arrived rq)]> (flights p)) (streams p) (departed p)
      else p
  | Resume i => match flights p !! i with Some f => fly i f p | None => p end
  | Flow i => match streams p !! i with Some st => flow i st p | None => p end
  | Drop i =>
      match flights p !! i with
      | Some f =>
          mkProcess (system p) (delete i (flights p)) (streams p) (departed p ++ [mkDeparture f Dropped])
      | None => mkProcess (system p) (flights p) (delete i (streams p)) (departed p)
      end
  | Other (AProxy _) | Other (AStream _) => p
  | Other a => mkProcess (act a (system p)) (flights p) (streams p) (departed p)
  end.
Inductive happens : Process → Process → Prop :=
| happens_event e p : happens p (happen e p).
Definition launch (s : System) : Process := mkProcess s ∅ ∅ [].
Definition process_trace (p : Process) : list Effect := system_trace (system p).

(** ** The invariant of a request in flight *)

(** What a pending request holds is a runtime built in full, with its cache on the
    heap, and a call of its connector, of whose answers it observes only those that
    report no usage. *)
Record pending_ok (n : nat) (p : Pending) : Prop := {
  pend_built : ∃ cfg, built_from cfg (p_runtime p);
  pend_cache h : Runtime.cache (p_runtime p) = Some h → h < n;
  pend_tokens u : tally (p_tokens p u) = 0;
  pend_call : OnlyFailovers (p_call p);
  pend_once : relay_once (p_runtime p) (p_key p) (p_relay p) (p_call p)
}.
(** [n] is the size of the heap of caches. *)
Definition stage_ok (n : nat) (st : Stage) : Prop :=
  match st with
  | Arrived _ | Authenticated _ _ => True
  | Cleared p | Missed p => pending_ok n p
  | Answered p answer =>
      pending_ok n p ∧ ∀ up, answer = Ok up → once (p_runtime p) (p_key p) (p_relay p) up
  | Drained h _ _ => h < n
  end.
Definition flight_ok (g : Gateway) (f : Flight) : Prop :=
  stage_ok (length (g_caches g)) (f_stage f) ∧
  match f_stage f with
  | Arrived rq | Authenticated rq _ => rq = f_request f
  | _ => is_Some (requested (f_request f))
  end.
Lemma pending_ok_mono n m p : n ≤ m → pending_ok n p → pending_ok m p.
Proof. intros Hn [Hb Hc Ht Hk Ho]. split; try done. intros h Hh. specialize (Hc h Hh). lia. Qed.
Lemma stage_ok_mono n m st : n ≤ m → stage_ok n st → stage_ok m st.
Proof.
  intros Hn. destruct st as [rq|rq key|p|p|p a|h k up]; cbn; try done; try lia;
    [by apply pending_ok_mono..|]. intros [Hp Ho]. split; [by eapply pending_ok_mono|done].
Qed.
Lemma flight_ok_mono g g' f : grows g g' → flight_ok g f → flight_ok g' f.
Proof. intros [Hl _ _ _] [Hs Hr]. split; [by eapply stage_ok_mono|done]. Qed.
End process.

(** ** Lemmas: one segment *)
Section segment.
Context `{Reqwest} `{Moka} `{Rustls} `{SerdeJson} `{AnthropicSerde} `{BedrockSerde} `{Crypto}
  `{Entropy} `{RegexCrate} `{Wasmtime} `{Env} `{HashOrder} `{TimeCrate} `{MetaSerde}.

(** How many requests a segment counts: a refusal of the middleware or of the
    guards, a cached answer, an upstream's answer. *)
Definition counted (st : Stage) (next : Next) : nat :=
  match st, next with
  | Arrived _, inl _ | Cleared _, inl _ | Answered _ _, _ => 1
  | Authenticated rq _, inl _ => if decide (is_Some (requested rq)) then 1 else 0
  | _, _ => 0
  end.
(** What a segment does to the gateway, and where it leaves the request. *)
Record segment_of (st : Stage) (g : Gateway) (next : Next) (g' : Gateway) : Prop := {
  seg_grows : grows g g';
  seg_keeps : keeps g g';
  seg_tally : gw_tally g' = gw_tally g + counted st next;
  seg_next st' : next = inr st' → stage_ok (length (g_caches g')) st'
}.
Lemma segment_reply {A} st g (c : G A) (h : A → option Response) :
  Grows c → Keeps c → (∀ r, Adds (counted st (inl r)) c) →
  segment_of st g (inl (h (c g).1)) (c g).2.
Proof. intros Hg Hk Ha. split; [apply Hg|apply Hk|apply Ha|done]. Qed.

Lemma clear_segment plugins key path vm headers body start pending g :
  (∀ b, pending_ok (length (g_caches g)) (pending b)) →
  let '(next, g') := clear plugins key path vm headers body start pending g in
  grows g g' ∧ keeps g g' ∧
  match next with
  | inl r => r ≠ None ∧ gw_tally g' = gw_tally g + 1
  | inr st => gw_tally g' = gw_tally g ∧ ∃ b, st = Cleared (pending b) ∧ stage_ok (length (g_caches g')) st
  end.
Proof.
  intros Hp. unfold clear. steps. pose proof (open_span_still key vm headers g) as Hs.
  assert (Grows (open_span key vm headers)) as Hg by apply Grows_emits. specialize (Hg g).
  assert (Adds 0 (open_span key vm headers)) as Ha.
  { apply Adds_emits_eq. destruct (header_str headers TRACE_ID_HEADER); reflexivity. }
  specialize (Ha g). destruct (open_span key vm headers g) as [u g1]. cbn [fst snd] in *.
  destruct (guards_spec plugins key path vm body start g1)
    as [(b & E & _)|(re & st & es & r & [Ht _] & E)]; rewrite E.
  - unfold stay, mret, M_ret. cbn [fst snd]. split; [done|]. split; [by destruct Hs|]. split; [lia|].
    exists b. split; [done|]. cbn. by rewrite (still_caches _ _ Hs).
  - pose proof (refuse_grows (A:=bytes) re st start es r g1) as Hg'.
    pose proof (refuse_still (A:=bytes) re st start es r g1) as Hs'.
    pose proof (refuse_adds (A:=bytes) re st start es r Ht g1) as Ha'.
    pose proof (refuse_eval (A:=bytes) re st start es r g1) as Er.
    destruct (refuse re st start es r g1) as [x g2]. cbn [fst snd] in *. subst x.
    unfold reply, mret, M_ret. split; [by etrans|]. split; [|split; [done|lia]].
    assert (still g g2) as [] by (by etrans). done.
Qed.

Ltac keeps :=
  repeat (intros; first
    [ apply Keeps_still; solve [auto using elapsed_ms_still, elapsed_secs_still,
        upstream_failed_still, serve_from_cache_still with still]
    | apply account_keeps | apply Keeps_cache_get | apply Keeps_cache_insert | apply Keeps_in_world
    | apply Keeps_bind | apply Keeps_fmap | case_match ]).
Lemma look_up_keeps c k : Keeps (look_up c k).
Proof. unfold look_up. keeps. Qed.
Lemma look_up_grows c k : Grows (look_up c k).
Proof. unfold look_up. grows. Qed.
Lemma look_up_adds c k : Adds 0 (look_up c k).
Proof. unfold look_up. repeat case_match; first [apply cache_get_adds | apply Adds_ret]. Qed.
Lemma cleared_segment p g :
  pending_ok (length (g_caches g)) p →
  segment_of (Cleared p) g (resume (Cleared p) g).1 (resume (Cleared p) g).2.
Proof.
  intros Hp. cbn [resume]. steps. set (c := look_up _ _).
  pose proof (look_up_grows _ _ g : grows g (c g).2) as Hg.
  pose proof (look_up_keeps _ _ g : keeps g (c g).2) as Hk.
  pose proof (look_up_adds _ _ g : gw_tally (c g).2 = gw_tally g + 0) as Ha.
  destruct (c g) as [[cached|] g1]; cbn [fst snd] in *.
  - steps. set (d := serve_from_cache _ _ _).
    pose proof (serve_from_cache_grows _ _ _ g1 : grows g1 (d g1).2) as Hg'.
    pose proof (Keeps_still _ (serve_from_cache_still _ _ _) g1 : keeps g1 (d g1).2) as (K1 & K2 & K3).
    pose proof (serve_from_cache_adds _ _ _ g1 : gw_tally (d g1).2 = gw_tally g1 + 1) as Ha'.
    destruct (d g1) as [r g2]. unfold reply, mret, M_ret. cbn [fst snd] in *.
    destruct Hk as (? & ? & ?). split; [by etrans|by unfold keeps; rewrite K1, K2, K3|cbn [counted]; lia|done].
  - unfold stay, mret, M_ret. cbn [fst snd]. split; [done|done|cbn [counted]; lia|].
    intros st' [= <-]. by apply (stage_ok_mono (length (g_caches g)) _ (Missed p)); [apply Hg|].
Qed.
Lemma in_world_once p g up :
  relay_once (p_runtime p) (p_key p) (p_relay p) (p_call p) →
  (in_world (p_call p) g).1 = Some (Ok up) → once (p_runtime p) (p_key p) (p_relay p) up.
Proof.
  intros Ho E. apply (Ho (g_world g)). revert E. unfold in_world, zoom.
  by destruct (p_call p (g_world g)).
Qed.
Lemma missed_segment p g :
  pending_ok (length (g_caches g)) p →
  segment_of (Missed p) g (resume (Missed p) g).1 (resume (Missed p) g).2.
Proof.
  intros Hp. pose proof (pend_call _ _ Hp) as Hc. cbn [resume]. steps.
  pose proof (Grows_world _ Hc g) as Hg. pose proof (Keeps_in_world (p_call p) g) as Hk.
  pose proof (in_world_adds (p_call p) (failovers_unmetered _ Hc) g) as Ha.
  pose proof (λ up, in_world_once p g up (pend_once _ _ Hp)) as Ho.
  destruct (in_world (p_call p) g) as [[a|] g1]; cbn [fst snd] in *;
    unfold stay, mret, M_ret; cbn [fst snd]; (split; [done|done|cbn [counted]; lia|]); [|done].
  intros st' [= <-]. split; [eapply pending_ok_mono; [apply Hg|done]|]. intros up ->. by apply Ho.
Qed.
Lemma drained_segment h k up g :
  segment_of (Drained h k up) g (resume (Drained h k up) g).1 (resume (Drained h k up) g).2.
Proof.
  cbn [resume]. steps. set (d := store_and_respond h k up).
  assert (Grows d) as Hg by (unfold d, store_and_respond; grows).
  assert (Keeps d) as Hk by (unfold d, store_and_respond; keeps).
  pose proof (store_and_respond_adds h k up g : gw_tally (d g).2 = gw_tally g + 0) as Ha.
  specialize (Hg g). specialize (Hk g). destruct (d g) as [r g1]. cbn [fst snd] in *.
  unfold reply, mret, M_ret. cbn [fst snd]. split; [done|done|cbn [counted]; lia|done].
Qed.
Lemma settle_grows p a ms : Grows (settle p a ms).
Proof.
  unfold settle, upstream_failed, span, record_rejection, reply, stay.
  pose proof account_grows. grows.
Qed.
Lemma settle_keeps p a ms : Keeps (settle p a ms).
Proof. unfold settle, reply, stay. keeps. Qed.
Lemma settle_adds p a ms : (∀ u, tally (p_tokens p u) = 0) → Adds 1 (settle p a ms).
Proof.
  intros Ht. unfold settle, reply, stay. destruct a as [up|err].
  - apply Adds_bind_r; [by apply account_adds|]. intros _. repeat case_match; apply Adds_ret.
  - apply Adds_bind_r; [apply upstream_failed_adds|]. intros r. apply Adds_ret.
Qed.
Lemma settle_next p a ms n st g :
  pending_ok n p → (settle p a ms g).1 = inr st → stage_ok n st.
Proof.
  intros Hp. unfold settle. destruct a as [up|err]; steps; [|done].
  destruct (p_cache_key p) as [k|], (Runtime.cache (p_runtime p)) as [h|] eqn:Eh; try done.
  destruct (_ =? 200)%Z; [|done]. cbn. intros [= <-]. by apply (pend_cache _ _ Hp).
Qed.
Lemma answered_segment p a g :
  pending_ok (length (g_caches g)) p →
  segment_of (Answered p a) g (resume (Answered p a) g).1 (resume (Answered p a) g).2.
Proof.
  intros Hp. cbn [resume]. steps.
  pose proof (elapsed_ms_grows (p_start p) g) as Hg. pose proof (elapsed_ms_still (p_start p) g) as Hs.
  pose proof (elapsed_ms_adds (p_start p) g) as Ha.
  destruct (elapsed_ms (p_start p) g) as [ms g1]. cbn [fst snd] in *.
  pose proof (settle_grows p a ms g1) as Hg'. pose proof (settle_keeps p a ms g1) as (K1 & K2 & K3).
  pose proof (settle_adds p a ms (pend_tokens _ _ Hp) g1) as Ha'.
  assert (grows g (settle p a ms g1).2) as Hgg by (by etrans).
  split; [done|destruct Hs; unfold keeps; by rewrite K1, K2, K3|cbn [counted]; lia|].
  intros st' E. apply (settle_next p a ms _ st' g1); [|done].
  apply (stage_ok_mono (length (g_caches g)) _ (Missed p)); [apply Hgg|done].
Qed.
Lemma arrived_segment rq g :
  segment_of (Arrived rq) g (resume (Arrived rq) g).1 (resume (Arrived rq) g).2.
Proof.
  cbn [resume]. steps. pose proof (authenticate_grows (rq_headers rq) g) as Hg.
  pose proof (Keeps_still _ (authenticate_still (rq_headers rq)) g) as Hk.
  pose proof (authenticate_counted (rq_headers rq) g) as Ha.
  destruct (authenticate (rq_headers rq) g) as [[key|r] g1]; cbn [fst snd] in *;
    unfold reply, stay, mret, M_ret; cbn [fst snd]; (split; [done|done|cbn [counted]; lia|]); [|done].
  by intros st' [= <-].
Qed.
(** The request a stage still carries is one the gateway forwards, past the guards. *)
Lemma begin_cleared rq key g st : (begin rq key g).1 = inr st → is_Some (requested rq) ∧ ∃ p, st = Cleared p.
Proof.
  assert (∀ plugins path vm headers body start pending g,
    (clear plugins key path vm headers body start pending g).1 = inr st → ∃ p, st = Cleared p) as Hc.
  { intros *. unfold clear. steps. destruct (guards _ _ _ _ _ _ _) as [[b|r] g']; cbn; [|done].
    intros [= <-]. by eexists. }
  unfold begin, requested. repeat case_decide; try tauto.
  all: unfold begin_chat, begin_embeddings, g_now, gets; cbv zeta; steps;
    try (intros E; split; [done|by eapply Hc]).
  all: unfold fmap, M_fmap; by destruct (route rq key g).
Qed.
Lemma chat_pending_ok g key stream vm ik start b :
  gateway_ok g → pending_ok (length (g_caches g)) (chat_pending (g_runtime g) key stream vm ik start b).
Proof.
  intros Hok. destruct (ok_lawful _ Hok) as [Hl _ _], Hok as [[[cfg Hb] Hh] _].
  split; try done; [by exists cfg|apply Hl|]. apply chat_relays_once. by eapply built_stream.
Qed.
Lemma embeddings_pending_ok g key vm ik start b :
  gateway_ok g → pending_ok (length (g_caches g)) (embeddings_pending (g_runtime g) key vm ik start b).
Proof.
  intros Hok. destruct (ok_lawful _ Hok) as [_ Hl _], Hok as [[[cfg Hb] Hh] _].
  split; try done; [by exists cfg|apply Hl|]. intros w up _. left. by intros st.
Qed.
Lemma authenticated_segment rq key g :
  gateway_ok g →
  segment_of (Authenticated rq key) g (resume (Authenticated rq key) g).1
    (resume (Authenticated rq key) g).2.
Proof.
  intros Hok. cbn [resume].
  assert (∀ path vm pending, is_Some (requested rq) →
    (∀ b, pending_ok (length (g_caches g)) (pending b)) →
    let c := clear (Runtime.plugins (g_runtime g)) key path vm (rq_headers rq) (rq_body rq)
               (w_now (g_world g)) pending in
    segment_of (Authenticated rq key) g (c g).1 (c g).2) as Hclear.
  { intros path vm pending Hq Hp c. pose proof (clear_segment (Runtime.plugins (g_runtime g)) key path vm
      (rq_headers rq) (rq_body rq) (w_now (g_world g)) pending g Hp) as Hs.
    unfold c. destruct (clear _ _ _ _ _ _ _ _ g) as [[r|st] g1]; destruct Hs as (Hg & Hk & Hn); cbn [fst snd].
    - destruct Hn as [_ Ht]. split; [done|done|cbn [counted]; by rewrite decide_True|done].
    - destruct Hn as (Ht & b & -> & Hs). split; [done|done|cbn [counted]; lia|by intros ? [= <-]]. }
  unfold begin.
  destruct (decide _) as [[Ep Em]|Hn1]; [|destruct (decide _) as [[Ep Em]|Hn2]].
  - unfold begin_chat, g_now, gets. cbv zeta. steps. apply Hclear; [by unfold requested; rewrite Ep, Em; eexists|].
    intros b. by apply chat_pending_ok.
  - unfold begin_embeddings, g_now, gets. cbv zeta. steps. apply Hclear; [by unfold requested; rewrite Ep, Em; eexists|].
    intros b. by apply embeddings_pending_ok.
  - assert (requested rq = None) as Hq.
    { unfold requested. repeat case_decide; try done; exfalso; tauto. }
    assert (Still (route rq key) ∧ Adds 0 (route rq key) ∧ Grows (route rq key)) as (Hs & Ha & Hg).
    { unfold route. repeat case_decide; try (exfalso; tauto);
        (split_and!; [first [apply Still_ret|apply Still_fmap, list_models_still]
        |first [apply Adds_ret|apply Adds_fmap; unfold Proxy.list_models; adds]|]);
        first [apply Grows_ret|apply Grows_fmap; unfold Proxy.list_models; grows]. }
    specialize (Hg g). specialize (Ha g). pose proof (Keeps_still _ Hs g) as Hk.
    unfold fmap, M_fmap. destruct (route rq key g) as [r g1]. cbn [fst snd] in *.
    split; [done|done| |done]. cbn [counted]. rewrite decide_False by (rewrite Hq; by intros []). done.
Qed.
Lemma resume_segment st g :
  gateway_ok g → stage_ok (length (g_caches g)) st →
  segment_of st g (resume st g).1 (resume st g).2.
Proof.
  intros Hok Hs. destruct st.
  - apply arrived_segment.
  - by apply authenticated_segment.
  - by apply cleared_segment.
  - by apply missed_segment.
  - destruct Hs. by apply answered_segment.
  - apply drained_segment.
Qed.
End segment.

(** ** The invariant of the process *)
Section conserved.
Context `{Reqwest} `{Moka} `{Rustls} `{SerdeJson} `{AnthropicSerde} `{BedrockSerde} `{Crypto}
  `{Entropy} `{RegexCrate} `{Wasmtime} `{Env} `{HashOrder} `{TimeCrate} `{MetaSerde}
  `{ControlCrates} `{Config.Figment} `{AdminCrates} `{Addresses}.

(** A request whose answer is still to be stored has been counted already. *)
Definition aloft (st : Stage) : nat := match st with Drained _ _ _ => 1 | _ => 0 end.
(** How often a request was counted by the time it left. *)
Definition tolled (d : Departure) : nat :=
  let st := f_stage (d_flight d) in
  match d_exit d with
  | Replied response => counted st (inl response) + aloft st
  | Dropped => aloft st
  end.
(** An answered request the gateway forwards is counted once, one whose connector
    panicked never, and one dropped by its client at most once. *)
Definition tolled_fairly (d : Departure) : Prop :=
  match d_exit d with
  | Replied (Some _) => is_Some (requested (f_request (d_flight d))) → tolled d = 1
  | Replied None => tolled d = 0
  | Dropped => tolled d ≤ 1
  end.
Definition aloft_total (fs : gmap nat Flight) : nat :=
  map_fold (λ _ f n, aloft (f_stage f) + n) 0 fs.
Definition tolled_total (ds : list Departure) : nat := sum_list (tolled <$> ds).

Lemma aloft_insert i f fs : fs !! i = None → aloft_total (<[i := f]> fs) = aloft (f_stage f) + aloft_total fs.
Proof. intros Hi. unfold aloft_total. rewrite map_fold_insert_L; [done|lia|done]. Qed.
Lemma aloft_lookup i f fs :
  fs !! i = Some f → aloft_total fs = aloft (f_stage f) + aloft_total (delete i fs).
Proof. intros Hi. unfold aloft_total. rewrite (map_fold_delete_L _ _ i f fs); [done|lia|done]. Qed.
Lemma tolled_snoc ds d : tolled_total (ds ++ [d]) = tolled_total ds + tolled d.
Proof. unfold tolled_total. rewrite fmap_app, sum_list_with_app. cbn. lia. Qed.

Lemma begin_reply rq key g : is_Some (requested rq) → (begin rq key g).1 ≠ inl None.
Proof.
  assert (∀ plugins path vm headers body start pending,
    (clear plugins key path vm headers body start pending g).1 ≠ inl None) as Hc.
  { intros *. unfold clear. steps. by destruct (guards _ _ _ _ _ _ _) as [[b|r] g']. }
  intros Hq. unfold begin, requested in *. repeat case_decide; try tauto; try (by destruct Hq).
  all: unfold begin_chat, begin_embeddings, g_now, gets; cbv zeta; steps; apply Hc.
Qed.
Lemma resume_departs f st g response :
  flight_ok g f → st = f_stage f → (resume st g).1 = inl response →
  tolled_fairly (mkDeparture f (Replied response)).
Proof.
  intros [_ Hf] -> E. unfold tolled_fairly, tolled. cbn [d_exit d_flight].
  destruct (f_stage f) as [rq|rq key|p|p|p a|h k up]; cbn [counted aloft] in *.
  - destruct response; [done|]. exfalso. revert E. cbn [resume]. steps.
    by destruct (authenticate (rq_headers rq) g) as [[?|?] ?].
  - subst rq. destruct response; [intros Hq; by rewrite decide_True|].
    destruct (decide _) as [Hq|]; [|done]. by destruct (begin_reply (f_request f) key g Hq).
  - destruct response; [done|]. exfalso. revert E. cbn [resume]. steps.
    destruct (look_up _ _ g) as [[c|] g1]; cbn [fst snd]; [|done]. by steps.
  - destruct response; [|done]. exfalso. revert E. cbn [resume]. steps.
    by destruct (in_world (p_call p) g) as [[c|] g1].
  - destruct response; [done|]. exfalso. revert E. cbn [resume]. steps. unfold settle.
    destruct a; steps; [|done]. by repeat case_match.
  - destruct response; [done|]. exfalso. revert E. cbn [resume]. by steps.
Qed.
(** A request that stays is counted exactly when it enters its last stage. *)
Lemma resume_stays st g st' : (resume st g).1 = inr st' → counted st (inr st') + aloft st = aloft st'.
Proof.
  destruct st as [rq|rq key|p|p|p a|h k up]; cbn [counted aloft resume].
  - steps. destruct (authenticate (rq_headers rq) g) as [[?|?] ?]; cbn; [|done]. by intros [= <-].
  - intros E. by destruct (begin_cleared rq key g st' E) as [_ [p ->]].
  - steps. destruct (look_up _ _ g) as [[c|] g1]; cbn [fst snd]; [by steps|]. by intros [= <-].
  - steps. destruct (in_world (p_call p) g) as [[c|] g1]; cbn; [|done]. by intros [= <-].
  - steps. unfold settle. destruct a; steps; [|done].
    repeat case_match; cbn; try done. by intros [= <-].
  - by steps.
Qed.

Record process_ok (cfg : Config) (path : option string) (p : Process) : Prop := {
  proc_system : system_ok cfg path (system p);
  proc_flights : map_Forall (λ _ f, flight_ok (gateway (app (system p))) f) (flights p);
  proc_departed : Forall tolled_fairly (departed p)
}.
(** What is counted is what departures and late flights account for. *)
Definition conserved (n : nat) (p : Process) : Prop :=
  tally (process_trace p) = n + tolled_total (departed p) + aloft_total (flights p).

Lemma resume_request rq f st' g :
  flight_ok g f → (resume (f_stage f) g).1 = inr st' → rq = f_request f →
  match st' with
  | Arrived r | Authenticated r _ => r = rq
  | _ => is_Some (requested rq)
  end.
Proof.
  intros [_ Hf] E ->. pose proof (resume_descends (f_stage f) g) as Hd. rewrite E in Hd.
  destruct (f_stage f) as [rq|rq key|p|p|p a|h k up]; cbn [resume] in E.
  - subst rq. revert E. steps. destruct (authenticate _ g) as [[?|?] ?]; cbn; [|done]. by intros [= <-].
  - subst rq. by destruct (begin_cleared (f_request f) key g st' E) as [? [p ->]].
  - destruct st'; cbn in Hd; try done; lia.
  - destruct st'; cbn in Hd; try done; lia.
  - destruct st'; cbn in Hd; try done; lia.
  - destruct st'; cbn in Hd; try done; lia.
Qed.
Lemma on_gateway_ok cfg path s (g' : Gateway) :
  system_ok cfg path s → advances (gateway (app s)) g' →
  system_ok cfg path (mkSystem (set_gateway g' (app s)) (poller s)).
Proof.
  intros Hs Ha. apply (on_gw_ok cfg path (λ _, ((), g')) s) in Hs; [|exact Ha].
  unfold on_app in Hs. by rewrite on_gw_eq in Hs.
Qed.

Lemma fly_ok cfg path n i f p :
  process_ok cfg path p → conserved n p → flights p !! i = Some f →
  process_ok cfg path (fly i f p) ∧ conserved n (fly i f p).
Proof.
  intros [Hs Hf Hd] Hc Hi. pose proof (Hf i f Hi) as Hok.
  pose proof (resume_segment (f_stage f) (gateway (app (system p))) (ok_gateway _ _ _ Hs) (proj1 Hok)) as Hseg.
  unfold fly. rewrite on_gw_eq.
  destruct (resume (f_stage f) (gateway (app (system p)))) as [next g'] eqn:E. cbn [fst snd] in *.
  destruct Hseg as [Hg (Hk & Hr & Ht) Hn Hst].
  assert (system_ok cfg path (mkSystem (set_gateway g' (app (system p))) (poller (system p)))) as Hs'.
  { apply on_gateway_ok; [done|]. by apply advances_same. }
  unfold conserved, process_trace, system_trace in *. fold (gw_tally (gateway (app (system p)))) in Hc.
  rewrite (aloft_lookup i f) in Hc by done. destruct next as [response|st']; cbn [system flights streams departed].
  - split; [split; cbn [system flights streams departed]; [done| |]|].
    + intros j f' Hj. apply lookup_delete_Some in Hj as [_ Hj]. by eapply flight_ok_mono, Hf.
    + apply Forall_app. split; [done|]. apply Forall_singleton.
      by eapply resume_departs; [exact Hok|done|rewrite E].
    + rewrite tolled_snoc. unfold tolled. cbn [d_exit d_flight]. cbn. fold (gw_tally g'). lia.
  - pose proof (resume_stays (f_stage f) _ st' (f_equal fst E)) as Hl.
    split; [split; cbn [system flights streams departed]; [done| |done]|].
    + intros j f' Hj. apply lookup_insert_Some in Hj as [[<- <-]|[_ Hj]]; [|by eapply flight_ok_mono, Hf].
      split; [by apply Hst|]. by eapply resume_request; [exact Hok|rewrite E|].
    + rewrite <-(insert_delete_eq _ i), aloft_insert by apply lookup_delete_eq.
      cbn. fold (gw_tally g'). lia.
Qed.
Lemma idle_flight i p : idle i p = true → flights p !! i = None.
Proof. unfold idle. by destruct (flights p !! i). Qed.
Lemma flow_ok cfg path n i st p :
  process_ok cfg path p → conserved n p → process_ok cfg path (flow i st p) ∧ conserved n (flow i st p).
Proof.
  intros [Hs Hf Hd] Hc. unfold flow. rewrite on_gw_eq.
  pose proof (stream_advances st (gateway (app (system p)))) as Ha.
  pose proof (poll_stream_adds st (gateway (app (system p)))) as Ht.
  destruct (poll_stream st _) as [[polled st'] g']. cbn [fst snd] in *.
  split; [split; cbn [system flights streams departed]; [by apply on_gateway_ok| |done]|].
  - intros j f' Hj. eapply flight_ok_mono; [apply Ha|]. by eapply Hf.
  - unfold conserved, process_trace, system_trace in *.
    fold (gw_tally (gateway (app (system p)))) in Hc.
    cbn [system flights streams departed app gateway set_gateway]. fold (gw_tally g'). lia.
Qed.
Lemma happen_ok cfg path n e p :
  process_ok cfg path p → conserved n p → process_ok cfg path (happen e p) ∧ conserved n (happen e p).
Proof.
  intros Hp Hc. destruct e as [i rq|i|i|i|a]; cbn [happen].
  - destruct (idle i p) eqn:Hi; [|done]. apply idle_flight in Hi. destruct Hp as [Hs Hf Hd].
    split; [split; cbn [system flights streams departed]; [done| |done]|].
    + apply map_Forall_insert; [done|]. by split.
    + unfold conserved in *. cbn [system flights streams departed]. by rewrite aloft_insert.
  - destruct (flights p !! i) as [f|] eqn:Hi; [|done]. by apply fly_ok.
  - destruct (streams p !! i) as [st|]; [|done]. by apply flow_ok.
  - destruct (flights p !! i) as [f|] eqn:Hi; [|by destruct Hp; split; [split|]].
    destruct Hp as [Hs Hf Hd]. split; [split; cbn [system flights streams departed]; [done| |]|].
    + by apply map_Forall_delete.
    + apply Forall_app. split; [done|]. apply Forall_singleton. unfold tolled_fairly, tolled. cbn.
      destruct (f_stage f); cbn; lia.
    + unfold conserved in *. cbn [system flights streams departed]. rewrite (aloft_lookup i f) in Hc by done.
      rewrite tolled_snoc. unfold tolled, process_trace in *. cbn in *. lia.
  - assert ((∀ rq, a ≠ AProxy rq) → (∀ st, a ≠ AStream st) → process_ok cfg path (mkProcess (act a (system p)) (flights p) (streams p) (departed p))
      ∧ conserved n (mkProcess (act a (system p)) (flights p) (streams p) (departed p))) as Ha.
    { intros Hna _. destruct Hp as [Hs Hf Hd].
      split; [split; cbn [system flights streams departed]; [by apply act_ok| |done]|].
      - intros i f Hi. eapply flight_ok_mono; [|by eapply Hf].
        by destruct (act_advances _ _ a _ Hs) as [Hg _ _].
      - unfold conserved, process_trace in *. cbn [system flights streams departed].
        by rewrite (act_tally cfg path). }
    destruct a; first [done | by apply Ha].
Qed.
Lemma reachable_process config path w s p :
  run config path w = Ok s → rtc happens (launch s) p →
  process_ok config path p ∧ conserved (tally (system_trace s)) p.
Proof.
  intros Hs%run_ok. set (I p := process_ok config path p ∧ conserved (tally (system_trace s)) p).
  intros Hr. enough (I p) by done. apply (rtc_invariant happens I (launch s) p); [| |exact Hr].
  - intros p1 p2 [e p'] [Hp Hc]. by apply happen_ok.
  - split; [by split|]. unfold conserved, launch, process_trace. cbn [system flights streams departed].
    unfold tolled_total, aloft_total. rewrite map_fold_empty. cbn. lia.
Qed.
End conserved.

(** ** Properties *)
Section properties.
Context `{Reqwest} `{Moka} `{Rustls} `{SerdeJson} `{AnthropicSerde} `{BedrockSerde} `{Crypto}
  `{Entropy} `{RegexCrate} `{Wasmtime} `{Env} `{HashOrder} `{TimeCrate} `{MetaSerde}
  `{ControlCrates} `{Config.Figment} `{AdminCrates} `{Addresses}.

Lemma happen_grows cfg path e p :
  process_ok cfg path p →
  grows (gateway (app (system p))) (gateway (app (system (happen e p)))).
Proof.
  intros [Hs Hf _]. destruct e as [i rq|i|i|i|a]; cbn [happen].
  - by destruct (idle i p).
  - destruct (flights p !! i) as [f|] eqn:Hi; [|done].
    pose proof (resume_segment (f_stage f) _ (ok_gateway _ _ _ Hs) (proj1 (Hf i f Hi))) as [Hg _ _ _].
    unfold fly. rewrite on_gw_eq. by destruct (resume (f_stage f) _) as [[r|st] g'].
  - destruct (streams p !! i) as [st|]; [|done].
    pose proof (adv_grows _ _ (stream_advances st (gateway (app (system p))))) as Hg.
    unfold flow. rewrite on_gw_eq. by destruct (poll_stream st _) as [[polled st'] g'].
  - by destruct (flights p !! i).
  - destruct (act_advances _ _ a _ Hs) as [Hg _ _]. by destruct a.
Qed.
Lemma segment_keeps cfg path i p :
  process_ok cfg path p →
  keeps (gateway (app (system p))) (gateway (app (system (happen (Resume i) p)))).
Proof.
  intros [Hs Hf _]. cbn [happen]. destruct (flights p !! i) as [f|] eqn:Hi; [|done].
  pose proof (resume_segment (f_stage f) _ (ok_gateway _ _ _ Hs) (proj1 (Hf i f Hi))) as [_ Hk _ _].
  unfold fly. rewrite on_gw_eq. by destruct (resume (f_stage f) _) as [[r|st] g'].
Qed.

(** C2: The invariant of the process, under every interleaving. From a successful
    start, with any number of requests at any of their awaits, some dropped by
    their clients, amid admin requests, Control Node polls, probes, SIGHUPs and
    delays: the runtime is one built from one configuration, connectors, prices,
    models and plugins, with a cache when that enables one; every key is filed under
    its own hash; the admin token, the configuration and its path are those of the
    start; the gateway serves TLS exactly when it was started with TLS, whatever
    rotations there were; the link is in file mode exactly when the start was; and
    every request in flight holds a runtime that was so built once, whose cache still
    exists, however many reloads have happened since. No segment of a request changes the keys, the runtime or the
    TLS material. *)
Theorem concurrent_invariant config path w s p :
  run config path w = Ok s → rtc happens (launch s) p →
  system_ok config path (system p) ∧
  map_Forall (λ _ f, flight_ok (gateway (app (system p))) f) (flights p) ∧
  ∀ i, keeps (gateway (app (system p))) (gateway (app (system (happen (Resume i) p)))).
Proof.
  intros Hs Hr. destruct (reachable_process _ _ _ _ _ Hs Hr) as [Hp _].
  split_and!; [by destruct Hp|by destruct Hp|]. intros i. by eapply segment_keeps.
Qed.

(** An admin request that the admin API lets through: it carries the configured admin
    token, or no token is configured. *)
Definition authorised (cfg : Config) (rq : Request) : Prop :=
  match read_admin_token cfg with Some t => bearer_token (rq_headers rq) = Some t | None => True end.
(** A poll of the Control Node, in api mode. *)
Definition node_poll (cfg : Config) (e : event) : Prop :=
  e = Other ATick ∧ ControlPlane.mode (Config.control_plane cfg) = ControlPlane.Api.
Definition admin_asks (cfg : Config) (what : Request → Prop) (e : event) : Prop :=
  ∃ rq, e = Other (AAdmin rq) ∧ authorised cfg rq ∧ what rq.

Lemma operator_authorised cfg path s rq : system_ok cfg path s → operator rq (app s) → authorised cfg rq.
Proof.
  intros Hs Ho. unfold authorised. rewrite <-(ok_token _ _ _ Hs). unfold operator in Ho.
  destruct (admin_token (app s)); by auto.
Qed.
Lemma flow_keeps i p :
  keeps (gateway (app (system p))) (gateway (app (system (happen (Flow i) p)))).
Proof.
  cbn [happen]. destruct (streams p !! i) as [st|]; [|done].
  pose proof (stream_keeps st (gateway (app (system p)))) as Hk.
  unfold flow. rewrite on_gw_eq. by destruct (poll_stream st _) as [[polled st'] g'].
Qed.

(** C9: Who decides policy, under every interleaving. The virtual keys of a running
    gateway change only by an admin request that creates or revokes a key, or by a
    poll of the Control Node when the start configured api mode; the runtime
    (connectors, models, prices, cache, plugins) only by an admin request for a
    reload, SIGHUP, or such a poll; the TLS material only by an admin request for a
    reload or SIGHUP. When the start configured an admin token, each of those admin
    requests carries it; when it configured none, which is the default, the admin
    API is open and any such request will do. Nothing else changes any of them: no
    segment of a request to the proxy, no streamed answer, no client that goes away,
    no probe, and no other admin request. *)
Theorem policy_authority config path w s p e :
  run config path w = Ok s → rtc happens (launch s) p →
  let g := gateway (app (system p)) in
  let g' := gateway (app (system (happen e p))) in
  (g_keys g' = g_keys g ∨ node_poll config e ∨ admin_asks config manages_keys e) ∧
  (g_runtime g' = g_runtime g ∨ node_poll config e ∨ e = Other ASighup ∨
   admin_asks config asks_reload e) ∧
  (g_tls g' = g_tls g ∨ e = Other ASighup ∨ admin_asks config asks_reload e).
Proof.
  intros Hs Hr. destruct (reachable_process _ _ _ _ _ Hs Hr) as [Hp _]. clear Hs Hr. cbv zeta.
  assert (keeps (gateway (app (system p))) (gateway (app (system (happen e p)))) ∨ ∃ a, e = Other a ∧
    happen e p = mkProcess (act a (system p)) (flights p) (streams p) (departed p)) as [(? & ? & ?)|(a & -> & ->)].
  { destruct e as [i rq|i|i|i|a]; [left; cbn [happen]; by destruct (idle i p)
      |left; by eapply segment_keeps|left; apply flow_keeps|left; cbn [happen]; by destruct (flights p !! i)|].
    destruct a; first [by left | right; by eexists]. }
  - by split_and!; left.
  - cbn [system]. pose proof (proc_system _ _ _ Hp) as Hok. unfold node_poll, admin_asks.
    pose proof (ok_client _ _ _ Hok) as Hc. pose proof (λ rq, operator_authorised _ _ _ rq Hok) as Ha.
    destruct (act_changes a (system p)) as (Hk & Ht & Hl). split_and!.
    + destruct Hk as [Hk|[[-> Hk]|(rq & -> & Ho & Hm)]]; [by left|right; left; auto|right; right; eauto].
    + destruct Ht as [Ht|[[-> Ht]|[->|(rq & -> & Ho & Hm)]]]; [by left|right; left; auto|by right; right; left|].
      right; right; right; eauto.
    + destruct Hl as [Hl|[->|(rq & -> & Ho & Hm)]]; [by left|by right; left|right; right; eauto].
Qed.

(** C3: Conservation of the request metrics, under every interleaving. The two
    request metrics together count exactly the requests that have left and those
    whose answer is only still to be stored: a chat or embeddings request that was
    answered, by a refusal, from the cache, or by the upstream or its failure, is
    counted once; one whose connector panicked never; one dropped by its client
    at most once, and only when the upstream had already answered. *)
Theorem concurrent_count config path w s p :
  run config path w = Ok s → rtc happens (launch s) p →
  tally (process_trace p)
    = tally (system_trace s) + tolled_total (departed p) + aloft_total (flights p) ∧
  Forall tolled_fairly (departed p).
Proof.
  intros Hs Hr. destruct (reachable_process _ _ _ _ _ Hs Hr) as [Hp Hc]. split; [done|by destruct Hp].
Qed.

(** The audit trail is append-only: whatever a running gateway does, in
    whatever interleaving, every event it has emitted, audit events and metrics
    alike, stays in the trace, in place and in order. *)
Theorem concurrent_trail config path w s p1 p2 :
  run config path w = Ok s → rtc happens (launch s) p1 → rtc happens p1 p2 →
  process_trace p1 `prefix_of` process_trace p2.
Proof.
  intros Hs H1' H2'. destruct (reachable_process _ _ _ _ _ Hs H1') as [Hp Hc].
  revert Hp Hc. clear H1'. induction H2' as [p|p p' q [e p0] _ IH]; [done|]. intros Hp Hc.
  destruct (happen_ok _ _ _ e _ Hp Hc) as [Hp' Hc']. etrans; [|by apply IH].
  by destruct (happen_grows _ _ e _ Hp) as [_ ? _ _].
Qed.
End properties.

(** ** Witnesses: two requests in flight on a gateway started on the default
    configuration, reloaded in between *)
#[local] Existing Instances ok_reqwest sample_moka sample_rustls no_usage_serde sample_bedrock_serde
  sample_crypto sample_entropy sample_regex sample_wasmtime sample_env some_hash_order sample_time
  sample_meta sample_figment sample_admin_crates offline_control any_address.
#[local] Instance no_json : SerdeJson := one_document Null.
Definition script : list event :=
  [Arrive 0 sample_rq; Resume 0; Arrive 1 sample_rq; Resume 0; Other ASighup; Resume 1; Resume 0;
   Resume 0; Resume 1; Resume 0; Drop 1; Other (AElapse 1000000)].
Definition unfold_script (s : System) : Process := foldl (λ p e, happen e p) (launch s) script.
Lemma script_happens s : rtc happens (launch s) (unfold_script s).
Proof.
  unfold unfold_script. generalize (launch s). induction script as [|e es IH]; intros p; [apply rtc_refl|].
  eapply rtc_l; [constructor|apply IH].
Qed.
Lemma concurrent_invariant_witness :
  ∃ s, run Config.default None first_world = Ok s ∧
    system_ok Config.default None (system (unfold_script s)).
Proof.
  destruct started as (s & Hs & _). exists s. split; [exact Hs|].
  exact (proj1 (concurrent_invariant Config.default None first_world s _ Hs (script_happens s))).
Defined.
Lemma policy_authority_witness :
  ∃ s, run Config.default None first_world = Ok s ∧
    g_keys (gateway (app (system (happen (Resume 0) (unfold_script s)))))
    = g_keys (gateway (app (system (unfold_script s)))).
Proof.
  destruct started as (s & Hs & _). exists s. split; [exact Hs|].
  destruct (policy_authority Config.default None first_world s _ (Resume 0) Hs (script_happens s))
    as ([Hk|[[He _]|(rq & He & _)]] & _); [exact Hk|discriminate He|discriminate He].
Defined.
Lemma concurrent_count_witness :
  ∃ s, run Config.default None first_world = Ok s ∧
    tally (process_trace (unfold_script s))
      = tally (system_trace s) + tolled_total (departed (unfold_script s))
        + aloft_total (flights (unfold_script s)).
Proof.
  destruct started as (s & Hs & _). exists s. split; [exact Hs|].
  exact (proj1 (concurrent_count Config.default None first_world s _ Hs (script_happens s))).
Defined.
Lemma concurrent_trail_witness :
  ∃ s, run Config.default None first_world = Ok s ∧
    system_trace s `prefix_of` process_trace (unfold_script s).
Proof.
  destruct started as (s & Hs & _). exists s. split; [exact Hs|].
  exact (concurrent_trail Config.default None first_world s (launch s) _ Hs (rtc_refl _ _) (script_happens s)).
Defined.
