(* ===== verification/Ledger.v ===== *)
(** * Ledger: what the running gateway charges

    The spend tracker of the process against the book of its charges, one entry for
    each answer or streamed usage that was priced, one for each revocation. *)

From S2P Require Import Prelude Text Float64 Json Events Auth Limits Plugin Config Provider.
From S2P Require Import OpenAi Anthropic Sse StreamObserver Bedrock Registry Cache Tls Wasm Runtime.
From S2P Require Import Connectors Proxy Billing ControlMap LinkStatus ControlNode Admin System.
From S2P Require Import SystemInvariants Metering Inflight Concurrency.
Import Json.

Section ledger.
Context `{Reqwest} `{Moka} `{Rustls} `{SerdeJson} `{AnthropicSerde} `{BedrockSerde} `{Crypto}
  `{Entropy} `{RegexCrate} `{Wasmtime} `{Env} `{HashOrder} `{TimeCrate} `{MetaSerde}
  `{ControlCrates} `{Config.Figment} `{AdminCrates} `{Addresses}.
Import SpendTracker.

(** ** The entries of one event *)

(** A usage, priced, against a key with a limit. *)
Definition entry (pricing : Pricing) (key_id : string) (limit : option SpendLimit)
    (provider model : string) (usage : option Usage) (now : Z) : list op :=
  match usage ≫= cost.compute pricing provider model, limit with
  | Some c, Some l => [Record_ key_id (period l) c now]
  | _, _ => []
  end.
(** An answer that reports its usage is charged when it arrives, at the prices the
    request started with. *)
Definition flight_entry (st : Stage) (now : Z) : list op :=
  match st with
  | Answered p (Ok up) =>
      entry (Runtime.pricing (p_runtime p)) (VirtualKey.identifier (p_key p))
        (VirtualKey.spend_limit (p_key p)) (ChatResponse.provider up) (ChatResponse.model up)
        (ChatResponse.usage up) now
  | _ => []
  end.
(** A stream is charged by the chunk that completes the first event with a usage. *)
Definition stream_entry (st : UsageObservingStream.UsageObservingStream) (now : Z) : list op :=
  if UsageObservingStream.found_usage st then [] else
  match (poll_body (UsageObservingStream.inner st)).1 with
  | Ready (Some (Ok chunk)) =>
      entry (UsageObservingStream.pricing st) (UsageObservingStream.key_id st)
        (UsageObservingStream.spend_limit st) (UsageObservingStream.provider st)
        (UsageObservingStream.model st)
        (UsageObservingStream.first_usage
           (SseParser.drain (SseParser.feed (UsageObservingStream.parser st) chunk)).1) now
  | _ => []
  end.
(** The key an admin request revokes, whose spend is forgotten. *)
Definition revoked (rq : Request) (s : AppState) : option string :=
  match endpoint (rq_path rq) with
  | Some (Key raw) =>
      let allowed :=
        match admin_token s with Some t => authorized t (rq_headers rq) | None => true end in
      if allowed && bool_decide (rq_method rq = "DELETE") then
        id ← result_ok (path_segment raw);
        if (KeyStore.remove_by_id id (g_keys (gateway s))).1 then Some id else None
      else None
  | _ => None
  end.
Definition admin_entry (rq : Request) (s : AppState) : list op :=
  match revoked rq s with Some id => [Forget id] | None => [] end.

Definition gw (p : Process) : Gateway := gateway (app (system p)).
Definition entries (e : event) (p : Process) : list op :=
  let now := w_now (g_world (gw p)) in
  match e with
  | Resume i => match flights p !! i with Some f => flight_entry (f_stage f) now | None => [] end
  | Flow i => match streams p !! i with Some st => stream_entry st now | None => [] end
  | Other (AAdmin rq) => admin_entry rq (app (system p))
  | _ => []
  end.

(** ** The book of a run *)
Fixpoint plays (es : list event) (p : Process) : Process :=
  match es with [] => p | e :: es => plays es (happen e p) end.
Fixpoint entered (es : list event) (p : Process) : list op :=
  match es with [] => [] | e :: es => entries e p ++ entered es (happen e p) end.

(** The entries made on one connection, and the requests that arrived on it. *)
Definition connection (e : event) : option nat :=
  match e with Arrive i _ | Resume i | Flow i | Drop i => Some i | Other _ => None end.
Fixpoint charges (i : nat) (es : list event) (p : Process) : list op :=
  match es with
  | [] => []
  | e :: es => (if decide (connection e = Some i) then entries e p else []) ++ charges i es (happen e p)
  end.
Definition arrives (i : nat) (e : event) (p : Process) : nat :=
  match e with Arrive j _ => if decide (j = i) then if idle j p then 1 else 0 else 0 | _ => 0 end.
Fixpoint arrivals (i : nat) (es : list event) (p : Process) : nat :=
  match es with [] => 0 | e :: es => arrives i e p + arrivals i es (happen e p) end.

(** How many entries a connection may still make for what it carries. *)
Definition due_flight (st : Stage) : nat :=
  match st with Answered _ (Err _) | Drained _ _ _ => 0 | _ => 1 end.
Definition due_stream (st : UsageObservingStream.UsageObservingStream) : nat :=
  if UsageObservingStream.found_usage st then 0 else 1.
Definition owing (i : nat) (p : Process) : nat :=
  match flights p !! i with Some f => due_flight (f_stage f) | None => 0 end +
  match streams p !! i with Some st => due_stream st | None => 0 end.
End ledger.

(** ** Lemmas: what each step does to the tracker *)
Section lemmas.
Context `{Reqwest} `{Moka} `{Rustls} `{SerdeJson} `{AnthropicSerde} `{BedrockSerde} `{Crypto}
  `{Entropy} `{RegexCrate} `{Wasmtime} `{Env} `{HashOrder} `{TimeCrate} `{MetaSerde}
  `{ControlCrates} `{Config.Figment} `{AdminCrates} `{Addresses}.
Import SpendTracker.

Lemma entry_short pricing id limit provider model usage now :
  length (entry pricing id limit provider model usage now) ≤ 1.
Proof. unfold entry. destruct (usage ≫= _); [destruct limit|]; cbn; lia. Qed.
Lemma bill_entry rt key up usage now tracker :
  bill rt key up usage now tracker
  = foldl apply tracker (entry (Runtime.pricing rt) (VirtualKey.identifier key)
      (VirtualKey.spend_limit key) (ChatResponse.provider up) (ChatResponse.model up) usage now).
Proof. unfold bill, entry. by destruct (usage ≫= _); [destruct (VirtualKey.spend_limit key)|]. Qed.

(** Segments. *)
Lemma settle_spend p a ms g :
  g_spend (settle p a ms g).2 = foldl apply (g_spend g) (flight_entry (Answered p a) (w_now (g_world g))).
Proof.
  unfold settle. destruct a as [up|err]; cbn [flight_entry foldl].
  - rewrite <-bill_entry. refine (settled_spend _ _ _ (Settles_r _ _ _ (account_settles _ _ _ _ _ _) _ g)).
    intros _. apply Settles_still. unfold stay, reply. still.
  - steps. pose proof (upstream_failed_still err ms g) as [? Es _ _ _ _ _]. by destruct (upstream_failed err ms g).
Qed.
Lemma segment_spend st g :
  g_spend (resume st g).2 = foldl apply (g_spend g) (flight_entry st (w_now (g_world g))).
Proof.
  destruct st as [rq|rq key|p|p|p a|h k up]; cbn [resume].
  5:{ steps. rewrite settle_spend. pose proof (elapsed_ms_still (p_start p) g) as [? Es _ _ _ _ Et].
      by rewrite Es, Et. }
  all: cbn [flight_entry foldl].
  - apply (Fixes_bind g_spend); [intros g'; apply authenticate_still|]. by intros [r|key].
  - exact (segment_fixes g_spend (Authenticated rq key) g).
  - exact (segment_fixes g_spend (Cleared p) g).
  - apply (Fixes_bind g_spend); [by apply Fixes_in_world|]. by intros [a|].
  - exact (segment_fixes g_spend (Drained h k up) g).
Qed.

(** Streams. *)
Lemma observe_entry self u now tracker :
  (UsageObservingStream.observe self u now tracker).1
  = foldl apply tracker (entry (UsageObservingStream.pricing self) (UsageObservingStream.key_id self)
      (UsageObservingStream.spend_limit self) (UsageObservingStream.provider self)
      (UsageObservingStream.model self) (Some u) now).
Proof.
  unfold UsageObservingStream.observe, entry. cbn.
  by destruct (cost.compute _ _ _ _); [destruct (UsageObservingStream.spend_limit self)|].
Qed.
(** A poll charges at most one entry, and none once the usage was found. *)
Lemma poll_next_spend st now tracker :
  let '(_, st', tracker', _) := UsageObservingStream.poll_next st now tracker in
  tracker' = foldl apply tracker (stream_entry st now) ∧
  length (stream_entry st now) + due_stream st' ≤ due_stream st.
Proof.
  unfold UsageObservingStream.poll_next, stream_entry, due_stream.
  destruct (poll_body (UsageObservingStream.inner st)) as [polled i]. cbn [fst].
  destruct (UsageObservingStream.found_usage st) eqn:Ef; cbn [negb].
  { destruct polled as [|[[b|e]|]]; cbn; by rewrite ?Ef. }
  destruct polled as [|[[b|e]|]]; cbn [foldl length]; rewrite ?Ef; try (split; [done|cbn; rewrite ?Ef; lia]).
  pose proof (scan_drain _ (SseParser.feed (UsageObservingStream.parser st) b) (Nat.le_refl _)) as [Hs _].
  destruct (UsageObservingStream.scan _ _) as [p [u|]]; cbn [snd] in Hs; rewrite <-Hs.
  - pose proof (observe_entry st u now tracker) as Ho.
    destruct (UsageObservingStream.observe st u now tracker) as [tr eff]. split; [exact Ho|].
    cbn [UsageObservingStream.found_usage UsageObservingStream.set_inner].
    pose proof (entry_short (UsageObservingStream.pricing st) (UsageObservingStream.key_id st)
      (UsageObservingStream.spend_limit st) (UsageObservingStream.provider st)
      (UsageObservingStream.model st) (Some u) now). lia.
  - by split.
Qed.
Lemma stream_spend st g :
  g_spend (poll_stream st g).2 = foldl apply (g_spend g) (stream_entry st (w_now (g_world g))) ∧
  length (stream_entry st (w_now (g_world g))) + due_stream (poll_stream st g).1.2 ≤ due_stream st.
Proof.
  unfold poll_stream. pose proof (poll_next_spend st (w_now (g_world g)) (g_spend g)) as Hp.
  destruct (UsageObservingStream.poll_next _ _ _) as [[[r st'] tr] es]. cbn [fst snd].
  destruct Hp as [-> Hd]. by destruct (Still_emits es (set_spend (foldl apply (g_spend g)
    (stream_entry st (w_now (g_world g)))) g)) as [_ -> _ _ _ _ _].
Qed.

(** What is kept on a key, its spend and its bucket, is forgotten when the admin API
    revokes it. *)
Definition accounts (g : Gateway) : SpendTracker * RateLimiter := (g_spend g, g_limiter g).
Definition settled_accounts (revoked : option string) (g : Gateway) : SpendTracker * RateLimiter :=
  match revoked with
  | Some id => (forget id (g_spend g), RateLimiter.forget id (g_limiter g))
  | None => accounts g
  end.
Lemma reload_accounts path g : accounts (runtime.reload path g).2 = accounts g.
Proof.
  pose proof (reload_spec path g) as Hr. destruct (runtime.reload path g) as [r g1].
  unfold accounts. cbn [snd]. by destruct Hr as (_ & -> & -> & _).
Qed.
Lemma serve_accounts rq e s :
  (∀ raw, e ≠ Key raw) → accounts (gateway (serve rq e s).2) = accounts (gateway s).
Proof.
  intros He. unfold serve, with_segment. destruct e; try (by case_match); try (by destruct (He raw_id));
    repeat case_match; try done.
  - rewrite create_key_eq. by case_match.
  - unfold fmap, M_fmap, reload_config, get_state. steps.
    destruct (config_path s) as [path|]; [|done]. steps. rewrite on_gw_eq. cbn [fst snd].
    rewrite <-(reload_accounts (Some path) (gateway s)).
    destruct (runtime.reload (Some path) (gateway s)) as [[u|err] g1]; cbn [fst snd]; steps; by rewrite on_gw_eq.
Qed.
Lemma admin_accounts rq s :
  accounts (gateway (Admin.handle rq s).2) = settled_accounts (revoked rq s) (gateway s).
Proof.
  unfold Admin.handle, revoked. destruct (endpoint (rq_path rq)) as [e|]; [|done].
  destruct (is_probe e) eqn:Ep.
  { rewrite serve_accounts by (intros raw ->; done). by destruct e. }
  unfold require_admin_token, gets. steps.
  set (allowed := match admin_token s with Some t => authorized t (rq_headers rq) | None => true end).
  assert (∀ b : bool, b = allowed →
    accounts (gateway (if b then serve rq e s else (mret (Some (text 401 "unauthorized")) : App _) s).2)
    = settled_accounts match e with
        | Key raw => if allowed && bool_decide (rq_method rq = "DELETE") then
            id ← result_ok (path_segment raw);
            if (KeyStore.remove_by_id id (g_keys (gateway s))).1 then Some id else None else None
        | _ => None end (gateway s)) as Hgo.
  { intros b ->. destruct allowed; [|by destruct e]. cbn [andb].
    destruct e as [| | | | |raw| | |]; try (by rewrite serve_accounts).
    unfold serve, with_segment. case_bool_decide; [|done].
    destruct (path_segment raw) as [id|r]; cbn [result_ok mbind option_bind]; [|done].
    unfold fmap, M_fmap. rewrite delete_key_eq. by destruct (KeyStore.remove_by_id id _) as [[] keys]. }
  subst allowed. destruct (admin_token s) as [t|]; [|exact (Hgo true eq_refl)].
  specialize (Hgo (authorized t (rq_headers rq)) eq_refl). by destruct (authorized t (rq_headers rq)).
Qed.

(** Everything else leaves them alone. *)
Lemma in_world_accounts {A} (c : W A) g : accounts (in_world c g).2 = accounts g.
Proof. unfold in_world, zoom. by destruct (c _). Qed.
Lemma act_accounts a s :
  (∀ rq, a ≠ AProxy rq) → (∀ st, a ≠ AStream st) →
  accounts (gateway (app (act a s)))
  = settled_accounts match a with AAdmin rq => revoked rq (app s) | _ => None end (gateway (app s)).
Proof.
  intros Hp Hst. destruct a as [rq|st|rq| | | | |nanos]; cbn [act]; unfold on_app, on_node.
  - by destruct (Hp rq).
  - by destruct (Hst st).
  - apply admin_accounts.
  - destruct (poller s) as [[[client base] interval]|]; [|done].
    unfold settled_accounts, accounts. destruct (log_identity_spec (as_node (app s) client)) as (_ & Hs & Hl & _).
    cbn in *. congruence.
  - destruct (poller s) as [[[client base] interval]|]; [|done].
    pose proof (tick_spec base (as_node (app s) client)) as Ht.
    destruct (poll_config base _) as [rc n1], (poll_keys n1) as [rk n2].
    destruct Ht as ((_ & Hl & Hs & _) & _). unfold settled_accounts, accounts. cbn in *. congruence.
  - rewrite probe_eq. apply in_world_accounts.
  - rewrite reload_signal_eq. apply reload_accounts.
  - rewrite on_gw_eq. apply in_world_accounts.
Qed.
Lemma act_spend a s :
  (∀ rq, a ≠ AProxy rq) → (∀ st, a ≠ AStream st) →
  g_spend (gateway (app (act a s)))
  = foldl apply (g_spend (gateway (app s))) match a with AAdmin rq => admin_entry rq (app s) | _ => [] end.
Proof.
  intros Hp Hst. pose proof (f_equal fst (act_accounts a s Hp Hst)) as E. cbn [accounts fst] in E. rewrite E.
  destruct a; try done. unfold admin_entry. by destruct (revoked _ _).
Qed.

Lemma happen_spend e p :
  g_spend (gw (happen e p)) = foldl apply (g_spend (gw p)) (entries e p).
Proof.
  unfold gw. destruct e as [i rq|i|i|i|a]; cbn [happen entries].
  - by destruct (idle i p).
  - destruct (flights p !! i) as [f|]; [|done].
    rewrite <-segment_spend. unfold fly. rewrite on_gw_eq.
    by destruct (resume (f_stage f) _) as [[r|st] g'].
  - destruct (streams p !! i) as [st|]; [|done].
    rewrite <-(proj1 (stream_spend st _)). unfold flow. rewrite on_gw_eq.
    by destruct (poll_stream st _) as [[polled st'] g'].
  - by destruct (flights p !! i).
  - destruct a as [rq|st|rq| | | | |n]; try done; cbn [system]; by rewrite act_spend.
Qed.

(** ** What a connection owes *)
Lemma due_flight_le st : due_flight st ≤ 1.
Proof. destruct st as [| | | |p [|]|]; cbn; lia. Qed.
Lemma due_stream_le st : due_stream st ≤ 1.
Proof. unfold due_stream. case_match; lia. Qed.
Lemma flight_entry_due st now : length (flight_entry st now) ≤ due_flight st.
Proof. destruct st as [| | | |p [up|]|]; cbn [flight_entry due_flight length]; try lia. apply entry_short. Qed.
Definition due_response (r : option Response) : nat :=
  match observed r with Some st => due_stream st | None => 0 end.
Lemma due_unobserved r : unobserved r → due_response (Some r) = 0.
Proof.
  intros Hu. unfold due_response, observed. cbn. destruct (Response.body r) eqn:E; try done.
  by destruct (Hu s).
Qed.
Lemma due_response_le r : due_response r ≤ 1.
Proof. unfold due_response. case_match; [apply due_stream_le|lia]. Qed.

(** What a segment leaves to be charged, with what it charged, was due before. *)
Lemma segment_due st g n :
  stage_ok n st →
  length (flight_entry st (w_now (g_world g)))
  + match (resume st g).1 with inl r => due_response r | inr st' => due_flight st' end
  ≤ due_flight st.
Proof.
  destruct st as [rq|rq key|p|p|p [up|err]|h k up]; cbn [stage_ok].
  1-4: intros _; cbn [flight_entry length due_flight]; case_match;
    first [apply due_response_le|apply due_flight_le].
  - intros [_ Ho]. specialize (Ho up eq_refl). cbn [resume due_flight]. steps. unfold settle. steps.
    pose proof (flight_entry_due (Answered p (Ok up)) (w_now (g_world g))) as Hl. cbn [due_flight] in Hl.
    assert (length (flight_entry (Answered p (Ok up)) (w_now (g_world g))) +
      due_response (Some (build_response (ChatResponse.status up) (ChatResponse.content_type up)
        (p_relay p up) "MISS")) ≤ 1) as Hp.
    { destruct (build_response_body (ChatResponse.status up) (ChatResponse.content_type up)
        (p_relay p up) "MISS") as [Hu|E]; [rewrite due_unobserved by done; lia|].
      destruct Ho as [Hn|[_ Eu]].
      - rewrite due_unobserved; [lia|]. intros st. rewrite E. apply Hn.
      - cbn [flight_entry]. unfold entry. rewrite Eu. cbn [mbind option_bind length].
        apply due_response_le. }
    destruct (p_cache_key p), (Runtime.cache (p_runtime p)); try exact Hp.
    destruct (_ =? 200)%Z; [|exact Hp]. cbn [stay mret M_ret fst due_flight]. lia.
  - intros _. cbn [resume flight_entry length due_flight]. steps. unfold settle. steps.
    unfold reply. cbn [mret M_ret fst]. rewrite due_unobserved; [done|].
    unfold upstream_failed, upstream_error_response. steps. intros st. by destruct err.
  - intros _. cbn [resume flight_entry length due_flight]. steps. unfold reply. cbn [mret M_ret fst].
    by rewrite due_unobserved by apply store_unobserved.
Qed.

Definition due_on (i : nat) (e : event) (p : Process) : list op :=
  if decide (connection e = Some i) then entries e p else [].
Lemma happen_elsewhere i e p :
  connection e ≠ Some i → flights (happen e p) !! i = flights p !! i ∧ streams (happen e p) !! i = streams p !! i.
Proof.
  destruct e as [j rq|j|j|j|a]; cbn [connection happen]; intros Hn; try assert (j ≠ i) by congruence.
  - destruct (idle j p); [|done]. cbn. by rewrite lookup_insert_ne.
  - destruct (flights p !! j) as [f|]; [|done]. unfold fly. rewrite on_gw_eq.
    destruct (resume (f_stage f) _) as [[r|st] g']; cbn; [|by rewrite lookup_insert_ne].
    by rewrite lookup_delete_ne, lookup_partial_alter_ne.
  - destruct (streams p !! j) as [st|]; [|done]. unfold flow. rewrite on_gw_eq.
    destruct (poll_stream st _) as [[polled st'] g']; cbn.
    by destruct (ended polled); rewrite ?lookup_delete_ne, ?lookup_insert_ne.
  - destruct (flights p !! j); cbn; by rewrite lookup_delete_ne.
  - by destruct a.
Qed.
Lemma happen_due cfg path i e p :
  process_ok cfg path p →
  length (due_on i e p) + owing i (happen e p) ≤ owing i p + arrives i e p.
Proof.
  intros [_ Hf _]. unfold due_on. destruct (decide (connection e = Some i)) as [Hc|Hn].
  2:{ unfold owing. destruct (happen_elsewhere i e p Hn) as [-> ->]. cbn. lia. }
  unfold owing. destruct e as [j rq|j|j|j|a]; try done; cbn [connection] in Hc; injection Hc as ->;
    cbn [happen entries arrives]; rewrite ?decide_True by done.
  - unfold idle. destruct (flights p !! i) eqn:E1, (streams p !! i) eqn:E2; cbn;
      rewrite ?E1, ?E2, ?lookup_insert_eq; cbn; lia.
  - destruct (flights p !! i) as [f|] eqn:E1; [|rewrite E1; cbn; lia].
    pose proof (segment_due (f_stage f) (gw p) _ (proj1 (Hf i f E1))) as Hd. unfold fly. rewrite on_gw_eq.
    unfold gw in Hd. destruct (resume (f_stage f) _) as [[r|st] g']; cbn [fst snd flights streams] in *.
    + rewrite lookup_delete_eq, lookup_partial_alter_eq. unfold due_response in Hd. unfold gw.
      destruct (observed r); lia.
    + rewrite lookup_insert_eq. cbn [f_stage]. unfold gw. lia.
  - destruct (streams p !! i) as [st|] eqn:E2; [|rewrite E2; cbn; lia].
    pose proof (proj2 (stream_spend st (gw p))) as Hd. unfold flow. rewrite on_gw_eq.
    unfold gw in *. destruct (poll_stream st _) as [[polled st'] g']; cbn [fst snd flights streams] in *.
    destruct (ended polled); rewrite ?lookup_delete_eq, ?lookup_insert_eq; lia.
  - destruct (flights p !! i) as [f|] eqn:E1; cbn [flights streams length];
      rewrite ?E1, ?lookup_delete_eq; lia.
Qed.

Lemma plays_ok config path n es p :
  process_ok config path p → conserved n p → process_ok config path (plays es p) ∧ conserved n (plays es p).
Proof.
  revert p. induction es as [|e es IH]; intros p Hp Hc; [done|]. cbn [plays].
  destruct (happen_ok _ _ _ e _ Hp Hc) as [Hp' Hc']. by apply IH.
Qed.
Lemma book_spend es p : g_spend (gw (plays es p)) = foldl apply (g_spend (gw p)) (entered es p).
Proof.
  revert p. induction es as [|e es IH]; intros p; [done|]. cbn [plays entered].
  by rewrite IH, happen_spend, foldl_app.
Qed.
Lemma charges_due config path n i es p :
  process_ok config path p → conserved n p →
  length (charges i es p) + owing i (plays es p) ≤ owing i p + arrivals i es p.
Proof.
  revert p. induction es as [|e es IH]; intros p Hp Hc; [cbn; lia|]. cbn [charges plays arrivals].
  rewrite length_app. destruct (happen_ok _ _ _ e _ Hp Hc) as [Hp' Hc'].
  specialize (IH _ Hp' Hc'). pose proof (happen_due _ _ i e p Hp) as Hd. unfold due_on in Hd. lia.
Qed.
(** Every charge is made on a connection; the rest of the book is revocations. *)
Lemma book_charges es p o :
  o ∈ entered es p → (∃ i, o ∈ charges i es p) ∨ ∃ id, o = Forget id.
Proof.
  revert p. induction es as [|e es IH]; intros p; cbn [entered charges]; [by rewrite elem_of_nil|].
  rewrite elem_of_app. intros [Ho|Ho].
  - destruct (connection e) as [i|] eqn:Ec.
    + left. exists i. rewrite decide_True, elem_of_app by done. by left.
    + right. destruct e as [| | | |[]]; try done; cbn [entries] in Ho; try by apply elem_of_nil in Ho.
      unfold admin_entry in Ho. destruct (revoked _ _) as [id|]; [|by apply elem_of_nil in Ho].
      exists id. by apply list_elem_of_singleton in Ho.
  - apply IH in Ho as [[i Ho]|Ho]; [|by right]. left. exists i. rewrite elem_of_app. by right.
Qed.
End lemmas.

(** ** Properties *)
Section properties.
Context `{Reqwest} `{Moka} `{Rustls} `{SerdeJson} `{AnthropicSerde} `{BedrockSerde} `{Crypto}
  `{Entropy} `{RegexCrate} `{Wasmtime} `{Env} `{HashOrder} `{TimeCrate} `{MetaSerde}
  `{ControlCrates} `{Config.Figment} `{AdminCrates} `{Addresses}.

Lemma run_spend config path w s : run config path w = Ok s → g_spend (gateway (app s)) = ∅.
Proof.
  intros (rt & g & tls & Hf & ->)%run_frame. exact (frame_spend _ _ Hf).
Qed.

(** C4: The spend of the whole gateway, under every interleaving of requests,
    streams, drops, admin requests, reloads and polls of the Control Node. The
    tracker is that of the entries made, in the order they were made: an answer that
    reports its usage is entered when it arrives, at the prices its request started
    with and against the key it was admitted under; a stream when a chunk completes
    its first event with a usage; a revocation forgets the key. And each request
    makes at most one entry, from its arrival to the end of its stream: whenever one
    looks, a connection has no more entries ahead of it than requests still to
    arrive on it, and one for the request it carries, if that was not charged yet. *)
Theorem spend_is_what_was_used config path w s es es' :
  run config path w = Ok s →
  let p := plays es (launch s) in
  g_spend (gateway (app (system p))) = SpendTracker.run (entered es (launch s)) ∧
  (∀ o, o ∈ entered es (launch s) →
     (∃ i, o ∈ charges i es (launch s)) ∨ ∃ id, o = SpendTracker.Forget id) ∧
  ∀ i, length (charges i es' p) + owing i (plays es' p) ≤ owing i p + arrivals i es' p.
Proof.
  intros Hs. cbn zeta. pose proof (run_spend _ _ _ _ Hs) as He.
  destruct (reachable_process _ _ _ _ _ Hs (rtc_refl _ _)) as [Hp Hc]. split_and!.
  - change (g_spend (gw (plays es (launch s))) = foldl SpendTracker.apply ∅ (entered es (launch s))).
    rewrite book_spend. unfold gw, launch. cbn [system]. by rewrite He.
  - apply book_charges.
  - intros i. destruct (plays_ok _ _ _ es _ Hp Hc) as [Hp' Hc']. by eapply charges_due.
Qed.
End properties.

(** ** Witness: the script of [Concurrency], and then a stream cut short *)
#[local] Existing Instances ok_reqwest sample_moka sample_rustls no_usage_serde sample_bedrock_serde
  sample_crypto sample_entropy sample_regex sample_wasmtime sample_env some_hash_order sample_time
  sample_meta sample_figment sample_admin_crates offline_control any_address.
#[local] Instance no_documents : SerdeJson := one_document Null.
Lemma spend_is_what_was_used_witness :
  ∃ s, run Config.default None first_world = Ok s ∧
    g_spend (gateway (app (system (plays script (launch s))))) = SpendTracker.run (entered script (launch s)).
Proof.
  destruct started as (s & Hs & _). exists s. split; [exact Hs|].
  exact (proj1 (spend_is_what_was_used Config.default None first_world s script [] Hs)).
Defined.

(** A streamed answer of a thousand tokens, a dollar's worth, for a key with one
    dollar a day. *)
#[local] Instance usage_documents : SerdeJson :=
  one_document (obj [("usage", obj [("prompt_tokens", uint 1000); ("completion_tokens", uint 0)])]).
Definition streaming_meta : MetaSerde :=
  {| chat_meta_from_slice _ := Ok (ChatMeta.mk (Some "gpt-4o") true);
     embeddings_meta_from_slice _ := Err "unused"; header_value_ok _ := true |}.
#[local] Existing Instance streaming_meta.
Definition streaming_connector : Connector :=
  mkConnector "openai"
    (λ q, mret (Some (Ok (ChatResponse.mk 200 None
       [PItem (Ok (as_bytes "data: hello")); PItem (Ok [lf; lf]); PItem (Ok (as_bytes "data: again")); PItem (Ok [lf; lf])]
       "openai" (ChatRequest.model q) None 1))))
    (λ q, mret None) (mret true).
Definition streaming_process : Process :=
  launch (mkSystem (mkAppState 0 true None Config.default None
    (mkGateway first_world [] {["tok" :=
         VirtualKey.mk "vp_1" "tok" "team" "app" "prod" [] None (Some (mkSpendLimit F64.one Day)) None]} ∅ ∅
       (Runtime.mk streaming_connector
          (Pricing.mk {["openai" := {["gpt-4o" := Pricing.price 1 0 1 0]}]}) None [] []) None)
    StatusHandle.file) None).
Definition streamed_rq : Request :=
  mkRequest "POST" "/v1/chat/completions" [("authorization", as_bytes "Bearer tok")] [].
Definition to_the_body : list event := Arrive 0 streamed_rq :: repeat (Resume 0) 5.
Definition day_spend (p : Process) : f64 := SpendTracker.current_usd (g_spend (gw p)) "vp_1" Day 0.
(** Read to its end it is charged once, at the second chunk, though two events carry
    a usage; closed by the client after the first chunk it is free. *)
Example read_to_the_end :
  let es := to_the_body ++ repeat (Flow 0) 5 in
  day_spend (plays es streaming_process) = F64.one ∧
  length (charges 0 es streaming_process) = 1 ∧
  length (charges 0 (to_the_body ++ [Flow 0; Flow 0]) streaming_process) = 1.
Proof. vm_compute. done. Qed.
Example cut_short :
  let es := to_the_body ++ [Flow 0; Drop 0; Flow 0] in
  day_spend (plays es streaming_process) = F64.zero ∧ charges 0 es streaming_process = [].
Proof. vm_compute. done. Qed.
