(* ===== verification/Admissions.v ===== *)
(** * Admissions: how many requests the running gateway lets through

    The rate limiter of the process against the book of its checks, one for each
    request that reaches its limit, one for each revocation; and the number of
    requests of a key that pass within a stretch of time, under every interleaving. *)

From S2P Require Import Prelude Text Float64 Json Events Auth Limits RateWindow Plugin Config Provider.
From S2P Require Import OpenAi Anthropic Sse StreamObserver Bedrock Registry Cache Tls Wasm Runtime.
From S2P Require Import Connectors Proxy Billing ControlMap LinkStatus ControlNode Admin System.
From S2P Require Import SystemInvariants Metering Inflight Concurrency Ledger.
Import Json LimiterOps.

Section admissions.
Context `{Reqwest} `{Moka} `{Rustls} `{SerdeJson} `{AnthropicSerde} `{BedrockSerde} `{Crypto}
  `{Entropy} `{RegexCrate} `{Wasmtime} `{Env} `{HashOrder} `{TimeCrate} `{MetaSerde}
  `{ControlCrates} `{Config.Figment} `{AdminCrates} `{Addresses}.

(** The key a request is checked under, and its rate: that of a live key with a
    rate limit. *)
Definition limited (key : VirtualKey) (now : Z) : option (string * Z) :=
  if VirtualKey.is_expired now key then None
  else pair (VirtualKey.identifier key) <$> VirtualKey.rate_limit_rps key.
Definition request_checks (rq : Request) (g : Gateway) : list op :=
  let now := w_now (g_world g) in
  match (present_key (rq_headers rq) g).1 ≫= λ key, limited key now with
  | Some (id, rps) => [Check_ id rps now now]
  | None => []
  end.
Definition stage_checks (st : Stage) (g : Gateway) : list op :=
  match st with Arrived rq => request_checks rq g | _ => [] end.
Definition checks (e : event) (p : Process) : list op :=
  match e with
  | Resume i => match flights p !! i with Some f => stage_checks (f_stage f) (gw p) | None => [] end
  | Other (AAdmin rq) =>
      match revoked rq (app (system p)) with Some id => [Forget id] | None => [] end
  | _ => []
  end.
Fixpoint checked (es : list event) (p : Process) : list op :=
  match es with [] => [] | e :: es => checks e p ++ checked es (happen e p) end.

(** An event that takes a request past the middleware, under a key with a rate
    limit identified by [k]; and how many do. *)
Definition passed (k : string) (st st' : Stage) : bool :=
  match st, st' with
  | Arrived _, Authenticated _ key =>
      bool_decide (VirtualKey.identifier key = k ∧ is_Some (VirtualKey.rate_limit_rps key))
  | _, _ => false
  end.
Definition admits (k : string) (e : event) (p : Process) : bool :=
  match e with
  | Resume i =>
      match flights p !! i, flights (happen e p) !! i with
      | Some f, Some f' => passed k (f_stage f) (f_stage f')
      | _, _ => false
      end
  | _ => false
  end.
Fixpoint admissions (k : string) (es : list event) (p : Process) : Z :=
  match es with [] => 0 | e :: es => (if admits k e p then 1 else 0) + admissions k es (happen e p) end.
Definition time (p : Process) : Z := w_now (g_world (gw p)).
End admissions.

(** ** Lemmas: who touches the limiter *)
Section lemmas.
Context `{Reqwest} `{Moka} `{Rustls} `{SerdeJson} `{AnthropicSerde} `{BedrockSerde} `{Crypto}
  `{Entropy} `{RegexCrate} `{Wasmtime} `{Env} `{HashOrder} `{TimeCrate} `{MetaSerde}
  `{ControlCrates} `{Config.Figment} `{AdminCrates} `{Addresses}.

Lemma present_key_eq headers g : present_key headers g = ((present_key headers g).1, g).
Proof. done. Qed.
(** The middleware makes the check that is booked, and passes the request if it
    passes. *)
Lemma middleware_segment rq g :
  g_limiter (resume (Arrived rq) g).2 = foldl apply (g_limiter g) (request_checks rq g) ∧
  ∀ k, (match (resume (Arrived rq) g).1 with inr st => passed k (Arrived rq) st | inl _ => false end)
    = existsb (λ o, passes k o (g_limiter g)) (request_checks rq g).
Proof.
  cbn [resume]. unfold authenticate, request_checks, record_rejection, g_now, gets. steps.
  rewrite present_key_eq. cbn [fst snd].
  destruct (present_key (rq_headers rq) g).1 as [key|]; cbn [mbind option_bind]; steps; [|done].
  unfold limited. destruct (VirtualKey.is_expired _ key); steps; [done|].
  unfold within_rate. destruct (VirtualKey.rate_limit_rps key) as [rps|] eqn:Er; cbn [fmap option_fmap option_map].
  - cbn [foldl apply existsb passes].
    destruct (RateLimiter.check (VirtualKey.identifier key) rps _ _ (g_limiter g)) as [[] bs];
      cbn [fst snd]; steps; (split; [done|]); intros k; cbn [mret M_ret reply stay fst passed];
      rewrite orb_false_r, ?andb_true_r, ?andb_false_r; [|done].
    rewrite Er. apply bool_decide_ext. split; [by intros [? _]|]. by eauto.
  - split; [done|]. intros k. cbn [fst snd mret M_ret stay passed]. rewrite Er.
    rewrite bool_decide_false; [done|]. by intros [_ [? ?]].
Qed.
Lemma segment_limiter st g :
  g_limiter (resume st g).2 = foldl apply (g_limiter g) (stage_checks st g).
Proof.
  destruct st as [rq|rq key|p|p|p a|h k up]; cbn [stage_checks foldl]; [apply middleware_segment|..].
  - exact (segment_fixes g_limiter (Authenticated rq key) g).
  - exact (segment_fixes g_limiter (Cleared p) g).
  - apply (Fixes_bind g_limiter); [by apply Fixes_in_world|]. by intros [a|].
  - by apply answered_fixes.
  - exact (segment_fixes g_limiter (Drained h k up) g).
Qed.
Lemma stream_limiter st g : g_limiter (poll_stream st g).2 = g_limiter g.
Proof.
  unfold poll_stream. destruct (UsageObservingStream.poll_next _ _ _) as [[[r st'] tr] es].
  exact (Fixes_emits g_limiter es (set_spend tr g)).
Qed.

Lemma happen_limiter e p : g_limiter (gw (happen e p)) = foldl apply (g_limiter (gw p)) (checks e p).
Proof.
  unfold gw. destruct e as [i rq|i|i|i|a]; cbn [happen checks].
  - by destruct (idle i p).
  - destruct (flights p !! i) as [f|]; [|done]. rewrite <-segment_limiter. unfold fly. rewrite on_gw_eq.
    by destruct (resume (f_stage f) _) as [[r|st] g'].
  - destruct (streams p !! i) as [st|]; [|done]. rewrite <-(stream_limiter st (gateway (app (system p)))). unfold flow. rewrite on_gw_eq.
    cbn [foldl]. by destruct (poll_stream st _) as [[polled st'] g'].
  - by destruct (flights p !! i).
  - destruct a as [rq|st|rq| | | | |n]; try done; cbn [system];
      match goal with |- g_limiter (gateway (app (act ?a ?s))) = _ =>
        pose proof (f_equal snd (act_accounts a s ltac:(done) ltac:(done))) as E end;
      cbn [accounts snd] in E; rewrite E; [|done..]. by destruct (revoked _ _).
Qed.
End lemmas.

(** ** Lemmas: the book and the clock *)
Section book.
Context `{Reqwest} `{Moka} `{Rustls} `{SerdeJson} `{AnthropicSerde} `{BedrockSerde} `{Crypto}
  `{Entropy} `{RegexCrate} `{Wasmtime} `{Env} `{HashOrder} `{TimeCrate} `{MetaSerde}
  `{ControlCrates} `{Config.Figment} `{AdminCrates} `{Addresses}.
Local Open Scope Z_scope.

Lemma stage_checks_short st g :
  stage_checks st g = [] ∨
  ∃ id rps, stage_checks st g = [Check_ id rps (w_now (g_world g)) (w_now (g_world g))].
Proof.
  destruct st; try by left. cbn. unfold request_checks.
  destruct (_ ≫= _) as [[id rps]|]; [right; eauto|by left].
Qed.
(** The book of one event is empty, a check at the present, or a revocation. *)
Lemma checks_cases e p :
  checks e p = [] ∨ (∃ id rps, checks e p = [Check_ id rps (time p) (time p)]) ∨
  ∃ id, checks e p = [Forget id].
Proof.
  destruct e as [i rq|i|i|i|a]; cbn [checks]; try by left.
  - destruct (flights p !! i) as [f|]; [|by left].
    destruct (stage_checks_short (f_stage f) (gw p)) as [->|(id & rps & ->)]; [by left|]. right. left. eauto.
  - destruct a; try by left. destruct (revoked _ _) as [id|]; [|by left]. right. right. eauto.
Qed.
Lemma stage_passes st g k :
  match (resume st g).1 with inr st' => passed k st st' | inl _ => false end
  = existsb (λ o, passes k o (g_limiter g)) (stage_checks st g).
Proof. destruct st; [apply middleware_segment|..]; cbn [stage_checks existsb]; by case_match. Qed.
Lemma admits_passes k e p :
  admits k e p = existsb (λ o, passes k o (g_limiter (gw p))) (checks e p).
Proof.
  destruct e as [i rq|i|i|i|a]; cbn [admits checks]; try done.
  - cbn [happen]. destruct (flights p !! i) as [f|] eqn:Ef; [|done].
    rewrite <-stage_passes. unfold fly, gw. rewrite on_gw_eq.
    destruct (resume (f_stage f) _) as [[r|st] g']; cbn [fst flights].
    + by rewrite lookup_delete_eq.
    + by rewrite lookup_insert_eq.
  - destruct a; try done. by destruct (revoked _ _).
Qed.
Lemma admitted_checks k e p ops :
  admitted k (checks e p ++ ops) (g_limiter (gw p))
  = (if admits k e p then 1 else 0) + admitted k ops (g_limiter (gw (happen e p))).
Proof.
  rewrite admits_passes, happen_limiter.
  destruct (checks_cases e p) as [->|[(id & rps & ->)|[id ->]]]; cbn [app admitted existsb foldl];
    rewrite ?orb_false_r; done.
Qed.
Lemma admissions_admitted k es p :
  admissions k es p = admitted k (checked es p) (g_limiter (gw p)).
Proof.
  revert p. induction es as [|e es IH]; intros p; [done|]. cbn [admissions checked].
  by rewrite admitted_checks, IH.
Qed.
Lemma checked_limiter es p : g_limiter (gw (plays es p)) = LimiterOps.run (checked es p) (g_limiter (gw p)).
Proof.
  unfold LimiterOps.run. revert p. induction es as [|e es IH]; intros p; [done|]. cbn [plays checked].
  by rewrite IH, happen_limiter, foldl_app.
Qed.
Lemma plays_app es es' p : plays (es ++ es') p = plays es' (plays es p).
Proof. revert p. induction es as [|e es IH]; intros p; [done|]. apply IH. Qed.
Lemma checked_app es es' p : checked (es ++ es') p = checked es p ++ checked es' (plays es p).
Proof.
  revert p. induction es as [|e es IH]; intros p; [done|]. rewrite <-app_comm_cons. cbn [checked plays].
  by rewrite IH, app_assoc.
Qed.

Lemma within_weaken k s t t' ops : s ≤ t → within k t t' ops → within k s t' ops.
Proof.
  revert s t. induction ops as [|[k' r now0 now|k'] ops IH]; intros s t Hs; cbn; [lia| |].
  - case_decide; [intros [? ?]; split; [lia|done]|by apply IH].
  - intros [? ?]. split; [done|]. by eapply IH.
Qed.
(** The clock never goes back, so the book is in order. *)
Lemma checked_within config path n k es p :
  process_ok config path p → conserved n p → Forget k ∉ checked es p →
  within k (time p) (time (plays es p)) (checked es p).
Proof.
  revert p. induction es as [|e es IH]; intros p Hp Hc; [intros _; cbn; lia|]. cbn [checked plays].
  rewrite not_elem_of_app. intros [Hk Hks]. destruct (happen_ok _ _ _ e _ Hp Hc) as [Hp' Hc'].
  pose proof (grows_now _ _ (happen_grows _ _ e _ Hp)) as Ht. specialize (IH _ Hp' Hc' Hks).
  change (time p ≤ time (happen e p)) in Ht. eapply within_weaken in IH; [|exact Ht].
  destruct (checks_cases e p) as [E|[(id & rps & E)|[id E]]]; rewrite E in *; cbn [Datatypes.app within]; [done| |].
  - case_decide; [|done]. split; [lia|done].
  - split; [|done]. intros ->. apply Hk, list_elem_of_singleton. done.
Qed.
Lemma run_limiter config path w s : System.run config path w = Ok s → g_limiter (gateway (app s)) = ∅.
Proof.
  intros (rt & g & tls & Hf & ->)%run_frame. exact (frame_limiter _ _ Hf).
Qed.
End book.

(** ** Properties *)
Section properties.
Context `{Reqwest} `{Moka} `{Rustls} `{SerdeJson} `{AnthropicSerde} `{BedrockSerde} `{Crypto}
  `{Entropy} `{RegexCrate} `{Wasmtime} `{Env} `{HashOrder} `{TimeCrate} `{MetaSerde}
  `{ControlCrates} `{Config.Figment} `{AdminCrates} `{Addresses}.
Local Open Scope Z_scope.

(** C19: The rate limit of the whole gateway, under every interleaving of requests,
    streams, drops, admin requests, reloads and polls of the Control Node, rounding
    included. From any state the process reaches, over any further events in which
    the key is not revoked, the requests that pass the middleware under a rate-limited
    key are at most [rps * (1 + d / 10^9)] in [d] nanoseconds, up to one part in
    2^50 for the rounding of the elapsed time and of each of the [asked] checks. The
    rate is the one the key's bucket has, and for a key without a bucket the one the
    requests come with. And the limiter is that of the book: nothing but the requests
    that reach their limit and the revocations touches it. *)
Theorem requests_admitted_within_rate config path w s es0 es k rps :
  System.run config path w = Ok s → in_u32 rps →
  Forall checked_u32 (checked (es0 ++ es) (launch s)) →
  let p := plays es0 (launch s) in
  let p' := plays es p in
  Forget k ∉ checked es p → rated k rps (checked es p) (g_limiter (gateway (app (system p)))) →
  2 ^ 50 * 1000000000 * admissions k es p ≤
    rps * (2 ^ 50 * 1000000000 + (2 ^ 50 + 1) * (time p' - time p)
           + 1000000000 * asked k (checked es p)) ∧
  g_limiter (gateway (app (system p'))) = LimiterOps.run (checked (es0 ++ es) (launch s)) ∅.
Proof.
  intros Hs Hrps Hu. cbn zeta. intros Hk Hrt. pose proof (run_limiter _ _ _ _ Hs) as He.
  destruct (reachable_process _ _ _ _ _ Hs (rtc_refl _ _)) as [Hl Hc0].
  destruct (plays_ok _ _ _ es0 _ Hl Hc0) as [Hp Hc].
  pose proof (checked_within _ _ _ _ _ _ Hp Hc Hk) as Hw.
  pose proof (checked_limiter es0 (launch s)) as Hl0. unfold gw in Hl0.
  change (g_limiter _) with (g_limiter (gateway (app (system (launch s))))) in He.
  rewrite checked_app in Hu. apply Forall_app in Hu as [Hu0 Hu1]. split.
  - rewrite admissions_admitted. apply (window_bound k rps (time (plays es0 (launch s)))); [done..| | |done|].
    + unfold gw. rewrite Hl0, He. apply run_buckets_ok; [done|apply map_Forall_empty].
    + pose proof (within_order _ _ _ _ Hw). lia.
    + by replace (time _ + (time _ - time _)) with (time (plays es (plays es0 (launch s)))) by lia.
  - rewrite <-plays_app. rewrite <-He. apply (checked_limiter (es0 ++ es)).
Qed.
End properties.

(** ** Witness: four requests under a key with two a second, the last after half a
    second *)
#[local] Existing Instances ok_reqwest sample_moka sample_rustls no_usage_serde sample_bedrock_serde
  sample_crypto sample_entropy sample_regex sample_wasmtime sample_env some_hash_order sample_time
  sample_meta sample_figment sample_admin_crates offline_control any_address.
#[local] Instance no_documents : SerdeJson := one_document Null.
Definition two_a_second : Config :=
  Config.mk Listen.default Providers.default
    (AuthConfig.mk "VAULTPLANE_ADMIN_TOKEN"
       [VirtualKey.mk "vp_1" "tok" "team" "app" "prod" [] (Some 2%Z) None None])
    [] Pricing.default CacheConfig.default [] ControlPlane.default Shutdown.default.
Definition keyed_rq : Request :=
  mkRequest "POST" "/v1/chat/completions" [("authorization", as_bytes "Bearer tok")] [].
Definition four_requests : list event :=
  [Arrive 0 keyed_rq; Arrive 1 keyed_rq; Arrive 2 keyed_rq; Resume 1; Resume 0; Resume 2;
   Other (AElapse 500000000); Arrive 3 keyed_rq; Resume 0; Resume 3].
Definition four_checks : list op :=
  [Check_ "vp_1" 2 0 0; Check_ "vp_1" 2 0 0; Check_ "vp_1" 2 0 0; Check_ "vp_1" 2 500000000 500000000].
Definition four_summary (s : System) : list op * (Z * (Z * Z)) :=
  (checked four_requests (launch s), (admissions "vp_1" four_requests (launch s),
   (time (plays four_requests (launch s)), time (launch s)))).
Lemma four_requests_run :
  ∃ s, System.run two_a_second None first_world = Ok s ∧
    checked four_requests (launch s) = four_checks ∧
    admissions "vp_1" four_requests (launch s) = 3%Z ∧
    time (plays four_requests (launch s)) = 500000000%Z ∧ time (launch s) = 0%Z.
Proof.
  assert (four_summary <$> System.run two_a_second None first_world
    = Ok (four_checks, (3, (500000000, 0)))%Z) as Hr by (vm_compute; reflexivity).
  apply result_fmap_ok in Hr as (s & Hs & E). exists s. split; [exact Hs|].
  unfold four_summary in E. revert E. generalize (checked four_requests (launch s)),
    (admissions "vp_1" four_requests (launch s)), (time (plays four_requests (launch s))), (time (launch s)).
  intros a b c d E. split_and!; congruence.
Qed.
Lemma requests_admitted_within_rate_witness :
  ∃ s, System.run two_a_second None first_world = Ok s ∧
    (2 ^ 50 * 1000000000 * 3 ≤
      2 * (2 ^ 50 * 1000000000 + (2 ^ 50 + 1) * 500000000 + 1000000000 * 4))%Z.
Proof.
  destruct four_requests_run as (s & Hs & Hc & Ha & Ht' & Ht). exists s. split; [exact Hs|].
  pose proof (requests_admitted_within_rate two_a_second None first_world s [] four_requests "vp_1" 2 Hs) as Hb.
  cbv zeta in Hb. change ([] ++ four_requests) with four_requests in Hb.
  change (plays [] (launch s)) with (launch s) in Hb.
  rewrite Hc, Ha, Ht', Ht in Hb. apply Hb.
  - unfold in_u32, u32_max. lia.
  - unfold four_checks, checked_u32, in_u32, u32_max. repeat constructor; lia.
  - unfold four_checks. rewrite !elem_of_cons. intros Hin.
    repeat (destruct Hin as [Hin|Hin]; [discriminate|]). by apply elem_of_nil in Hin.
  - pose proof (run_limiter two_a_second None first_world s Hs) as He. unfold rated.
    change (g_limiter (gateway (app (system (launch s))))) with (g_limiter (gateway (app s))).
    rewrite He. repeat constructor; congruence.
Defined.
