(* ===== verification/Background.v ===== *)
(** * Background: what the process may do to its gateway, move by move

    The gateway changes by a handful of moves: the world advances, a cache is added
    or looked up, keys, spend, buckets, runtime and TLS are replaced. A relation that
    allows each of them holds across every event but the storing of an answer. *)

From S2P Require Import Prelude Text Float64 Json Events Auth Limits Plugin Config Provider.
From S2P Require Import OpenAi Anthropic Sse StreamObserver Bedrock Registry Cache Tls Wasm Runtime.
From S2P Require Import Connectors Proxy Billing ControlMap LinkStatus ControlNode Admin System.
From S2P Require Import SystemInvariants Metering Inflight Concurrency Ledger.
Import Json.

Class Background `{Crypto} `{Reqwest} `{Moka} `{Rustls} (R : relation Gateway) : Prop := {
  bg_preorder :: PreOrder R;
  bg_world w g : R g (set_world w g);
  bg_new_cache size ttl g : R g (new_cache size ttl g).2;
  bg_cache_get h k g : R g (cache_get h k g).2;
  bg_keys k g : R g (set_keys k g);
  bg_limiter l g : R g (set_limiter l g);
  bg_spend s g : R g (set_spend s g);
  bg_runtime rt g : R g (set_runtime rt g);
  bg_tls t g : R g (Runtime.set_tls t g)
}.

Section moves.
Context `{Reqwest} `{Moka} `{Rustls} `{SerdeJson} `{AnthropicSerde} `{BedrockSerde} `{Crypto}
  `{Entropy} `{RegexCrate} `{Wasmtime} `{Env} `{HashOrder} `{TimeCrate} `{MetaSerde}
  `{ControlCrates} `{Config.Figment} `{AdminCrates} `{Addresses}.
Context (R : relation Gateway) `{!Background R}.

Definition Moves {A} (c : G A) : Prop := ∀ g, R g (c g).2.
Lemma Moves_ret {A} (a : A) : Moves (mret a).
Proof. intros g. reflexivity. Qed.
Lemma Moves_gets {A} (f : Gateway → A) : Moves (gets f).
Proof. intros g. reflexivity. Qed.
Lemma Moves_bind {A B} (c : G A) (k : A → G B) : Moves c → (∀ a, Moves (k a)) → Moves (c ≫= k).
Proof. intros Hc Hk g. rewrite M_bind_eq. unfold eval, exec. etrans; [apply Hc|apply Hk]. Qed.
Lemma Moves_fmap {A B} (f : A → B) (c : G A) : Moves c → Moves (f <$> c).
Proof. intros Hc g. specialize (Hc g). unfold fmap, M_fmap. by destruct (c g). Qed.
Lemma Moves_modify (f : Gateway → Gateway) : (∀ g, R g (f g)) → Moves (modify f).
Proof. intros Hf g. apply Hf. Qed.
Lemma Moves_in_world {A} (c : W A) : Moves (in_world c).
Proof. intros g. unfold in_world, zoom. destruct (c _). apply bg_world. Qed.
Lemma Moves_emit e : Moves (g_emit e).
Proof. apply Moves_in_world. Qed.
Lemma Moves_emits es : Moves (g_emits es).
Proof. induction es as [|e es IH]; [apply Moves_ret|]. by apply Moves_bind; [apply Moves_emit|]. Qed.
Lemma Moves_new_cache size ttl : Moves (new_cache size ttl).
Proof. intros g. apply bg_new_cache. Qed.
Lemma Moves_cache_get h k : Moves (cache_get h k).
Proof. intros g. apply bg_cache_get. Qed.
Lemma Moves_try {E A B} (r : result E A) (k : A → G (result E B)) : (∀ a, Moves (k a)) → Moves (try_ r k).
Proof. intros Hk. destruct r; [apply Hk|apply Moves_ret]. Qed.
Lemma Moves_try_m {E A B} (c : G (result E A)) (k : A → G (result E B)) :
  Moves c → (∀ a, Moves (k a)) → Moves (try_m c k).
Proof. intros Hc Hk. apply Moves_bind; [done|]. intros r. by apply Moves_try. Qed.
Lemma within_rate_moves key : Moves (within_rate key).
Proof.
  intros g. unfold within_rate. case_match; [|apply Moves_ret].
  destruct (RateLimiter.check _ _ _ _ _). apply bg_limiter.
Qed.
End moves.
Create HintDb moves discriminated.
#[export] Hint Resolve Moves_ret Moves_gets Moves_in_world Moves_emit Moves_emits Moves_new_cache
  Moves_cache_get within_rate_moves : moves.
Ltac moves :=
  repeat (intros; first
    [ solve [eauto 2 with moves] | apply Moves_try_m | apply Moves_try | apply Moves_bind | apply Moves_fmap
    | (apply Moves_modify; intros;
       first [apply bg_keys | apply bg_limiter | apply bg_spend | apply bg_runtime | apply bg_tls])
    | case_match ]).

(** ** The runtime and the requests *)
Section requests.
Context `{Reqwest} `{Moka} `{Rustls} `{SerdeJson} `{AnthropicSerde} `{BedrockSerde} `{Crypto}
  `{Entropy} `{RegexCrate} `{Wasmtime} `{Env} `{HashOrder} `{TimeCrate} `{MetaSerde}
  `{ControlCrates} `{Config.Figment} `{AdminCrates} `{Addresses}.
Context (R : relation Gateway) `{!Background R}.

Lemma build_plugins_moves ps : Moves R (runtime.build_plugins ps).
Proof.
  induction ps as [|p ps IH]; cbn [runtime.build_plugins]; [moves|].
  apply Moves_try_m; [done| |moves]. unfold runtime.build_plugin, g_audit. moves.
Qed.
#[local] Hint Resolve build_plugins_moves : moves.
Lemma build_runtime_moves config : Moves R (runtime.build_runtime config).
Proof. unfold runtime.build_runtime, runtime.build_cache. moves. Qed.
#[local] Hint Resolve build_runtime_moves : moves.
Lemma reload_tls_moves config : Moves R (runtime.reload_tls config).
Proof. intros g. unfold runtime.reload_tls. repeat case_match; try reflexivity. apply bg_tls. Qed.
#[local] Hint Resolve reload_tls_moves : moves.
Lemma reload_moves path : Moves R (runtime.reload path).
Proof. unfold runtime.reload, g_now. moves. Qed.

Lemma authenticate_moves headers : Moves R (authenticate headers).
Proof. unfold authenticate, present_key, record_rejection, g_now. moves. Qed.
Lemma clear_moves plugins key path vm headers body start pending :
  Moves R (clear plugins key path vm headers body start pending).
Proof.
  unfold clear, open_span, guards, check_model, check_budget, inspect, refuse, record_rejection, span,
    elapsed_ms, g_now, reply, stay. moves.
Qed.
Lemma begin_moves rq key : Moves R (begin rq key).
Proof.
  unfold begin, begin_chat, begin_embeddings, g_now. repeat case_decide.
  1,2: apply Moves_bind; [done|moves|intros start]; apply Moves_bind; [done|moves|intros rt]; apply clear_moves.
  unfold route. repeat case_decide; try tauto; unfold Proxy.list_models; moves.
Qed.
Lemma charge_moves key cost : Moves R (charge key cost).
Proof. unfold charge, g_now. moves. Qed.
#[local] Hint Resolve charge_moves : moves.
Lemma settle_moves p a ms : Moves R (settle p a ms).
Proof.
  unfold settle, account, upstream_failed, record_rejection, span, elapsed_secs, g_now, reply, stay. moves.
Qed.
(** Every segment but the last, which stores the answer. *)
Lemma segment_moves st : match st with Drained _ _ _ => True | _ => Moves R (resume st) end.
Proof.
  destruct st as [rq|rq key|p|p|p a|h k up]; cbn [resume]; try done.
  - apply Moves_bind; [done|apply authenticate_moves|]. unfold reply, stay. moves.
  - apply begin_moves.
  - unfold look_up, serve_from_cache, span, elapsed_ms, elapsed_secs, g_now, reply, stay. moves.
  - unfold stay. moves.
  - apply Moves_bind; [done|unfold elapsed_ms, g_now; moves|]. intros. apply settle_moves.
Qed.
Lemma poll_stream_moves st : Moves R (poll_stream st).
Proof.
  intros g. unfold poll_stream. destruct (UsageObservingStream.poll_next _ _ _) as [[[r st'] tr] es].
  etrans; [apply (bg_spend tr)|]. exact (Moves_emits R es _).
Qed.
End requests.

(** ** The background actions *)
Section actions.
Context `{Reqwest} `{Moka} `{Rustls} `{SerdeJson} `{AnthropicSerde} `{BedrockSerde} `{Crypto}
  `{Entropy} `{RegexCrate} `{Wasmtime} `{Env} `{HashOrder} `{TimeCrate} `{MetaSerde}
  `{ControlCrates} `{Config.Figment} `{AdminCrates} `{Addresses}.
Context (R : relation Gateway) `{!Background R}.

(** The Control Node client. *)
Definition NMoves {A} (c : N A) : Prop := ∀ n, R (n_gateway n) (n_gateway (c n).2).
Lemma NMoves_ret {A} (a : A) : NMoves (mret a).
Proof. intros n. reflexivity. Qed.
Lemma NMoves_gets {A} (f : Node → A) : NMoves (gets f).
Proof. intros n. reflexivity. Qed.
Lemma NMoves_bind {A B} (c : N A) (k : A → N B) : NMoves c → (∀ a, NMoves (k a)) → NMoves (c ≫= k).
Proof. intros Hc Hk n. rewrite M_bind_eq. unfold eval, exec. etrans; [apply Hc|apply Hk]. Qed.
Lemma NMoves_on_gateway {A} (c : G A) : Moves R c → NMoves (on_gateway c).
Proof. intros Hc n. rewrite on_gateway_eq. apply Hc. Qed.
Lemma NMoves_on_world {A} (c : W A) : NMoves (on_world c).
Proof. by apply NMoves_on_gateway, Moves_in_world. Qed.
Lemma NMoves_client f : NMoves (set_client f).
Proof. intros n. reflexivity. Qed.
Lemma NMoves_status f : NMoves (set_status f).
Proof. intros n. reflexivity. Qed.
Lemma NMoves_record rc rk : NMoves (record_tick rc rk).
Proof. intros n. unfold record_tick. destruct (StatusHandle.record_tick _ _ _ _). reflexivity. Qed.
Ltac nmoves :=
  repeat (intros; first
    [ apply NMoves_ret | apply NMoves_gets | apply NMoves_client | apply NMoves_status
    | apply NMoves_record | apply NMoves_on_world
    | (apply NMoves_on_gateway; unfold g_audit; pose proof (build_runtime_moves R); solve [moves; done])
    | apply NMoves_bind | case_match ]).
Lemma fetch_moves {T} r (de : bytes → result string T) : NMoves (fetch r de).
Proof. unfold fetch. nmoves. Qed.
Lemma tick_moves base : NMoves (tick base).
Proof.
  pose proof (@fetch_moves) as Hf.
  unfold tick, poll_config, poll_keys, try_m, try_, apply_bundle, audit_transition.
  apply NMoves_bind; [apply NMoves_bind; [apply Hf|nmoves]|]. intros rc.
  apply NMoves_bind; [apply NMoves_bind; [apply Hf|nmoves]|]. nmoves.
Qed.
Lemma log_identity_moves : NMoves log_identity.
Proof. unfold log_identity. nmoves. Qed.

(** The admin API. *)
Definition AMoves {A} (c : App A) : Prop := ∀ s, R (gateway s) (gateway (c s).2).
Lemma AMoves_ret {A} (a : A) : AMoves (mret a).
Proof. intros s. reflexivity. Qed.
Lemma AMoves_gets {A} (f : AppState → A) : AMoves (gets f).
Proof. intros s. reflexivity. Qed.
Lemma AMoves_bind {A B} (c : App A) (k : A → App B) : AMoves c → (∀ a, AMoves (k a)) → AMoves (c ≫= k).
Proof. intros Hc Hk s. rewrite M_bind_eq. unfold eval, exec. etrans; [apply Hc|apply Hk]. Qed.
Lemma AMoves_fmap {A B} (f : A → B) (c : App A) : AMoves c → AMoves (f <$> c).
Proof. intros Hc s. specialize (Hc s). unfold fmap, M_fmap. by destruct (c s). Qed.
Lemma AMoves_on_gw {A} (c : G A) : Moves R c → AMoves (on_gw c).
Proof. intros Hc s. rewrite on_gw_eq. apply Hc. Qed.
Ltac amoves :=
  repeat (intros; first
    [ apply AMoves_ret | apply AMoves_gets
    | (apply AMoves_on_gw; unfold g_audit, random_bytes; pose proof (reload_moves R); solve [moves; done])
    | apply AMoves_bind | apply AMoves_fmap | case_match ]).
Lemma admin_moves rq : AMoves (Admin.handle rq).
Proof.
  unfold Admin.handle, require_admin_token, serve, with_segment, healthz, readyz, Admin.status, metrics, list_keys,
    create_key, delete_key, list_models, key_spend, reload_config, get_state. amoves.
Qed.

Lemma act_moves a s :
  (∀ rq, a ≠ AProxy rq) → (∀ st, a ≠ AStream st) →
  R (gateway (app s)) (gateway (app (act a s))).
Proof.
  intros Hp Hst. destruct a as [rq|st|rq| | | | |nanos]; cbn [act]; unfold on_app, on_node.
  - by destruct (Hp rq).
  - by destruct (Hst st).
  - apply admin_moves.
  - destruct (poller s) as [[[client base] interval]|]; [|reflexivity].
    exact (log_identity_moves (as_node (app s) client)).
  - destruct (poller s) as [[[client base] interval]|]; [|reflexivity].
    exact (tick_moves base (as_node (app s) client)).
  - rewrite probe_eq. exact (Moves_in_world R _ _).
  - rewrite reload_signal_eq. etrans; [exact (reload_moves R (config_path (app s)) _)|exact (Moves_emit R _ _)].
  - rewrite on_gw_eq. exact (Moves_in_world R _ _).
Qed.

(** Whether an event stores an answer in a cache. *)
Definition storing (e : event) (p : Process) : option (nat * string * ChatResponse) :=
  match e with
  | Resume i =>
      match f_stage <$> flights p !! i with Some (Drained h k up) => Some (h, k, up) | _ => None end
  | _ => None
  end.
Lemma happen_moves e p : storing e p = None → R (gw p) (gw (happen e p)).
Proof.
  unfold gw. destruct e as [i rq|i|i|i|a]; cbn [happen storing].
  - intros _. destruct (idle i p); reflexivity.
  - destruct (flights p !! i) as [f|]; [|reflexivity]. cbn [fmap option_fmap option_map]. intros Hs.
    assert (Moves R (resume (f_stage f))) as Hm.
    { pose proof (segment_moves R (f_stage f)) as Hm. by destruct (f_stage f). }
    specialize (Hm (gateway (app (system p)))). unfold fly. rewrite on_gw_eq.
    by destruct (resume (f_stage f) _) as [[r|st] g'].
  - intros _. destruct (streams p !! i) as [so|]; [|reflexivity].
    pose proof (poll_stream_moves R so (gateway (app (system p)))) as Hm. unfold flow. rewrite on_gw_eq.
    by destruct (poll_stream so _) as [[polled so'] g'].
  - intros _. destruct (flights p !! i); reflexivity.
  - intros _. destruct a; try reflexivity; cbn [system]; by apply act_moves.
Qed.
End actions.
