(* ===== verification/Provenance.v ===== *)
(** * Provenance: where the calls and the charges of the gateway come from

    A request in flight against the history of the process: the state it was
    authenticated in, the state it was cleared in, and what it took from there. *)

From S2P Require Import Prelude Text Float64 Json Events Auth Limits RateWindow Plugin Config Provider.
From S2P Require Import OpenAi Anthropic Sse StreamObserver Bedrock Registry Cache Tls Wasm Runtime.
From S2P Require Import Connectors Proxy Billing ControlMap LinkStatus ControlNode Admin System.
From S2P Require Import SystemInvariants Metering Inflight Concurrency Ledger Admissions.
Import Json.

Section provenance.
Context `{Reqwest} `{Moka} `{Rustls} `{SerdeJson} `{AnthropicSerde} `{BedrockSerde} `{Crypto}
  `{Entropy} `{RegexCrate} `{Wasmtime} `{Env} `{HashOrder} `{TimeCrate} `{MetaSerde}
  `{ControlCrates} `{Config.Figment} `{AdminCrates} `{Addresses}.

(** In a state of the gateway: the middleware passes a request under a key; and the
    handler clears it, with the runtime, the spend and the clock of that state. *)
Definition entitled (rq : Request) (key : VirtualKey) (g : Gateway) : Prop :=
  bears (g_keys g) (rq_headers rq) key ∧
  VirtualKey.is_expired (w_now (g_world g)) key = false ∧ (within_rate key g).1 = true.
Definition pending_for (rq : Request) (key : VirtualKey) (g : Gateway) (body : bytes) : Pending :=
  let idempotency_key := header_str (rq_headers rq) IDEMPOTENCY_HEADER in
  if decide (rq_path rq = "/v1/chat/completions") then
    chat_pending (g_runtime g) key (ChatMeta.stream (chat_meta (rq_body rq))) (chat_model (rq_body rq))
      idempotency_key (w_now (g_world g)) body
  else
    embeddings_pending (g_runtime g) key (embeddings_model (rq_body rq)) idempotency_key
      (w_now (g_world g)) body.
Definition cleared_as (rq : Request) (q : Pending) (g : Gateway) (body : bytes) : Prop :=
  ∃ vm, requested rq = Some vm ∧
    passes (Runtime.plugins (g_runtime g)) (p_key q) (rq_path rq) vm (rq_body rq) g body ∧
    q = pending_for rq (p_key q) g body.
Definition cleared (rq : Request) (q : Pending) (g : Gateway) : Prop := ∃ body, cleared_as rq q g body.

(** In a run: a request arrived, was authenticated, and later cleared. *)
Definition arrived (es : list event) (rq : Request) : Prop := ∃ i, Arrive i rq ∈ es.
Definition authenticated_in (es : list event) (p0 : Process) (rq : Request) (key : VirtualKey) : Prop :=
  ∃ es1 es2, es = es1 ++ es2 ∧ arrived es1 rq ∧ entitled rq key (gw (plays es1 p0)).
Definition admitted_in (es : list event) (p0 : Process) (rq : Request) (q : Pending) : Prop :=
  ∃ es1 es2, es = es1 ++ es2 ∧ authenticated_in es1 p0 rq (p_key q) ∧ cleared rq q (gw (plays es1 p0)).

(** Its call was made in the world of a state of the run, and answered. *)
Definition answered_in (es : list event) (p0 : Process) (q : Pending)
    (answer : result Error.Error ChatResponse) : Prop :=
  ∃ es1 es2, es = es1 ++ es2 ∧ (in_world (p_call q) (gw (plays es1 p0))).1 = Some answer.

(** What the stages of a request vouch for, and a body under observation. *)
Definition stage_vouched (es : list event) (p0 : Process) (rq : Request) (st : Stage) : Prop :=
  match st with
  | Arrived rq' => rq' = rq ∧ arrived es rq
  | Authenticated rq' key => rq' = rq ∧ authenticated_in es p0 rq key
  | Cleared q | Missed q => admitted_in es p0 rq q
  | Answered q a => admitted_in es p0 rq q ∧ answered_in es p0 q a
  | Drained h k up => ∃ q, admitted_in es p0 rq q ∧ answered_in es p0 q (Ok up) ∧
      ChatResponse.status up = 200%Z ∧ Runtime.cache (p_runtime q) = Some h ∧ p_cache_key q = Some k
  end.
Definition opened_for (q : Pending) (st : UsageObservingStream.UsageObservingStream) : Prop :=
  UsageObservingStream.key_id st = VirtualKey.identifier (p_key q) ∧
  UsageObservingStream.spend_limit st = VirtualKey.spend_limit (p_key q) ∧
  UsageObservingStream.pricing st = Runtime.pricing (p_runtime q).
Record vouched (es : list event) (p0 : Process) : Prop := {
  vouched_flights i f : flights (plays es p0) !! i = Some f →
    stage_vouched es p0 (f_request f) (f_stage f);
  vouched_streams i st : streams (plays es p0) !! i = Some st →
    ∃ rq q, admitted_in es p0 rq q ∧ opened_for q st
}.
End provenance.

(** ** Lemmas: one segment *)
Section segment.
Context `{Reqwest} `{Moka} `{Rustls} `{SerdeJson} `{Crypto} `{TimeCrate} `{HashOrder} `{MetaSerde}.

Lemma clear_next plugins key path vm headers body start pending g st :
  (clear plugins key path vm headers body start pending g).1 = inr st →
  ∃ b, passes plugins key path vm body g b ∧ st = Cleared (pending b).
Proof.
  unfold clear. steps. pose proof (open_span_still key vm headers g) as [_ Es _ _ _ _ Et].
  destruct (open_span key vm headers g) as [u g1]. cbn [fst snd] in *.
  destruct (guards_spec plugins key path vm body start g1)
    as [(b & E & Hm & Hb & Hp)|(re & st' & es & r & _ & E)]; rewrite E.
  - intros [= <-]. exists b. split; [|done]. split_and!; [done| |done]. intros l Hl.
    rewrite <-Es, <-Et. by apply Hb.
  - by rewrite refuse_eval.
Qed.
Lemma begin_next rq key g st :
  (begin rq key g).1 = inr st → ∃ q, st = Cleared q ∧ p_key q = key ∧ cleared rq q g.
Proof.
  unfold begin, cleared, cleared_as, requested, pending_for.
  destruct (decide (rq_path rq = "/v1/chat/completions" ∧ rq_method rq = "POST")) as [[Ep Em]|Hn1].
  { unfold begin_chat, g_now, gets. cbv zeta. steps. intros (b & Hp & ->)%clear_next.
    eexists. split; [done|]. split; [done|]. exists b, (chat_model (rq_body rq)).
    rewrite !decide_True by done. cbn [p_key chat_pending]. by rewrite Ep. }
  destruct (decide (rq_path rq = "/v1/embeddings" ∧ rq_method rq = "POST")) as [[Ep Em]|Hn2].
  { unfold begin_embeddings, g_now, gets. cbv zeta. steps. intros (b & Hp & ->)%clear_next.
    eexists. split; [done|]. split; [done|]. exists b, (embeddings_model (rq_body rq)).
    rewrite (decide_True (P := rq_method rq = "POST")) by done. rewrite !Ep. cbn [p_key embeddings_pending]. done. }
  unfold fmap, M_fmap. by destruct (route rq key g).
Qed.

(** Where a segment leaves the request. *)
Lemma segment_next st g st' :
  (resume st g).1 = inr st' →
  match st, st' with
  | Arrived rq, Authenticated rq' key => rq' = rq ∧ entitled rq key g
  | Authenticated rq key, Cleared q => p_key q = key ∧ cleared rq q g
  | Cleared q, Missed q' => q' = q
  | Missed q, Answered q' a => q' = q ∧ (in_world (p_call q) g).1 = Some a
  | Answered q a, Drained h k up => a = Ok up ∧ ChatResponse.status up = 200%Z ∧
      Runtime.cache (p_runtime q) = Some h ∧ p_cache_key q = Some k
  | _, _ => False
  end.
Proof.
  destruct st as [rq|rq key|q|q|q a|h k up]; cbn [resume].
  - steps. pose proof (authenticate_spec (rq_headers rq) g) as Ha.
    destruct (authenticate (rq_headers rq) g) as [[key|r] g1]; cbn [fst snd] in *; [|done].
    intros [= <-]. destruct Ha as (? & ? & ? & _). done.
  - intros (q & -> & Hq)%begin_next. done.
  - steps. destruct (look_up _ _ g) as [[c|] g1]; cbn [fst snd]; [by steps|]. by intros [= <-].
  - steps. destruct (in_world (p_call q) g) as [[a|] g1]; cbn [fst snd]; [|done]. by intros [= <-].
  - steps. unfold settle. destruct a as [up|err]; steps; [|done].
    destruct (p_cache_key q) as [k|], (Runtime.cache (p_runtime q)) as [h|]; try done.
    destruct (Z.eqb_spec (ChatResponse.status up) 200); [|done]. by intros [= <-].
  - by steps.
Qed.
(** Only an answer of the upstream leaves a body to observe. *)
Lemma observed_none r : unobserved r → observed (Some r) = None.
Proof. intros Hr. unfold observed. cbn. destruct (Response.body r) eqn:E; try done. by destruct (Hr s). Qed.
Lemma begin_unobserved rq key g r : (begin rq key g).1 = inl r → observed r = None.
Proof.
  assert (∀ plugins path vm headers body start pending,
    (clear plugins key path vm headers body start pending g).1 = inl r → observed r = None) as Hc.
  { intros *. unfold clear. steps.
    destruct (guards_spec plugins key path vm body start (open_span key vm headers g).2)
      as [(b & -> & _)|(re & st' & es & r' & Hr & ->)]; [done|]. rewrite refuse_eval.
    intros [= <-]. by eapply observed_none, refusal_unobserved. }
  unfold begin. repeat case_decide.
  1,2: unfold begin_chat, begin_embeddings, g_now, gets; cbv zeta; steps; apply Hc.
  unfold route. repeat case_decide; try tauto; by intros [= <-].
Qed.
Lemma segment_body st g r so :
  (resume st g).1 = inl r → observed r = Some so →
  ∃ q up, st = Answered q (Ok up) ∧ p_relay q up = BObserved so.
Proof.
  pose proof observed_none as Hu.
  destruct st as [rq|rq key|q|q|q [up|err]|h k up]; cbn [resume].
  - steps. pose proof (authenticate_refuses (rq_headers rq) g) as Ha.
    destruct (authenticate (rq_headers rq) g) as [[key|r'] g1]; cbn [fst snd] in *; [done|].
    intros [= <-]. by rewrite Hu by by apply Ha.
  - intros E. by rewrite (begin_unobserved rq key g r E).
  - steps. destruct (look_up _ _ g) as [[c|] g1]; cbn [fst snd]; [|done]. steps.
    intros [= <-]. by rewrite Hu by apply serve_unobserved.
  - steps. destruct (in_world (p_call q) g) as [[a|] g1]; cbn [fst snd]; [done|]. by intros [= <-].
  - steps. unfold settle. steps. intros E Ho. exists q, up. split; [done|].
    assert (r = Some (build_response (ChatResponse.status up) (ChatResponse.content_type up)
      (p_relay q up) "MISS")) as ->.
    { revert E. destruct (p_cache_key q), (Runtime.cache (p_runtime q)); try destruct (_ =? 200)%Z;
        by intros [= <-]. }
    destruct (build_response_body (ChatResponse.status up) (ChatResponse.content_type up)
      (p_relay q up) "MISS") as [Hr|Eb]; [by rewrite Hu in Ho|].
    unfold observed in Ho. cbn [fmap option_fmap option_map] in Ho. rewrite Eb in Ho.
    destruct (p_relay q up); try done. by injection Ho as <-.
  - steps. unfold settle. steps. intros [= <-]. rewrite Hu; [done|]. unfold upstream_failed,
      upstream_error_response. steps. intros st. by destruct err.
  - steps. intros [= <-]. by rewrite Hu by apply store_unobserved.
Qed.
Lemma cleared_relay rq q g up so : cleared rq q g → p_relay q up = BObserved so → opened_for q so.
Proof.
  intros (b & vm & _ & _ & ->). unfold pending_for. case_decide; cbn [p_relay chat_pending embeddings_pending].
  - unfold chat_relay. destruct (ChatMeta.stream _); [|done]. by intros [= <-].
  - done.
Qed.
End segment.

(** ** Lemmas: the history of a run *)
Section history.
Context `{Reqwest} `{Moka} `{Rustls} `{SerdeJson} `{AnthropicSerde} `{BedrockSerde} `{Crypto}
  `{Entropy} `{RegexCrate} `{Wasmtime} `{Env} `{HashOrder} `{TimeCrate} `{MetaSerde}
  `{ControlCrates} `{Config.Figment} `{AdminCrates} `{Addresses}.

(** A poll does not change whose stream it is. *)
Definition bearer (st : UsageObservingStream.UsageObservingStream) : string * option SpendLimit * Pricing :=
  (UsageObservingStream.key_id st, UsageObservingStream.spend_limit st, UsageObservingStream.pricing st).
Lemma poll_bearer st g : bearer (poll_stream st g).1.2 = bearer st.
Proof.
  unfold poll_stream, UsageObservingStream.poll_next.
  destruct (poll_body (UsageObservingStream.inner st)) as [polled i].
  repeat (case_match; simplify_eq; try reflexivity).
Qed.
Lemma poll_opened q st g : opened_for q st → opened_for q (poll_stream st g).1.2.
Proof. intros Ho. pose proof (poll_bearer st g) as [= E1 E2 E3]. unfold opened_for. by rewrite E1, E2, E3. Qed.

Lemma arrived_more es es' rq : arrived es rq → arrived (es ++ es') rq.
Proof. intros [i Hi]. exists i. rewrite elem_of_app. by left. Qed.
Lemma authenticated_more es es' p0 rq key :
  authenticated_in es p0 rq key → authenticated_in (es ++ es') p0 rq key.
Proof. intros (es1 & es2 & -> & He). exists es1, (es2 ++ es'). by rewrite app_assoc. Qed.
Lemma admitted_more es es' p0 rq q : admitted_in es p0 rq q → admitted_in (es ++ es') p0 rq q.
Proof. intros (es1 & es2 & -> & He). exists es1, (es2 ++ es'). by rewrite app_assoc. Qed.
Lemma answered_more es es' p0 q a : answered_in es p0 q a → answered_in (es ++ es') p0 q a.
Proof. intros (es1 & es2 & -> & He). exists es1, (es2 ++ es'). by rewrite app_assoc. Qed.
Lemma stage_more es es' p0 rq st : stage_vouched es p0 rq st → stage_vouched (es ++ es') p0 rq st.
Proof.
  destruct st; cbn; eauto using admitted_more.
  - intros [? ?]. eauto using arrived_more.
  - intros [? ?]. eauto using authenticated_more.
  - intros [? ?]. eauto using admitted_more, answered_more.
  - intros (q & ? & ? & ? & ? & ?). exists q.
    split_and!; [by apply admitted_more|by apply answered_more|done..].
Qed.
(** A segment hands on what its request was vouched for. *)
Lemma segment_vouched es p0 rq st st' :
  stage_vouched es p0 rq st → (resume st (gw (plays es p0))).1 = inr st' → stage_vouched es p0 rq st'.
Proof.
  intros Hst Hn%segment_next. destruct st, st'; cbn in *; try done; try (by subst).
  - destruct Hn as [-> He], Hst as [-> Ha]. split; [done|]. exists es, []. by rewrite app_nil_r.
  - destruct Hst as [-> Ha], Hn as [<- Hc]. exists es, []. by rewrite app_nil_r.
  - destruct Hn as [-> Ha]. split; [done|]. exists es, []. by rewrite app_nil_r.
  - destruct Hst as [? Ha], Hn as (-> & ? & ? & ?). by exists p.
Qed.
Lemma happen_flight e p i f :
  flights (happen e p) !! i = Some f →
  flights p !! i = Some f ∨ (∃ rq, e = Arrive i rq ∧ f = mkFlight rq (Arrived rq)) ∨
  ∃ f0, flights p !! i = Some f0 ∧ f_request f = f_request f0 ∧ (resume (f_stage f0) (gw p)).1 = inr (f_stage f).
Proof.
  destruct e as [j rq|j|j|j|a]; cbn [happen].
  - destruct (idle j p); [|by left]. cbn [flights]. rewrite lookup_insert_Some.
    intros [[<- <-]|[_ ?]]; [right; left; eauto|by left].
  - destruct (flights p !! j) as [f0|] eqn:Ej; [|by left]. unfold fly. rewrite on_gw_eq.
    unfold gw. destruct (resume (f_stage f0) _) as [[r|st] g'] eqn:Er; cbn [fst flights].
    + rewrite lookup_delete_Some. intros [_ ?]. by left.
    + rewrite lookup_insert_Some. intros [[<- <-]|[_ ?]]; [|by left]. right. right. exists f0.
      cbn [f_request f_stage]. by rewrite Er.
  - destruct (streams p !! j) as [so|]; [|by left]. unfold flow. rewrite on_gw_eq.
    destruct (poll_stream so _) as [[polled so'] g']. by left.
  - destruct (flights p !! j); cbn [flights]; [|by left]. rewrite lookup_delete_Some. intros [_ ?]. by left.
  - destruct a; by left.
Qed.
Lemma happen_stream e p i so :
  streams (happen e p) !! i = Some so →
  streams p !! i = Some so ∨
  (∃ so0, streams p !! i = Some so0 ∧ so = (poll_stream so0 (gw p)).1.2) ∨
  ∃ f r, flights p !! i = Some f ∧ (resume (f_stage f) (gw p)).1 = inl r ∧ observed r = Some so.
Proof.
  destruct e as [j rq|j|j|j|a]; cbn [happen].
  - destruct (idle j p); by left.
  - destruct (flights p !! j) as [f0|] eqn:Ej; [|by left]. unfold fly. rewrite on_gw_eq.
    unfold gw. destruct (resume (f_stage f0) _) as [[r|st] g'] eqn:Er; cbn [fst streams]; [|by left].
    destruct (decide (i = j)) as [->|Hne].
    + rewrite lookup_partial_alter_eq. intros Ho. right. right. exists f0, r. by rewrite Er.
    + rewrite lookup_partial_alter_ne by done. by left.
  - destruct (streams p !! j) as [so0|] eqn:Ej; [|by left]. unfold flow. rewrite on_gw_eq.
    unfold gw. destruct (poll_stream so0 _) as [[polled so'] g'] eqn:Er; cbn [fst streams].
    destruct (ended polled); [rewrite lookup_delete_Some; intros [_ ?]; by left|].
    rewrite lookup_insert_Some. intros [[<- <-]|[_ ?]]; [|by left]. right. left. exists so0. by rewrite Er.
  - destruct (flights p !! j); cbn [streams]; [by left|]. rewrite lookup_delete_Some. intros [_ ?]. by left.
  - destruct a; by left.
Qed.
Lemma run_vouched es p0 : flights p0 = ∅ → streams p0 = ∅ → vouched es p0.
Proof.
  intros Hf Hs. induction es as [|e es [IHf IHs]] using rev_ind.
  { split; cbn [plays]; [rewrite Hf|rewrite Hs]; intros i x; by rewrite lookup_empty. }
  split; rewrite plays_app; cbn [plays]; intros i x.
  - intros [Hi|[(rq & -> & ->)|(f0 & Hi & -> & Hr)]]%happen_flight.
    { apply stage_more. by eapply IHf. }
    { split; [done|]. exists i. rewrite elem_of_app. right. by left. }
    apply stage_more. eapply segment_vouched; [by eapply IHf|done].
  - intros [Hi|[(so0 & Hi & ->)|(f & r & Hi & Hr & Ho)]]%happen_stream.
    + destruct (IHs _ _ Hi) as (rq & q & Ha & Hq). exists rq, q. eauto using admitted_more.
    + destruct (IHs _ _ Hi) as (rq & q & Ha & Hq). exists rq, q. eauto using admitted_more, poll_opened.
    + destruct (segment_body _ _ _ _ Hr Ho) as (q & up & Est & Hq). specialize (IHf _ _ Hi).
      rewrite Est in IHf. exists (f_request f), q. split; [by apply admitted_more, IHf|].
      destruct IHf as [(es1 & es2 & _ & _ & Hc) _]. by eapply cleared_relay.
Qed.

(** Nothing but an upstream call of a request touches the providers' network. *)
Lemma happen_net e p :
  (∀ a, e ≠ Other a) → g_net (gw (happen e p)) ≠ g_net (gw p) →
  ∃ i f q, e = Resume i ∧ flights p !! i = Some f ∧ f_stage f = Missed q.
Proof.
  intros He Hn. destruct e as [i rq|i|i|i|a]; cbn [happen] in Hn; [..|by destruct (He a)].
  - by destruct (idle i p).
  - destruct (flights p !! i) as [f|] eqn:Ei; [|done]. exists i, f.
    assert (g_net (resume (f_stage f) (gw p)).2 ≠ g_net (gw p)) as Hs.
    { intros E. apply Hn. rewrite <-E. unfold fly, gw. rewrite on_gw_eq.
      by destruct (resume (f_stage f) _) as [[r|st] g']. }
    destruct (f_stage f) as [rq|rq key|q|q|q a|h k up] eqn:Est; [| | |by exists q|..]; exfalso; apply Hs.
    + apply (Fixes_bind g_net); [intros g; apply authenticate_still|]. by intros [r|key].
    + exact (segment_fixes g_net (Authenticated rq key) _).
    + exact (segment_fixes g_net (Cleared q) _).
    + by apply answered_fixes.
    + exact (segment_fixes g_net (Drained h k up) _).
  - destruct (streams p !! i) as [so|]; [|done]. exfalso. apply Hn. unfold flow, gw. rewrite on_gw_eq.
    unfold poll_stream. destruct (UsageObservingStream.poll_next _ _ _) as [[[r st'] tr] es].
    cbn [fst snd system app gateway set_gateway]. exact (Fixes_emits g_net es (set_spend tr (gw p))).
  - by destruct (flights p !! i).
Qed.
End history.

(** ** Properties *)
Section properties.
Context `{Reqwest} `{Moka} `{Rustls} `{SerdeJson} `{AnthropicSerde} `{BedrockSerde} `{Crypto}
  `{Entropy} `{RegexCrate} `{Wasmtime} `{Env} `{HashOrder} `{TimeCrate} `{MetaSerde}
  `{ControlCrates} `{Config.Figment} `{AdminCrates} `{Addresses}.

Lemma entered_at es p o :
  o ∈ entered es p → ∃ es1 e es2, es = es1 ++ e :: es2 ∧ o ∈ entries e (plays es1 p).
Proof.
  revert p. induction es as [|e es IH]; intros p; cbn [entered]; [by rewrite elem_of_nil|].
  rewrite elem_of_app. intros [Ho|(es1 & e' & es2 & -> & Ho)%IH]; [by exists [], e, es|].
  by exists (e :: es1), e', es2.
Qed.
(** An entry of the book is a priced usage of a key with a limit. *)
Definition charge_for (q : Pending) (o : SpendTracker.op) : Prop :=
  ∃ l c now provider model usage, o = SpendTracker.Record_ (VirtualKey.identifier (p_key q)) (period l) c now ∧
    VirtualKey.spend_limit (p_key q) = Some l ∧
    cost.compute (Runtime.pricing (p_runtime q)) provider model usage = Some c.
Lemma entry_charge q pricing k limit provider model usage now o :
  pricing = Runtime.pricing (p_runtime q) → k = VirtualKey.identifier (p_key q) →
  limit = VirtualKey.spend_limit (p_key q) →
  o ∈ entry pricing k limit provider model usage now → charge_for q o.
Proof.
  intros -> -> -> Ho. unfold entry in Ho.
  destruct usage as [u|]; cbn [mbind option_bind] in Ho; [|by apply elem_of_nil in Ho].
  destruct (cost.compute _ provider model u) as [c|] eqn:Ec; [|by apply elem_of_nil in Ho].
  destruct (VirtualKey.spend_limit (p_key q)) as [l|] eqn:El; [|by apply elem_of_nil in Ho].
  apply list_elem_of_singleton in Ho as ->. exists l, c, now, provider, model, u. by rewrite El.
Qed.
Lemma entries_charge es p0 e o :
  vouched es p0 → o ∈ entries e (plays es p0) →
  (∃ rq q, admitted_in es p0 rq q ∧ charge_for q o) ∨ ∃ id, o = SpendTracker.Forget id.
Proof.
  intros [Hf Hs]. destruct e as [i rq|i|i|i|a]; cbn [entries]; try by rewrite elem_of_nil.
  - destruct (flights _ !! i) as [f|] eqn:Ei; [|by rewrite elem_of_nil]. specialize (Hf _ _ Ei).
    destruct (f_stage f) as [| | | |q [up|]|]; cbn [flight_entry]; try by rewrite elem_of_nil.
    intros Ho. left. exists (f_request f), q. split; [apply Hf|]. by eapply entry_charge.
  - destruct (streams _ !! i) as [so|] eqn:Ei; [|by rewrite elem_of_nil].
    destruct (Hs _ _ Ei) as (rq & q & Ha & Hk & Hl & Hp). unfold stream_entry.
    destruct (UsageObservingStream.found_usage so); [by rewrite elem_of_nil|].
    destruct (poll_body _).1 as [|[[b|e]|]]; try by rewrite elem_of_nil.
    intros Ho. left. exists rq, q. split; [done|]. by eapply entry_charge.
  - destruct a; try by rewrite elem_of_nil. unfold admin_entry. destruct (revoked _ _) as [id|];
      [|by rewrite elem_of_nil]. intros ->%list_elem_of_singleton. right. eauto.
Qed.

(** C1: Admission, under every interleaving of requests, streams, drops, admin
    requests, reloads, revocations and polls of the Control Node. When serving the
    proxy changes what the network has seen, it is by the upstream call of a request
    with a history: in an earlier state of the process it bore a key of the store
    then (or there were no keys) that had not expired and was within its rate; and in
    a later one, still before the call, the key's scope had the model, its budget was
    not used up, and the plugins let the body through; and the call is made with the
    runtime of that state, for that model, with the body the plugins left. And
    every charge in the book of the process is against the key of such a request,
    under its limit, at the prices of the runtime it was cleared with. *)
Theorem admitted_before_called_or_charged s es :
  let p := plays es (launch s) in
  (∀ e, (∀ a, e ≠ Other a) → g_net (gateway (app (system (happen e p)))) ≠ g_net (gateway (app (system p))) →
     ∃ i f q, e = Resume i ∧ flights p !! i = Some f ∧ f_stage f = Missed q ∧
       admitted_in es (launch s) (f_request f) q) ∧
  ∀ o, o ∈ entered es (launch s) →
    (∃ rq q, admitted_in es (launch s) rq q ∧ charge_for q o) ∨ ∃ id, o = SpendTracker.Forget id.
Proof.
  cbn zeta. split.
  - intros e He Hn. destruct (happen_net e _ He Hn) as (i & f & q & -> & Hi & Hst).
    exists i, f, q. split_and!; [done..|]. destruct (run_vouched es (launch s) eq_refl eq_refl) as [Hf _].
    specialize (Hf _ _ Hi). by rewrite Hst in Hf.
  - intros o (es1 & e & es2 & -> & Ho)%entered_at.
    destruct (entries_charge es1 _ e o (run_vouched es1 (launch s) eq_refl eq_refl) Ho)
      as [(rq & q & Ha & Hq)|?]; [|by right]. left. exists rq, q. split; [by apply admitted_more|done].
Qed.
End properties.

(** ** Witness: the streamed answer of [Ledger], read to its end *)
#[local] Existing Instances ok_reqwest sample_moka sample_rustls no_usage_serde sample_bedrock_serde
  sample_crypto sample_entropy sample_regex sample_wasmtime sample_env some_hash_order sample_time
  streaming_meta sample_figment sample_admin_crates offline_control any_address usage_documents.
Definition a_dollar : SpendTracker.op := SpendTracker.Record_ "vp_1" Day F64.one 0.
Lemma admitted_before_called_or_charged_witness :
  let es := to_the_body ++ repeat (Flow 0) 5 in
  entered es streaming_process = [a_dollar] ∧
  ∃ rq q, admitted_in es streaming_process rq q ∧ charge_for q a_dollar.
Proof.
  cbv zeta. assert (entered (to_the_body ++ repeat (Flow 0) 5) streaming_process = [a_dollar]) as E
    by (vm_compute; reflexivity).
  split; [exact E|].
  destruct (proj2 (admitted_before_called_or_charged (system streaming_process)
    (to_the_body ++ repeat (Flow 0) 5)) a_dollar) as [Ha|[id Hid]]; [|exact Ha|discriminate].
  change (launch (system streaming_process)) with streaming_process.
  rewrite E. apply list_elem_of_singleton. reflexivity.
Defined.
