(* ===== verification/Refusals.v ===== *)
(** * Refusals: which requests are turned away, and how ([proxy.rs])

    The middleware and the guards as a decision: every request is let through or
    refused, and a refusal has one reason, one answer, one metric and, for a plugin's,
    one audit event. *)

From S2P Require Import Prelude Text Float64 Json Events Auth Limits RateWindow Plugin Config Provider.
From S2P Require Import OpenAi Anthropic Sse StreamObserver Bedrock Registry Cache Tls Wasm Runtime.
From S2P Require Import Connectors Proxy Billing ControlMap LinkStatus ControlNode Admin System.
From S2P Require Import SystemInvariants Metering Inflight Concurrency Ledger Admissions Provenance.
Import Json.

Section refusals.
Context `{Reqwest} `{Moka} `{Rustls} `{SerdeJson} `{Crypto} `{TimeCrate} `{HashOrder} `{MetaSerde}.

(** The middleware turns a request away in a state [g]: the reason, the answer, and the
    state but for the metric. A key is looked up before its expiry is, and its expiry
    before its rate; only a request that gets that far is seen by the rate limiter. *)
Inductive turned_away (rq : Request) (g : Gateway) : string → Response → Gateway → Prop :=
| away_unknown :
    (∀ key, ¬ bears (g_keys g) (rq_headers rq) key) →
    turned_away rq g label_values.REASON_AUTH (error 401 "missing or invalid virtual key") g
| away_expired key :
    bears (g_keys g) (rq_headers rq) key → VirtualKey.is_expired (w_now (g_world g)) key = true →
    turned_away rq g label_values.REASON_EXPIRED (error 401 "virtual key has expired") g
| away_limited key :
    bears (g_keys g) (rq_headers rq) key → VirtualKey.is_expired (w_now (g_world g)) key = false →
    (within_rate key g).1 = false →
    turned_away rq g label_values.REASON_RATE_LIMIT (error 429 "rate limit exceeded") (within_rate key g).2.

(** The guards refuse a request for a model under a key: the reason, the audit events
    and the answer. The scope comes before the budget, and the budget before the
    plugins, which see only what both let through. *)
Inductive guarded_off (rq : Request) (key : VirtualKey) (vm : string) (g : Gateway)
    : string → list AuditEvent → Response → Prop :=
| off_scope :
    VirtualKey.allows_model key vm = false →
    guarded_off rq key vm g label_values.REASON_FORBIDDEN_MODEL []
      (error 403 "virtual key is not allowed to use this model")
| off_budget :
    VirtualKey.allows_model key vm = true → budget_left key g = false →
    guarded_off rq key vm g label_values.REASON_SPEND_LIMIT []
      (error 402 "spend limit exceeded for this period")
| off_plugin r :
    VirtualKey.allows_model key vm = true → budget_left key g = true →
    run_plugins (Runtime.plugins (g_runtime g)) (rq_path rq) vm (rq_body rq) = Err r →
    guarded_off rq key vm g label_values.REASON_PLUGIN
      [audit.plugin_rejected (VirtualKey.identifier key) (pr_plugin r) (reason (pr_info r))
         (status_code (pr_info r))]
      (error (default 403%Z (status_from_u16 (status_code (pr_info r)))) (reason (pr_info r))).

(** What a trace holds besides the fields of spans: counters and audit events. *)
Definition loud (e : Effect) : bool := match e with ESpan _ _ => false | _ => true end.
Definition reports (evs : list Effect) (g g' : Gateway) : Prop :=
  ∃ l, w_trace (g_world g') = w_trace (g_world g) ++ l ∧ filter (λ e, loud e = true) l = evs.

(** The key a request presents, as a function. *)
Definition presented (keys : KeyStore) (headers : HeaderMap) : option VirtualKey :=
  if KeyStore.is_empty keys then Some VirtualKey.anonymous
  else bearer_token headers ≫= KeyStore.authenticate keys.
Lemma bears_presented keys headers key : bears keys headers key ↔ presented keys headers = Some key.
Proof.
  unfold presented, bears, KeyStore.is_empty. case_bool_decide as Hk.
  - split; [by intros [[_ ->]|[? _]]|]. intros [= <-]. by left.
  - rewrite bind_Some. split; [intros [[? _]|[_ ?]]; done|]. intros ?. by right.
Qed.

(** ** Lemmas: the middleware and the guards decide *)
Lemma authenticate_decides rq g :
  (∀ key, entitled rq key g → authenticate (rq_headers rq) g = (Ok key, (within_rate key g).2)) ∧
  (∀ why r g1, turned_away rq g why r g1 →
     authenticate (rq_headers rq) g = (Err r, (record_rejection why g1).2)) ∧
  ((∃ key, entitled rq key g) ∨ ∃ why r g1, turned_away rq g why r g1).
Proof.
  assert (authenticate (rq_headers rq) g =
    match presented (g_keys g) (rq_headers rq) with
    | None => (Err (error 401 "missing or invalid virtual key"), (record_rejection label_values.REASON_AUTH g).2)
    | Some key =>
        if VirtualKey.is_expired (w_now (g_world g)) key then
          (Err (error 401 "virtual key has expired"), (record_rejection label_values.REASON_EXPIRED g).2)
        else if (within_rate key g).1 then (Ok key, (within_rate key g).2)
        else (Err (error 429 "rate limit exceeded"),
              (record_rejection label_values.REASON_RATE_LIMIT (within_rate key g).2).2)
    end) as ->.
  { unfold authenticate, present_key, g_now, gets, mret, M_ret. steps. fold (presented (g_keys g) (rq_headers rq)).
    destruct (presented _ _) as [key|]; [|by steps]. steps.
    destruct (VirtualKey.is_expired _ key); [by steps|]. steps.
    destruct (within_rate key g) as [[] g1]; cbn [fst snd]; by steps. }
  unfold entitled. split_and!.
  - intros key (Hb%bears_presented & He & Hw). by rewrite Hb, He, Hw.
  - intros why r g1 [Hn|key Hb%bears_presented He|key Hb%bears_presented He Hw];
      [|by rewrite Hb, He|by rewrite Hb, He, Hw].
    destruct (presented _ _) as [key|] eqn:Hb; [|done]. by destruct (Hn key); apply bears_presented.
  - destruct (presented (g_keys g) (rq_headers rq)) as [key|] eqn:Hb.
    2:{ right. eexists _, _, _. apply away_unknown. intros key Hk%bears_presented. congruence. }
    apply bears_presented in Hb. destruct (VirtualKey.is_expired (w_now (g_world g)) key) eqn:He;
      [right; eexists _, _, _; by eapply away_expired|].
    destruct (within_rate key g).1 eqn:Hw; [by left; exists key|].
    right. eexists _, _, _. by eapply away_limited.
Qed.
Lemma reports_trans a b g1 g2 g3 : reports a g1 g2 → reports b g2 g3 → reports (a ++ b) g1 g3.
Proof.
  intros (l & E1 & <-) (l' & E2 & <-). exists (l ++ l'). by rewrite E2, E1, app_assoc, filter_app.
Qed.
Lemma reports_emits es g : reports (filter (λ e, loud e = true) es) g (g_emits es g).2.
Proof.
  exists es. split; [|done]. revert g. induction es as [|e es IH]; intros g; cbn [g_emits].
  - cbn. by rewrite app_nil_r.
  - steps. rewrite IH. cbn. by rewrite <-app_assoc.
Qed.
Lemma reports_quiet evs g1 g2 g3 : reports evs g1 g2 → reports [] g2 g3 → reports evs g1 g3.
Proof. intros Ha Hb. pose proof (reports_trans _ _ _ _ _ Ha Hb) as Hc. by rewrite app_nil_r in Hc. Qed.
Lemma span_reports f v g : reports [] g (g_emit (ESpan f v) g).2.
Proof. exact (reports_emits [ESpan f v] g). Qed.
Lemma loud_audits audits : filter (λ e, loud e = true) (map EAudit audits) = map EAudit audits.
Proof. induction audits as [|a l IH]; [done|]. cbn [map]. by rewrite filter_cons_True, IH. Qed.
Lemma refuse_reports {A} why status start audits r g :
  reports (rejection why :: map EAudit audits) g (refuse (A:=A) why status start (map EAudit audits) r g).2.
Proof.
  unfold refuse, span, elapsed_ms, g_now, gets, record_rejection. steps. unfold mret, M_ret. cbn [snd].
  do 3 (refine (reports_quiet _ _ _ _ _ (span_reports _ _ _))).
  eapply (reports_trans [rejection why]); [exact (reports_emits [rejection why] g)|].
  rewrite <-(loud_audits audits) at 1. apply reports_emits.
Qed.

Lemma guards_eq plugins key path vm body start g :
  guards plugins key path vm body start g =
  if VirtualKey.allows_model key vm then
    if budget_left key g then
      match run_plugins plugins path vm body with
      | Ok body => (Ok body, g)
      | Err r =>
          refuse label_values.REASON_PLUGIN (status_code (pr_info r)) start
            (map EAudit [audit.plugin_rejected (VirtualKey.identifier key) (pr_plugin r)
               (reason (pr_info r)) (status_code (pr_info r))])
            (error (default 403%Z (status_from_u16 (status_code (pr_info r)))) (reason (pr_info r))) g
      end
    else refuse label_values.REASON_SPEND_LIMIT 402 start (map EAudit [])
           (error 402 "spend limit exceeded for this period") g
  else refuse label_values.REASON_FORBIDDEN_MODEL 403 start (map EAudit [])
         (error 403 "virtual key is not allowed to use this model") g.
Proof.
  unfold guards. destruct (VirtualKey.allows_model key vm) eqn:Em.
  2:{ apply try_m_refuse. unfold check_model. by rewrite Em. }
  rewrite (try_m_ok _ _ g () g) by (unfold check_model; by rewrite Em).
  pose proof (check_budget_spec key start g) as Hb. destruct (budget_left key g) eqn:Eb.
  2:{ apply try_m_refuse. revert Eb. unfold check_budget, budget_left, g_now, gets. steps.
      destruct (VirtualKey.spend_limit key); [|done]. intros Eb. by rewrite Eb. }
  rewrite (try_m_ok _ _ g () g) by done. unfold inspect. by destruct (run_plugins plugins path vm body).
Qed.
(** The span is opened first; it changes nothing that the guards read. *)
Lemma clear_decides rq key vm start pending g :
  let plugins := Runtime.plugins (g_runtime g) in
  let out := clear plugins key (rq_path rq) vm (rq_headers rq) (rq_body rq) start pending g in
  (∀ body, passes plugins key (rq_path rq) vm (rq_body rq) g body →
     out.1 = inr (Cleared (pending body)) ∧ reports [] g out.2) ∧
  (∀ why audits r, guarded_off rq key vm g why audits r →
     out.1 = inl (Some r) ∧ reports (rejection why :: map EAudit audits) g out.2) ∧
  ((∃ body, passes plugins key (rq_path rq) vm (rq_body rq) g body) ∨
   ∃ why audits r, guarded_off rq key vm g why audits r).
Proof.
  cbv zeta. unfold clear. steps.
  pose proof (open_span_still key vm (rq_headers rq) g) as Hs.
  assert (reports [] g (open_span key vm (rq_headers rq) g).2) as Hr.
  { unfold open_span. destruct (header_str _ _); exact (reports_emits _ g). }
  destruct (open_span key vm (rq_headers rq) g) as [u g1]. cbn [fst snd] in *.
  rewrite guards_eq.
  assert (budget_left key g1 = budget_left key g) as ->
    by (unfold budget_left; by rewrite (still_spend _ _ Hs), (still_now _ _ Hs)).
  assert (∀ body, passes (Runtime.plugins (g_runtime g)) key (rq_path rq) vm (rq_body rq) g body ↔
    VirtualKey.allows_model key vm = true ∧ budget_left key g = true ∧
    run_plugins (Runtime.plugins (g_runtime g)) (rq_path rq) vm (rq_body rq) = Ok body) as Hp.
  { intros body. unfold passes, budget_left. destruct (VirtualKey.spend_limit key) as [l|]; [|naive_solver].
    split; [intros (? & Hb & ?); by auto|]. intros (? & ? & ?). split_and!; [done| |done]. by intros ? [= <-]. }
  split_and!.
  - intros body (Hm & Hb & E)%Hp. by rewrite Hm, Hb, E.
  - intros why audits r [Hm|Hm Hb|r' Hm Hb E]; rewrite Hm, ?Hb, ?E;
      [pose proof (refuse_eval (A:=bytes) label_values.REASON_FORBIDDEN_MODEL 403 start (map EAudit [])) as Er
      |pose proof (refuse_eval (A:=bytes) label_values.REASON_SPEND_LIMIT 402 start (map EAudit [])) as Er
      |pose proof (refuse_eval (A:=bytes) label_values.REASON_PLUGIN (status_code (pr_info r')) start
         (map EAudit [audit.plugin_rejected (VirtualKey.identifier key) (pr_plugin r')
               (reason (pr_info r')) (status_code (pr_info r'))])) as Er];
      rewrite Er; (split; [done|]); exact (reports_trans [] _ _ _ _ Hr (refuse_reports _ _ _ _ _ _)).
  - destruct (VirtualKey.allows_model key vm) eqn:Hm; [|right; eexists _, _, _; by apply off_scope].
    destruct (budget_left key g) eqn:Hb; [|right; eexists _, _, _; by apply off_budget].
    destruct (run_plugins _ _ _ _) as [body|r] eqn:E; [left; exists body; by apply Hp|].
    right. eexists _, _, _. by apply off_plugin.
Qed.
End refusals.

(** ** Properties *)
Section properties.
Context `{Reqwest} `{Moka} `{Rustls} `{SerdeJson} `{AnthropicSerde} `{BedrockSerde} `{Crypto}
  `{Entropy} `{RegexCrate} `{Wasmtime} `{Env} `{HashOrder} `{TimeCrate} `{MetaSerde}
  `{ControlCrates} `{Config.Figment} `{AdminCrates} `{Addresses}.

(** The request of a connection goes on to a stage; or it leaves with an answer, whose
    body is not observed. *)
Definition goes_on (i : nat) (f : Flight) (st : Stage) (p p' : Process) : Prop :=
  flights p' = <[i := mkFlight (f_request f) st]> (flights p) ∧
  streams p' = streams p ∧ departed p' = departed p.
Definition leaves_with (i : nat) (f : Flight) (r : Response) (p p' : Process) : Prop :=
  flights p' = delete i (flights p) ∧ streams p' = delete i (streams p) ∧
  departed p' = departed p ++ [mkDeparture f (Replied (Some r))].

Lemma fly_eq i f p :
  flights p !! i = Some f →
  gw (happen (Resume i) p) = (resume (f_stage f) (gw p)).2 ∧
  match (resume (f_stage f) (gw p)).1 with
  | inr st => goes_on i f st p (happen (Resume i) p)
  | inl (Some r) => observed (Some r) = None → leaves_with i f r p (happen (Resume i) p)
  | inl None => True
  end.
Proof.
  intros Hi. cbn [happen]. rewrite Hi. unfold fly, gw. rewrite on_gw_eq.
  destruct (resume (f_stage f) _) as [[[r|]|st] g']; cbn [fst snd]; (split; [done|]); [|done|done].
  intros Ho. unfold leaves_with. cbn [flights streams departed]. split_and!; [done| |done].
  by rewrite Ho.
Qed.

(** A forwarded request is cleared, or not, with the state of the moment. *)
Lemma begin_clear rq key vm g :
  requested rq = Some vm →
  begin rq key g = clear (Runtime.plugins (g_runtime g)) key (rq_path rq) vm (rq_headers rq) (rq_body rq)
    (w_now (g_world g)) (pending_for rq key g) g.
Proof.
  unfold requested, begin, pending_for. destruct (decide (rq_method rq = "POST")) as [Em|]; [|done].
  destruct (decide (rq_path rq = "/v1/chat/completions")) as [Ep|Hn].
  - intros [= <-]. rewrite decide_True by done. unfold begin_chat, g_now, gets. cbv zeta. steps. by rewrite Ep.
  - destruct (decide (rq_path rq = "/v1/embeddings")) as [Ep|]; [|done]. intros [= <-].
    rewrite decide_False by tauto. rewrite decide_True by done.
    unfold begin_embeddings, g_now, gets. cbv zeta. steps. by rewrite Ep.
Qed.

(** C5: Every request is decided, under every interleaving. When the middleware runs
    for a request, in whatever state the process is then, the request is entitled to
    go on under a key or is turned away, and never both: with 401 when it presents no
    key of the store (and the store has any), with 401 when its key has expired, with
    429 when the key is beyond its rate; and the metric of exactly that reason is all
    that is recorded. When the handler of a chat or embeddings request then runs, its
    model, the key's budget and the plugins let it through, to be answered with the
    runtime of that moment and the body the plugins left, with no metric; or it leaves
    with 403 for a model beyond the key's scope, with 402 for a budget that is used up,
    or with the status of the first plugin that rejects it (403 for one that is no
    status), in that order; then the metric of that reason, and the audit event of a
    plugin's rejection, are all that is recorded besides the span's fields, and
    nothing else of the gateway changes. *)
Theorem every_request_decided p i f :
  flights p !! i = Some f →
  let g := gw p in
  let p' := happen (Resume i) p in
  match f_stage f with
  | Arrived rq =>
      ((∃ key, entitled rq key g) ∨ ∃ why r g1, turned_away rq g why r g1) ∧
      (∀ key, entitled rq key g →
         goes_on i f (Authenticated rq key) p p' ∧ gw p' = (within_rate key g).2) ∧
      (∀ why r g1, turned_away rq g why r g1 →
         leaves_with i f r p p' ∧ gw p' = (record_rejection why g1).2)
  | Authenticated rq key => ∀ vm, requested rq = Some vm →
      ((∃ body, passes (Runtime.plugins (g_runtime g)) key (rq_path rq) vm (rq_body rq) g body) ∨
       ∃ why audits r, guarded_off rq key vm g why audits r) ∧
      (∀ body, passes (Runtime.plugins (g_runtime g)) key (rq_path rq) vm (rq_body rq) g body →
         goes_on i f (Cleared (pending_for rq key g body)) p p' ∧ reports [] g (gw p')) ∧
      (∀ why audits r, guarded_off rq key vm g why audits r →
         leaves_with i f r p p' ∧ reports (rejection why :: map EAudit audits) g (gw p')) ∧
      still g (gw p') ∧ g_limiter (gw p') = g_limiter g
  | _ => True
  end.
Proof.
  intros Hi g p'. destruct (fly_eq i f p Hi) as [Eg Ef]. fold p' in Eg, Ef. fold g in Eg, Ef. rewrite Eg.
  destruct (f_stage f) as [rq|rq key|?|?|?|?] eqn:Est; try done; cbn [resume] in *.
  - destruct (authenticate_decides rq g) as (He & Ha & Ht). split_and!; [done| |].
    + intros key Hk. specialize (He key Hk). revert Ef. steps. by rewrite He.
    + intros why r g1 Hk. pose proof (Ha _ _ _ Hk) as E. revert Ef. steps. rewrite E. cbn. intros Hr.
      split; [|done]. apply Hr. by destruct Hk.
  - intros vm Hq. pose proof (begin_fixes g_limiter rq key g) as Hl.
    destruct (Steady_begin rq key) as [Hst _]. specialize (Hst g).
    rewrite (begin_clear _ _ _ _ Hq) in *.
    destruct (clear_decides rq key vm (w_now (g_world g)) (pending_for rq key g) g) as (Hp & Ho & Ht).
    split_and!; [done| | |done|done].
    + intros body (E & Hr)%Hp. by rewrite E in Ef.
    + intros why audits r Hk. destruct (Ho _ _ _ Hk) as [E Hr]. rewrite E in Ef.
      split; [|done]. apply Ef. by destruct Hk.
Qed.
End properties.

(** ** Witness: a request without a key *)
#[local] Existing Instances ok_reqwest sample_moka sample_rustls no_usage_serde sample_bedrock_serde
  sample_crypto sample_entropy sample_regex sample_wasmtime sample_env some_hash_order sample_time
  streaming_meta sample_figment sample_admin_crates offline_control any_address usage_documents.
Lemma every_request_decided_witness :
  let p := happen (Arrive 0 sample_rq) streaming_process in
  departed (happen (Resume 0) p)
  = [mkDeparture (mkFlight sample_rq (Arrived sample_rq))
       (Replied (Some (error 401 "missing or invalid virtual key")))].
Proof.
  cbv zeta.
  destruct (every_request_decided (happen (Arrive 0 sample_rq) streaming_process) 0
    (mkFlight sample_rq (Arrived sample_rq)) eq_refl) as (_ & _ & Ha).
  refine (proj2 (proj2 (proj1 (Ha _ _ _ (away_unknown _ _ _))))).
  intros key [[E _]|(_ & token & E & _)]; [|discriminate E].
  apply (f_equal (lookup "tok")) in E. discriminate E.
Defined.
