(* ===== verification/Isolation.v ===== *)
(** * Isolation: whose answers the cache serves

    What the caches of the running gateway hold, against the history of the process:
    every answer was given by a provider to an admitted request, and it is served to
    the requests of the same virtual key. *)

From S2P Require Import Prelude Text Float64 Json Events Auth Limits RateWindow Plugin Config Provider.
From S2P Require Import OpenAi Anthropic Sse StreamObserver Bedrock Registry Cache Tls Wasm Runtime.
From S2P Require Import Connectors Proxy Billing ControlMap LinkStatus ControlNode Admin System.
From S2P Require Import SystemInvariants Metering Inflight Concurrency Ledger Admissions Background Provenance.
Import Json.

Section isolation.
Context `{Reqwest} `{Moka} `{Rustls} `{SerdeJson} `{AnthropicSerde} `{BedrockSerde} `{Crypto}
  `{Entropy} `{RegexCrate} `{Wasmtime} `{Env} `{HashOrder} `{TimeCrate} `{MetaSerde}
  `{ControlCrates} `{Config.Figment} `{AdminCrates} `{Addresses} `{!MokaLaws}.

(** A cache on the heap of the gateway may answer a key with a value. *)
Definition held (g : Gateway) (h : nat) (k : string) (v : CachedResponse) : Prop :=
  ∃ c, g_caches g !! h = Some c ∧ holds c k v.
Definition retains (g g' : Gateway) : Prop := ∀ h k v, held g' h k v → held g h k v.
(** What is stored of an answer. *)
Definition stored (up : ChatResponse) (body : bytes) : CachedResponse :=
  CachedResponse.mk (ChatResponse.status up) (ChatResponse.content_type up) body
    (ChatResponse.provider up) (ChatResponse.model up) (ChatResponse.usage up).
(** In a run: a provider gave the value, in full and with status 200, to an admitted
    request that uses this cache under this key. *)
Definition given_in (es : list event) (p0 : Process) (h : nat) (k : string) (v : CachedResponse)
    (rq : Request) (q : Pending) : Prop :=
  ∃ up body, admitted_in es p0 rq q ∧ answered_in es p0 q (Ok up) ∧
    ChatResponse.status up = 200%Z ∧ collect_body (ChatResponse.body up) = Ok body ∧
    v = stored up body ∧ Runtime.cache (p_runtime q) = Some h ∧ p_cache_key q = Some k.

(** What the cache key of a request hashes: its virtual key, its model, and its
    idempotency key or the body the plugins left. *)
Definition key_material (rq : Request) (key : VirtualKey) (body : bytes) : bytes :=
  ResponseCache.key_bytes (VirtualKey.identifier key) (default "" (requested rq))
    match header_str (rq_headers rq) IDEMPOTENCY_HEADER with
    | Some ik => as_bytes ("idempotency:" +:+ ik)
    | None => body
    end.
(** The hash inputs of the requests cleared in a run. *)
Definition hashed_in (es : list event) (p0 : Process) (x : bytes) : Prop :=
  ∃ es1 es2 rq q body, es = es1 ++ es2 ∧ authenticated_in es1 p0 rq (p_key q) ∧
    cleared_as rq q (gw (plays es1 p0)) body ∧ x = key_material rq (p_key q) body.
Definition collision_free (es : list event) (p0 : Process) : Prop :=
  ∀ x y, hashed_in es p0 x → hashed_in es p0 y → hex_encode (sha256 x) = hex_encode (sha256 y) → x = y.

(** Nothing but the storing of an answer puts anything in a cache. *)
#[export] Instance retains_background : Background retains.
Proof.
  split; [split| | | |..]; try (intros *; intros h' k' v; exact id).
  - by intros g h k v.
  - intros a b c Hab Hbc h k v Hc. by apply Hab, Hbc.
  - intros size ttl g h k v (c & Hc & Hv). cbn in Hc. rewrite lookup_app in Hc.
    destruct (g_caches g !! h) as [c0|] eqn:E; [injection Hc as <-; by exists c0|].
    destruct (h - length (g_caches g)) as [|n]; [|discriminate Hc].
    injection Hc as <-. by apply build_holds in Hv.
  - intros h0 k0 g h k v (c & Hc & Hv). unfold cache_get in Hc.
    destruct (g_caches g !! h0) as [c0|] eqn:E; [|by exists c].
    destruct (ResponseCache.get _ _ _) as [r c1] eqn:Eg. cbn in Hc. apply list_lookup_insert_Some in Hc.
    destruct Hc as [(-> & <- & _)|[_ Hc]]; [|by exists c]. exists c0. split; [done|].
    by eapply get_keeps.
Qed.
Lemma store_held h0 k0 up g h k v :
  held (store_and_respond h0 k0 up g).2 h k v →
  held g h k v ∨ (h = h0 ∧ k = k0 ∧ ∃ b, collect_body (ChatResponse.body up) = Ok b ∧ v = stored up b).
Proof.
  unfold store_and_respond. destruct (collect_body _) as [b|e]; [|by left]. steps.
  unfold cache_insert. destruct (g_caches g !! h0) as [c0|] eqn:E; [|by left].
  intros (c & Hc & Hv). cbn in Hc. apply list_lookup_insert_Some in Hc.
  destruct Hc as [(-> & <- & _)|[_ Hc]]; [|left; by exists c].
  apply insert_holds in Hv as [[-> ->]|[_ Hv]]; [right; eauto|left; by exists c0].
Qed.

Lemma given_more es es' p0 h k v rq q : given_in es p0 h k v rq q → given_in (es ++ es') p0 h k v rq q.
Proof.
  intros (up & b & ? & ? & ?). exists up, b. split_and!; [by apply admitted_more|by apply answered_more|tauto..].
Qed.
Lemma run_held es p0 h k v :
  flights p0 = ∅ → streams p0 = ∅ → (∀ h k v, ¬ held (gw p0) h k v) →
  held (gw (plays es p0)) h k v → ∃ rq q, given_in es p0 h k v rq q.
Proof.
  intros Hf Hs Hn. induction es as [|e es IH] using rev_ind; [by intros ?%Hn|].
  rewrite plays_app. cbn [plays]. intros Hh.
  assert (held (gw (plays es p0)) h k v → ∃ rq q, given_in (es ++ [e]) p0 h k v rq q) as Hold.
  { intros (rq & q & Hg)%IH. exists rq, q. by apply given_more. }
  destruct (storing e (plays es p0)) as [[[h0 k0] up]|] eqn:Est.
  2:{ apply Hold. by apply (happen_moves retains _ _ Est). }
  destruct e as [|i| | |]; try done. cbn [storing] in Est.
  destruct (flights (plays es p0) !! i) as [f|] eqn:Ei; [|done]. cbn [fmap option_fmap option_map] in Est.
  destruct (f_stage f) as [| | | | |h1 k1 up1] eqn:Estage; try done. injection Est as <- <- <-.
  cbn [happen] in Hh. rewrite Ei in Hh. unfold fly, gw in Hh. rewrite on_gw_eq, Estage in Hh.
  cbn [resume] in Hh. revert Hh. steps. unfold reply. cbn [mret M_ret fst snd system app gateway set_gateway].
  intros [Hh|(-> & -> & b & Hb & ->)]%store_held; [by apply Hold|].
  destruct (run_vouched es p0 Hf Hs) as [Hv _]. specialize (Hv i f Ei). rewrite Estage in Hv.
  destruct Hv as (q & Ha & Han & Hst & Hc & Hk). exists (f_request f), q, up1, b.
  split_and!; [by apply admitted_more|by apply answered_more|done..].
Qed.
End isolation.

(** ** Properties *)
Section properties.
Context `{Reqwest} `{Moka} `{Rustls} `{SerdeJson} `{AnthropicSerde} `{BedrockSerde} `{Crypto}
  `{Entropy} `{RegexCrate} `{Wasmtime} `{Env} `{HashOrder} `{TimeCrate} `{MetaSerde}
  `{ControlCrates} `{Config.Figment} `{AdminCrates} `{Addresses} `{!MokaLaws}.

Lemma look_up_held c ck g v :
  (look_up c ck g).1 = Some v → ∃ h k, c = Some h ∧ ck = Some k ∧ held g h k v.
Proof.
  unfold look_up. destruct c as [h|], ck as [k|]; try done. unfold cache_get.
  destruct (g_caches g !! h) as [c|] eqn:E; [|done].
  destruct (ResponseCache.get k _ c) as [r c'] eqn:Eg. cbn. intros ->. exists h, k. split_and!; [done..|].
  exists c. split; [done|]. by eapply get_holds.
Qed.
(** A request with a cache key was cleared with its hash input. *)
Lemma pending_key rq key g body vm k :
  requested rq = Some vm → p_cache_key (pending_for rq key g body) = Some k →
  k = hex_encode (sha256 (key_material rq key body)).
Proof.
  unfold key_material, requested, pending_for, chat_pending, embeddings_pending, cache_key_for.
  intros Hvm. rewrite Hvm. cbn [default]. revert Hvm.
  destruct (decide (rq_method rq = "POST")); [|done].
  destruct (decide (rq_path rq = "/v1/chat/completions")); cbn [p_cache_key].
  - intros [= <-]. destruct (ChatMeta.stream (chat_meta (rq_body rq))); [done|]. intros [= <-].
    by destruct (header_str (rq_headers rq) IDEMPOTENCY_HEADER).
  - destruct (decide (rq_path rq = "/v1/embeddings")); [|done]. intros [= <-] [= <-].
    by destruct (header_str (rq_headers rq) IDEMPOTENCY_HEADER).
Qed.
Lemma admitted_hashed es p0 rq q k :
  admitted_in es p0 rq q → p_cache_key q = Some k →
  ∃ body, hashed_in es p0 (key_material rq (p_key q) body) ∧
    k = hex_encode (sha256 (key_material rq (p_key q) body)).
Proof.
  intros (es1 & es2 & -> & Ha & body & Hc) Hk. exists body. split; [by exists es1, es2, rq, q, body|].
  destruct Hc as (vm & Hvm & _ & Hq). rewrite Hq in Hk. by eapply pending_key.
Qed.
(** Hash inputs keep virtual keys and models apart. *)
Lemma key_material_scope rq key body rq' key' body' :
  no_nul (VirtualKey.identifier key) → no_nul (VirtualKey.identifier key') →
  key_material rq key body = key_material rq' key' body' →
  VirtualKey.identifier key' = VirtualKey.identifier key ∧
  (no_nul (default "" (requested rq)) → no_nul (default "" (requested rq')) →
   default "" (requested rq') = default "" (requested rq)).
Proof.
  unfold key_material, ResponseCache.key_bytes. cbn [Datatypes.app]. intros Hn Hn' E.
  apply app_nul_inj in E as [Es E]; [|done..]. split; [by apply as_bytes_inj in Es|].
  intros Hm Hm'. apply app_nul_inj in E as [Em _]; [|done..]. by apply as_bytes_inj in Em.
Qed.
Lemma run_empty config path w s h k v :
  System.run config path w = Ok s → ¬ held (gateway (app s)) h k v.
Proof.
  intros (rt & g & link & p & tls & Hb & _ & _ & ->)%run_inv Hh.
  pose proof (build_runtime_moves retains config (fresh_gateway config w) h k v) as Hr. rewrite Hb in Hr.
  destruct (Hr Hh) as (c & Hc & _). by cbn in Hc.
Qed.

(** C7: The cache keeps tenants apart, under every interleaving of requests, streams,
    drops, admin requests, reloads and polls of the Control Node. Whatever the cache
    serves to a request in flight is an answer a provider gave in that run, in full
    and with status 200, to the call of an admitted request that uses the same cache
    under the same hash; and if the hash does not collide on the requests cleared in
    the run, and identifiers hold no zero byte, that request was made under a virtual
    key of the same identifier, and, if models hold no zero byte either, for the same
    model. *)
Theorem cache_keeps_tenants_apart config path w s es i f q v :
  System.run config path w = Ok s →
  let p := plays es (launch s) in
  collision_free es (launch s) →
  flights p !! i = Some f → f_stage f = Cleared q → no_nul (VirtualKey.identifier (p_key q)) →
  (look_up (Runtime.cache (p_runtime q)) (p_cache_key q) (gateway (app (system p)))).1 = Some v →
  ∃ h k rq' q', Runtime.cache (p_runtime q) = Some h ∧ p_cache_key q = Some k ∧
    given_in es (launch s) h k v rq' q' ∧
    (no_nul (VirtualKey.identifier (p_key q')) →
     VirtualKey.identifier (p_key q') = VirtualKey.identifier (p_key q) ∧
     (no_nul (default "" (requested (f_request f))) → no_nul (default "" (requested rq')) →
      default "" (requested rq') = default "" (requested (f_request f)))).
Proof.
  intros Hs. cbn zeta. intros Hcf Hi Hst Hn Hv.
  destruct (look_up_held _ _ _ _ Hv) as (h & k & Hc & Hk & Hh).
  destruct (run_held es (launch s) h k v eq_refl eq_refl (λ h k v, run_empty _ _ _ _ h k v Hs) Hh)
    as (rq' & q' & Hg).
  exists h, k, rq', q'. split_and!; [done..|]. intros Hn'.
  destruct Hg as (up & b & Ha' & _ & _ & _ & _ & _ & Hk').
  destruct (run_vouched es (launch s) eq_refl eq_refl) as [Hf _]. specialize (Hf i f Hi).
  rewrite Hst in Hf. destruct (admitted_hashed _ _ _ _ _ Hf Hk) as (x & Hx & E),
    (admitted_hashed _ _ _ _ _ Ha' Hk') as (x' & Hx' & E').
  eapply key_material_scope; [done|done|]. apply Hcf; [done..|]. congruence.
Qed.
End properties.

(** ** Witness: the second of two requests under one key, before the cache *)
#[local] Existing Instances ok_reqwest sample_moka sample_rustls no_usage_serde sample_bedrock_serde
  sample_crypto sample_entropy sample_regex sample_wasmtime sample_env some_hash_order sample_time
  sample_meta sample_figment sample_admin_crates offline_control any_address sample_moka_laws.
#[local] Instance no_documents : SerdeJson := one_document Null.
Definition second_request : list event :=
  Arrive 0 keyed_rq :: repeat (Resume 0) 7 ++ [Arrive 1 keyed_rq; Resume 1; Resume 1].
Definition empty_answer : CachedResponse := CachedResponse.mk 200 None [] "openai" "gpt-4o" None.
Definition before_the_cache (i : nat) (p : Process) : option (Flight * Pending) :=
  f ← flights p !! i;
  if f_stage f is Cleared q then Some (f, q) else None.
Definition served (p : Process) (fq : Flight * Pending) : string * option CachedResponse :=
  (VirtualKey.identifier (p_key fq.2),
   (look_up (Runtime.cache (p_runtime fq.2)) (p_cache_key fq.2) (gateway (app (system p)))).1).
Lemma before_served i p x :
  served p <$> before_the_cache i p = Some x →
  ∃ f q, flights p !! i = Some f ∧ f_stage f = Cleared q ∧ served p (f, q) = x.
Proof.
  unfold before_the_cache. destruct (flights p !! i) as [f|]; cbn [mbind option_bind]; [|done].
  destruct (f_stage f) as [| |q| | |] eqn:Es; try done. intros [= <-]. by exists f, q.
Qed.
Definition second_served (s : System) : option (string * option CachedResponse) :=
  let p := plays second_request (launch s) in served p <$> before_the_cache 1 p.
Lemma second_request_run :
  ∃ s f q, System.run two_a_second None first_world = Ok s ∧
    flights (plays second_request (launch s)) !! 1 = Some f ∧ f_stage f = Cleared q ∧
    served (plays second_request (launch s)) (f, q) = ("vp_1", Some empty_answer).
Proof.
  assert (second_served <$> System.run two_a_second None first_world
    = Ok (Some ("vp_1", Some empty_answer))) as Hr by (vm_compute; reflexivity).
  apply result_fmap_ok in Hr as (s & Hs & E).
  destruct (before_served 1 _ _ E) as (f & q & Hf). by exists s, f, q.
Qed.
Lemma no_collision es p0 : collision_free es p0.
Proof.
  intros x y _ _ Hxy. change (of_bytes x = of_bytes y) in Hxy.
  by rewrite <-(as_of_bytes x), <-(as_of_bytes y), Hxy.
Qed.
Lemma vp_1_no_nul : no_nul "vp_1".
Proof.
  intros Hin%list_elem_of_In. cbn in Hin.
  repeat (destruct Hin as [Hin|Hin]; [discriminate|]). done.
Qed.
Lemma cache_keeps_tenants_apart_witness :
  ∃ s h k rq q, System.run two_a_second None first_world = Ok s ∧
    given_in second_request (launch s) h k empty_answer rq q ∧
    (no_nul (VirtualKey.identifier (p_key q)) → VirtualKey.identifier (p_key q) = "vp_1").
Proof.
  destruct second_request_run as (s & f & q & Hs & Hf & Hst & Hv).
  assert (VirtualKey.identifier (p_key q) = "vp_1") as Hid by exact (f_equal fst Hv).
  destruct (cache_keeps_tenants_apart two_a_second None first_world s second_request 1 f q empty_answer Hs
    (no_collision _ _) Hf Hst) as (h & k & rq' & q' & _ & _ & Hg & Hk).
  - rewrite Hid. exact vp_1_no_nul.
  - exact (f_equal snd Hv).
  - exists s, h, k, rq', q'. split; [exact Hs|]. split; [exact Hg|].
    intros Hn. rewrite <-Hid. exact (proj1 (Hk Hn)).
Defined.
