(* ===== verification/Overshoot.v ===== *)
(** * Overshoot: how far a budget is overdrawn

    The budget of a key is checked before the upstream call and charged after it. What
    the requests under way when it runs out may still charge, and that nothing else
    does, under every interleaving. *)

From S2P Require Import Prelude Text Float64 Json Events Auth Limits RateWindow Plugin Config Provider.
From S2P Require Import OpenAi Anthropic Sse StreamObserver Bedrock Registry Cache Tls Wasm Runtime.
From S2P Require Import Connectors Proxy Billing ControlMap LinkStatus ControlNode Admin System.
From S2P Require Import SystemInvariants Metering Inflight Concurrency Ledger Admissions Provenance.
Import Json.

#[export] Instance f64_eq_dec : EqDecision f64.
Proof. solve_decision. Defined.
#[export] Instance SpendLimit_eq_dec : EqDecision SpendLimit.
Proof. solve_decision. Defined.

Section overshoot.
Context `{Reqwest} `{Moka} `{Rustls} `{SerdeJson} `{AnthropicSerde} `{BedrockSerde} `{Crypto}
  `{Entropy} `{RegexCrate} `{Wasmtime} `{Env} `{HashOrder} `{TimeCrate} `{MetaSerde}
  `{ControlCrates} `{Config.Figment} `{AdminCrates} `{Addresses}.
(** A key, by its identifier, with its budget. *)
Context (k : string) (l : SpendLimit).

(** The tracker has no headroom left for the key. *)
Definition used_up (g : Gateway) : Prop :=
  SpendTracker.pre_check (g_spend g) k l (w_now (g_world g)) = false.

(** Requests past the guards, and bodies under observation, that are under the key and
    its budget. *)
Definition mine (key_id : string) (limit : option SpendLimit) : bool :=
  bool_decide (key_id = k ∧ limit = Some l).
Definition stage_mine (st : Stage) : bool :=
  match st with
  | Cleared q | Missed q | Answered q _ => mine (VirtualKey.identifier (p_key q)) (VirtualKey.spend_limit (p_key q))
  | _ => false
  end.
Definition stream_mine (so : UsageObservingStream.UsageObservingStream) : bool :=
  mine (UsageObservingStream.key_id so) (UsageObservingStream.spend_limit so).
Definition mover_mine (e : event) (p : Process) : bool :=
  match e with
  | Resume i => match flights p !! i with Some f => stage_mine (f_stage f) | None => false end
  | Flow i => match streams p !! i with Some so => stream_mine so | None => false end
  | _ => false
  end.

(** The charges they make in a run, each with its connection. *)
Definition drawn (e : event) (p : Process) : list (nat * SpendTracker.op) :=
  match connection e with
  | Some i => if mover_mine e p then pair i <$> entries e p else []
  | None => []
  end.
Fixpoint draws (es : list event) (p : Process) : list (nat * SpendTracker.op) :=
  match es with [] => [] | e :: es => drawn e p ++ draws es (happen e p) end.

(** What a connection carries of them that is still to be charged. *)
Definition pledged_stage (st : Stage) : nat := if stage_mine st then due_flight st else 0.
Definition pledged_stream (so : UsageObservingStream.UsageObservingStream) : nat :=
  if stream_mine so then due_stream so else 0.
Definition pledged (i : nat) (p : Process) : nat :=
  match flights p !! i with Some f => pledged_stage (f_stage f) | None => 0 end +
  match streams p !! i with Some so => pledged_stream so | None => 0 end.
Definition pledgers (p : Process) : gset nat :=
  filter (λ i, pledged i p ≠ 0) (dom (flights p) ∪ dom (streams p)).
End overshoot.

(** ** Lemmas *)
Section lemmas.
Context `{Reqwest} `{Moka} `{Rustls} `{SerdeJson} `{AnthropicSerde} `{BedrockSerde} `{Crypto}
  `{Entropy} `{RegexCrate} `{Wasmtime} `{Env} `{HashOrder} `{TimeCrate} `{MetaSerde}
  `{ControlCrates} `{Config.Figment} `{AdminCrates} `{Addresses}.
Context (k : string) (l : SpendLimit).

(** A connection carries a request or a body. *)
Definition one_each (p : Process) : Prop := ∀ i, flights p !! i = None ∨ streams p !! i = None.
Lemma happen_one_each e p : one_each p → one_each (happen e p).
Proof.
  intros Hp i. destruct (decide (connection e = Some i)) as [Hc|Hc];
    [|destruct (happen_elsewhere i e p Hc) as [-> ->]; apply Hp].
  specialize (Hp i). destruct e as [j rq|j|j|j|a]; try done; cbn [connection] in Hc; injection Hc as ->; cbn [happen].
  - unfold idle. destruct (flights p !! i) eqn:Ef; [by rewrite Ef|].
    destruct (streams p !! i) eqn:Es; [by left|]. by right.
  - destruct (flights p !! i) as [f|] eqn:Ef; [|by left]. destruct Hp as [?|Hs]; [done|].
    unfold fly. rewrite on_gw_eq. destruct (resume (f_stage f) _) as [[r|st] g']; cbn [fst flights streams].
    + left. apply lookup_delete_eq.
    + by right.
  - destruct (streams p !! i) as [so|] eqn:Es; [|by right]. destruct Hp as [Hf|?]; [|done].
    unfold flow. rewrite on_gw_eq. destruct (poll_stream so _) as [[polled so'] g']. by left.
  - destruct (flights p !! i); cbn [flights streams]; [left|right]; apply lookup_delete_eq.
Qed.
Lemma plays_one_each es p : one_each p → one_each (plays es p).
Proof. revert p. induction es as [|e es IH]; intros p Hp; [done|]. by apply IH, happen_one_each. Qed.

Lemma mine_spec key_id limit : mine k l key_id limit = true ↔ key_id = k ∧ limit = Some l.
Proof. apply bool_decide_eq_true. Qed.
Lemma pledged_stage_le st : pledged_stage k l st ≤ due_flight st.
Proof. unfold pledged_stage. case_match; lia. Qed.
Lemma pledged_stream_le so : pledged_stream k l so ≤ due_stream so.
Proof. unfold pledged_stream. case_match; lia. Qed.
Lemma pledged_le i p : one_each p → pledged k l i p ≤ 1.
Proof.
  intros Hp. specialize (Hp i). unfold pledged.
  destruct (flights p !! i) as [f|], (streams p !! i) as [so|]; [by destruct Hp| | |lia].
  - pose proof (pledged_stage_le (f_stage f)). pose proof (due_flight_le (f_stage f)). lia.
  - pose proof (pledged_stream_le so). pose proof (due_stream_le so). lia.
Qed.

(** No segment pledges more than its request had pledged: without headroom, none is let
    past the guards. *)
Definition pledged_next (next : Next) : nat :=
  match next with
  | inl r => match observed r with Some so => pledged_stream k l so | None => 0 end
  | inr st => pledged_stage k l st
  end.
Lemma next_mine st g n :
  stage_ok n st → used_up k l g → pledged_next (resume st g).1 ≠ 0 → stage_mine k l st = true.
Proof.
  intros Hok Hu. destruct (resume st g).1 as [r|st'] eqn:Er; cbn [pledged_next].
  - destruct (observed r) as [so|] eqn:Eo; [|done].
    destruct (segment_body _ _ _ _ Er Eo) as (q & up & -> & Hq). destruct Hok as [_ Ho].
    destruct (Ho up eq_refl) as [Hn|[E _]]; [by destruct (Hn so)|]. rewrite Hq in E.
    injection E as ->. unfold pledged_stream. by destruct (stream_mine k l _) eqn:Em.
  - pose proof (segment_next _ _ _ Er) as Hn. unfold pledged_stage.
    destruct (stage_mine k l st') eqn:Em; [|done]. intros _.
    destruct st, st'; try done; cbn [stage_mine] in *; try (by subst).
    + destruct Hn as (<- & b & vm & _ & (_ & Hb & _) & _). apply mine_spec in Em as [Ek El].
      specialize (Hb l El). rewrite Ek in Hb. unfold used_up in Hu. congruence.
    + by destruct Hn as [-> _].
Qed.
Lemma segment_pledged st g n :
  stage_ok n st → used_up k l g →
  (if stage_mine k l st then length (flight_entry st (w_now (g_world g))) else 0)
  + pledged_next (resume st g).1 ≤ pledged_stage k l st.
Proof.
  intros Hok Hu. pose proof (segment_due st g n Hok) as Hd. pose proof (next_mine st g n Hok Hu) as Hm.
  unfold pledged_stage at 1. destruct (stage_mine k l st).
  2:{ destruct (pledged_next (resume st g).1); [done|]. by discriminate Hm. }
  enough (pledged_next (resume st g).1
    ≤ match (resume st g).1 with inl r => due_response r | inr st' => due_flight st' end) by lia.
  destruct (resume st g).1 as [r|st']; cbn [pledged_next]; [|apply pledged_stage_le].
  unfold due_response. destruct (observed r); [apply pledged_stream_le|done].
Qed.

Lemma happen_pledged cfg path i e p :
  process_ok cfg path p → one_each p → used_up k l (gw p) →
  length (filter (λ x, x.1 = i) (drawn k l e p)) + pledged k l i (happen e p) ≤ pledged k l i p.
Proof.
  intros [_ Hf _] Hone Hu. destruct (decide (connection e = Some i)) as [Hc|Hc].
  2:{ unfold pledged. destruct (happen_elsewhere i e p Hc) as [-> ->]. unfold drawn.
      destruct (connection e) as [j|]; [|done]. destruct (mover_mine k l e p); [|done].
      assert (j ≠ i) as Hj by congruence. induction (entries e p) as [|o os IH]; [done|].
      rewrite fmap_cons, filter_cons_False; [exact IH|exact Hj]. }
  assert (length (filter (λ x, x.1 = i) (drawn k l e p)) ≤ if mover_mine k l e p then length (entries e p) else 0)
    as Hd.
  { unfold drawn. rewrite Hc. destruct (mover_mine k l e p); [|done].
    rewrite length_filter. by rewrite length_fmap. }
  revert Hd. generalize (length (filter (λ x, x.1 = i) (drawn k l e p))). intros n Hn. unfold pledged.
  destruct e as [j rq|j|j|j|a]; try done; cbn [connection] in Hc; injection Hc as ->;
    cbn [happen entries mover_mine] in *.
  - unfold idle. destruct (flights p !! i) eqn:E1, (streams p !! i) eqn:E2; cbn;
      rewrite ?E1, ?E2, ?lookup_insert_eq; cbn; lia.
  - destruct (flights p !! i) as [f|] eqn:E1; [|rewrite E1; lia].
    destruct (Hone i) as [?|E2]; [congruence|].
    pose proof (segment_pledged (f_stage f) (gw p) _ (proj1 (Hf i f E1)) Hu) as Hd. unfold fly. rewrite on_gw_eq.
    unfold gw in *. destruct (resume (f_stage f) _) as [[r|st] g']; cbn [fst snd flights streams pledged_next] in *.
    + rewrite lookup_delete_eq, lookup_partial_alter_eq. destruct (observed r); lia.
    + rewrite lookup_insert_eq. cbn [f_stage]. lia.
  - destruct (streams p !! i) as [so|] eqn:E2; [|rewrite E2; lia].
    destruct (Hone i) as [E1|?]; [|congruence].
    pose proof (proj2 (stream_spend so (gw p))) as Hd. pose proof (poll_bearer so (gw p)) as [= Ek El _].
    unfold flow. rewrite on_gw_eq. unfold gw in *.
    destruct (poll_stream so _) as [[polled so'] g']; cbn [fst snd flights streams] in *.
    assert (stream_mine k l so' = stream_mine k l so) as Em by (unfold stream_mine; by rewrite Ek, El).
    rewrite E1. destruct (ended polled); rewrite ?lookup_delete_eq, ?lookup_insert_eq;
      unfold pledged_stream; rewrite ?Em; destruct (stream_mine k l so); lia.
  - destruct (flights p !! i) as [f|] eqn:E1; cbn [flights streams];
      rewrite ?E1, ?lookup_delete_eq; lia.
Qed.
Lemma draws_pledged cfg path n i es p :
  process_ok cfg path p → conserved n p → one_each p →
  (∀ es1, es1 `prefix_of` es → used_up k l (gw (plays es1 p))) →
  length (filter (λ x, x.1 = i) (draws k l es p)) + pledged k l i (plays es p) ≤ pledged k l i p.
Proof.
  revert p. induction es as [|e es IH]; intros p Hp Hc Hone Hu; [done|]. cbn [draws plays].
  rewrite filter_app, length_app. destruct (happen_ok _ _ _ e _ Hp Hc) as [Hp' Hc'].
  specialize (IH _ Hp' Hc' (happen_one_each e p Hone)).
  pose proof (happen_pledged _ _ i e p Hp Hone (Hu [] (prefix_nil _))).
  enough (∀ es1, es1 `prefix_of` es → used_up k l (gw (plays es1 (happen e p)))) as Hu' by (specialize (IH Hu'); lia).
  intros es1 He. by apply (Hu (e :: es1)), prefix_cons.
Qed.

(** Labels that occur once each. *)
Lemma labels_nodup {A} (xs : list (nat * A)) :
  (∀ i, length (filter (λ x, x.1 = i) xs) ≤ 1) → NoDup xs.*1.
Proof.
  induction xs as [|x xs IH]; intros Hx; [constructor|]. rewrite fmap_cons. constructor.
  - intros (y & E & Hy)%list_elem_of_fmap. specialize (Hx x.1). rewrite filter_cons_True in Hx by done.
    cbn [length] in Hx. assert (y ∈ filter (λ y, y.1 = x.1) xs) as Hin by (by apply list_elem_of_filter).
    destruct (filter _ xs); [by apply elem_of_nil in Hin|cbn in Hx; lia].
  - apply IH. intros i. specialize (Hx i). rewrite filter_cons in Hx. case_decide; cbn in Hx; lia.
Qed.
Lemma draws_entered es p : (draws k l es p).*2 `sublist_of` entered es p.
Proof.
  revert p. induction es as [|e es IH]; intros p; [done|]. cbn [draws entered]. rewrite fmap_app.
  apply sublist_app; [|apply IH]. unfold drawn. destruct (connection e) as [i|]; [|apply sublist_nil_l].
  destruct (mover_mine k l e p); [|apply sublist_nil_l].
  rewrite <-list_fmap_compose. by rewrite list_fmap_id.
Qed.

(** Every charge against the identifier is theirs, or of a request that was let in
    under the same identifier with another budget. *)
Definition other_budget (es : list event) (p0 : Process) : Prop :=
  ∃ rq q l', admitted_in es p0 rq q ∧ VirtualKey.identifier (p_key q) = k ∧
    VirtualKey.spend_limit (p_key q) = Some l' ∧ l' ≠ l.
Lemma entry_record pricing kid limit provider model usage now per c t :
  SpendTracker.Record_ k per c t ∈ entry pricing kid limit provider model usage now →
  kid = k ∧ is_Some limit.
Proof.
  unfold entry. destruct (usage ≫= _) as [c'|]; [|by intros ?%elem_of_nil].
  destruct limit as [l'|]; [|by intros ?%elem_of_nil]. by intros [= -> _ _ _]%list_elem_of_singleton.
Qed.
Lemma drawn_ops e p i : connection e = Some i → mover_mine k l e p = true → (drawn k l e p).*2 = entries e p.
Proof. intros Hc Hm. unfold drawn. rewrite Hc, Hm, <-list_fmap_compose. apply list_fmap_id. Qed.
Lemma entries_drawn es p0 e per c t :
  vouched es p0 → SpendTracker.Record_ k per c t ∈ entries e (plays es p0) →
  SpendTracker.Record_ k per c t ∈ (drawn k l e (plays es p0)).*2 ∨ other_budget es p0.
Proof.
  intros [Hf Hs] Ho.
  assert (∀ i rq q (b : bool), connection e = Some i → admitted_in es p0 rq q →
    mover_mine k l e (plays es p0) = mine k l (VirtualKey.identifier (p_key q)) (VirtualKey.spend_limit (p_key q)) →
    VirtualKey.identifier (p_key q) = k → is_Some (VirtualKey.spend_limit (p_key q)) →
    SpendTracker.Record_ k per c t ∈ (drawn k l e (plays es p0)).*2 ∨ other_budget es p0) as Hgo.
  { intros i rq q _ Hc Ha Em Ek [l' El]. destruct (decide (l' = l)) as [->|Hl].
    - left. erewrite drawn_ops; [done..|]. rewrite Em. by apply mine_spec.
    - right. by exists rq, q, l'. }
  destruct e as [i rq|i|i|i|a]; cbn [entries] in Ho; try by apply elem_of_nil in Ho.
  - destruct (flights _ !! i) as [f|] eqn:Ei; [|by apply elem_of_nil in Ho]. specialize (Hf _ _ Ei).
    destruct (f_stage f) as [| | | |q [up|]|] eqn:Est; cbn [flight_entry] in Ho; try by apply elem_of_nil in Ho.
    apply entry_record in Ho as [Ek El]. apply (Hgo i (f_request f) q true); try done; [apply Hf|].
    cbn [mover_mine]. by rewrite Ei, Est.
  - destruct (streams _ !! i) as [so|] eqn:Ei; [|by apply elem_of_nil in Ho].
    destruct (Hs _ _ Ei) as (rq & q & Ha & Hk & Hl & _). unfold stream_entry in Ho.
    destruct (UsageObservingStream.found_usage so); [by apply elem_of_nil in Ho|].
    destruct (poll_body _).1 as [|[[b|e]|]]; try by apply elem_of_nil in Ho.
    apply entry_record in Ho as [Ek El]. rewrite Hk in Ek. rewrite Hl in El.
    apply (Hgo i rq q true); try done. cbn [mover_mine]. rewrite Ei. unfold stream_mine. by rewrite Hk, Hl.
  - destruct a; try by apply elem_of_nil in Ho. unfold admin_entry in Ho.
    destruct (revoked _ _) as [id|]; [by apply list_elem_of_singleton in Ho|by apply elem_of_nil in Ho].
Qed.
Lemma draws_app es es' p : draws k l (es ++ es') p = draws k l es p ++ draws k l es' (plays es p).
Proof. revert p. induction es as [|e es IH]; intros p; [done|]. cbn [draws Datatypes.app plays]. by rewrite IH, app_assoc. Qed.
End lemmas.

(** ** Properties *)
Section properties.
Context `{Reqwest} `{Moka} `{Rustls} `{SerdeJson} `{AnthropicSerde} `{BedrockSerde} `{Crypto}
  `{Entropy} `{RegexCrate} `{Wasmtime} `{Env} `{HashOrder} `{TimeCrate} `{MetaSerde}
  `{ControlCrates} `{Config.Figment} `{AdminCrates} `{Addresses}.

(** C20: A budget is overdrawn by the requests under way, and by each once, under every
    interleaving. For as long as the tracker has no headroom for a key under its
    budget, whatever happens in the process, the charges made against it are those of
    requests past the guards, and of streams not yet charged, that were there when
    the headroom ran out: on distinct connections, and so no more than there were.
    They are all that the book has against the identifier, unless a request was let in
    under the same identifier with another budget. *)
Theorem budget_overshoot_bounded config path w s es0 es k l :
  System.run config path w = Ok s →
  let p := plays es0 (launch s) in
  (∀ es1, es1 `prefix_of` es → used_up k l (gw (plays es1 p))) →
  (NoDup (draws k l es p).*1 ∧ ∀ i, i ∈ (draws k l es p).*1 → i ∈ pledgers k l p) ∧
  length (draws k l es p) ≤ size (pledgers k l p) ∧
  (draws k l es p).*2 `sublist_of` entered es p ∧
  ∀ per c t, SpendTracker.Record_ k per c t ∈ entered es p →
    SpendTracker.Record_ k per c t ∈ (draws k l es p).*2 ∨ other_budget k l (es0 ++ es) (launch s).
Proof.
  intros Hs. cbn zeta. intros Hu. destruct (reachable_process _ _ _ _ _ Hs (rtc_refl _ _)) as [Hp Hc].
  destruct (plays_ok _ _ _ es0 _ Hp Hc) as [Hp' Hc'].
  assert (one_each (plays es0 (launch s))) as Hone by (apply plays_one_each; by left).
  assert (∀ i, length (filter (λ x, x.1 = i) (draws k l es (plays es0 (launch s))))
    ≤ pledged k l i (plays es0 (launch s))) as Hd.
  { intros i. pose proof (draws_pledged k l _ _ _ i es _ Hp' Hc' Hone Hu). lia. }
  assert (NoDup (draws k l es (plays es0 (launch s))).*1) as Hnd.
  { apply labels_nodup. intros i. etrans; [apply Hd|by apply pledged_le]. }
  assert (∀ i, i ∈ (draws k l es (plays es0 (launch s))).*1 → i ∈ pledgers k l (plays es0 (launch s))) as Hin.
  { intros i ((j & o) & -> & Ho)%list_elem_of_fmap. cbn [fst]. specialize (Hd j).
    assert ((j, o) ∈ filter (λ x, x.1 = j) (draws k l es (plays es0 (launch s)))) as Hf
      by (by apply list_elem_of_filter).
    destruct (filter _ _); [by apply elem_of_nil in Hf|]. cbn [length] in Hd.
    apply elem_of_filter. split; [lia|]. unfold pledged in Hd. rewrite elem_of_union, !elem_of_dom.
    destruct (flights _ !! j); [by left|]. destruct (streams _ !! j); [by right|lia]. }
  split; [done|]. split; [|split; [apply draws_entered|]].
  - rewrite <-(length_fmap fst), <-(size_list_to_set (C:=gset nat)) by done.
    apply subseteq_size. intros i. rewrite elem_of_list_to_set. apply Hin.
  - intros per c t (es1 & e & es2 & -> & Ho)%entered_at. rewrite <-plays_app in Ho.
    apply (entries_drawn k l) in Ho as [Ho|(rq & q & l' & Ha & Hq)]; [| |by apply run_vouched].
    + left. rewrite draws_app. cbn [draws]. rewrite !fmap_app, !elem_of_app, <-plays_app. by right; left.
    + right. exists rq, q, l'. split; [|exact Hq]. rewrite app_assoc. by apply admitted_more.
Qed.
End properties.

(** ** Witness: three requests under a budget for less than one answer; two are past
    the guards when the first is charged *)
#[local] Existing Instances json_reqwest sample_moka sample_rustls no_usage_serde sample_bedrock_serde
  sample_crypto sample_entropy sample_regex sample_wasmtime sample_env some_hash_order sample_time
  sample_meta sample_figment sample_admin_crates offline_control any_address.
#[local] Instance thousand_tokens : SerdeJson :=
  one_document (obj [("usage", obj [("prompt_tokens", uint 1000); ("completion_tokens", uint 0)])]).
Definition a_mill : SpendLimit := mkSpendLimit (F64.lit 1 3) Day.
Definition a_mill_a_day : Config :=
  Config.mk Listen.default Providers.default
    (AuthConfig.mk "VAULTPLANE_ADMIN_TOKEN"
       [VirtualKey.mk "vp_1" "tok" "team" "app" "prod" [] None (Some a_mill) None])
    [] Pricing.default CacheConfig.default [] ControlPlane.default Shutdown.default.
Definition a_world : World := mkWorld (tt : @Net json_reqwest) 0 [].
Definition till_charged : list event :=
  [Arrive 0 limited_rq; Arrive 1 limited_rq; Arrive 2 limited_rq] ++
  repeat (Resume 0) 3 ++ repeat (Resume 1) 3 ++ [Resume 2] ++ repeat (Resume 0) 2.
Definition after_charged : list event := [Resume 1; Resume 2; Resume 1; Resume 0; Resume 1].
Fixpoint used_up_at_each (es : list event) (p : Process) : bool :=
  negb (SpendTracker.pre_check (g_spend (gw p)) "vp_1" a_mill (w_now (g_world (gw p)))) &&
  match es with [] => true | e :: es => used_up_at_each es (happen e p) end.
Definition overdrawn (s : System) : bool * nat * nat :=
  let p := plays till_charged (launch s) in
  (used_up_at_each after_charged p, length (draws "vp_1" a_mill after_charged p),
   size (pledgers "vp_1" a_mill p)).
Lemma used_up_prefixes es p es1 :
  used_up_at_each es p = true → es1 `prefix_of` es → used_up "vp_1" a_mill (gw (plays es1 p)).
Proof.
  revert p es1. induction es as [|e es IH]; intros p [|e1 es1]; cbn [used_up_at_each];
    intros [Hu Hr]%andb_true_iff Hp; apply negb_true_iff in Hu; try exact Hu; [by apply prefix_nil_not in Hp|].
  pose proof (prefix_cons_inv_1 _ _ _ _ Hp) as ->. apply prefix_cons_inv_2 in Hp. by apply (IH (happen e p)).
Qed.
Lemma overdrawn_run :
  ∃ s, System.run a_mill_a_day None a_world = Ok s ∧
    let p := plays till_charged (launch s) in
    used_up_at_each after_charged p = true ∧
    length (draws "vp_1" a_mill after_charged p) = 1 ∧ size (pledgers "vp_1" a_mill p) = 1.
Proof.
  assert (overdrawn <$> System.run a_mill_a_day None a_world = Ok (true, 1, 1)) as Hr
    by (vm_compute; reflexivity).
  apply result_fmap_ok in Hr as (s & Hs & E). exists s. split; [exact Hs|]. unfold overdrawn in E. cbv zeta in *.
  revert E. generalize (used_up_at_each after_charged (plays till_charged (launch s))),
    (length (draws "vp_1" a_mill after_charged (plays till_charged (launch s)))),
    (size (pledgers "vp_1" a_mill (plays till_charged (launch s)))).
  intros b m n E. split_and!; congruence.
Qed.
Lemma budget_overshoot_bounded_witness :
  ∃ s, System.run a_mill_a_day None a_world = Ok s ∧
    let p := plays till_charged (launch s) in
    NoDup (draws "vp_1" a_mill after_charged p).*1 ∧
    length (draws "vp_1" a_mill after_charged p) = 1 ∧ size (pledgers "vp_1" a_mill p) = 1.
Proof.
  destruct overdrawn_run as (s & Hs & Hu & Hd). exists s. split; [exact Hs|].
  destruct (budget_overshoot_bounded a_mill_a_day None a_world s till_charged after_charged "vp_1" a_mill Hs)
    as [[Hn _] _].
  - intros es1. apply used_up_prefixes. exact Hu.
  - split; [exact Hn|exact Hd].
Defined.
