(* ===== verification/Failover.v ===== *)
(** * Failover: an upstream call of the running gateway

    The contract of [Registry], for the registry the runtime of a request in flight was
    built with: in terms of the configuration, of the audit trail and the clock of the
    process, and of what the key is charged. *)

From S2P Require Import Prelude Text Float64 Json Events Auth Limits RateWindow Plugin Config Provider.
From S2P Require Import OpenAi Anthropic Sse StreamObserver Bedrock Registry Cache Tls Wasm Runtime.
From S2P Require Import Connectors Proxy Billing ControlMap LinkStatus ControlNode Admin System.
From S2P Require Import SystemInvariants Metering Inflight Concurrency Ledger Admissions Provenance.
Import Json.

Section failover.
Context `{Reqwest} `{Moka} `{Rustls} `{SerdeJson} `{AnthropicSerde} `{BedrockSerde} `{Crypto}
  `{Entropy} `{RegexCrate} `{Wasmtime} `{Env} `{HashOrder} `{TimeCrate} `{MetaSerde}
  `{ControlCrates} `{Config.Figment} `{AdminCrates} `{Addresses}.

(** The entry of a configuration that a model name resolves to: the last. *)
Definition configured (cfg : Config) (vm : string) : option ModelConfig :=
  find_first (λ m, bool_decide (ModelConfig.name m = vm)) (rev (Config.models cfg)).
(** The call a request makes of a provider's connector, for the model a route names: with
    the body the plugins left. *)
Definition ask_for (rq : Request) (body : bytes) (c : Connector) (model : string)
    : W (option (result Error.Error ChatResponse)) :=
  if decide (rq_path rq = "/v1/chat/completions")
  then c_chat c (ChatRequest.mk model (ChatMeta.stream (chat_meta (rq_body rq))) body)
  else c_embeddings c (EmbeddingsRequest.mk model body).
(** Failovers along the routes of an entry, from the first on, each for the reason the
    attempt before it gave. *)
Definition failed_over (m : ModelConfig) (vm : string) (os : list Attempted) (evs : list AuditEvent) : Prop :=
  ∀ j e, evs !! j = Some e → ∃ a b o reason,
    named_routes m !! j = Some a ∧ named_routes m !! S j = Some b ∧ os !! j = Some o ∧
    retry_reason m o = Some reason ∧ e = audit.failover vm (Route.provider a) (Route.provider b) reason.

(** ** Lemmas *)

(** The call of a request is the registry's, which asks the connectors for it. *)
Definition registry_call (reg : Registry.Registry) (rq : Request) (vm : string) (body : bytes)
    : W (option (result Error.Error ChatResponse)) :=
  if decide (rq_path rq = "/v1/chat/completions")
  then Registry.chat reg (ChatRequest.mk vm (ChatMeta.stream (chat_meta (rq_body rq))) body)
  else Registry.embeddings reg (EmbeddingsRequest.mk vm body).
Lemma cleared_call rq q g vm reg :
  cleared rq q g → requested rq = Some vm → Runtime.connector (p_runtime q) = Registry.as_connector reg →
  ∃ body, run_plugins (Runtime.plugins (p_runtime q)) (rq_path rq) vm (rq_body rq) = Ok body ∧
    p_call q = registry_call reg rq vm body.
Proof.
  intros (body & vm' & Hvm & (_ & _ & Hb) & ->). rewrite Hvm. intros [= ->] Hcon.
  unfold pending_for, registry_call, requested in *. exists body. revert Hvm Hb Hcon.
  destruct (decide (rq_method rq = "POST")); [|done].
  destruct (decide (rq_path rq = "/v1/chat/completions")); [|destruct (decide (rq_path rq = "/v1/embeddings")); [|done]];
    intros [= <-] Hb; cbn [p_runtime p_call chat_pending embeddings_pending] in *; by intros ->.
Qed.
Lemma registry_call_policy cs ms reg rq vm body m w out w' :
  (∀ n c, cs !! n = Some c → c_name c = n) → Registry.new cs ms = Ok reg →
  find_first (λ m, bool_decide (ModelConfig.name m = vm)) (rev ms) = Some m →
  registry_call reg rq vm body w = (Some out, w') →
  ∃ os evs o a, attempts cs m vm (ask_for rq body) (named_routes m) w os evs w' ∧
    os !! length evs = Some o ∧ named_routes m !! length evs = Some a ∧
    out = conclusion (S (length evs)) (Route.provider a) o.
Proof.
  intros Hn Hreg Hm. destruct (new_configured _ _ _ _ _ Hreg Hm) as (rm & Hrm & Hr).
  unfold registry_call, Registry.chat, Registry.embeddings, ask_for. cbn [ChatRequest.model EmbeddingsRequest.model].
  rewrite Hrm. case_decide; by apply resolved_attempts.
Qed.
Lemma ask_silent p cs rq body n c name w :
  runtime.build_connectors p = Ok cs → cs !! n = Some c → w_trace (ask_for rq body c name w).2 = w_trace w.
Proof.
  intros Hc Hn. assert (DirectConnector c) as [Hch Hem _].
  { eapply (build_connectors_all DirectConnector); [..|exact Hc|exact Hn]; intros; apply _. }
  unfold ask_for. case_decide; [apply Hch|apply Hem].
Qed.
(** An answer is attributed to the route attempted. *)
Lemma attempt_attributed p cs m rq body a w o w' r :
  runtime.build_connectors p = Ok cs → attempt cs m (ask_for rq body) a w o w' → o = Answer r →
  ChatResponse.provider r = Route.provider a ∧ ChatResponse.model r = Route.model a.
Proof.
  intros Hc (c & Hca & E) ->. assert (AttributedConnector c) as [Hch Hem].
  { eapply (build_connectors_all AttributedConnector); [..|exact Hc|exact Hca]; intros; apply _. }
  rewrite <-(build_connectors_named _ _ _ _ Hc Hca).
  assert ((ask_for rq body c (Route.model a) w).1 = Some (Ok r)) as Hr.
  { unfold timeout_ in E. destruct (ask_for rq body c _ w) as [x v]. cbn [fst].
    destruct (_ <=? _)%Z in E; [|done]. by injection E. }
  revert Hr. unfold ask_for. case_decide; [apply (Hch (ChatRequest.mk _ _ _))|apply (Hem (EmbeddingsRequest.mk _ _))].
Qed.
Lemma attempts_attributed p cs m vm rq body qs w os evs w' j o a r :
  runtime.build_connectors p = Ok cs → attempts cs m vm (ask_for rq body) qs w os evs w' →
  os !! j = Some o → qs !! j = Some a → o = Answer r →
  ChatResponse.provider r = Route.provider a ∧ ChatResponse.model r = Route.model a.
Proof.
  intros Hc Hs. revert j. induction Hs as [a' rest w o' w' Ha _|a' b rest w o' w1 reason os evs w' Ha _ _ IH]; intros [|j];
    try apply IH; intros [= <-] [= <-]; by eapply attempt_attributed.
Qed.
(** The step of a request whose upstream call returns. *)
Lemma resume_missed i f q f' p :
  flights p !! i = Some f → f_stage f = Missed q → flights (happen (Resume i) p) !! i = Some f' →
  ∃ out, p_call q (g_world (gw p)) = (Some out, g_world (gw (happen (Resume i) p))) ∧
    f_stage f' = Answered q out.
Proof.
  intros Hi Hst. cbn [happen]. rewrite Hi. unfold fly. rewrite on_gw_eq, Hst. cbn [resume]. steps.
  unfold in_world, zoom, gw. destruct (p_call q (g_world (gateway (app (system p))))) as [[out|] w'];
    cbn; [|by rewrite lookup_delete_eq]. rewrite lookup_insert_eq. intros [= <-]. by exists out.
Qed.
End failover.

(** ** Properties *)
Section properties.
Context `{Reqwest} `{Moka} `{Rustls} `{SerdeJson} `{AnthropicSerde} `{BedrockSerde} `{Crypto}
  `{Entropy} `{RegexCrate} `{Wasmtime} `{Env} `{HashOrder} `{TimeCrate} `{MetaSerde}
  `{ControlCrates} `{Config.Figment} `{AdminCrates} `{Addresses}.

(** C11: Failover, in the running gateway. The runtime a request in flight loaded was
    built from a configuration; when its upstream call returns and such a configuration
    lists its model, the call followed the failover policy written there. The body the
    plugins left was sent to the connector of the first provider listed, under the model
    its route names; a failover to the next happened exactly when the attempt at one
    gave a reason to, an answer whose status is to be retried, an error, or no answer
    within the timeout, and another route was left. Each failover is in the audit trail
    with that reason and the two providers, and nothing else is; the clock has moved by
    at most the timeout of each attempt made. What the request gets is the outcome of
    the last attempt: its answer, under that provider and model, with the number of
    attempts made; its error; or the error that says that every provider timed out. And
    the key is then charged at the prices of that provider and model. *)
Theorem failover_of_a_request config path w s es i f f' q vm :
  System.run config path w = Ok s →
  let p := plays es (launch s) in
  let p' := happen (Resume i) p in
  flights p !! i = Some f → f_stage f = Missed q → requested (f_request f) = Some vm →
  flights p' !! i = Some f' →
  ∃ out, f_stage f' = Answered q out ∧ (∃ cfg, built_from cfg (p_runtime q)) ∧
    ∀ cfg m, built_from cfg (p_runtime q) → configured cfg vm = Some m → (0 ≤ ModelConfig.timeout_ms m)%Z →
    ∃ cs body os evs o a,
      runtime.build_connectors (Config.providers cfg) = Ok cs ∧
      run_plugins (Runtime.plugins (p_runtime q)) (rq_path (f_request f)) vm (rq_body (f_request f)) = Ok body ∧
      attempts cs m vm (ask_for (f_request f) body) (named_routes m) (g_world (gw p)) os evs (g_world (gw p')) ∧
      length os = S (length evs) ∧ os !! length evs = Some o ∧ named_routes m !! length evs = Some a ∧
      failed_over m vm os evs ∧ audits (process_trace p') = audits (process_trace p) ++ evs ∧
      (time p' ≤ time p + Z.of_nat (length os) * (ModelConfig.timeout_ms m * 1000000))%Z ∧
      out = conclusion (length os) (Route.provider a) o ∧
      (retry_reason m o = None ∨ length os = length (named_routes m)) ∧
      ∀ r, out = Ok r →
        ChatResponse.provider r = Route.provider a ∧ ChatResponse.model r = Route.model a ∧
        entries (Resume i) p' = entry (Runtime.pricing (p_runtime q)) (VirtualKey.identifier (p_key q))
          (VirtualKey.spend_limit (p_key q)) (Route.provider a) (Route.model a)
          (ChatResponse.usage r) (time p').
Proof.
  intros Hs. cbn zeta. intros Hi Hst Hvm Hf'.
  destruct (reachable_process _ _ _ _ _ Hs (rtc_refl _ _)) as [Hp Hc].
  destruct (plays_ok _ _ _ es _ Hp Hc) as [[_ Hf _] _].
  destruct (Hf i f Hi) as [Hok _]. rewrite Hst in Hok.
  destruct (run_vouched es (launch s) eq_refl eq_refl) as [Hv _]. specialize (Hv i f Hi).
  rewrite Hst in Hv. destruct Hv as (es1 & es2 & _ & _ & Hcl).
  destruct (resume_missed _ _ _ _ _ Hi Hst Hf') as (out & Hgo & Hout).
  exists out. split; [done|]. split; [exact (pend_built _ _ Hok)|]. intros cfg m Hb Hm Ht.
  destruct (built_registry _ _ Hb) as (cs & reg & Hcs & Hreg & Hcon).
  destruct (cleared_call _ _ _ _ _ Hcl Hvm Hcon) as (body & Hbody & Ecall). rewrite Ecall in Hgo.
  assert (∀ n c, cs !! n = Some c → c_name c = n) as Hname by (intros n c; by apply (build_connectors_named (Config.providers cfg))).
  destruct (registry_call_policy _ _ _ _ _ _ _ _ _ _ Hname Hreg Hm Hgo) as (os & evs & o & a & Hat & Ho & Ha & ->).
  destruct (attempts_hops _ _ _ _ _ _ _ _ _ Hat) as (Hlen & _ & Hh & o' & Ho' & Hlast).
  rewrite Ho in Ho'. injection Ho' as <-.
  destruct (attempts_trace _ _ _ _ _ _ _ _ _ (λ n c Hn name v, ask_silent _ cs _ _ n c name v Hcs Hn) Ht Hat) as [Htr Hn].
  exists cs, body, os, evs, o, a. rewrite Hlen in *. split_and!; try done.
  - unfold process_trace, system_trace. unfold gw in Htr. rewrite Htr, audits_app. f_equal.
    clear. induction evs as [|e evs IH]; [done|]. cbn. by f_equal.
  - destruct Hlast as [?|E]; [by left|right; by rewrite E].
  - intros r Er. destruct o as [r0|e|]; try done. injection Er as <-.
    destruct (attempts_attributed _ _ _ _ _ _ _ _ _ _ _ _ _ _ _ Hcs Hat Ho Ha eq_refl) as [Epr Emo].
    cbn [Registry.with_attempts ChatResponse.provider ChatResponse.model]. split_and!; [done..|].
    cbn [entries]. rewrite Hf', Hout. cbn [flight_entry conclusion Registry.with_attempts ChatResponse.provider
      ChatResponse.model ChatResponse.usage]. by rewrite Epr, Emo.
Qed.

(** For the witness: requests alone do not change the runtime a gateway started with. *)
Lemma run_built config path w s :
  System.run config path w = Ok s → built_from config (g_runtime (gateway (app s))).
Proof.
  intros (rt & g & link & p & tls & Hb & _ & _ & ->)%run_inv. exact (build_runtime_built _ _ _ _ Hb).
Qed.
Definition request_event (e : event) : Prop := match e with Arrive _ _ | Resume _ => True | _ => False end.
Lemma requests_keep cfg path n es p :
  process_ok cfg path p → conserved n p → Forall request_event es →
  g_runtime (gw (plays es p)) = g_runtime (gw p).
Proof.
  intros Hp Hc He. revert p Hp Hc. induction He as [|e es He _ IH]; intros p Hp Hc; [done|]. cbn [plays].
  destruct (happen_ok _ _ _ e _ Hp Hc) as [Hp' Hc']. rewrite (IH _ Hp' Hc').
  destruct e as [i rq|i| | |]; try done.
  - unfold gw. cbn [happen]. by destruct (idle i p).
  - by destruct (segment_keeps _ _ i p Hp) as (_ & ? & _).
Qed.
Lemma missed_runtime config path w s es i f q :
  System.run config path w = Ok s → Forall request_event es →
  flights (plays es (launch s)) !! i = Some f → f_stage f = Missed q → built_from config (p_runtime q).
Proof.
  intros Hs He Hi Hst. destruct (reachable_process _ _ _ _ _ Hs (rtc_refl _ _)) as [Hp Hc].
  destruct (run_vouched es (launch s) eq_refl eq_refl) as [Hv _]. specialize (Hv i f Hi).
  rewrite Hst in Hv. destruct Hv as (es1 & es2 & -> & _ & body & vm & _ & _ & ->).
  apply Forall_app in He as [He _]. pose proof (requests_keep _ _ _ _ _ Hp Hc He) as Hr.
  unfold pending_for. case_decide; cbn [p_runtime chat_pending embeddings_pending]; rewrite Hr;
    exact (run_built _ _ _ _ Hs).
Qed.
End properties.

(** ** Witness: a request whose first provider is unavailable *)
Definition flaky_reqwest : Reqwest :=
  {| Net := nat; client_build := Ok ();
     send _ n := (Ok (Http.mkResponse (match n with 0%nat => 503 | _ => 200 end) [] [Ok [Byte.x7b]] 0), S n, 1000000%Z);
     status_error _ _ := "HTTP status error"; header_to_str b := Some (of_bytes b) |}.
#[local] Existing Instances flaky_reqwest sample_moka sample_rustls no_usage_serde sample_bedrock_serde
  sample_crypto sample_entropy sample_regex sample_wasmtime sample_env some_hash_order sample_time
  sample_meta sample_figment sample_admin_crates offline_control any_address.
#[local] Instance paid_tokens : SerdeJson :=
  one_document (obj [("usage", obj [("prompt_tokens", uint 1000); ("completion_tokens", uint 0)])]).
Definition two_routes_model : ModelConfig :=
  ModelConfig.mk "gpt-4o" (Route.mk "azure" "eu-gpt-4o") [Route.mk "openai" "gpt-4o"] [503%Z] 30000.
Definition two_routes : Config :=
  Config.mk Listen.default Providers.default
    (AuthConfig.mk "VAULTPLANE_ADMIN_TOKEN"
       [VirtualKey.mk "vp_1" "tok" "team" "app" "prod" [] None (Some (mkSpendLimit F64.one Day)) None])
    [two_routes_model] Pricing.default CacheConfig.default [] ControlPlane.default Shutdown.default.
Definition flaky_world : World := mkWorld (0 : @Net flaky_reqwest) 0 [].
Definition to_the_call : list event := Arrive 0 limited_rq :: repeat (Resume 0) 3.
Definition called (p : Process) : option (Request * option string * list AuditEvent * list AuditEvent) :=
  let p' := happen (Resume 0) p in
  f ← flights p !! 0;
  _ ← flights p' !! 0;
  if f_stage f is Missed _
  then Some (f_request f, requested (f_request f), audits (process_trace p'), audits (process_trace p)) else None.
Lemma called_spec p rq vm new old :
  called p = Some (rq, vm, new, old) →
  ∃ f q f', flights p !! 0 = Some f ∧ f_stage f = Missed q ∧ flights (happen (Resume 0) p) !! 0 = Some f' ∧
    requested (f_request f) = vm ∧ f_request f = rq ∧ audits (process_trace (happen (Resume 0) p)) = new ∧
    audits (process_trace p) = old.
Proof.
  unfold called. destruct (flights p !! 0) as [f|]; [|discriminate]. cbn [mbind option_bind].
  destruct (flights (happen (Resume 0) p) !! 0) as [f'|]; [|discriminate]. cbn [mbind option_bind].
  destruct (f_stage f) as [| | |q| |] eqn:Es; try discriminate. intros [= <- <- <- <-]. by exists f, q, f'.
Qed.
Definition one_failover : list AuditEvent := [audit.failover "gpt-4o" "azure" "openai" "status 503"].
Lemma called_run :
  ∃ s, System.run two_routes None flaky_world = Ok s ∧
    called (plays to_the_call (launch s)) = Some (limited_rq, Some "gpt-4o", one_failover, []).
Proof.
  assert ((λ s, called (plays to_the_call (launch s))) <$> System.run two_routes None flaky_world
    = Ok (Some (limited_rq, Some "gpt-4o", one_failover, []))) as Hr by (vm_compute; reflexivity).
  by apply result_fmap_ok in Hr.
Qed.
Lemma failover_of_a_request_witness :
  ∃ s out cs body os evs w w', System.run two_routes None flaky_world = Ok s ∧
    attempts cs two_routes_model "gpt-4o" (ask_for limited_rq body) (named_routes two_routes_model) w os evs w' ∧
    evs = one_failover ∧ length os = 2 ∧ failed_over two_routes_model "gpt-4o" os evs ∧
    ∃ o, out = conclusion 2 "openai" o.
Proof.
  destruct called_run as (s & Hs & E). apply called_spec in E as (f & q & f' & Hf & Hst & Hf' & Hvm & Hrq & Ha & Hb).
  destruct (failover_of_a_request two_routes None flaky_world s to_the_call 0 f f' q "gpt-4o" Hs Hf Hst Hvm Hf')
    as (out & _ & _ & Hgo).
  destruct (Hgo two_routes two_routes_model) as (cs & body & os & evs & o & a & _ & _ & Hat & Hl & _ & Hra & Hfo & Hau & _ & Hout & _).
  - apply (missed_runtime two_routes None flaky_world s to_the_call 0 f q Hs); [|exact Hf|exact Hst].
    repeat constructor.
  - reflexivity.
  - discriminate.
  - rewrite Ha, Hb in Hau. change (one_failover = evs) in Hau. subst evs. injection Hra as <-.
    cbn [length one_failover] in Hl. rewrite Hl in Hout. rewrite Hrq in Hat.
    exists s, out, cs, body, os, one_failover, (g_world (gw (plays to_the_call (launch s)))),
      (g_world (gw (happen (Resume 0) (plays to_the_call (launch s))))).
    split; [exact Hs|]. split; [exact Hat|]. split; [reflexivity|]. split; [exact Hl|]. split; [exact Hfo|].
    exists o. exact Hout.
Defined.
