(* ===== verification/Lifecycle.v ===== *)
(** * Lifecycle: serving and shutting down ([main.rs])

    The rest of [run]: binding the listeners, the two server tasks, the shutdown
    task with its deadline, and the join that ends the process, around the process
    of [Concurrency]. *)

From S2P Require Import Prelude Text Float64 Json Events Auth Limits Plugin Config Provider.
From S2P Require Import OpenAi Anthropic Sse StreamObserver Bedrock Registry Cache Tls Wasm Runtime.
From S2P Require Import Connectors Proxy ControlMap LinkStatus ControlNode Admin System.
From S2P Require Import SystemInvariants Metering Inflight Concurrency.
Import Json.

(** [TcpListener::bind] at an instant, and how an address prints. *)
Class Sockets := {
  bind : string → Z → result string ();
  show_addr : string → string
}.

(** A spawned server: not polled yet, serving, ended with the result of its serve
    future, or panicked. *)
Inductive Task :=
| Starting
| Serving
| Ended (result : result string ())
| Panicked (message : string).
(** The shutdown task: waiting for a signal; asleep since an instant; or gone, its
    handler not installed, which drops the channel. *)
Inductive Watch := Waiting | Draining (since : Z) | Lost.
(** How the process ends: [run] returns, or [std::process::exit]. *)
Inductive Finish := Returned (result : result anyhow ()) | Exited (code : Z).
Inductive Which := ProxyServer | AdminServer.

Record Life `{Reqwest} `{Moka} `{Rustls} := mkLife {
  process : Process;
  proxy_addr : string;
  drain_timeout : Z;
  tls_server : bool;
  watch : Watch;
  proxy_server : Task;
  admin_server : Task;
  finish : option Finish
}.
Arguments mkLife {_ _ _}.
Arguments process {_ _ _}.
Arguments proxy_addr {_ _ _}.
Arguments drain_timeout {_ _ _}.
Arguments tls_server {_ _ _}.
Arguments watch {_ _ _}.
Arguments proxy_server {_ _ _}.
Arguments admin_server {_ _ _}.
Arguments finish {_ _ _}.

Section lifecycle.
Context `{Reqwest} `{Moka} `{Rustls} `{SerdeJson} `{AnthropicSerde} `{BedrockSerde} `{Crypto}
  `{Entropy} `{RegexCrate} `{Wasmtime} `{Env} `{HashOrder} `{TimeCrate} `{MetaSerde}
  `{ControlCrates} `{Config.Figment} `{AdminCrates} `{Addresses} `{Sockets}.

Definition clock (l : Life) : Z := w_now (g_world (gateway (app (system (process l))))).
Definition set_process (p : Process) (l : Life) : Life :=
  mkLife p (proxy_addr l) (drain_timeout l) (tls_server l) (watch l) (proxy_server l) (admin_server l) (finish l).
Definition set_watch (w : Watch) (l : Life) : Life :=
  mkLife (process l) (proxy_addr l) (drain_timeout l) (tls_server l) w (proxy_server l) (admin_server l) (finish l).
Definition task (which : Which) (l : Life) : Task :=
  match which with ProxyServer => proxy_server l | AdminServer => admin_server l end.
Definition set_task (which : Which) (t : Task) (l : Life) : Life :=
  match which with
  | ProxyServer => mkLife (process l) (proxy_addr l) (drain_timeout l) (tls_server l) (watch l) t (admin_server l) (finish l)
  | AdminServer => mkLife (process l) (proxy_addr l) (drain_timeout l) (tls_server l) (watch l) (proxy_server l) t (finish l)
  end.
Definition set_finish (f : Finish) (l : Life) : Life :=
  mkLife (process l) (proxy_addr l) (drain_timeout l) (tls_server l) (watch l) (proxy_server l) (admin_server l) (Some f).

(** From the state of the APIs to the spawned tasks: only the admin listener is
    bound here, the proxy's is bound by its task. *)
Definition serve (config : Config) (s : System) : result anyhow Life :=
  let admin_addr := Listen.admin_address (Config.listen config) in
  _ ← with_context ("failed to bind admin listener on " +:+ show_addr admin_addr)
        (foreign (bind admin_addr (w_now (g_world (gateway (app s))))));
  Ok (mkLife (launch s) (Listen.address (Config.listen config))
        (Shutdown.drain_timeout_seconds (Config.shutdown config) * 1000000000)
        (bool_decide (is_Some (g_tls (gateway (app s))))) Waiting Starting Serving None).

(** [proxy_rx.changed()] and [admin_rx.changed()] resolve. *)
Definition closing (l : Life) : bool := match watch l with Waiting => false | _ => true end.

(** [try_join!] of the two handles, whose errors are panics (the proxy's first), and
    the results behind them. *)
Definition joined (l : Life) : option (result anyhow ()) :=
  let panicked m := Some (with_context "a server task panicked" (foreign (Err m))) in
  match proxy_server l, admin_server l with
  | Panicked m, _ => panicked m
  | _, Panicked m => panicked m
  | Ended proxy_res, Ended admin_res =>
      Some (_ ← with_context "proxy server error" (foreign proxy_res);
            _ ← with_context "admin server error" (foreign admin_res);
            Ok ())
  | _, _ => None
  end.

(** What happens next: anything of the process; a signal; the signal handler fails
    to install; the proxy task binds; a serve future completes, or its task panics;
    the drain timer fires; the main task polls the join. *)
Inductive moment :=
| Live (e : event)
| Signal
| NoHandler
| ProxyBinds
| ServeEnds (which : Which) (result : result string ())
| ServePanics (which : Which) (message : string)
| Wakes
| Joins.

(** A request needs a server to arrive at. *)
Definition reaches (e : event) (l : Life) : bool :=
  match e with
  | Arrive _ _ => match proxy_server l with Serving => true | _ => false end
  | Other (AAdmin _) => match admin_server l with Serving => true | _ => false end
  | _ => true
  end.
Definition pass (m : moment) (l : Life) : Life :=
  match finish l with
  | Some _ => l
  | None =>
      match m with
      | Live e => if reaches e l then set_process (happen e (process l)) l else l
      | Signal => match watch l with Waiting => set_watch (Draining (clock l)) l | _ => l end
      | NoHandler => match watch l with Waiting => set_watch Lost l | _ => l end
      | ProxyBinds =>
          match proxy_server l with
          | Starting =>
              set_task ProxyServer
                match bind (proxy_addr l) (clock l) with Ok _ => Serving | Err e => Ended (Err e) end l
          | _ => l
          end
      | ServeEnds which r => match task which l with Serving => set_task which (Ended r) l | _ => l end
      | ServePanics which message =>
          match task which l with
          | Starting | Serving => set_task which (Panicked message) l
          | _ => l
          end
      | Wakes =>
          match watch l with
          | Draining since => if (since + drain_timeout l <=? clock l)%Z then set_finish (Exited 0) l else l
          | _ => l
          end
      | Joins => match joined l with Some r => set_finish (Returned r) l | None => l end
      end
  end.
Definition passes (ms : list moment) (l : Life) : Life := foldl (λ l m, pass m l) l ms.

(** No request is in flight and no body is on its way out. *)
Definition quiescent (p : Process) : Prop := flights p = ∅ ∧ streams p = ∅.
(** What [axum] documents of a graceful server: its future completes without an
    error only after its shutdown signal and, the TLS server's grace period apart,
    when no connection is at work. *)
Definition obeys (m : moment) (l : Life) : Prop :=
  match m with
  | ServeEnds which (Ok _) =>
      closing l = true ∧ (which = ProxyServer → tls_server l = false → quiescent (process l))
  | _ => True
  end.
Inductive goes : Life → Life → Prop :=
| goes_on m l : obeys m l → goes l (pass m l).
End lifecycle.

(** ** Lemmas *)
Section lemmas.
Context `{Reqwest} `{Moka} `{Rustls} `{SerdeJson} `{AnthropicSerde} `{BedrockSerde} `{Crypto}
  `{Entropy} `{RegexCrate} `{Wasmtime} `{Env} `{HashOrder} `{TimeCrate} `{MetaSerde}
  `{ControlCrates} `{Config.Figment} `{AdminCrates} `{Addresses} `{Sockets}.

Lemma pass_over m l : finish l ≠ None → pass m l = l.
Proof. unfold pass. by destruct (finish l). Qed.
Lemma passes_over ms l : finish l ≠ None → passes ms l = l.
Proof. intros Hf. induction ms as [|m ms IH]; [done|]. cbn. by rewrite pass_over. Qed.
Lemma passes_app ms ms' l : passes (ms ++ ms') l = passes ms' (passes ms l).
Proof. apply foldl_app. Qed.

(** The address, the deadline and the kind of server are set at start; the deadline
    of a shutdown under way does not move. *)
Record fixed (l l' : Life) : Prop := {
  fixed_addr : proxy_addr l' = proxy_addr l;
  fixed_timeout : drain_timeout l' = drain_timeout l;
  fixed_tls : tls_server l' = tls_server l;
  fixed_deadline since : watch l = Draining since → watch l' = Draining since
}.
#[export] Instance fixed_preorder : PreOrder fixed.
Proof.
  split.
  - by intros l.
  - intros a b c [? ? ? Hd] [? ? ? Hd']. split; [congruence..|]. eauto.
Qed.
Lemma pass_fixed m l : fixed l (pass m l).
Proof.
  unfold pass. destruct (finish l); [done|].
  destruct m as [e| | | |[] r|[] msg| |]; cbn [task]; repeat case_match; try done;
    split; try done; intros since' E; cbn; congruence.
Qed.
Lemma passes_fixed ms l : fixed l (passes ms l).
Proof.
  revert l. induction ms as [|m ms IH]; intros l; [done|]. cbn. etrans; [apply pass_fixed|apply IH].
Qed.

(** When no connection is at work and no request can arrive, none will be. *)
Lemma happen_idle e p : (∀ i rq, e ≠ Arrive i rq) → quiescent p → quiescent (happen e p).
Proof.
  intros Ha [Hf Hs]. destruct e as [i rq|i|i|i|a]; cbn [happen]; [by destruct (Ha i rq)|..].
  - by rewrite Hf, lookup_empty.
  - by rewrite Hs, lookup_empty.
  - rewrite Hf, lookup_empty. split; cbn; [done|]. by rewrite Hs, delete_empty.
  - by destruct a.
Qed.
Lemma reaches_idle e l :
  reaches e l = true → proxy_server l ≠ Serving → quiescent (process l) →
  quiescent (happen e (process l)).
Proof.
  intros Hr Hs. apply happen_idle. intros i rq ->. cbn in Hr. by destruct (proxy_server l).
Qed.

(** ** The invariant of an orderly life *)
(** What the end of the process was for. *)
Definition accounted (l : Life) : Prop :=
  match finish l with
  | None => True
  | Some (Exited code) =>
      code = 0%Z ∧ ∃ since, watch l = Draining since ∧ (since + drain_timeout l ≤ clock l)%Z
  | Some (Returned result) => joined l = Some result
  end.
Record orderly (l : Life) : Prop := {
  orderly_proxy : proxy_server l = Ended (Ok ()) →
    closing l = true ∧ (tls_server l = false → quiescent (process l));
  orderly_admin : admin_server l = Ended (Ok ()) → closing l = true;
  orderly_end : accounted l
}.
Lemma pass_orderly m l : obeys m l → orderly l → orderly (pass m l).
Proof.
  intros Ho Hl. destruct (finish l) eqn:Ef; [by rewrite pass_over; [|rewrite Ef]|].
  assert (∀ l', finish l' = None →
    (proxy_server l' = Ended (Ok ()) →
       closing l' = true ∧ (tls_server l' = false → quiescent (process l'))) →
    (admin_server l' = Ended (Ok ()) → closing l' = true) → orderly l') as Hgo.
  { intros l' E ? ?. split; [done..|]. unfold accounted. by rewrite E. }
  destruct Hl as [Hp Ha _]. unfold pass. rewrite Ef.
  destruct m as [e| | | |[] r|[] msg| |]; cbn [task set_task].
  - destruct (reaches e l) eqn:Er; [|by apply Hgo].
    apply Hgo; [done| |exact Ha]. change (proxy_server (set_process _ l)) with (proxy_server l).
    intros E. destruct (Hp E) as [Hc Hf].
    split; [exact Hc|]. intros Ht. apply reaches_idle; [done|by rewrite E|by apply Hf].
  - destruct (watch l) eqn:Ew; [|by apply Hgo..].
    apply Hgo; [done| |done]. intros E. split; [done|]. by apply Hp.
  - destruct (watch l) eqn:Ew; [|by apply Hgo..].
    apply Hgo; [done| |done]. intros E. split; [done|]. by apply Hp.
  - destruct (proxy_server l) eqn:Et; try (by apply Hgo; rewrite ?Et).
    apply Hgo; [done| |done]. cbn. by destruct (bind _ _).
  - destruct (proxy_server l) eqn:Et; try (by apply Hgo; rewrite ?Et).
    apply Hgo; [done| |done]. cbn. intros [= ->]. destruct Ho as [Hc Hf]. split; [exact Hc|by apply Hf].
  - destruct (admin_server l) eqn:Et; try (by apply Hgo; rewrite ?Et).
    apply Hgo; [done|done|]. cbn. intros [= ->]. by destruct Ho.
  - by destruct (proxy_server l) eqn:Et; apply Hgo; rewrite ?Et.
  - by destruct (admin_server l) eqn:Et; apply Hgo; rewrite ?Et.
  - destruct (watch l) as [|since|] eqn:Ew; try (by apply Hgo).
    destruct (Z.leb_spec (since + drain_timeout l) (clock l)); [|by apply Hgo].
    split; [exact Hp|exact Ha|]. split; [done|]. by exists since.
  - destruct (joined l) as [r|] eqn:Ej; [|by apply Hgo]. split; [exact Hp|exact Ha|exact Ej].
Qed.
Lemma serve_orderly config s l : serve config s = Ok l → orderly l.
Proof.
  unfold serve. destruct (with_context _ _); cbn [mbind result_bind]; [|done]. intros [= <-].
  by split.
Qed.
Lemma goes_orderly l l' : rtc goes l l' → orderly l → orderly l'.
Proof.
  intros Hr Hl. apply (rtc_invariant goes orderly l l'); [|done..].
  intros l1 l2 [m l0 Ho]. by apply pass_orderly.
Qed.
End lemmas.

(** ** Properties *)
Section properties.
Context `{Reqwest} `{Moka} `{Rustls} `{SerdeJson} `{AnthropicSerde} `{BedrockSerde} `{Crypto}
  `{Entropy} `{RegexCrate} `{Wasmtime} `{Env} `{HashOrder} `{TimeCrate} `{MetaSerde}
  `{ControlCrates} `{Config.Figment} `{AdminCrates} `{Addresses} `{Sockets}.

(** C15: Shutting down. Under the contract of graceful servers and every
    interleaving with requests, reloads and the Control Node, the process ends
    without an error only after a shutdown began, with both servers done and, unless
    the listener is a TLS one, with no request in flight and no body on its way out; it is forced out, with
    code 0, only when the drain timeout has passed since the signal; and it returns
    an error only for a server that panicked or failed, naming which. And once the
    signal came, any schedule in which the clock passes the deadline and the drain
    timer then fires has ended the process, however stuck a request is. *)
Theorem shutdown_drains config path w s l0 l :
  System.run config path w = Ok s → serve config s = Ok l0 → rtc goes l0 l →
  match finish l with
  | None => True
  | Some (Exited code) =>
      code = 0%Z ∧ ∃ since, watch l = Draining since ∧
        (since + Shutdown.drain_timeout_seconds (Config.shutdown config) * 1000000000 ≤ clock l)%Z
  | Some (Returned (Ok _)) =>
      closing l = true ∧ proxy_server l = Ended (Ok ()) ∧ admin_server l = Ended (Ok ()) ∧
      (Listen.tls (Config.listen config) = None → quiescent (process l))
  | Some (Returned (Err chain)) =>
      (∃ which m, task which l = Panicked m ∧ chain = ["a server task panicked"; m]) ∨
      (∃ e, proxy_server l = Ended (Err e) ∧ chain = ["proxy server error"; e]) ∨
      (∃ e, proxy_server l = Ended (Ok ()) ∧ admin_server l = Ended (Err e) ∧
         chain = ["admin server error"; e])
  end ∧
  ∀ since before after,
    watch l = Draining since →
    (since + Shutdown.drain_timeout_seconds (Config.shutdown config) * 1000000000
      ≤ clock (passes before l))%Z →
    is_Some (finish (passes (before ++ Wakes :: after) l)).
Proof.
  intros Hr Hs Hg.
  assert (fixed l0 l) as [_ Hd Ht _].
  { apply (rtc_invariant goes (fixed l0) l0 l); [|done..].
    intros a b [m l1 _] E. etrans; [exact E|apply pass_fixed]. }
  pose proof (goes_orderly _ _ Hg (serve_orderly _ _ _ Hs)) as [Hp Ha He].
  apply run_ok in Hr. pose proof (ok_tls _ _ _ Hr) as Htls.
  unfold serve in Hs. destruct (with_context _ _); cbn [mbind result_bind] in Hs; [|done].
  injection Hs as <-. cbn [drain_timeout tls_server] in Hd, Ht. split.
  - unfold accounted in He. rewrite Hd in He. destruct (finish l) as [[[[]|chain]|code]|]; [..|done|done].
    + unfold joined in He.
      destruct (proxy_server l) as [| |[[]|]|], (admin_server l) as [| |[[]|]|]; try done.
      destruct (Hp eq_refl) as [Hc Hf]. split_and!; [done..|]. intros E. apply Hf. rewrite Ht.
      apply bool_decide_eq_false. rewrite Htls, E. by intros [].
    + unfold joined in He.
      destruct (proxy_server l) as [| |[[]|e]|m] eqn:Ep, (admin_server l) as [| |[[]|e']|m'] eqn:Ea;
        try done; injection He as <-;
        first [ left; exists ProxyServer; by eexists | left; exists AdminServer; by eexists
              | right; left; by eexists | right; right; by eexists ].
  - intros since before after Hw Hc. rewrite passes_app. cbn [passes foldl].
    pose proof (passes_fixed before l) as [_ Hd' _ Hw']. specialize (Hw' since Hw).
    set (l1 := passes before l) in *. clearbody l1.
    assert (is_Some (finish (pass Wakes l1))) as Hf.
    { unfold pass. destruct (finish l1) eqn:E; [by rewrite E|]. rewrite Hw'.
      rewrite (proj2 (Z.leb_le _ _)) by (rewrite Hd', Hd; lia). by eexists. }
    change (foldl _ ?x after) with (passes after x). rewrite passes_over; [done|].
    by destruct Hf as [? ->].
Qed.

(** No shutdown, and no failure but the proxy listener's. *)
Definition quiet (m : moment) : Prop :=
  match m with Signal | NoHandler | ServePanics _ _ | ServeEnds AdminServer _ => False | _ => True end.
(** The proxy API is down, and the rest of the process runs on. *)
Record headless (addr : string) (l : Life) : Prop := {
  headless_addr : proxy_addr l = addr;
  headless_proxy : proxy_server l = Starting ∨ ∃ e, proxy_server l = Ended (Err e);
  headless_admin : admin_server l = Serving;
  headless_watch : watch l = Waiting;
  headless_runs : finish l = None;
  headless_idle : quiescent (process l);
  headless_departed : departed (process l) = []
}.
Lemma happen_unserved e p :
  (∀ i rq, e ≠ Arrive i rq) → quiescent p → departed (happen e p) = departed p.
Proof.
  intros Ha [Hf Hs]. destruct e as [i rq|i|i|i|a]; cbn [happen]; [by destruct (Ha i rq)|..].
  - by rewrite Hf, lookup_empty.
  - by rewrite Hs, lookup_empty.
  - by rewrite Hf, lookup_empty.
  - by destruct a.
Qed.
Lemma pass_headless addr m l :
  (∀ now, ∃ e, bind addr now = Err e) → quiet m → headless addr l → headless addr (pass m l).
Proof.
  intros Hb Hm Hl. pose proof Hl as [Hn Hp Ha Hw Hf Hfl Hd]. unfold pass. rewrite Hf.
  destruct m as [e| | | |[] r| | |]; try done; cbn [task].
  - destruct (reaches e l) eqn:Er; [|done].
    assert (∀ i rq, e ≠ Arrive i rq) as He.
    { intros i rq ->. cbn in Er. by destruct Hp as [E|[x E]]; rewrite E in Er. }
    split; try done; cbn; [by apply happen_idle|by rewrite happen_unserved].
  - destruct Hp as [E|[x E]]; rewrite E; [|done]. destruct (Hb (clock l)) as [e Eb].
    rewrite Hn, Eb. split; try done. right. by exists e.
  - by destruct Hp as [E|[x E]]; rewrite E.
  - by rewrite Hw.
  - unfold joined. rewrite Ha. by destruct Hp as [E|[x E]]; rewrite E.
Qed.
Lemma passes_headless addr ms l :
  (∀ now, ∃ e, bind addr now = Err e) → Forall quiet ms → headless addr l → headless addr (passes ms l).
Proof.
  intros Hb Hq. revert l. induction Hq as [|m ms Hm _ IH]; intros l Hl; [done|].
  apply IH. by apply pass_headless.
Qed.

(** C35: A proxy listener that cannot be bound goes unnoticed. It is bound inside its
    task, and a server that ended with an error does not end the join: if binding
    the proxy address fails, then whatever happens short of a shutdown or the end of
    the admin server, the process does not end, never serves a proxy request, does
    not try again, and its admin API keeps answering. *)
Theorem proxy_failure_unnoticed config s l0 ms :
  serve config s = Ok l0 →
  (∀ now, ∃ e, bind (Listen.address (Config.listen config)) now = Err e) →
  Forall quiet ms →
  let l := passes ms l0 in
  finish l = None ∧ quiescent (process l) ∧ departed (process l) = [] ∧
  (proxy_server l = Starting ∨ ∃ e, proxy_server l = Ended (Err e)) ∧
  ∀ rq, process (pass (Live (Other (AAdmin rq))) l) = happen (Other (AAdmin rq)) (process l).
Proof.
  intros Hs Hb Hq. cbn zeta.
  assert (headless (Listen.address (Config.listen config)) l0) as Hl.
  { unfold serve in Hs. destruct (with_context _ _); cbn [mbind result_bind] in Hs; [|done].
    injection Hs as <-. split; try done. by left. }
  destruct (passes_headless _ ms _ Hb Hq Hl) as [? ? Ha ? Hf ? ?].
  split_and!; try done. intros rq. unfold pass. rewrite Hf. cbn [reaches]. by rewrite Ha.
Qed.
End properties.

(** ** Witnesses: the gateway started on the default configuration *)
#[local] Existing Instances ok_reqwest sample_moka sample_rustls no_usage_serde sample_bedrock_serde
  sample_crypto sample_entropy sample_regex sample_wasmtime sample_env some_hash_order sample_time
  sample_meta sample_figment sample_admin_crates offline_control any_address.
#[local] Instance silent_documents : SerdeJson := one_document Null.
Definition free_ports : Sockets := {| bind _ _ := Ok (); show_addr a := a |}.
(** A request is in flight when the signal comes, and stays there. *)
Definition life_of (sockets : Sockets) (s : System) : Life :=
  match serve Config.default s with
  | Ok l => l
  | Err _ => mkLife (launch s) "" 0 false Lost (Panicked "") (Panicked "") None
  end.
Definition draining (s : System) : Life :=
  passes (H17 := free_ports) [ProxyBinds; Live (Arrive 0 sample_rq); Signal] (life_of free_ports s).
Lemma shutdown_drains_witness :
  ∃ s, run Config.default None first_world = Ok s ∧ flights (process (draining s)) !! 0 ≠ None ∧
    is_Some (finish (passes (H17 := free_ports) [Live (Other (AElapse 30000000000)); Wakes] (draining s))).
Proof.
  destruct started as (s & Hs & _). exists s. split; [exact Hs|]. split; [done|].
  refine (proj2 (shutdown_drains (H17 := free_ports) Config.default None first_world s
    (life_of free_ports s) (draining s) Hs eq_refl _)
    (clock (draining s)) [Live (Other (AElapse 30000000000))] [] eq_refl _).
  - eapply rtc_l; [exact (goes_on ProxyBinds _ I)|].
    eapply rtc_l; [exact (goes_on (Live (Arrive 0 sample_rq)) _ I)|].
    eapply rtc_l; [exact (goes_on Signal _ I)|]. apply rtc_refl.
  - change (clock (passes [Live (Other (AElapse 30000000000))] (draining s)))
      with (clock (draining s) + Z.max 0 30000000000)%Z.
    change (Shutdown.drain_timeout_seconds (Config.shutdown Config.default)) with 30%Z. lia.
Defined.
(** And a shutdown that drains: the request leaves, the servers end, the join returns. *)
Example drained_in_time s :
  let l0 := life_of free_ports s in
  let ms := [ProxyBinds; Live (Arrive 0 sample_rq); Signal; Live (Drop 0);
             ServeEnds AdminServer (Ok ()); ServeEnds ProxyServer (Ok ()); Joins] in
  rtc (goes (H17 := free_ports)) l0 (passes (H17 := free_ports) ms l0) ∧
  finish (passes (H17 := free_ports) ms l0) = Some (Returned (Ok ())).
Proof.
  cbn zeta. split; [|reflexivity].
  eapply rtc_l; [exact (goes_on ProxyBinds _ I)|].
  eapply rtc_l; [exact (goes_on (Live (Arrive 0 sample_rq)) _ I)|].
  eapply rtc_l; [exact (goes_on Signal _ I)|].
  eapply rtc_l; [exact (goes_on (Live (Drop 0)) _ I)|].
  eapply rtc_l; [apply (goes_on (ServeEnds AdminServer (Ok ()))); by split|].
  eapply rtc_l; [apply (goes_on (ServeEnds ProxyServer (Ok ()))); by split|].
  eapply rtc_l; [exact (goes_on Joins _ I)|]. apply rtc_refl.
Qed.

(** The proxy's port is taken. The readiness probe finds the provider, and the admin
    API reports the gateway ready. *)
Definition taken_port : Sockets :=
  {| bind addr _ :=
       if decide (addr = Listen.address (Config.listen Config.default))
       then Err "Address already in use (os error 98)" else Ok ();
     show_addr a := a |}.
Definition headless_script : list moment :=
  [ProxyBinds; Live (Other AProbe); Joins; Live (Arrive 0 sample_rq); Live (Other (AElapse 60000000000)); Joins].
Definition readyz : Request := mkRequest "GET" "/admin/readyz" [] [].
Lemma proxy_failure_unnoticed_witness :
  ∃ s, run Config.default None first_world = Ok s ∧
    let l := passes (H17 := taken_port) headless_script (life_of taken_port s) in
    finish l = None ∧ proxy_server l = Ended (Err "Address already in use (os error 98)").
Proof.
  destruct started as (s & Hs & _). exists s. split; [exact Hs|]. cbn zeta. split; [|reflexivity].
  refine (proj1 (proxy_failure_unnoticed (H17 := taken_port) Config.default s (life_of taken_port s)
    headless_script eq_refl _ _)).
  - intros now. by eexists.
  - by repeat constructor.
Defined.
Definition answers_ready (l : Life) : bool :=
  match (Admin.handle readyz (app (system (process l)))).1 with
  | Some r => bool_decide (Response.status r = 200%Z)
  | None => false
  end.
Example ready_without_a_proxy :
  match run Config.default None first_world with
  | Ok s => answers_ready (passes (H17 := taken_port) headless_script (life_of taken_port s))
  | Err _ => false
  end = true.
Proof. vm_compute. reflexivity. Qed.
