(* ===== verification/Telemetry.v ===== *)
(** * Telemetry ([telemetry.rs]) and the whole of [main]

    Where spans and events are exported to, and what becomes of the exporters when the
    process of [Lifecycle] ends. Exporting itself belongs to the OpenTelemetry
    libraries. *)

From S2P Require Import Prelude Text Float64 Json Events Auth Limits Plugin Config Provider.
From S2P Require Import OpenAi Anthropic Sse StreamObserver Bedrock Registry Cache Tls Wasm Runtime.
From S2P Require Import Connectors Proxy ControlMap LinkStatus ControlNode Admin System.
From S2P Require Import SystemInvariants Metering Inflight Concurrency Lifecycle.
Import Json.

(** The exporters with their providers, built for an endpoint, and their [shutdown];
    the filter in [RUST_LOG], when it parses. *)
Class Otlp := {
  SdkTracerProvider : Type;
  SdkLoggerProvider : Type;
  build_tracer : string → result string SdkTracerProvider;
  build_logger : string → result string SdkLoggerProvider;
  tracer_shutdown : SdkTracerProvider → result string ();
  logger_shutdown : SdkLoggerProvider → result string ();
  default_env_filter : option string
}.

Module telemetry.
Section telemetry.
Context `{Env} `{Otlp}.

Record Providers := mk { tracer : option SdkTracerProvider; logger : option SdkLoggerProvider }.
Definition default : Providers := mk None None.

(** The layers of the subscriber. *)
Inductive Layer :=
| EnvFilter (directives : string)
| FmtLayer
| OtelTraceLayer (tracer : SdkTracerProvider)
| OtelLogLayer (logger : SdkLoggerProvider).

Definition endpoint : option string :=
  value ← env_var "OTEL_EXPORTER_OTLP_ENDPOINT";
  if decide (value = "") then None else Some value.

Definition init : result anyhow (list Layer * Providers) :=
  let local := [EnvFilter (stdpp.option.default "info" default_env_filter); FmtLayer] in
  match endpoint with
  | None => Ok (local, default)
  | Some endpoint =>
      let base := trim_end_matches Byte.x2f endpoint in
      tracer ← with_context "failed to build OTLP span exporter"
                 (foreign (build_tracer (base +:+ "/v1/traces")));
      logger ← with_context "failed to build OTLP log exporter"
                 (foreign (build_logger (base +:+ "/v1/logs")));
      Ok (local ++ [OtelTraceLayer tracer; OtelLogLayer logger], mk (Some tracer) (Some logger))
  end.

(** The shutdowns asked for, in order, with what each reports. *)
Inductive Closing := ClosedTracer (r : result string ()) | ClosedLogger (r : result string ()).
Definition shutdown (providers : Providers) : list Closing :=
  match tracer providers with Some t => [ClosedTracer (tracer_shutdown t)] | None => [] end ++
  match logger providers with Some l => [ClosedLogger (logger_shutdown l)] | None => [] end.
End telemetry.
End telemetry.

Section program.
Context `{Reqwest} `{Moka} `{Rustls} `{SerdeJson} `{AnthropicSerde} `{BedrockSerde} `{Crypto}
  `{Entropy} `{RegexCrate} `{Wasmtime} `{Env} `{HashOrder} `{TimeCrate} `{MetaSerde}
  `{ControlCrates} `{Config.Figment} `{AdminCrates} `{Addresses} `{Sockets} `{Otlp}.

(** [main]: it ended before anything was served, or it serves. *)
Inductive Program :=
| Failed (closed : list telemetry.Closing) (error : anyhow)
| Up (providers : telemetry.Providers) (life : Life).
Definition program (config_path : option string) (w : World) : Program :=
  match telemetry.init with
  | Err error => Failed [] error
  | Ok (_, providers) =>
      match with_context "failed to load configuration" (runtime.core (Config.load config_path (w_now w))) with
      | Err error => Failed [] error
      | Ok config =>
          match s ← run config config_path w; serve config s with
          | Err error => Failed (telemetry.shutdown providers) error
          | Ok life => Up providers life
          end
      end
  end.
(** What [main] closes once the process has ended: [std::process::exit] does not return
    to it. *)
Definition closes (providers : telemetry.Providers) (l : Life) : list telemetry.Closing :=
  match finish l with
  | Some (Returned _) => telemetry.shutdown providers
  | _ => []
  end.
End program.

(** ** Lemmas *)
Lemma drop_while_repeat {A} (p : A → bool) (l : list A) :
  ∃ l0, l = l0 ++ drop_while p l ∧ Forall (λ x, p x = true) l0 ∧
    match drop_while p l with [] => True | x :: _ => p x = false end.
Proof.
  induction l as [|x l (l0 & E & Hl & Hd)]; cbn [drop_while]; [by exists []|].
  destruct (p x) eqn:Ex; [|by exists []]. exists (x :: l0). split_and!; [by rewrite E at 1|by constructor|done].
Qed.
(** [trim_end_matches] drops a run of the byte, and no more of it is left at the end. *)
Lemma trim_end_matches_spec c s :
  ∃ n, as_bytes s = as_bytes (trim_end_matches c s) ++ repeat c n ∧
    last (as_bytes (trim_end_matches c s)) ≠ Some c.
Proof.
  unfold trim_end_matches. rewrite as_of_bytes.
  destruct (drop_while_repeat (Byte.eqb c) (rev (as_bytes s))) as (l0 & E & Hl & Hd).
  exists (length l0). split.
  - rewrite <-(rev_involutive (as_bytes s)) at 1. rewrite E at 1. rewrite rev_app_distr. f_equal.
    clear E Hd. induction Hl as [|x l0 Hx _ IH]; [done|]. cbn [rev length repeat].
    apply Byte.byte_dec_bl in Hx as <-. by rewrite IH, repeat_cons.
  - destruct (drop_while _ _) as [|x l]; cbn [rev]; [done|]. rewrite last_snoc. intros [= ->].
    by rewrite (Byte.byte_dec_lb eq_refl) in Hd.
Qed.

(** ** Theorems *)
Section theorems.
Context `{Reqwest} `{Moka} `{Rustls} `{SerdeJson} `{AnthropicSerde} `{BedrockSerde} `{Crypto}
  `{Entropy} `{RegexCrate} `{Wasmtime} `{Env} `{HashOrder} `{TimeCrate} `{MetaSerde}
  `{ControlCrates} `{Config.Figment} `{AdminCrates} `{Addresses} `{Sockets} `{Otlp}.

(** Without an endpoint, or with an empty one, nothing is exported or closed, and nothing
    of the export can fail. With one, both exporters are below it, whatever slashes
    it ends with, and the first that cannot be built is the error. *)
Theorem exporters_of_endpoint :
  match telemetry.endpoint with
  | None => ∃ layers, telemetry.init = Ok (layers, telemetry.default) ∧
      telemetry.shutdown telemetry.default = []
  | Some e => ∃ base n, as_bytes e = as_bytes base ++ repeat Byte.x2f n ∧
      last (as_bytes base) ≠ Some Byte.x2f ∧
      match build_tracer (base +:+ "/v1/traces"), build_logger (base +:+ "/v1/logs") with
      | Ok t, Ok l => ∃ layers, telemetry.init = Ok (layers, telemetry.mk (Some t) (Some l)) ∧
          telemetry.OtelTraceLayer t ∈ layers ∧ telemetry.OtelLogLayer l ∈ layers
      | Ok _, Err x => telemetry.init = Err ["failed to build OTLP log exporter"; x]
      | Err x, _ => telemetry.init = Err ["failed to build OTLP span exporter"; x]
      end
  end.
Proof.
  unfold telemetry.init. destruct telemetry.endpoint as [e|]; [|by eexists].
  destruct (trim_end_matches_spec Byte.x2f e) as (n & He & Hl).
  exists (trim_end_matches Byte.x2f e), n. split_and!; [done..|].
  destruct (build_tracer _) as [t|x]; [|done]. destruct (build_logger _) as [l|x]; [|done].
  eexists. split; [reflexivity|]. split; set_solver.
Qed.
(** Both providers are asked to shut down when [run] returns, also when the first
    reports an error, and none before; a process forced out at its deadline asks
    neither. *)
Theorem closed_unless_forced config_path w providers l0 l :
  program config_path w = Up providers l0 → rtc goes l0 l →
  match finish l with
  | Some (Returned _) => closes providers l =
      match telemetry.tracer providers, telemetry.logger providers with
      | Some t, Some g => [telemetry.ClosedTracer (tracer_shutdown t); telemetry.ClosedLogger (logger_shutdown g)]
      | _, _ => []
      end
  | Some (Exited _) => closes providers l = [] ∧ ∃ since, watch l = Draining since ∧ (since + drain_timeout l ≤ clock l)%Z
  | None => closes providers l = []
  end.
Proof.
  intros Hp Hg. unfold program in Hp.
  destruct telemetry.init as [[layers p]|] eqn:Ei; [|done].
  destruct (with_context _ _) as [config|]; [|done].
  destruct (run config config_path w) as [s|]; cbn [mbind result_bind] in Hp; [|done].
  destruct (serve config s) as [l1|] eqn:Es; [|done]. injection Hp as -> ->.
  pose proof (orderly_end _ (goes_orderly _ _ Hg (serve_orderly _ _ _ Es))) as He.
  unfold closes, accounted in *. destruct (finish l) as [[r|code]|]; [|naive_solver|done].
  pose proof exporters_of_endpoint as Hx. rewrite Ei in Hx. unfold telemetry.shutdown.
  destruct telemetry.endpoint as [e|].
  - destruct Hx as (base & n & _ & _ & Hx).
    destruct (build_tracer (base +:+ "/v1/traces")) as [t|], (build_logger (base +:+ "/v1/logs")) as [g|]; try done.
    by destruct Hx as (? & [= _ ->] & _).
  - by destruct Hx as (? & [= _ ->] & _).
Qed.
End theorems.
