(* ===== verification/Ctl.v ===== *)
(** * Ctl: the operator CLI ([vaultplane-ctl])

    A command is a computation over the [Terminal] it runs in: the world its HTTP
    requests go to, and the lines it prints. Argument parsing belongs to [clap]. *)

From S2P Require Import Prelude Text Float64 FloatText FloatTrip Json Events Auth Config Provider.
From S2P Require Import OpenAi Tls Runtime ControlMap ControlNode.
Import Json.

(** ** The command line *)
Inductive ConfigAction := Validate (path : string) | Diff (old new : string).
Module KeyCreate.
Record KeyCreate := mk {
  team : string;
  app : string;
  env : string;
  models : list string;
  rps : option Z;
  spend : option string;
  expires_at : option string
}.
End KeyCreate.
Inductive KeyAction := Create (c : KeyCreate.KeyCreate) | ListKeys | Revoke (key_id : string).
Inductive Command := ConfigCmd (a : ConfigAction) | KeyCmd (a : KeyAction) | ModelList | Status.
Module Cli.
Record Cli := mk { endpoint : option string; token : option string; command : Command }.
End Cli.

(** ** The wire records *)
Module CreateKeyRequest.
Record CreateKeyRequest := mk {
  team : string;
  app : string;
  env : string;
  models : list string;
  rate_limit_rps : option Z;
  spend_limit : option SpendLimit;
  expires_at : option string
}.
End CreateKeyRequest.
Module KeySummary.
Record KeySummary := mk {
  id : string;
  team : string;
  app : string;
  env : string;
  models : list string;
  rate_limit_rps : option Z;
  spend_limit : option SpendLimit;
  expires_at : option string
}.
End KeySummary.
Module CreateKeyResponse.
Record CreateKeyResponse := mk { token : string; key : KeySummary.KeySummary }.
End CreateKeyResponse.
Module ModelSummary.
Record ModelSummary := mk { id : string; provider : string }.
End ModelSummary.

(** The derived (de)serialisers, [Response::text]'s decoding, pretty JSON and the
    diff crate. *)
Class CtlCrates := {
  ser_create_key : CreateKeyRequest.CreateKeyRequest → result string bytes;
  de_create_key : bytes → result string CreateKeyResponse.CreateKeyResponse;
  de_list_keys : bytes → result string (list KeySummary.KeySummary);
  de_list_models : bytes → result string (list ModelSummary.ModelSummary);
  text_of : bytes → string;
  to_string_pretty : Value → result string string;
  config_to_string_pretty : Config → result string string;
  unified_diff : string → string → string → string → list string
}.

Record Terminal `{Reqwest} := mkTerminal { t_world : World; t_out : list string }.
Arguments mkTerminal {_}.
Arguments t_world {_}.
Arguments t_out {_}.
(** Computations of the CLI: what they do, and how they exit. *)
Abbreviation C := (M Terminal).

Module AdminClient.
Record AdminClient := mk { base : string; token : option string }.
End AdminClient.
Abbreviation AdminClient := AdminClient.AdminClient.

Section ctl.
Context `{Reqwest} `{SerdeJson} `{Crypto} `{Entropy} `{ControlCrates} `{CtlCrates} `{Config.Figment}.

Definition on_world {A} (c : W A) : C A :=
  zoom t_world (λ w t, mkTerminal w (t_out t)) c.
Definition println (line : string) : C () := modify (λ t, mkTerminal (t_world t) (t_out t ++ [line])).
Fixpoint printlns (lines : list string) : C () :=
  match lines with [] => mret () | l :: lines => println l;; printlns lines end.
Definition bail {A} (message : string) : C (result anyhow A) := mret (Err (anyhow_msg message)).

(** ** The admin API client *)
Definition new (endpoint : string) (token : option string) : result anyhow AdminClient :=
  _ ← with_context "failed to build HTTP client" (foreign client_build);
  Ok (AdminClient.mk (trim_slashes endpoint) token).
Definition url (self : AdminClient) (path : string) : string := AdminClient.base self +:+ path.
Definition auth (self : AdminClient) : list (string * string) :=
  match AdminClient.token self with
  | Some t => [("authorization", "Bearer " +:+ t)]
  | None => []
  end.
Definition request (self : AdminClient) (method path : string) : Http.Request :=
  Http.mkRequest method (url self path) (auth self) [] None.
Definition is_success (status : Z) : bool := (200 <=? status)%Z && (status <=? 299)%Z.
(** [response.text().await.unwrap_or_default()]. *)
Definition text_or_default (r : Http.Response) : W string :=
  body ← http_bytes r;
  mret match body with Ok b => text_of b | Err _ => "" end.
Definition returned {A} (r : Http.Response) : W (result anyhow A) :=
  body ← text_or_default r;
  mret (Err (anyhow_msg ("admin API returned " +:+ status_display (Http.status r) +:+ ": " +:+ body))).
(** What the calls but revocation share: send, check the status, decode. *)
Definition call {A} (req : Http.Request) (de : bytes → result string A) (failed decoding : string)
    : W (result anyhow A) :=
  response ← http_send req;
  try_ (with_context failed (foreign response)) (λ response,
    if negb (is_success (Http.status response)) then returned response
    else
      decoded ← response_json de response;
      mret (with_context decoding (foreign decoded))).

(** A body that does not serialise makes the request an error. *)
Definition create_key (self : AdminClient) (body : CreateKeyRequest.CreateKeyRequest)
    : W (result anyhow CreateKeyResponse.CreateKeyResponse) :=
  try_ (with_context "failed to call POST /admin/keys" (foreign (ser_create_key body))) (λ json,
    call (Http.mkRequest "POST" (url self "/admin/keys")
            (auth self ++ [("content-type", "application/json")]) json None)
      de_create_key "failed to call POST /admin/keys" "failed to decode key create response").
Definition list_keys (self : AdminClient) : W (result anyhow (list KeySummary.KeySummary)) :=
  call (request self "GET" "/admin/keys") de_list_keys
    "failed to call GET /admin/keys" "failed to decode key list response".
Definition list_models (self : AdminClient) : W (result anyhow (list ModelSummary.ModelSummary)) :=
  call (request self "GET" "/admin/models") de_list_models
    "failed to call GET /admin/models" "failed to decode model list response".
Definition get_status (self : AdminClient) : W (result anyhow Value) :=
  call (request self "GET" "/admin/status") from_slice
    "failed to call GET /admin/status" "failed to decode status response".
Definition revoke_key (self : AdminClient) (id : string) : W (result anyhow ()) :=
  response ← http_send (request self "DELETE" ("/admin/keys/" +:+ id));
  try_ (with_context "failed to call DELETE /admin/keys/:id" (foreign response)) (λ response,
    if (Http.status response =? 204)%Z then mret (Ok ())
    else if (Http.status response =? 404)%Z then mret (Err (anyhow_msg ("no key with id " +:+ id)))
    else returned response).

(** ** The commands *)
Definition join_comma (l : list string) : string :=
  match l with [] => "" | s :: l => foldl (λ acc s, acc +:+ ", " +:+ s) s l end.
Definition format_models (models : list string) : string :=
  match models with [] => "(any)" | _ => join_comma models end.
Definition period_label (p : Period) : string :=
  match p with Day => "day" | Week => "week" | Month => "month" end.
(** [{:<width}] counts characters. *)
Definition chars (s : string) : nat := length (List.filter (λ b, negb (is_cont b)) (as_bytes s)).
Definition pad (width : nat) (s : string) : string :=
  s +:+ of_bytes (repeat Byte.x20 (width - chars s)).

Definition issued (r : CreateKeyResponse.CreateKeyResponse) : list string :=
  let key := CreateKeyResponse.key r in
  ["Issued key " +:+ KeySummary.id key; "";
   "Token: " +:+ CreateKeyResponse.token r;
   "Save the token now; it cannot be recovered."; "";
   "Scope:";
   "  team:   " +:+ KeySummary.team key;
   "  app:    " +:+ KeySummary.app key;
   "  env:    " +:+ KeySummary.env key;
   "  models: " +:+ format_models (KeySummary.models key)]
  ++ match KeySummary.rate_limit_rps key with
     | Some rps => ["  rate_limit_rps: " +:+ pretty rps] | None => [] end
  ++ match KeySummary.spend_limit key with
     | Some limit => ["  spend_limit: " +:+ FloatText.display (amount_usd limit) +:+ "/"
                        +:+ period_label (period limit)]
     | None => [] end
  ++ match KeySummary.expires_at key with
     | Some expires => ["  expires_at: " +:+ expires] | None => [] end.
Definition try_world {A B} (c : W (result anyhow A)) (k : A → C (result anyhow B))
    : C (result anyhow B) := try_m (on_world c) k.
Definition print_all (lines : list string) : C (result anyhow ()) := printlns lines;; mret (Ok ()).

Definition key_create_online (client : AdminClient) (c : KeyCreate.KeyCreate)
    (spend_limit : option SpendLimit) : C (result anyhow ()) :=
  try_world (create_key client (CreateKeyRequest.mk (KeyCreate.team c) (KeyCreate.app c)
               (KeyCreate.env c) (KeyCreate.models c) (KeyCreate.rps c) spend_limit
               (KeyCreate.expires_at c)))
    (λ response, print_all (issued response)).

Definition quote : string := String "034"%char "".
Definition quoted (s : string) : string := quote +:+ s +:+ quote.
(** The record to paste under [auth.keys]. *)
Definition entry (key : GeneratedKey) (team app env : string) (models : list string)
    (rps : option Z) (spend_limit : option SpendLimit) : list string :=
  ["  - id: " +:+ quoted (gk_id key);
   "    hash: " +:+ quoted (gk_hash key);
   "    team: " +:+ quoted team;
   "    app: " +:+ quoted app;
   "    env: " +:+ quoted env;
   match models with
   | [] => "    models: []"
   | _ => "    models: [" +:+ join_comma (map quoted models) +:+ "]"
   end]
  ++ match rps with Some rps => ["    rate_limit_rps: " +:+ pretty rps] | None => [] end
  ++ match spend_limit with
     | Some limit =>
         ["    spend_limit:"; "      amount_usd: " +:+ FloatText.display (amount_usd limit);
          "      period: " +:+ period_label (period limit)]
     | None => []
     end.
(** [None] is the panic of key generation. *)
Definition key_create_offline (team app env : string) (models : list string) (rps : option Z)
    (spend_limit : option SpendLimit) : C (option (result anyhow ())) :=
  buf ← on_world (random_bytes TOKEN_BYTES);
  match generate_key buf with
  | None => mret None
  | Some key =>
      Some <$> print_all
        (["Token: " +:+ gk_token key; "Key id: " +:+ gk_id key; "";
          "Save the token now; it cannot be recovered (the gateway only stores the hash)."; "";
          "Add this entry to the gateway's auth.keys list:"; ""]
         ++ entry key team app env models rps spend_limit)
  end.

Definition key_list (client : AdminClient) : C (result anyhow ()) :=
  try_world (list_keys client) (λ data,
    print_all
      match data with
      | [] => ["(no keys configured)"]
      | _ =>
          (pad 22 "ID" +:+ " " +:+ pad 12 "TEAM" +:+ " " +:+ pad 12 "APP" +:+ " " +:+ pad 8 "ENV"
             +:+ " MODELS")
          :: map (λ k, pad 22 (KeySummary.id k) +:+ " " +:+ pad 12 (KeySummary.team k) +:+ " "
                         +:+ pad 12 (KeySummary.app k) +:+ " " +:+ pad 8 (KeySummary.env k) +:+ " "
                         +:+ format_models (KeySummary.models k)) data
      end).
Definition model_list (client : AdminClient) : C (result anyhow ()) :=
  try_world (list_models client) (λ data,
    print_all
      match data with
      | [] => ["(no models configured)"]
      | _ => (pad 32 "MODEL" +:+ " PROVIDER")
             :: map (λ m, pad 32 (ModelSummary.id m) +:+ " " +:+ ModelSummary.provider m) data
      end).
Definition key_revoke (client : AdminClient) (id : string) : C (result anyhow ()) :=
  try_world (revoke_key client id) (λ _, print_all ["Revoked " +:+ id]).
Definition status (client : AdminClient) : C (result anyhow ()) :=
  try_world (get_status client) (λ body,
    try_ (foreign (to_string_pretty body)) (λ s, print_all [s])).

Definition switch (on : bool) : string := if on then "enabled" else "disabled".
Definition load_from (path : string) : C (result anyhow Config) :=
  now ← on_world now;
  mret (with_context ("failed to load configuration from " +:+ path)
          (runtime.core (Config.load (Some path) now))).
Definition config_validate (path : string) : C (result anyhow ()) :=
  try_m (load_from path) (λ config,
    print_all
      ["OK: " +:+ path;
       "  proxy listen:  " +:+ Listen.address (Config.listen config);
       "  admin listen:  " +:+ Listen.admin_address (Config.listen config);
       "  tls:           " +:+ switch (match Listen.tls (Config.listen config) with
                                       | Some _ => true | None => false end);
       "  models:        " +:+ pretty (length (Config.models config));
       "  plugins:       " +:+ pretty (length (Config.plugins config));
       "  file-loaded virtual keys: " +:+ pretty (length (AuthConfig.keys (Config.auth config)));
       "  cache:         " +:+ switch (CacheConfig.enabled (Config.cache config))]).
Definition config_diff (old_path new_path : string) : C (result anyhow ()) :=
  try_m (load_from old_path) (λ old,
  try_m (load_from new_path) (λ new,
  try_ (with_context "failed to serialize old configuration" (foreign (config_to_string_pretty old)))
    (λ old_text,
  try_ (with_context "failed to serialize new configuration" (foreign (config_to_string_pretty new)))
    (λ new_text, print_all (unified_diff old_text new_text old_path new_path))))).

(** ** The spend specifier *)
Definition spend_period (period : string) : result anyhow Period :=
  if decide (period = "day") then Ok Day
  else if decide (period = "week") then Ok Week
  else if decide (period = "month") then Ok Month
  else Err (anyhow_msg ("unknown period '" +:+ period +:+ "'; expected day, week, or month")).
Definition parse_spend (spec : string) : result anyhow SpendLimit :=
  '(amount, period) ← ok_or (anyhow_msg ("spend must be AMOUNT/PERIOD, got '" +:+ spec +:+ "'"))
                        (split_once "/"%char spec);
  amount_usd ← map_err (λ e, anyhow_msg ("invalid spend amount '" +:+ amount +:+ "': " +:+ e))
                 (FloatText.parse amount);
  period ← spend_period period;
  Ok (mkSpendLimit amount_usd period).
(** [spend.as_deref().map(parse_spend).transpose()]. *)
Definition opt_spend (spend : option string) : result anyhow (option SpendLimit) :=
  match spend with Some s => limit ← parse_spend s; Ok (Some limit) | None => Ok None end.

Definition require_endpoint (endpoint : option string) : result anyhow string :=
  ok_or (anyhow_msg
    "this subcommand requires --endpoint (or the VAULTPLANE_ADMIN_ENDPOINT env var)") endpoint.
Definition online (cli : Cli.Cli) (k : AdminClient → C (result anyhow ())) : C (result anyhow ()) :=
  try_ (require_endpoint (Cli.endpoint cli)) (λ endpoint,
    try_ (new endpoint (Cli.token cli)) k).
Definition main (cli : Cli.Cli) : C (option (result anyhow ())) :=
  match Cli.command cli with
  | KeyCmd (Create c) =>
      match opt_spend (KeyCreate.spend c) with
      | Err e => mret (Some (Err e))
      | Ok spend_limit =>
          match Cli.endpoint cli with
          | Some endpoint =>
              Some <$> try_ (new endpoint (Cli.token cli)) (λ client,
                         key_create_online client c spend_limit)
          | None =>
              key_create_offline (KeyCreate.team c) (KeyCreate.app c) (KeyCreate.env c)
                (KeyCreate.models c) (KeyCreate.rps c) spend_limit
          end
      end
  | KeyCmd ListKeys => Some <$> online cli key_list
  | KeyCmd (Revoke key_id) => Some <$> online cli (λ client, key_revoke client key_id)
  | Status => Some <$> online cli status
  | ConfigCmd (Validate path) => Some <$> config_validate path
  | ConfigCmd (Diff old new) => Some <$> config_diff old new
  | ModelList => Some <$> online cli model_list
  end.
End ctl.

(** ** Lemmas *)
Section lemmas.
Context `{Reqwest} `{SerdeJson} `{Crypto} `{Entropy} `{ControlCrates} `{CtlCrates} `{Config.Figment}.

Lemma on_world_eq {A} (c : W A) t :
  on_world c t = ((c (t_world t)).1, mkTerminal (c (t_world t)).2 (t_out t)).
Proof. unfold on_world, zoom. by destruct (c (t_world t)). Qed.
Lemma printlns_eq lines t : printlns lines t = ((), mkTerminal (t_world t) (t_out t ++ lines)).
Proof.
  revert t. induction lines as [|l lines IH]; intros t; cbn [printlns].
  - rewrite app_nil_r. by destruct t.
  - unfold println, modify. steps. rewrite IH. cbn. by rewrite <-app_assoc.
Qed.
Lemma print_all_eq lines t : print_all lines t = (Ok (), mkTerminal (t_world t) (t_out t ++ lines)).
Proof. unfold print_all. steps. by rewrite printlns_eq. Qed.

(** The record an offline creation describes. *)
Definition described (gen : GeneratedKey) (c : KeyCreate.KeyCreate) (limit : option SpendLimit)
    : VirtualKey :=
  VirtualKey.mk (gk_id gen) (gk_hash gen) (KeyCreate.team c) (KeyCreate.app c) (KeyCreate.env c)
    (KeyCreate.models c) (KeyCreate.rps c) limit None.
Definition expiring (c : KeyCreate.KeyCreate) (e : option string) : KeyCreate.KeyCreate :=
  KeyCreate.mk (KeyCreate.team c) (KeyCreate.app c) (KeyCreate.env c) (KeyCreate.models c)
    (KeyCreate.rps c) (KeyCreate.spend c) e.
Definition offline (c : KeyCreate.KeyCreate) (token : option string) : Cli.Cli :=
  Cli.mk None token (KeyCmd (Create c)).

(** An offline [key create] succeeds without touching the network, prints a
    fresh token and an entry whose record that token authenticates to once the
    entry is in a gateway's store, with the scope and the limits asked for; but it
    drops the expiry: whatever [--expires-at] says, even nonsense, the output is
    the same, and the key it describes never expires. *)
Theorem ctl_offline_key `{!Base64Laws} `{TimeCrate} c token limit t :
  length (getrandom TOKEN_BYTES (w_now (t_world t))) = TOKEN_BYTES →
  opt_spend (KeyCreate.spend c) = Ok limit →
  ∃ gen,
    main (offline c token) t =
      (Some (Ok ()), mkTerminal (t_world t)
         (t_out t ++ ["Token: " +:+ gk_token gen; "Key id: " +:+ gk_id gen; "";
            "Save the token now; it cannot be recovered (the gateway only stores the hash)."; "";
            "Add this entry to the gateway's auth.keys list:"; ""]
          ++ entry gen (KeyCreate.team c) (KeyCreate.app c) (KeyCreate.env c) (KeyCreate.models c)
               (KeyCreate.rps c) limit)) ∧
    (∀ e, main (offline (expiring c e) token) t = main (offline c token) t) ∧
    (∀ s, KeyStore.authenticate (KeyStore.insert (described gen c limit) s) (gk_token gen)
       = Some (described gen c limit)) ∧
    (∀ now, VirtualKey.is_expired now (described gen c limit) = false).
Proof.
  intros Hlen Hs. destruct (generate_key_total _ Hlen) as (gen & Eg & Eh). exists gen.
  split_and!; [|done| |done].
  - unfold main, offline. cbn [Cli.command Cli.endpoint]. rewrite Hs. unfold key_create_offline.
    steps. rewrite on_world_eq. unfold random_bytes, gets. cbn [fst snd].
    rewrite Eg. unfold fmap, M_fmap. by rewrite print_all_eq.
  - intros s. unfold KeyStore.authenticate, KeyStore.insert. rewrite Eh. apply lookup_insert_eq.
Qed.

(** A spend specifier is an amount, a slash and a period, and nothing else:
    it is accepted exactly when the text before the first slash is a number and
    the text after it is [day], [week] or [month], and then means that number and
    that period; the label a limit is printed with reads back as the same period.
    The amount is not checked further: a negative amount, infinity and even NaN
    are accepted. *)
Theorem parse_spend_spec spec :
  (∀ l, parse_spend spec = Ok l ↔
     ∃ amount, FloatText.parse amount = Ok (amount_usd l) ∧ split_once "/"%char amount = None ∧
       spec = amount +:+ "/" +:+ period_label (period l)) ∧
  parse_spend "-5/day" = Ok (mkSpendLimit (FloatText.negate true (F64.of_int 5)) Day) ∧
  parse_spend "NaN/month" = Ok (mkSpendLimit SpecFloat.S754_nan Month).
Proof.
  split; [|by split; vm_compute]. intros [a p]. cbn [amount_usd period]. unfold parse_spend.
  split.
  - destruct (split_once _ spec) as [[amount per]|] eqn:E; cbn [ok_or mbind result_bind]; [|done].
    destruct (FloatText.parse amount) as [x|] eqn:Ep; cbn [map_err mbind result_bind]; [|done].
    apply split_once_Some in E as [-> Hn]. unfold spend_period.
    repeat case_decide; cbn [mbind result_bind]; intros [= <- <-]; subst per;
      exists amount; by split_and!.
  - intros (amount & Ep & Hn & ->).
    rewrite (proj2 (split_once_Some "/"%char _ amount (period_label p))) by done.
    cbn [ok_or mbind result_bind]. rewrite Ep. cbn [map_err mbind result_bind]. by destruct p.
Qed.

(** C38: A spend limit reads back. Whatever text was accepted as a spend
    specifier, the specifier printed for its limit is accepted again and means the
    same limit, to the last bit of the amount; it is what an online [key create]
    prints after [spend_limit:], and the amount an offline one prints for the
    configuration is the text of the same double. *)
Theorem spend_limit_reads_back spec l :
  parse_spend spec = Ok l →
  let amount := FloatText.display (amount_usd l) in
  let shown := amount +:+ "/" +:+ period_label (period l) in
  parse_spend shown = Ok l ∧
  FloatText.parse amount = Ok (amount_usd l) ∧
  (∀ r, KeySummary.spend_limit (CreateKeyResponse.key r) = Some l →
     "  spend_limit: " +:+ shown ∈ issued r) ∧
  (∀ gen team app env models rps,
     ["    spend_limit:"; "      amount_usd: " +:+ amount; "      period: " +:+ period_label (period l)]
       `suffix_of` entry gen team app env models rps (Some l)).
Proof.
  intros Hs amount shown. apply (proj1 (parse_spend_spec spec)) in Hs as (text & Hp & _).
  apply FloatTrip.parse_valid in Hp.
  pose proof (FloatTrip.parse_display _ Hp) as Hd. split_and!; [|done| |].
  - apply (proj1 (parse_spend_spec shown)). exists amount. split_and!; [done| |done].
    by apply FloatTrip.display_no_slash.
  - intros r E. unfold issued. rewrite E. rewrite !elem_of_app. right. right. left. by left.
  - intros. unfold entry. rewrite app_assoc. by eexists.
Qed.
End lemmas.

(** ** Witness *)
#[local] Existing Instances sample_reqwest sample_crypto sample_entropy sample_figment.
Definition silent_json : SerdeJson :=
  {| from_slice _ := Err ""; to_vec _ := Ok []; display _ := "" |}.
Definition silent_control : ControlCrates :=
  {| de_config _ := Err ""; de_keys _ := Err ""; de_identity _ := Err ""; status_display _ := "" |}.
Definition silent_ctl : CtlCrates :=
  {| ser_create_key _ := Err ""; de_create_key _ := Err ""; de_list_keys _ := Err "";
     de_list_models _ := Err ""; text_of := of_bytes; to_string_pretty _ := Ok "";
     config_to_string_pretty _ := Ok ""; unified_diff _ _ _ _ := [] |}.
Definition no_dates : TimeCrate :=
  {| parse_rfc3339 _ := None; utc_at now := mkUtc 0 0 0 0 |}.
#[local] Existing Instances silent_json silent_control silent_ctl no_dates.
Definition bot_key : KeyCreate.KeyCreate :=
  KeyCreate.mk "core" "bot" "prod" [] None (Some "12.5/week") (Some "2026-12-31T23:59:59Z").
Lemma ctl_offline_key_witness :
  ∃ gen limit, (∀ now, VirtualKey.is_expired now (described gen bot_key limit) = false).
Proof.
  destruct (@ctl_offline_key sample_reqwest silent_json sample_crypto sample_entropy _ _ _ sample_base64_laws _ bot_key None
    (Some (mkSpendLimit (F64.div (F64.of_int 25) (F64.of_int 2)) Week))
    (mkTerminal sample_world []) eq_refl) as (gen & _ & _ & _ & He); [vm_compute; reflexivity|].
  exact (ex_intro _ gen (ex_intro _ _ He)).
Defined.

Lemma spend_limit_reads_back_witness :
  parse_spend (FloatText.display (F64.div (F64.of_int 25) (F64.of_int 2)) +:+ "/week")
  = Ok (mkSpendLimit (F64.div (F64.of_int 25) (F64.of_int 2)) Week).
Proof.
  refine (proj1 (spend_limit_reads_back "1.25e1/week" (mkSpendLimit (F64.div (F64.of_int 25) (F64.of_int 2)) Week) _)).
  vm_compute. reflexivity.
Defined.
