(* ===== verification/CtlAdmin.v ===== *)
(** * CtlAdmin: the CLI against the admin API

    The operator CLI of [Ctl] on a network whose only host is the admin API of a
    gateway: what a command does to the gateway it names. *)

From S2P Require Import Prelude Text Float64 FloatText Json Events Auth Limits Plugin Config Provider.
From S2P Require Import OpenAi Anthropic Bedrock Registry Cache Tls Wasm Runtime Proxy.
From S2P Require Import ControlMap LinkStatus ControlNode Admin Ctl.
Import Json.

Section link.
Context `{Reqwest} `{Moka} `{Rustls} `{SerdeJson} `{AnthropicSerde} `{BedrockSerde} `{Crypto}
  `{Entropy} `{RegexCrate} `{Wasmtime} `{Env} `{HashOrder} `{TimeCrate} `{ControlCrates}
  `{Config.Figment} `{AdminCrates} `{CtlCrates}.

(** HTTP between the two: a request under the base reaches the router, its answer
    comes back whole; a handler that panics drops the connection. *)
Definition to_request (base : string) (r : Http.Request) : option Request :=
  path ← strip_prefix base (Http.url r);
  Some (mkRequest (Http.method r) path (map (λ h, (h.1, as_bytes h.2)) (Http.headers r)) (Http.body r)).
Definition to_response (r : Response) : Http.Response :=
  Http.mkResponse (Response.status r) (map (λ h, (h.1, as_bytes h.2)) (Response.headers r))
    [match Response.body r with
     | BFull b => Ok b
     | BJson v => to_vec v
     | BStream _ | BObserved _ => Ok []
     end] 0.
Definition to_admin (base : string) : Reqwest :=
  {| Net := AppState; client_build := Ok ();
     send r s :=
       match to_request base r with
       | Some rq =>
           let '(resp, s') := Admin.handle rq s in
           (match resp with
            | Some resp => Ok (to_response resp)
            | None => Err "connection closed before message completed"
            end, s', 0%Z)
       | None => (Err "error trying to connect", s, 0%Z)
       end;
     status_error := status_error;
     header_to_str := header_to_str |}.

Definition cli_state (base : string) (t : @Terminal (to_admin base)) : AppState :=
  @w_net (to_admin base) (t_world t).

(** The token reaches the gateway as text, and is the one it expects, if any. *)
Definition presents (token : option string) (s : AppState) : Prop :=
  match admin_token s with
  | None => True
  | Some expected => token = Some expected ∧
      header_to_str (as_bytes ("Bearer " +:+ expected)) = Some ("Bearer " +:+ expected)
  end.
Lemma presents_authorized token s rest expected :
  presents token s → admin_token s = Some expected →
  (∀ h, h ∈ rest → h.1 ≠ "authorization") →
  authorized expected (map (λ h, (h.1, as_bytes h.2))
    (match token with Some t => [("authorization", "Bearer " +:+ t)] | None => [] end ++ rest)) = true.
Proof.
  unfold presents. intros Hp Ht _. rewrite Ht in Hp. destruct Hp as [-> Hs].
  rewrite authorized_spec. apply bool_decide_eq_true. unfold bearer_token, header_get.
  cbn [map app find_first fst snd]. rewrite bool_decide_eq_true_2 by done.
  cbn [fmap option_fmap option_map mbind option_bind snd]. rewrite Hs.
  cbn [mbind option_bind]. apply strip_prefix_app.
Qed.
Lemma require_passes token s rest (next : App (option Response)) :
  presents token s → (∀ h, h ∈ rest → h.1 ≠ "authorization") →
  require_admin_token (map (λ h, (h.1, as_bytes h.2))
    (match token with Some t => [("authorization", "Bearer " +:+ t)] | None => [] end ++ rest)) next s
  = next s.
Proof.
  intros Hp Hr. unfold require_admin_token, gets. steps.
  destruct (admin_token s) as [expected|] eqn:Et; [|done].
  by rewrite (presents_authorized token s rest expected).
Qed.

(** The path of a revocation. *)
Lemma key_path id :
  id ≠ "" → split_once "/"%char id = None → endpoint ("/admin/keys/" +:+ id) = Some (Key id).
Proof.
  intros Hn Hs. unfold endpoint. repeat (rewrite decide_False by discriminate).
  rewrite strip_prefix_app. cbn [mbind option_bind]. unfold key_endpoint.
  by rewrite Hs, decide_False.
Qed.

(** One request of the client, as the admin API answers it. *)
Abbreviation wire headers := (map (λ h : string * string, (h.1, as_bytes h.2)) headers).
Lemma send_admin base req path (w : @World (to_admin base)) :
  Http.url req = base +:+ path →
  let rq := mkRequest (Http.method req) path (wire (Http.headers req)) (Http.body req) in
  @http_send (to_admin base) req w
  = (match (Admin.handle rq (w_net w)).1 with
     | Some resp => Ok (to_response resp)
     | None => Err "connection closed before message completed"
     end, @mkWorld (to_admin base) (Admin.handle rq (w_net w)).2 (w_now w + Z.max 0 0)%Z (w_trace w)).
Proof.
  intros Hu. cbv zeta. unfold http_send. cbn [send to_admin]. unfold to_request.
  rewrite Hu, strip_prefix_app. cbn [mbind option_bind].
  by destruct (Admin.handle _ (w_net w)) as [[resp|] s'].
Qed.
Lemma handle_delete token id s :
  presents token s → id ≠ "" → split_once "/"%char id = None → path_segment id = Ok id →
  Admin.handle (mkRequest "DELETE" ("/admin/keys/" +:+ id) (map (λ h, (h.1, as_bytes h.2))
    (match token with Some t => [("authorization", "Bearer " +:+ t)] | None => [] end)) []) s
  = (Some (delete_key id s).1, (delete_key id s).2).
Proof.
  intros Hp Hn Hs Hd. unfold Admin.handle. cbn [rq_path rq_headers].
  rewrite key_path by done. cbn [is_probe].
  rewrite <-(app_nil_r (match token with Some t => _ | None => _ end)).
  rewrite require_passes; [|done|by intros ? ?%not_elem_of_nil].
  unfold serve. cbn [rq_method]. rewrite bool_decide_eq_true_2 by done.
  unfold with_segment. rewrite Hd. unfold fmap, M_fmap. by destruct (delete_key id s).
Qed.

(** Revocation, end to end. [vaultplane-ctl key revoke] against the admin API
    of a gateway, with the token the gateway expects: when a key has the
    identifier the command succeeds, says so, and that key is gone from the
    gateway's store, and its rate bucket and spend with it; otherwise the command
    fails with the reason, prints nothing, and the store is as it was. *)
Theorem ctl_revoke_end_to_end base token id t :
  trim_slashes base = base → id ≠ "" → split_once "/"%char id = None → path_segment id = Ok id →
  let s := cli_state base t in
  presents token s →
  let '(removed, keys) := KeyStore.remove_by_id id (g_keys (gateway s)) in
  let '(r, t') := @Ctl.main (to_admin base) _ _ _ _ _ _
    (Cli.mk (Some base) token (KeyCmd (Revoke id))) t in
  r = Some (if removed then Ok () else Err ["no key with id " +:+ id]) ∧
  t_out t' = t_out t ++ (if removed then ["Revoked " +:+ id] else []) ∧
  g_keys (gateway (cli_state base t')) = keys ∧
  (removed = true → g_limiter (gateway (cli_state base t')) = delete id (g_limiter (gateway s)) ∧
     g_spend (gateway (cli_state base t')) = delete id (g_spend (gateway s))).
Proof.
  intros Hb Hn Hs Hd s Hp. cbn [Ctl.main Cli.command]. unfold online, require_endpoint, new.
  cbn [Cli.endpoint Cli.token ok_or try_ foreign with_context map_err mbind result_bind client_build to_admin].
  rewrite Hb. unfold key_revoke, try_world, try_m, fmap, M_fmap. steps. rewrite on_world_eq.
  unfold revoke_key. steps. erewrite send_admin by done.
  cbn [Ctl.request Http.method Http.headers Http.body]. unfold auth. cbn [AdminClient.token].
  rewrite handle_delete by done.
  change (@w_net (to_admin base) (t_world t)) with s. rewrite delete_key_eq.
  destruct (KeyStore.remove_by_id id (g_keys (gateway s))) as [removed keys].
  destruct removed; cbn [fst snd foreign map_err with_context try_ to_response Http.status
    Response.status no_body text Z.eqb Pos.eqb anyhow_msg mret M_ret].
  - rewrite print_all_eq. by split_and!.
  - rewrite app_nil_r. by split_and!.
Qed.

Lemma handle_create token j req s :
  presents token s →
  let headers := match token with Some t => [("authorization", "Bearer " +:+ t)] | None => [] end
                 ++ [("content-type", "application/json")] in
  json_create_key (wire headers) j = Ok req →
  Admin.handle (mkRequest "POST" "/admin/keys" (wire headers) j) s = Admin.create_key req s.
Proof.
  intros Hp headers Hj. unfold Admin.handle. change (endpoint _) with (Some Keys).
  cbn [is_probe rq_headers]. unfold headers.
  rewrite require_passes; [|done|by intros h ->%list_elem_of_singleton].
  unfold serve. cbn [rq_method rq_headers rq_body]. rewrite bool_decide_eq_true_2 by done.
  fold headers. by rewrite Hj.
Qed.

Lemma json_reply {A} base (de : bytes → result string A) status v j (w : @World (to_admin base)) :
  to_vec v = Ok j →
  response_json de (to_response (json_response status v)) w
  = (de j, @mkWorld (to_admin base) (w_net w) (w_now w + Z.max 0 0)%Z (w_trace w)).
Proof.
  intros Hv. unfold response_json, http_bytes, elapse, modify. steps.
  cbn [to_response json_response Http.chunks Http.read_nanos Response.body]. rewrite Hv.
  cbn [concat_chunks]. rewrite app_nil_r. done.
Qed.

(** The request a creation sends, and the summary of the key it gets. *)
Definition asked (c : KeyCreate.KeyCreate) (limit : option SpendLimit)
    : Ctl.CreateKeyRequest.CreateKeyRequest :=
  Ctl.CreateKeyRequest.mk (KeyCreate.team c) (KeyCreate.app c) (KeyCreate.env c)
    (KeyCreate.models c) (KeyCreate.rps c) limit (KeyCreate.expires_at c).
Definition received (r : Ctl.CreateKeyRequest.CreateKeyRequest) : Admin.CreateKeyRequest :=
  Admin.CreateKeyRequest.mk (Ctl.CreateKeyRequest.team r) (Ctl.CreateKeyRequest.app r)
    (Ctl.CreateKeyRequest.env r) (Ctl.CreateKeyRequest.models r)
    (Ctl.CreateKeyRequest.rate_limit_rps r) (Ctl.CreateKeyRequest.spend_limit r)
    (Ctl.CreateKeyRequest.expires_at r).
Definition reply (gen : GeneratedKey) (k : VirtualKey) : CreateKeyResponse.CreateKeyResponse :=
  CreateKeyResponse.mk (gk_token gen)
    (Ctl.KeySummary.mk (VirtualKey.id k) (VirtualKey.team k) (VirtualKey.app k) (VirtualKey.env k)
       (VirtualKey.models k) (VirtualKey.rate_limit_rps k) (VirtualKey.spend_limit k)
       (VirtualKey.expires_at k)).

(** C27: Creation, end to end. An operator whose [vaultplane-ctl] has the admin token
    the gateway expects (any or none when it expects none), an endpoint without a
    trailing slash and a spend specifier that parses, runs [key create] against the
    gateway's admin API. When the system's entropy fills the buffer and the two sides
    agree on the JSON of this one request and this one reply, the command succeeds and
    prints the reply, and the token it prints is one the gateway now authenticates: to
    a key with the team, application, environment, models, rate limit, spend limit and
    expiry given on the command line. *)
Theorem ctl_create_end_to_end `{!Base64Laws} base token c limit j t :
  let s := cli_state base t in
  trim_slashes base = base → presents token s → length (drawn s) = TOKEN_BYTES →
  opt_spend (KeyCreate.spend c) = Ok limit →
  ser_create_key (asked c limit) = Ok j →
  json_create_key
    (wire (match token with Some t => [("authorization", "Bearer " +:+ t)] | None => [] end
           ++ [("content-type", "application/json")])) j = Ok (received (asked c limit)) →
  (∀ gen, generate_key (drawn s) = Some gen →
     let k := new_key gen (received (asked c limit)) in
     ∃ j', to_vec (obj [("token", Str (gk_token gen));
                        ("key", key_summary_json (Admin.KeySummary.from k))]) = Ok j' ∧
           de_create_key j' = Ok (reply gen k)) →
  ∃ gen t',
    let k := new_key gen (received (asked c limit)) in
    @Ctl.main (to_admin base) _ _ _ _ _ _ (Cli.mk (Some base) token (KeyCmd (Create c))) t
      = (Some (Ok ()), t') ∧
    t_out t' = t_out t ++ issued (reply gen k) ∧
    KeyStore.authenticate (g_keys (gateway (cli_state base t'))) (gk_token gen) = Some k ∧
    VirtualKey.expires_at k = KeyCreate.expires_at c.
Proof.
  intros s Hb Hp Hlen Hl Hj Hr Hrep. destruct (generate_key_total _ Hlen) as (gen & Eg & Eh).
  destruct (Hrep gen Eg) as (j' & Hv & Hd). exists gen.
  set (k := new_key gen (received (asked c limit))) in *.
  cbn [Ctl.main Cli.command Cli.endpoint Cli.token]. rewrite Hl. unfold new.
  cbn [try_ foreign with_context map_err mbind result_bind client_build to_admin]. rewrite Hb.
  unfold key_create_online, try_world, try_m, fmap, M_fmap. fold (asked c limit). steps.
  rewrite on_world_eq. unfold Ctl.create_key. rewrite Hj.
  cbn [foreign with_context map_err try_]. unfold call. steps.
  erewrite send_admin by done. unfold auth. cbn [Http.method Http.headers Http.body AdminClient.token].
  erewrite handle_create by done.
  change (@w_net (to_admin base) (t_world t)) with s. rewrite create_key_eq, Eg. fold k.
  cbn [fst snd foreign with_context map_err try_ to_response Http.status Response.status
    json_response is_success Z.leb Z.compare Pos.compare Pos.compare_cont andb negb].
  steps. erewrite json_reply by exact Hv. rewrite Hd.
  unfold mret, M_ret. cbn [fst snd foreign with_context map_err try_]. rewrite print_all_eq.
  eexists. split; [done|]. split; [done|]. split; [|done].
  cbn. unfold KeyStore.authenticate, KeyStore.insert. rewrite Eh. apply lookup_insert_eq.
Qed.
End link.

(** ** Witnesses: the admin state of [Admin], and an operator with its token *)
#[local] Existing Instances sample_reqwest sample_moka sample_rustls sample_anthropic_serde
  sample_crypto sample_wasmtime some_hash_order sample_time sample_bedrock_serde sample_entropy
  sample_regex sample_env sample_figment.
#[local] Instance braces_json : SerdeJson := one_document Null.
Definition quiet_control : ControlCrates :=
  {| de_config _ := Err ""; de_keys _ := Err ""; de_identity _ := Err ""; status_display _ := "" |}.
#[local] Existing Instance quiet_control.
(** The one creation of the witness, on both sides. *)
Definition team_key : KeyCreate.KeyCreate :=
  KeyCreate.mk "core" "bot" "prod" ["gpt-4o"] (Some 5%Z) (Some "500/day") None.
Definition team_limit : SpendLimit := mkSpendLimit (F64.of_int 500) Day.
Definition team_admin : AdminCrates :=
  {| json_create_key _ _ := Ok (received (asked team_key (Some team_limit)));
     path_segment s := Ok s; metrics_render _ := "" |}.
#[local] Existing Instance team_admin.
Definition drawn_key : GeneratedKey :=
  default (mkGenerated "" "" "") (generate_key (drawn sample_state)).
Definition team_ctl : CtlCrates :=
  {| ser_create_key _ := Ok [Byte.x7b];
     de_create_key _ := Ok (reply drawn_key (new_key drawn_key (received (asked team_key (Some team_limit)))));
     de_list_keys _ := Err ""; de_list_models _ := Err ""; text_of := of_bytes;
     to_string_pretty _ := Ok ""; config_to_string_pretty _ := Ok "";
     unified_diff _ _ _ _ := [] |}.
#[local] Existing Instance team_ctl.
Definition admin_base : string := "http://localhost:9091".
Definition shell : @Terminal (to_admin admin_base) :=
  @mkTerminal (to_admin admin_base) (@mkWorld (to_admin admin_base) sample_state 0 []) [].
Lemma shell_presents : presents (Some "adm") (cli_state admin_base shell).
Proof. vm_compute. done. Qed.

Lemma ctl_revoke_end_to_end_witness :
  (@Ctl.main (to_admin admin_base) _ _ _ _ _ _
    (Cli.mk (Some admin_base) (Some "adm") (KeyCmd (Revoke "vp_1"))) shell).1 = Some (Ok ()).
Proof.
  pose proof (ctl_revoke_end_to_end admin_base (Some "adm") "vp_1" shell
    eq_refl ltac:(discriminate) eq_refl eq_refl shell_presents) as Hr.
  change (KeyStore.remove_by_id _ _) with (true, (∅ : KeyStore)) in Hr.
  destruct (Ctl.main _ shell) as [r t']. exact (proj1 Hr).
Defined.

Lemma drawn_reply gen :
  generate_key (drawn (cli_state admin_base shell)) = Some gen →
  let k := new_key gen (received (asked team_key (Some team_limit))) in
  ∃ j', to_vec (obj [("token", Str (gk_token gen));
                     ("key", key_summary_json (Admin.KeySummary.from k))]) = Ok j' ∧
        de_create_key j' = Ok (reply gen k).
Proof.
  intros Hg. assert (gen = drawn_key) as ->.
  { unfold drawn_key. change (cli_state admin_base shell) with sample_state in Hg. by rewrite Hg. }
  by exists [Byte.x7b].
Qed.
Lemma ctl_create_end_to_end_witness :
  ∃ gen t',
    @Ctl.main (to_admin admin_base) _ _ _ _ _ _
      (Cli.mk (Some admin_base) (Some "adm") (KeyCmd (Create team_key))) shell = (Some (Ok ()), t') ∧
    KeyStore.authenticate (g_keys (gateway (cli_state admin_base t'))) (gk_token gen)
      = Some (new_key gen (received (asked team_key (Some team_limit)))).
Proof.
  destruct (ctl_create_end_to_end (H5 := sample_crypto) (H6 := sample_entropy) (H14 := team_admin) (H15 := team_ctl)
    (H16 := sample_base64_laws)
    admin_base (Some "adm") team_key (Some team_limit) [Byte.x7b] shell
    eq_refl shell_presents eq_refl eq_refl eq_refl eq_refl drawn_reply) as (gen & t' & E & _ & Ha & _).
  exact (ex_intro _ gen (ex_intro _ t' (conj E Ha))).
Defined.
